(* ===== verification/_CoqProject ===== *)
-Q . S2P
Prelude.v
GoStd.v
VNum.v
DigestMap.v
Spec.v
FS.v
S3.v
S3Spec.v
Local.v
Http.v
Namaste.v
ObjectState.v
Pipeline.v
Digest.v
Extension.v
ExtensionSpec.v
Codes.v
Validation.v
Inventory.v
OcflInventory.v
InventoryBytes.v
InventoryJson.v
Builder.v
UpdatePlan.v
PlanRuns.v
PlanSpec.v
PlanTheorems.v
Stage.v
StageSpec.v
LogicalFS.v
Healthy.v
Listing.v
LocalSpec.v
S3Healthy.v
Root.v
RootSpec.v
Layouts.v
Object.v
ObjectValidation.v
ValidateObject.v
ValidateObjectSpec.v
ObjectSpec.v
Conforming.v
ConformingSpec.v
UpdatedObjects.v
NextInventory.v
UpdateSequence.v
Storage.v
RootObjects.v
