(* ===== verification/Prelude.v ===== *)
(** * A verification library for ocfl-go

    ocfl-go reads, validates, creates and updates objects and storage roots of the
    Oxford Common File Layout (OCFL), over backends that store files by name.  This
    library models the Go code as Rocq functions, one definition per function or
    method, each with the lines it translates, and proves what the parts promise.

    ** The program and its model

    An object is a directory of a backend: a NAMASTE declaration, an inventory with
    its sidecar, and version directories with content.  An update goes through
    these parts: a [Stage] (src/stage.go) is the new state with the sources of its
    content; an [InventoryBuilder] (src/inventory.go) makes the inventory of the
    next version from the previous one; an [UpdatePlan] (src/update-plan.go) holds
    the steps that write the version, runs them, and reverts them after a failure;
    [Object] (src/object.go) puts them together.  Validation (src/validation.go,
    src/ocflv1.go) reads an object and reports every violation with its code.  A
    storage [Root] (src/root.go) maps object identifiers to directories with a
    layout (src/extension).

    The files, in the order in which they depend on each other:
    - Prelude.v: errors with [errors.Is] and [errors.As], results, shared lemmas and
      tactics.  GoStd.v: the functions of Go's standard library that the program
      calls, on byte strings and fixed-width integers, and the class [GoEnv] of what
      Go leaves open (the order of [range] over a map, of unstable sorts, and of
      goroutines).
    - VNum.v (src/vnum.go), DigestMap.v (src/digestmap.go), Spec.v (src/spec.go,
      src/ocfl.go, the text part of src/namaste.go), ObjectState.v
      (src/objectstate.go): values, their parsers, printers and validity.
    - FS.v (src/fs/fs.go, files.go, wrapfs.go): the interfaces of backends as the
      class [FileSystems], the functions over them, and what a backend promises:
      [WriteLaws], [ReadLaws], [CopyLaws], [AtomicWrites].  S3.v and S3Spec.v
      (src/fs/s3), Local.v (src/fs/local), Http.v (src/fs/http): the three backends
      over the calls of the packages they use, and proofs that they keep those
      promises.  Healthy.v: a backend without failures, for round trips; Listing.v:
      what its directories list when the files below one are known; LocalSpec.v and
      S3Healthy.v: the local and the S3 backend are such backends when the system
      and the service answer without failures.
    - Namaste.v (src/namaste.go): declarations in a backend.
    - Pipeline.v (src/internal/pipeline): its goroutines and channels as a step
      relation.  Digest.v (src/digest): algorithms, digest sets, validation.
    - Extension.v, ExtensionSpec.v (src/extension): layouts and the registry.
    - Codes.v (src/validation/code), Validation.v (src/validation.go, the
      accumulator of errors).
    - Inventory.v, Builder.v (src/inventory.go), OcflInventory.v, InventoryBytes.v
      (src/ocflv1.go, the checks of inventories), InventoryJson.v (the JSON that the
      struct tags of src/inventory.go give, and its reading).
    - UpdatePlan.v (src/update-plan.go) with PlanRuns.v (runs of steps), PlanSpec.v
      (the effect and the owner of each step) and PlanTheorems.v.
    - Stage.v, StageSpec.v (src/stage.go), LogicalFS.v (src/internal/logical-fs).
    - Root.v, RootSpec.v (src/root.go), Object.v, ObjectSpec.v (src/object.go);
      Layouts.v: what a root needs of its layout, the class [Separates].
    - ObjectValidation.v (src/validation.go, the state of a validation),
      ValidateObject.v (src/ocflv1.go, the checks of an object's directories, and
      [ValidateObject] of src/object.go) and ValidateObjectSpec.v.
    - The parts together: Conforming.v (the files of an object that conforms to the
      specification), ConformingSpec.v (the validation of such an object),
      UpdatedObjects.v (the effects of a plan on one), NextInventory.v (the
      inventory of an update), UpdateSequence.v (sequences of updates of an object),
      Storage.v (several objects in one storage, and reverted updates: [runs], a
      relation whose steps on an object are [obj_step]) and RootObjects.v (a storage
      root in use, [uses]: objects opened by identifier and updated).

    ** Conventions

    A Go call that returns an error is a [res] ([Ok], [Err], or [Panic] for a run-time
    panic) or a value with an [option error]; a computation that changes storage is a
    function of the state [W] of all storage ([IO W]).  A map that the code compares
    with nil is an [option].  A loop over a map goes through [range], so that a
    theorem holds for every iteration order; concurrent steps run in the order
    [interleave] gives.  What is not in the repository is an argument, gathered in
    classes that say what the code relies on: hash functions ([Hashes]), JSON and
    time decoders ([Decoders], [ConfigJSON], [LayoutJSON]), the gob codec
    ([PlanCodec]), go-multierror ([MultiError]), URL parsing ([URLs]), the S3 client
    ([S3API]), the [os] package ([OS]), [net/http] ([HTTPClient]).

    ** What is proved

    - The whole program: [Storage_valid], all objects that interleaved updates make,
      failed and reverted ones included, are accepted by [ValidateObject]; it
      composes [Update_conforming] (an update keeps an object conforming), the
      lemma [reverted] (a reverted one changes nothing) and
      [ValidateObject_complete] (conforming objects are accepted), which is the
      converse of [ValidateObject_sound].  For a storage root whose layout keeps
      objects apart: [Root_Objects], its iterators yield exactly the objects that
      were made in it, and [Root_NewObject_spec], opening an identifier gives its
      last inventory, or a new object.
    - Updates: [Apply_spec] (a successful [Apply], after any interrupted attempts,
      has exactly the effects of the plan), [Apply_frame] (no attempt touches
      another file), [Revert_restores] and, as an example, a run without the
      condition it needs, [Revert_needs_atomic]; [Marshal_roundtrip] for saved
      plans; [Update_spec] for whole updates of objects; and the lemma
      [Update_NewObject].
    - Inventories: [ValidateInventory_iff], [ValidateInventoryBytes_sound],
      [ValidateInventoryBytes_marshal] (what is written is read back),
      [Finalize_extends], and the lemma [sidecar_roundtrip].
    - Validation of objects: [ValidateObject_sound], [ValidateObjectContent_iff],
      [forwardMatch_iff], and inputs on which it crashes, [addInventory_nil_map].
    - Stages and views: [Overlay_invariant] and a stage that loses content without
      its condition, [Overlay_spelling]; [newStage_spec], [Open_spec].
    - Roots and layouts: [NewRoot_init_roundtrip], [hashed_layouts_separate] (the
      layouts 0003 and 0004 keep objects apart), [HashTuple_Resolve_spec], and the
      lemmas [HashIDTuple_injective] and [ext_Marshal_roundtrip]; identifiers for
      which other layouts do not: [TupleOmitPrefix_slash], [extensions_resolved].
    - Backends: [BucketFS_refines] and [LocalFS_refines] (the laws of writes and
      reads), [BucketFS_healthy] and [LocalFS_healthy] (files are read, listed and
      walked completely), [HttpFS_read_only], [parts_tile], [s3File_reads], and the
      lemma [WalkFiles_complete].
    - Values: [DM_Valid_iff], [DM_Eq_iff], [validPaths_sound], [Merge_iff],
      [ParseVNum_String], [Next_spec], [ParseObjectDir_spec], [Validate_iff]; and the
      concurrent pipeline, [pipeline_results] (each result once) and
      [pipeline_no_leak] (no goroutine or channel is left behind).

    ** Bounds and fuel

    [adjustPartSize] has fuel computed from its arguments, enough for every source
    below 2^61 bytes ([parts_tile]).  Listings of a bucket have one unit of fuel for
    each page: a walk needs no more than the number of objects plus one
    ([WalkFiles_complete]).  [drain] reads at least one byte per unit and gets the
    length of the file plus two.  The recursive walk of a backend ([fileWalk]) has
    fuel for the depth of the tree, without which Go's stack would overflow.
    Binary search and the scanners use the length of their input.  The walks of
    [ValidateObject] need more fuel than the length of the longest name below the
    object ([can_validate]).  Version numbers are printed with paddings up to the
    width that [fmt] accepts, a million ([zero_padded]); beyond it [fmt] prints an
    error text in place of the number, which is not modelled.

    ** Hypotheses of the composed theorems

    A conforming object has an inventory in each version directory, as [Update]
    writes it, and no extensions or logs directory.  An update is sound
    ([sound_update]) when its stage tells the truth about its content, a content
    path function gives plain paths (else [Finalize_outside]), no content path is a
    directory of another one, digests are ASCII strings, and the JSON and time
    packages read back what they wrote.  The backend keeps [WriteLaws] and
    [CopyLaws], under which a write, removal or copy that fails may leave anything
    at its name, or the file removed.  Only reverting an update of an object that
    has versions asks for more: that failed writes and removals have no effect
    ([AtomicWrites]; a bucket has this if its service has, [S3Atomic]; the local
    backend does not promise it, and [Revert_needs_atomic] is a run without it).
    A validation needs a backend without failures ([Healthy]), which the local
    backend is while no directory below its root is empty, and a bucket while its
    keys are those of a tree of files.  Such a backend says that a missing file does
    not exist only if it can have a file of that name ([nameable]: systems limit the
    length of names) and no file is above it ([unblocked]: POSIX has another error
    for names below a file), so theorems in which the program looks for a file that
    is not there ask that it can have one.  In a storage root the layout keeps the
    directories of objects apart ([Separates]; for hashing layouts: the digests of
    the identifiers do not collide), and a listing of its objects needs that no
    content file is named like an object declaration ([can_list]; else
    [content_declared]).

    ** Not modelled

    Loggers and everything in src/logging; the examples and the generator of the
    validation codes; the test helpers and the S3 mock; the options of the S3 upload
    manager.  Cancellation of a context is modelled where the code itself tests it
    (src/fs/wrapfs.go, src/fs/local).  The text of errors is kept only where the code
    compares it.  The slices of content and fixity sources that [append] extends in
    src/stage.go are values: their sharing between copies of a stage is left out. *)
From stdpp Require Export gmap strings list fin_maps sorting.
From Stdlib Require Export ZArith Ascii.

(** ** Errors

    A Go [error] is a tree of wrapped errors.  The model keeps what the code can
    observe of it: the exported error variables compared with [errors.Is], the
    error types found with [errors.As], and the wrapping chain. *)

(** The exported error variables. *)
Inductive sentinel : Type :=
  | ErrVNumInvalid | ErrVNumPadding | ErrVNumMissing | ErrVerEmpty
  | ErrSpecInvalid | ErrSpecNotFound
  | ErrNamasteNotExist | ErrNamasteContents | ErrNamasteMultiple
  | ErrOCFLNotImplemented | ErrObjectNamasteExists | ErrObjectNamasteNotExist
  | ErrObjRootStructure | ErrInventorySidecarContents
  | ErrRevertUpdate | ErrObjectReadOnly | ErrNoObjectID | ErrLayoutUndefined
  | digest_ErrUnknown | digest_ErrMissing
  | ext_ErrMarshal | ext_ErrNotLayout | ext_ErrUnknown | ext_ErrInvalidLayoutID
  | fs_ErrNotExist | fs_ErrExist | fs_ErrInvalid
  | ErrOpUnsupported | ErrNotFile | ErrFileType | io_EOF.

#[global] Instance sentinel_eq_dec : EqDecision sentinel.
Proof. solve_decision. Defined.

(** An error variable may itself wrap another one ([fmt.Errorf] with [%w]). *)
Definition sentinel_unwrap (s : sentinel) : option sentinel :=
  match s with
  | ErrNamasteNotExist => Some fs_ErrNotExist
  | ErrObjectNamasteExists => Some fs_ErrExist
  | ErrObjectNamasteNotExist => Some ErrNamasteNotExist
  | _ => None
  end.

(** [src/validation/code.go:5-10] ValidationCode *)
Record ValidationCode := {
  vc_Spec : string;
  vc_Code : string;
  vc_Description : string;
  vc_URL : string
}.

(** [src/errors.go:8-36] MapDigestConflictErr, MapPathConflictErr, MapPathInvalidErr *)
Inductive error : Type :=
  | ErrNew (msg : string)                       (* errors.New, fmt.Errorf without %w *)
  | ErrVar (s : sentinel)
  | ErrWrap (ctx : string) (e : error)          (* fmt.Errorf("ctx ... %w") *)
  | PathError (op path : string) (e : error)    (* *fs.PathError *)
  | ErrJoin (e1 e2 : error)                     (* errors.Join *)
  | ErrMulti (es : list error)                  (* *multierror.Error *)
  | MapDigestConflictErr (digest : string)
  | MapPathConflictErr (path : string)
  | MapPathInvalidErr (path : string)
  | DigestError (path alg got expected : string) (isFixity : bool)
  | ValidationError (code : ValidationCode) (e : error).

(** [errors.Is] against an exported variable. *)
Definition sentinel_Is (s target : sentinel) : bool :=
  bool_decide (s = target)
  || match sentinel_unwrap s with
     | None => false
     | Some s1 =>
         bool_decide (s1 = target)
         || match sentinel_unwrap s1 with
            | None => false
            | Some s2 => bool_decide (s2 = target)
            end
     end.

Fixpoint errors_Is (e : error) (target : sentinel) : bool :=
  match e with
  | ErrVar s => sentinel_Is s target
  | ErrWrap _ e => errors_Is e target
  | PathError _ _ e => errors_Is e target
  | ErrJoin e1 e2 => errors_Is e1 target || errors_Is e2 target
  | ErrMulti es => existsb (λ e, errors_Is e target) es
  | ValidationError _ e => errors_Is e target
  | _ => false
  end.

(** [errors.As] finds the first error of the chain that the selector accepts. *)
Section errors_as.
Context {A : Type} (sel : error → option A).

Fixpoint errors_As (e : error) : option A :=
  match sel e with
  | Some a => Some a
  | None =>
      match e with
      | ErrWrap _ e => errors_As e
      | PathError _ _ e => errors_As e
      | ErrJoin e1 e2 =>
          match errors_As e1 with Some a => Some a | None => errors_As e2 end
      | ErrMulti es =>
          (fix go es := match es with
                        | [] => None
                        | e :: es =>
                            match errors_As e with Some a => Some a | None => go es end
                        end) es
      | ValidationError _ e => errors_As e
      | _ => None
      end
  end.
End errors_as.

(** ** Results: the value of a Go function, its non-nil error, or a panic. *)
Inductive res (A : Type) : Type :=
  | Ok (a : A)
  | Err (e : error)
  | Panic.
Arguments Ok {A} a.
Arguments Err {A} e.
Arguments Panic {A}.

#[global] Instance res_ret : MRet res := λ A, Ok.
#[global] Instance res_bind : MBind res := λ A B f r,
  match r with Ok a => f a | Err e => Err e | Panic => Panic end.

Definition is_ok {A} (r : res A) : bool :=
  match r with Ok _ => true | _ => false end.

(** [if err := f(); err != nil { return err }] for an [option error]. *)
Definition check (e : option error) : res unit :=
  match e with None => Ok () | Some e => Err e end.

Definition wrap_err {A} (ctx : string) (r : res A) : res A :=
  match r with Err e => Err (ErrWrap ctx e) | r => r end.

Lemma bind_Ok {A B} (f : A → res B) (r : res A) b :
  r ≫= f = Ok b ↔ ∃ a, r = Ok a ∧ f a = Ok b.
Proof.
  destruct r; cbn; split; [eauto| |done| |done|]; intros (x & Hx & Hf); congruence.
Qed.

Lemma wrap_err_Ok {A} ctx (r : res A) a : wrap_err ctx r = Ok a ↔ r = Ok a.
Proof. by destruct r. Qed.

Lemma check_Ok e u : check e = Ok u ↔ e = None.
Proof. destruct e, u; cbn; split; congruence. Qed.

(** ** Automation *)

(** Boolean guards of the code as propositions. *)
Create Rewrite HintDb go_bool.
#[export] Hint Rewrite andb_true_iff orb_true_iff negb_true_iff
  andb_false_iff orb_false_iff negb_false_iff bool_decide_eq_true bool_decide_eq_false : go_bool.
#[export] Hint Rewrite Z.ltb_lt Z.leb_le Z.eqb_eq Z.ltb_ge Z.leb_gt Z.eqb_neq : go_bool.
#[export] Hint Rewrite N.ltb_lt N.leb_le N.eqb_eq N.ltb_ge N.leb_gt N.eqb_neq : go_bool.

Ltac bool_to_prop := autorewrite with go_bool in *.

(** Peel the binds of a successful computation. *)
Ltac inv_res :=
  repeat match goal with
  | H : _ ≫= _ = Ok _ |- _ =>
      apply bind_Ok in H; let x := fresh "x" in let Hx := fresh "Hx" in
      destruct H as (x & Hx & H)
  | H : mbind _ _ = Ok _ |- _ =>
      apply bind_Ok in H; let x := fresh "x" in let Hx := fresh "Hx" in
      destruct H as (x & Hx & H)
  | H : wrap_err _ _ = Ok _ |- _ => apply wrap_err_Ok in H
  | H : check _ = Ok _ |- _ => apply check_Ok in H
  | H : Ok _ = Ok _ |- _ => injection H as H
  | H : Err _ = Ok _ |- _ => discriminate H
  | H : Panic = Ok _ |- _ => discriminate H
  end.

(** ** Lists *)

Fixpoint map_res {A B} (f : A → res B) (l : list A) : res (list B) :=
  match l with
  | [] => Ok []
  | x :: l => y ← f x; ys ← map_res f l; Ok (y :: ys)
  end.

(** The first [Some] in list order: a loop that returns at the first hit. *)
Fixpoint find_some {A B} (f : A → option B) (l : list A) : option B :=
  match l with
  | [] => None
  | x :: l => match f x with Some b => Some b | None => find_some f l end
  end.

Lemma find_some_None {A B} (f : A → option B) l :
  find_some f l = None ↔ Forall (λ x, f x = None) l.
Proof.
  induction l as [|x l IH]; cbn; [by split; intros; [constructor|]|].
  destruct (f x) eqn:Hf.
  - split; [done|]. inversion_clear 1. congruence.
  - rewrite IH. split; [by constructor|by inversion_clear 1].
Qed.

Lemma find_some_Some {A B} (f : A → option B) l b :
  find_some f l = Some b → ∃ x, x ∈ l ∧ f x = Some b.
Proof.
  induction l as [|x l IH]; cbn; [done|].
  destruct (f x) eqn:Hf; intros H.
  - simplify_eq. exists x. split; [left|done].
  - destruct (IH H) as (y & Hy & Hfy). exists y. split; [by right|done].
Qed.

Lemma Forall_Permutation {A} (P : A → Prop) l1 l2 :
  l1 ≡ₚ l2 → Forall P l1 ↔ Forall P l2.
Proof. intros H. rewrite !Forall_forall. by setoid_rewrite H. Qed.

Lemma Forall_map_to_list {K} `{Countable K} {V} (P : K * V → Prop) (m : gmap K V) :
  Forall P (map_to_list m) ↔ ∀ k v, m !! k = Some v → P (k, v).
Proof.
  rewrite Forall_forall. split.
  - intros Hall k v Hkv. by apply Hall, elem_of_map_to_list.
  - intros Hall [k v] Hin. apply Hall. by apply elem_of_map_to_list in Hin.
Qed.

(** ** Folds that insert into a map *)

Section foldl_insert.
Context {A K V : Type} `{Countable K} (f : A → K) (g : A → V).
Implicit Types (l : list A) (m : gmap K V).

Definition insert_all m l : gmap K V := foldl (λ m x, <[f x := g x]> m) m l.

Lemma insert_all_notin m l k : k ∉ f <$> l → insert_all m l !! k = m !! k.
Proof.
  revert m. induction l as [|x l IH]; intros m Hk; [done|].
  rewrite fmap_cons, not_elem_of_cons in Hk. destruct Hk as [Hx Hl].
  unfold insert_all in *. cbn. rewrite IH by done. by rewrite lookup_insert_ne.
Qed.

Lemma insert_all_in m l x : NoDup (f <$> l) → x ∈ l → insert_all m l !! f x = Some (g x).
Proof.
  revert m. induction l as [|y l IH]; intros m Hnd Hx; [by apply elem_of_nil in Hx|].
  rewrite fmap_cons in Hnd. apply NoDup_cons in Hnd as [Hy Hnd].
  apply elem_of_cons in Hx as [->|Hx].
  - change (insert_all m (y :: l)) with (insert_all (<[f y := g y]> m) l).
    rewrite insert_all_notin by done. by apply lookup_insert_eq.
  - by apply IH.
Qed.

Lemma insert_all_lookup l k v :
  NoDup (f <$> l) → insert_all ∅ l !! k = Some v ↔ ∃ x, x ∈ l ∧ k = f x ∧ v = g x.
Proof.
  intros Hnd. split.
  - intros Hk. destruct (decide (k ∈ f <$> l)) as [Hin|Hin].
    + apply list_elem_of_fmap in Hin as (x & -> & Hx). rewrite insert_all_in in Hk by done.
      exists x. naive_solver.
    + by rewrite insert_all_notin, lookup_empty in Hk.
  - intros (x & Hx & -> & ->). by apply insert_all_in.
Qed.
End foldl_insert.

Lemma foldl_ext {A B} (f g : B → A → B) b l :
  (∀ b x, f b x = g b x) → foldl f b l = foldl g b l.
Proof. intros Hfg. revert b. induction l as [|x l IH]; intros b; cbn; [done|]. by rewrite Hfg. Qed.

Lemma foldl_app_concat {A B} (f : B → list A) acc l :
  foldl (λ acc x, acc ++ f x) acc l = acc ++ mjoin (f <$> l).
Proof.
  revert acc. induction l as [|x l IH]; intros acc; cbn; [by rewrite app_nil_r|].
  by rewrite IH, (assoc_L (++)).
Qed.

Lemma mjoin_Permutation {A} (l1 l2 : list (list A)) : l1 ≡ₚ l2 → mjoin l1 ≡ₚ mjoin l2.
Proof.
  induction 1; cbn; [done|by f_equiv| |by etrans].
  rewrite !(assoc_L (++)). f_equiv. apply Permutation_app_comm.
Qed.

Lemma mjoin_fmap_Permutation {A B} (f g : B → list A) l :
  (∀ x, f x ≡ₚ g x) → mjoin (f <$> l) ≡ₚ mjoin (g <$> l).
Proof. intros Hfg. induction l as [|x l IH]; cbn; [done|]. by rewrite Hfg, IH. Qed.
