(* ===== verification/GoStd.v ===== *)
(** * The Go standard library functions the program uses

    Strings are byte strings ([string], one [ascii] per byte).  The file models
    [strings], [unicode/utf8], [path], [io/fs.ValidPath], [strconv] and [fmt]'s
    zero padding as far as the program calls them, and gathers in the class
    [GoEnv] what the Go language leaves open: the order in which [range] visits
    a map, the order an unstable sort gives equal elements, the interleaving of
    goroutines, the Unicode tables and the conversion of out-of-range floats. *)
From S2P Require Import Prelude.

Declare Scope go_scope.
Delimit Scope go_scope with go.
#[global] Open Scope go_scope.
#[global] Open Scope Z_scope.

(** ** Fixed-width integers *)
Definition wrap (w : Z) (z : Z) : Z := (z + 2 ^ (w - 1)) `mod` 2 ^ w - 2 ^ (w - 1).
Definition wrap64 : Z → Z := wrap 64.
Definition wrap32 : Z → Z := wrap 32.
Definition max_int64 : Z := 2 ^ 63 - 1.
Definition in_int64 (z : Z) : Prop := - 2 ^ 63 ≤ z < 2 ^ 63.

Lemma wrap64_id z : in_int64 z → wrap64 z = z.
Proof. unfold in_int64, wrap64, wrap. intros. rewrite Z.mod_small; lia. Qed.

Lemma wrap32_id z : - 2 ^ 31 ≤ z < 2 ^ 31 → wrap32 z = z.
Proof. unfold wrap32, wrap. intros. rewrite Z.mod_small; lia. Qed.

(** ** Bytes and strings *)
Definition byte (c : ascii) : N := N_of_ascii c.
Definition len (s : string) : Z := Z.of_nat (String.length s).

Definition is_ascii_byte (c : ascii) : bool := (byte c <? 128)%N.
Definition in_range (lo hi : N) (c : ascii) : bool := ((lo <=? byte c) && (byte c <=? hi))%N.
Definition is_digit (c : ascii) : bool := in_range 48 57 c.
Definition is_upper_ascii (c : ascii) : bool := in_range 65 90 c.
Definition is_lower_ascii (c : ascii) : bool := in_range 97 122 c.

Fixpoint string_forall (f : ascii → bool) (s : string) : bool :=
  match s with "" => true | String c s => f c && string_forall f s end.

Fixpoint string_map (f : ascii → ascii) (s : string) : string :=
  match s with "" => "" | String c s => String (f c) (string_map f s) end.

Definition is_ascii (s : string) : bool := string_forall is_ascii_byte s.

Definition lower_byte (c : ascii) : ascii :=
  if is_upper_ascii c then ascii_of_N (byte c + 32) else c.

Lemma byte_inj c d : byte c = byte d → c = d.
Proof. unfold byte. intros Hb. by rewrite <- (ascii_N_embedding c), <- (ascii_N_embedding d), Hb. Qed.

(** [strings.CutPrefix], [HasPrefix], [TrimPrefix], [HasSuffix], [TrimSuffix]. *)
Fixpoint CutPrefix (s p : string) {struct p} : option string :=
  match p, s with
  | "", _ => Some s
  | String c p, String d s => if ascii_dec c d then CutPrefix s p else None
  | String _ _, "" => None
  end.

Definition HasPrefix (s p : string) : bool :=
  match CutPrefix s p with Some _ => true | None => false end.
Definition TrimPrefix (s p : string) : string :=
  match CutPrefix s p with Some r => r | None => s end.

Fixpoint CutSuffix (s x : string) : option string :=
  if bool_decide (s = x) then Some ""
  else match s with
       | "" => None
       | String c s => String c <$> CutSuffix s x
       end.
Definition HasSuffix (s x : string) : bool :=
  match CutSuffix s x with Some _ => true | None => false end.
Definition TrimSuffix (s x : string) : string :=
  match CutSuffix s x with Some r => r | None => s end.

(** [strings.LastIndex]: byte offset of the last occurrence, or -1. *)
Fixpoint last_index_from (i : Z) (s x : string) : Z :=
  let later := match s with "" => -1 | String _ s => last_index_from (i + 1) s x end in
  if later <? 0 then (if HasPrefix s x then i else -1) else later.
Definition LastIndex (s x : string) : Z := last_index_from 0 s x.

(** [strings.IndexByte]/[IndexRune] for an ASCII rune. *)
Fixpoint index_byte_from (i : Z) (s : string) (c : ascii) : Z :=
  match s with
  | "" => -1
  | String d s => if ascii_dec d c then i else index_byte_from (i + 1) s c
  end.
Definition IndexByte (s : string) (c : ascii) : Z := index_byte_from 0 s c.
(** [strings.Contains] for a one-byte substring. *)
Fixpoint ContainsByte (s : string) (c : ascii) : bool :=
  match s with
  | "" => false
  | String d s => if ascii_dec d c then true else ContainsByte s c
  end.

(** The slice expression [s[i:j]]; it panics out of range. *)
Fixpoint string_take (n : nat) (s : string) : string :=
  match n, s with S n, String c s => String c (string_take n s) | _, _ => "" end.
Fixpoint string_drop (n : nat) (s : string) : string :=
  match n, s with S n, String _ s => string_drop n s | _, _ => s end.
Definition slice (s : string) (i j : Z) : res string :=
  if (0 <=? i) && (i <=? j) && (j <=? len s)
  then Ok (string_take (Z.to_nat (j - i)) (string_drop (Z.to_nat i) s))
  else Panic.

(** [strings.Split] and [strings.Join] with a one-byte separator. *)
Fixpoint split_on (sep : ascii) (s : string) : list string :=
  match s with
  | "" => [""]
  | String c s =>
      if ascii_dec c sep then "" :: split_on sep s
      else match split_on sep s with
           | [] => [String c ""]
           | w :: ws => String c w :: ws
           end
  end.

Fixpoint join_with (sep : string) (l : list string) : string :=
  match l with
  | [] => ""
  | [x] => x
  | x :: l => x +:+ sep +:+ join_with sep l
  end.

(** [strings.Cut] with a one-byte separator. *)
Fixpoint Cut (s : string) (sep : ascii) : string * string * bool :=
  match s with
  | "" => ("", "", false)
  | String c s =>
      if ascii_dec c sep then ("", s, true)
      else let '(a, b, found) := Cut s sep in (String c a, b, found)
  end.

(** The longest prefix of bytes in a class, and the rest: a greedy [[class]*]. *)
Fixpoint span (f : ascii → bool) (s : string) : string * string :=
  match s with
  | "" => ("", "")
  | String c r => if f c then let '(a, b) := span f r in (String c a, b) else ("", s)
  end.

Definition slash : ascii := "/".
Definition newline : string := String "010" "".

(** ** UTF-8 *)

(** Number of continuation bytes and range of the first one, by leading byte. *)
Definition utf8_lead (c : ascii) : option (nat * N * N) :=
  if in_range 194 223 c then Some (1%nat, 128%N, 191%N)
  else if in_range 224 224 c then Some (2%nat, 160%N, 191%N)
  else if in_range 237 237 c then Some (2%nat, 128%N, 159%N)
  else if in_range 225 239 c then Some (2%nat, 128%N, 191%N)
  else if in_range 240 240 c then Some (3%nat, 144%N, 191%N)
  else if in_range 241 243 c then Some (3%nat, 128%N, 191%N)
  else if in_range 244 244 c then Some (3%nat, 128%N, 143%N)
  else None.

Definition cont_bits (c : ascii) : N := (byte c mod 64)%N.

(** The runes of a string as [for _, r := range s] yields them: [None] is a
    byte that starts no valid encoding ([utf8.RuneError], width 1). *)
Fixpoint decode_runes (s : string) : list (option N) :=
  match s with
  | "" => []
  | String c0 r0 =>
      if is_ascii_byte c0 then Some (byte c0) :: decode_runes r0
      else match utf8_lead c0, r0 with
           | Some (1%nat, lo, hi), String c1 r1 =>
               if in_range lo hi c1
               then Some (byte c0 mod 32 * 64 + cont_bits c1)%N :: decode_runes r1
               else None :: decode_runes r0
           | Some (2%nat, lo, hi), String c1 (String c2 r2) =>
               if in_range lo hi c1 && in_range 128 191 c2
               then Some ((byte c0 mod 16 * 64 + cont_bits c1) * 64 + cont_bits c2)%N
                    :: decode_runes r2
               else None :: decode_runes r0
           | Some (3%nat, lo, hi), String c1 (String c2 (String c3 r3)) =>
               if in_range lo hi c1 && in_range 128 191 c2 && in_range 128 191 c3
               then Some (((byte c0 mod 8 * 64 + cont_bits c1) * 64 + cont_bits c2) * 64
                          + cont_bits c3)%N :: decode_runes r3
               else None :: decode_runes r0
           | _, _ => None :: decode_runes r0
           end
  end.

Definition valid_utf8 (s : string) : bool :=
  forallb (λ r, match r with Some _ => true | None => false end) (decode_runes s).

(** ** [io/fs.ValidPath] and package [path] *)

Definition valid_elem (e : string) : bool :=
  negb (bool_decide (e = "") || bool_decide (e = ".") || bool_decide (e = "..")).

Definition ValidPath (name : string) : bool :=
  valid_utf8 name
  && (bool_decide (name = ".") || forallb valid_elem (split_on slash name)).

(** [out] is the stack of elements kept so far, innermost first. *)
Fixpoint clean_elems (rooted : bool) (out : list string) (elems : list string) : list string :=
  match elems with
  | [] => rev out
  | e :: elems =>
      if bool_decide (e = "") || bool_decide (e = ".") then clean_elems rooted out elems
      else if bool_decide (e = "..") then
        match out with
        | [] => clean_elems rooted (if rooted then [] else [".."]) elems
        | o :: out' =>
            if bool_decide (o = "..") then clean_elems rooted (".." :: out) elems
            else clean_elems rooted out' elems
        end
      else clean_elems rooted (e :: out) elems
  end.

Definition Clean (p : string) : string :=
  match p with
  | "" => "."
  | _ =>
      let rooted := HasPrefix p "/" in
      let body := join_with "/" (clean_elems rooted [] (split_on slash p)) in
      if rooted then "/" +:+ body else if bool_decide (body = "") then "." else body
  end.

Definition Join (elems : list string) : string :=
  match filter (λ e, e ≠ "") elems with
  | [] => ""
  | ne => Clean (join_with "/" ne)
  end.

(** [path.Base] and [path.Dir]. *)
Fixpoint last_nonempty (l : list string) (acc : string) : string :=
  match l with
  | [] => acc
  | e :: l => last_nonempty l (if bool_decide (e = "") then acc else e)
  end.
Definition Base (p : string) : string :=
  match p with
  | "" => "."
  | _ => let b := last_nonempty (split_on slash p) "" in
         if bool_decide (b = "") then "/" else b
  end.
Definition Dir (p : string) : string :=
  Clean (string_take (Z.to_nat (LastIndex p "/" + 1)) p).

(** ** Decimal numbers *)

Definition digit_char (d : Z) : ascii := ascii_of_N (48 + Z.to_N d).
Definition digit_val (c : ascii) : Z := Z.of_N (byte c) - 48.

(** Digits of a non-negative number, most significant first. *)
Fixpoint digits (fuel : nat) (n : Z) (acc : string) : string :=
  match fuel with
  | O => acc
  | S fuel =>
      let acc := String (digit_char (n `mod` 10)) acc in
      if n <? 10 then acc else digits fuel (n / 10) acc
  end.

Definition Itoa (z : Z) : string :=
  if z <? 0 then String "-" (digits (S (Z.to_nat (Z.log2 (- z)))) (- z) "")
  else digits (S (Z.to_nat (Z.log2 z))) z "".

Fixpoint digits_val (s : string) (acc : Z) : Z :=
  match s with "" => acc | String c s => digits_val s (acc * 10 + digit_val c) end.

(** [strconv.Atoi]: optional sign, decimal digits, range error outside int64. *)
Definition atoi_unsigned (s : string) : option Z :=
  if bool_decide (s = "") then None
  else if string_forall is_digit s then Some (digits_val s 0) else None.
Definition Atoi (s : string) : option Z :=
  let '(neg, body) :=
    match s with
    | String "-" r => (true, r)
    | String "+" r => (false, r)
    | _ => (false, s)
    end in
  match atoi_unsigned body with
  | None => None
  | Some n =>
      let z := if neg : bool then - n else n in
      if (- 2 ^ 63 <=? z) && (z <? 2 ^ 63) then Some z else None
  end.

Fixpoint repeat_char (c : ascii) (n : nat) : string :=
  match n with O => "" | S n => String c (repeat_char c n) end.

(** [fmt.Sprintf("%0*d", width, z)] for widths up to fmt's limit of a million, above
    which it prints a note instead; a negative width pads with spaces on the right. *)
Definition zero_padded (width z : Z) : string :=
  if width <? 0 then
    let s := Itoa z in s +:+ repeat_char " " (Z.to_nat (- width - len s))
  else if z <? 0 then
    let s := Itoa (- z) in String "-" (repeat_char "0" (Z.to_nat (width - 1 - len s)) +:+ s)
  else
    let s := Itoa z in repeat_char "0" (Z.to_nat (width - len s)) +:+ s.

(** ** What the language leaves open *)

Definition ascii_lower (s : string) : string := string_map lower_byte s.

(** [sort_slice] takes the slice's [Less]; a strict weak order is needed for the
    result to be sorted. *)
Record weak_order {A} (less : A → A → bool) : Prop := {
  wo_irrefl : ∀ x, less x x = false;
  wo_trans : ∀ x y z, less x y = true → less y z = true → less x z = true;
  wo_incomp : ∀ x y z, less x y = false → less y z = false → less x z = false
}.

Class GoEnv := {
  (** [range m]: [site] tells apart the loops of the program, so that two loops
      over one map may visit it in different orders. *)
  range : nat → ∀ {K : Type} `{Countable K} {V : Type}, gmap K V → list (K * V);
  range_perm : ∀ site K (E : EqDecision K) (C : Countable K) V (m : gmap K V),
    range site m ≡ₚ map_to_list m;
  (** [sort.Sort], not stable *)
  sort_slice : ∀ {A : Type}, (A → A → bool) → list A → list A;
  sort_slice_perm : ∀ A (less : A → A → bool) l, sort_slice less l ≡ₚ l;
  sort_slice_sorted : ∀ A (less : A → A → bool) l, weak_order less →
    StronglySorted (λ x y, less y x = false) (sort_slice less l);
  (** an interleaving of the goroutines of a group *)
  interleave : nat → ∀ {A : Type}, list A → list A;
  interleave_perm : ∀ n A (l : list A), interleave n l ≡ₚ l;
  (** Unicode tables, used on strings and runes outside ASCII only *)
  uni_to_lower : string → string;
  uni_is_lower : N → bool;
  uni_is_upper : N → bool;
  uni_equal_fold : string → string → bool;
  uni_to_lower_idem : ∀ s, is_ascii s = false →
    let t := uni_to_lower s in (if is_ascii t then ascii_lower t else uni_to_lower t) = t;
  (** [int(f)] for a float64 outside the int64 range *)
  float_to_int_oob : Z;
  (** [runtime.NumCPU()] *)
  num_cpu : Z;
  (** [runtime.GOMAXPROCS(0)] *)
  go_max_procs : Z
}.

(** [strings.ToLower] *)
Definition ToLower `{GoEnv} (s : string) : string :=
  if is_ascii s then ascii_lower s else uni_to_lower s.

(** [strings.EqualFold] *)
Definition EqualFold `{GoEnv} (s t : string) : bool :=
  if is_ascii s && is_ascii t then bool_decide (ascii_lower s = ascii_lower t)
  else uni_equal_fold s t.

(** Equality under case-folding is an equivalence, as documented. *)
Class FoldLaws `{GoEnv} : Prop := {
  fold_sym : ∀ s t, EqualFold s t = true → EqualFold t s = true;
  fold_trans : ∀ s t u, EqualFold s t = true → EqualFold t u = true → EqualFold s u = true
}.

(** [unicode.IsLower] and [unicode.IsUpper] on a decoded rune. *)
Definition IsLower `{GoEnv} (r : option N) : bool :=
  match r with
  | None => false
  | Some n => if (n <? 128)%N then ((97 <=? n) && (n <=? 122))%N else uni_is_lower n
  end.
Definition IsUpper `{GoEnv} (r : option N) : bool :=
  match r with
  | None => false
  | Some n => if (n <? 128)%N then ((65 <=? n) && (n <=? 90))%N else uni_is_upper n
  end.

(** [slices.Sort] and [sort.Strings]: bytewise order, no ties to leave open. *)
Definition sort_strings (l : list string) : list string := merge_sort String.le l.

(** A concrete environment for evaluating the model: maps in key-encoding
    order, a stable sort, goroutines in launch order, no letters outside ASCII. *)
Section insertion_sort.
Context {A : Type} (less : A → A → bool).
Fixpoint insert_slice (x : A) (l : list A) : list A :=
  match l with
  | [] => [x]
  | y :: l => if less y x then y :: insert_slice x l else x :: y :: l
  end.
Fixpoint insertion_sort (l : list A) : list A :=
  match l with [] => [] | x :: l => insert_slice x (insertion_sort l) end.

Lemma insert_slice_perm x l : insert_slice x l ≡ₚ x :: l.
Proof.
  induction l as [|y l IH]; cbn; [done|]. destruct (less y x); [|done].
  rewrite IH. apply Permutation_swap.
Qed.
Lemma insertion_sort_perm l : insertion_sort l ≡ₚ l.
Proof. induction l as [|x l IH]; cbn; [done|]. by rewrite insert_slice_perm, IH. Qed.

Lemma insert_slice_sorted x l :
  weak_order less →
  StronglySorted (λ x y, less y x = false) l →
  StronglySorted (λ x y, less y x = false) (insert_slice x l).
Proof.
  intros [Hirr Htr Hinc]. induction 1 as [|y l Hl IH Hy]; cbn; [by repeat constructor|].
  destruct (less y x) eqn:Hyx.
  - constructor; [done|]. rewrite insert_slice_perm. constructor; [|done].
    destruct (less x y) eqn:Hxy; [|done].
    by rewrite <- (Hirr x), (Htr x y x).
  - constructor; [by constructor|]. constructor; [done|].
    eapply Forall_impl; [apply Hy|]. cbn. intros z Hz. by apply (Hinc z y x).
Qed.
Lemma insertion_sort_sorted l :
  weak_order less → StronglySorted (λ x y, less y x = false) (insertion_sort l).
Proof.
  intros Hwo. induction l; cbn; [constructor|]. by apply insert_slice_sorted.
Qed.
End insertion_sort.

Lemma Forall_range `{GoEnv} {K} `{Countable K} {V} site (m : gmap K V) (P : K * V → Prop) :
  Forall P (range site m) ↔ ∀ k v, m !! k = Some v → P (k, v).
Proof. by rewrite (Forall_Permutation P _ _ (range_perm site K _ _ V m)), Forall_map_to_list. Qed.

Lemma ref_lower_idem s :
  is_ascii s = false → let t := s in (if is_ascii t then ascii_lower t else t) = t.
Proof. intros H. cbn. by rewrite H. Qed.

Definition ref_env : GoEnv := {|
  range := λ _ K E C V m, map_to_list m;
  range_perm := λ _ K E C V m, Permutation_refl _;
  sort_slice := λ A, insertion_sort;
  sort_slice_perm := λ A, insertion_sort_perm;
  sort_slice_sorted := λ A, insertion_sort_sorted;
  interleave := λ _ A l, l;
  interleave_perm := λ _ A l, Permutation_refl _;
  uni_to_lower := λ s, s;
  uni_is_lower := λ _, false;
  uni_is_upper := λ _, false;
  uni_equal_fold := λ s t, bool_decide (s = t);
  uni_to_lower_idem := ref_lower_idem;
  float_to_int_oob := - 2 ^ 63;
  num_cpu := 4;
  go_max_procs := 4
|}.

Lemma ref_fold_laws : @FoldLaws ref_env.
Proof.
  split; unfold EqualFold; cbn.
  - intros s t. rewrite (andb_comm (is_ascii t)). destruct (is_ascii s && is_ascii t);
      by rewrite !bool_decide_eq_true.
  - intros s t u. destruct (is_ascii s) eqn:Hs, (is_ascii t) eqn:Ht, (is_ascii u) eqn:Hu; cbn;
      rewrite !bool_decide_eq_true; intros; subst; congruence.
Qed.

(** ** Lemmas on strings *)

#[global] Arguments String.append : simpl nomatch.

Lemma string_app_nil_r (s : string) : s +:+ "" = s.
Proof. induction s; cbn; [done|]. by f_equal. Qed.
Lemma string_app_assoc (a b c : string) : a +:+ (b +:+ c) = (a +:+ b) +:+ c.
Proof. induction a; cbn; [done|]. by f_equal. Qed.
Lemma string_length_app (a b : string) :
  String.length (a +:+ b) = (String.length a + String.length b)%nat.
Proof. induction a; cbn; [done|]. by f_equal. Qed.
Lemma string_app_inj_r (a b c : string) : a +:+ c = b +:+ c → a = b.
Proof.
  revert b. induction a as [|x a IH]; intros [|y b] Heq; cbn in *; try done.
  - apply (f_equal String.length) in Heq. cbn in Heq. rewrite string_length_app in Heq. lia.
  - apply (f_equal String.length) in Heq. cbn in Heq. rewrite string_length_app in Heq. lia.
  - simplify_eq. f_equal. by apply IH.
Qed.

Lemma CutPrefix_Some s p r : CutPrefix s p = Some r ↔ s = p +:+ r.
Proof.
  revert s. induction p as [|c p IH]; intros s; cbn.
  - destruct s; cbn; split; intros [=]; by subst.
  - destruct s as [|d s]; [done|]. destruct (ascii_dec c d) as [->|Hne]; cbn.
    + rewrite IH. split; [by intros ->|by intros [=]].
    + split; [done|]. intros [=]. congruence.
Qed.
Lemma CutPrefix_app p r : CutPrefix (p +:+ r) p = Some r.
Proof. by apply CutPrefix_Some. Qed.
Lemma HasPrefix_true s p : HasPrefix s p = true ↔ ∃ r, s = p +:+ r.
Proof.
  unfold HasPrefix. destruct (CutPrefix s p) as [r|] eqn:Hc.
  - apply CutPrefix_Some in Hc. split; [by exists r|done].
  - split; [done|]. intros [r Hr]. apply CutPrefix_Some in Hr. congruence.
Qed.
Lemma HasPrefix_app p r : HasPrefix (p +:+ r) p = true.
Proof. apply HasPrefix_true. by exists r. Qed.
Lemma TrimPrefix_app p r : TrimPrefix (p +:+ r) p = r.
Proof. unfold TrimPrefix. by rewrite CutPrefix_app. Qed.

Lemma CutSuffix_app r x : CutSuffix (r +:+ x) x = Some r.
Proof.
  induction r as [|c r IH]; cbn [String.append].
  - destruct x; cbn; by rewrite bool_decide_true.
  - cbn [CutSuffix]. rewrite bool_decide_false; [by rewrite IH|].
    intros Heq. apply (f_equal String.length) in Heq. cbn in Heq.
    rewrite string_length_app in Heq. lia.
Qed.
Lemma CutSuffix_Some s x r : CutSuffix s x = Some r → s = r +:+ x.
Proof.
  revert r. induction s as [|c s IH]; intros r; cbn.
  - case_bool_decide; [intros [=]; by subst|done].
  - case_bool_decide; [intros [=]; by subst|]. intros (r' & Hr' & ->)%fmap_Some.
    cbn. f_equal. by apply IH.
Qed.
Lemma TrimSuffix_app r x : TrimSuffix (r +:+ x) x = r.
Proof. unfold TrimSuffix. by rewrite CutSuffix_app. Qed.

Lemma string_forall_app f a b :
  string_forall f (a +:+ b) = string_forall f a && string_forall f b.
Proof. induction a as [|c a IH]; cbn; [done|]. rewrite IH. apply andb_assoc. Qed.
Lemma string_forall_impl (f g : ascii → bool) s :
  (∀ c, f c = true → g c = true) → string_forall f s = true → string_forall g s = true.
Proof. intros Hfg. induction s; cbn; [done|]. rewrite !andb_true_iff. naive_solver. Qed.

(** ** Splitting and joining *)

Definition no_slash (s : string) : Prop := ContainsByte s slash = false.

Lemma no_slash_slash a b : ¬ no_slash (a +:+ "/" +:+ b).
Proof.
  unfold no_slash. induction a as [|c a IH]; cbn; [done|]. by destruct (ascii_dec c slash).
Qed.

Lemma split_on_no_sep s : no_slash s → split_on slash s = [s].
Proof.
  unfold no_slash. induction s as [|c s IH]; cbn; [done|].
  destruct (ascii_dec c slash); [done|]. intros H. by rewrite IH.
Qed.

Lemma split_on_app a b :
  no_slash a → split_on slash (a +:+ String slash b) = a :: split_on slash b.
Proof.
  unfold no_slash. induction a as [|c a IH]; cbn [String.append].
  - intros _. cbn. done.
  - cbn. destruct (ascii_dec c slash); [done|]. intros H. by rewrite IH.
Qed.

Lemma split_on_nonnil s : split_on slash s ≠ [].
Proof. destruct s; cbn; [done|]. repeat case_match; done. Qed.

Lemma split_on_no_slash s : Forall no_slash (split_on slash s).
Proof.
  induction s as [|c s IH]; cbn; [by repeat constructor|].
  destruct (ascii_dec c slash); [by constructor|].
  destruct (split_on slash s) as [|w ws]; cbn.
  - constructor; [|done]. unfold no_slash. cbn. by destruct (ascii_dec c slash).
  - inversion_clear IH. constructor; [|done].
    unfold no_slash in *. cbn. by destruct (ascii_dec c slash).
Qed.

Lemma join_split s : join_with "/" (split_on slash s) = s.
Proof.
  induction s as [|c s IH]; [done|]. cbn [split_on].
  destruct (ascii_dec c slash) as [->|Hc].
  - destruct (split_on slash s) as [|w ws] eqn:Hs; [by destruct (split_on_nonnil s)|].
    transitivity ("/" +:+ join_with "/" (w :: ws)); [done|]. by rewrite IH.
  - destruct (split_on slash s) as [|w ws] eqn:Hs; [by destruct (split_on_nonnil s)|].
    rewrite <- IH. by destruct ws.
Qed.

Lemma split_join l : l ≠ [] → Forall no_slash l → split_on slash (join_with "/" l) = l.
Proof.
  induction l as [|x l IH]; [done|]. intros _ Hall. inversion_clear Hall as [|?? Hx Hl].
  destruct l as [|y l]; [by apply split_on_no_sep|].
  transitivity (split_on slash (x +:+ String slash (join_with "/" (y :: l)))); [done|].
  rewrite split_on_app by done. f_equal. by apply IH.
Qed.

Lemma split_on_app_any a b :
  split_on slash (a +:+ String slash b) = split_on slash a ++ split_on slash b.
Proof.
  induction a as [|c a IH]; cbn [String.append]; [done|].
  cbn [split_on]. destruct (ascii_dec c slash); [by rewrite IH|].
  rewrite IH. by destruct (split_on slash a) eqn:Ha; [destruct (split_on_nonnil a)|].
Qed.

(** ** Lemmas on paths *)

Definition plain_elem (e : string) : Prop := valid_elem e = true.

Lemma plain_elem_spec e : plain_elem e ↔ e ≠ "" ∧ e ≠ "." ∧ e ≠ "..".
Proof.
  unfold plain_elem, valid_elem. rewrite negb_true_iff, !orb_false_iff, !bool_decide_eq_false.
  tauto.
Qed.

Lemma clean_elems_plain rooted out l :
  Forall plain_elem l → clean_elems rooted out l = rev out ++ l.
Proof.
  revert out. induction l as [|e l IH]; intros out Hl; cbn; [by rewrite app_nil_r|].
  inversion_clear Hl as [|?? He Hl']. apply plain_elem_spec in He as (H1 & H2 & H3).
  rewrite !bool_decide_false by done. cbn. rewrite IH by done. cbn.
  by rewrite <- (assoc_L (++)).
Qed.

(** A path as the program stores them: valid and not [.]. *)
Definition plain_path (p : string) : Prop := Forall plain_elem (split_on slash p).

Lemma ValidPath_plain p : ValidPath p = true → p ≠ "." → plain_path p.
Proof.
  unfold ValidPath, plain_path. rewrite andb_true_iff, orb_true_iff, bool_decide_eq_true.
  intros (_ & [->|Hf]) Hne; [done|].
  rewrite forallb_forall in Hf. apply Forall_forall. intros x Hx. apply Hf. by apply list_elem_of_In.
Qed.

Lemma plain_path_nonempty p : plain_path p → p ≠ "".
Proof. intros H ->. inversion_clear H as [|?? He]. by apply plain_elem_spec in He as []. Qed.

Lemma plain_path_unrooted p : plain_path p → HasPrefix p "/" = false.
Proof.
  intros H. destruct (HasPrefix p "/") eqn:Hp; [|done].
  apply HasPrefix_true in Hp as [r ->]. cbn in H.
  inversion_clear H as [|?? He]. by apply plain_elem_spec in He as [].
Qed.

Lemma Clean_plain p : plain_path p → Clean p = p.
Proof.
  intros H. pose proof (plain_path_nonempty p H) as Hne.
  assert (Clean p = let rooted := HasPrefix p "/" in
    let body := join_with "/" (clean_elems rooted [] (split_on slash p)) in
    if rooted then "/" +:+ body else if bool_decide (body = "") then "." else body) as ->.
  { by destruct p. }
  cbv zeta. rewrite plain_path_unrooted, clean_elems_plain by done. cbn [rev app].
  rewrite join_split. by rewrite bool_decide_false.
Qed.

Lemma plain_path_app a b : plain_path a → plain_path b → plain_path (a +:+ "/" +:+ b).
Proof.
  unfold plain_path. intros Ha Hb. change ("/" +:+ b) with (String slash b).
  rewrite split_on_app_any. by apply Forall_app.
Qed.

Lemma Join_plain a b : plain_path a → plain_path b → Join [a; b] = a +:+ "/" +:+ b.
Proof.
  intros Ha Hb. unfold Join.
  rewrite !filter_cons_True by (by apply plain_path_nonempty). rewrite filter_nil.
  apply Clean_plain. by apply plain_path_app.
Qed.

(** ** Lemmas on decimal numbers *)

Definition all_digits (s : string) : Prop := string_forall is_digit s = true.

Lemma in_range_spec lo hi c : in_range lo hi c = true ↔ (lo ≤ byte c ≤ hi)%N.
Proof. unfold in_range. rewrite andb_true_iff, !N.leb_le. done. Qed.

Lemma digit_val_range c : is_digit c = true → 0 ≤ digit_val c < 10.
Proof. unfold is_digit, digit_val. rewrite in_range_spec. lia. Qed.

Lemma digit_val_inj c d : digit_val c = digit_val d → c = d.
Proof.
  unfold digit_val, byte. intros H. rewrite <- (ascii_N_embedding c), <- (ascii_N_embedding d).
  f_equal. lia.
Qed.

Lemma digit_char_spec d : 0 ≤ d < 10 → is_digit (digit_char d) = true ∧ digit_val (digit_char d) = d.
Proof.
  intros Hd. unfold is_digit, digit_val, digit_char. rewrite in_range_spec. unfold byte.
  rewrite N_ascii_embedding by lia. lia.
Qed.

Lemma all_digits_cons c s : all_digits (String c s) ↔ is_digit c = true ∧ all_digits s.
Proof. unfold all_digits. cbn. apply andb_true_iff. Qed.
Lemma all_digits_app a b : all_digits (a +:+ b) ↔ all_digits a ∧ all_digits b.
Proof. unfold all_digits. rewrite string_forall_app. apply andb_true_iff. Qed.

Lemma len_cons c s : len (String c s) = 1 + len s.
Proof. unfold len. cbn [String.length]. lia. Qed.
Lemma len_app a b : len (a +:+ b) = len a + len b.
Proof. unfold len. rewrite string_length_app. lia. Qed.
Lemma len_nonneg s : 0 ≤ len s.
Proof. unfold len. lia. Qed.
Lemma len_0 s : len s = 0 → s = "".
Proof. destruct s; [done|]. unfold len. cbn. lia. Qed.

Lemma digits_val_acc s acc : digits_val s acc = acc * 10 ^ len s + digits_val s 0.
Proof.
  revert acc. induction s as [|c s IH]; intros acc; [unfold len; cbn; lia|].
  cbn [digits_val]. rewrite (IH (acc * 10 + _)), (IH (0 * 10 + _)), len_cons.
  pose proof (len_nonneg s). rewrite Z.pow_add_r by lia. ring.
Qed.

Lemma digits_val_cons c s : digits_val (String c s) 0 = digit_val c * 10 ^ len s + digits_val s 0.
Proof. cbn [digits_val]. by rewrite digits_val_acc. Qed.

Lemma digits_val_bound s : all_digits s → 0 ≤ digits_val s 0 < 10 ^ len s.
Proof.
  induction s as [|c s IH]; [done|]. intros [Hc Hs]%all_digits_cons.
  rewrite digits_val_cons, len_cons. apply digit_val_range in Hc. specialize (IH Hs).
  pose proof (len_nonneg s). rewrite Z.pow_add_r by lia. nia.
Qed.

(** A digit string is determined by its length and its value. *)
Lemma digits_val_inj s t :
  all_digits s → all_digits t → len s = len t → digits_val s 0 = digits_val t 0 → s = t.
Proof.
  revert t. induction s as [|c s IH]; intros [|d t]; try done.
  intros [Hc Hs]%all_digits_cons [Hd Ht]%all_digits_cons Hl. rewrite !len_cons in Hl.
  assert (len s = len t) as Hlen by lia.
  rewrite !digits_val_cons, Hlen. intros Hv.
  pose proof (digits_val_bound s Hs) as Bs. pose proof (digits_val_bound t Ht) as Bt.
  rewrite Hlen in Bs.
  assert (digit_val c = digit_val d) as Hcd by nia.
  apply digit_val_inj in Hcd as ->. f_equal. apply IH; [done..|]. lia.
Qed.

(** With a non-zero leading digit the value alone determines the string. *)
Definition leading_nonzero (s : string) : Prop :=
  match s with "" => False | String c _ => digit_val c ≠ 0 end.

Lemma leading_nonzero_bound s :
  all_digits s → leading_nonzero s → 10 ^ (len s - 1) ≤ digits_val s 0.
Proof.
  destruct s as [|c s]; [done|]. intros [Hc Hs]%all_digits_cons Hnz. cbn in Hnz.
  rewrite digits_val_cons, len_cons. apply digit_val_range in Hc.
  pose proof (digits_val_bound s Hs). replace (1 + len s - 1) with (len s) by lia. nia.
Qed.

Lemma leading_nonzero_len s n k :
  all_digits s → leading_nonzero s → digits_val s 0 = n → 0 ≤ k → 10 ^ k ≤ n < 10 ^ (k + 1) → len s = k + 1.
Proof.
  intros Hs Hnz Hv Hk Hn. pose proof (leading_nonzero_bound s Hs Hnz) as Hlo.
  pose proof (digits_val_bound s Hs) as Hhi.
  assert (10 ^ (len s - 1) < 10 ^ (k + 1)) as L1 by lia.
  assert (10 ^ k < 10 ^ len s) as L2 by lia.
  apply Z.pow_lt_mono_r_iff in L1; [|lia..]. apply Z.pow_lt_mono_r_iff in L2; [|lia|apply len_nonneg]. lia.
Qed.

Lemma leading_nonzero_inj s t :
  all_digits s → all_digits t → leading_nonzero s → leading_nonzero t →
  digits_val s 0 = digits_val t 0 → s = t.
Proof.
  intros Hs Ht Ns Nt Hv. apply digits_val_inj; [done..| |done].
  pose proof (leading_nonzero_bound s Hs Ns). pose proof (leading_nonzero_bound t Ht Nt).
  pose proof (digits_val_bound s Hs). pose proof (digits_val_bound t Ht).
  assert (10 ^ (len s - 1) < 10 ^ len t) as L1 by lia.
  assert (10 ^ (len t - 1) < 10 ^ len s) as L2 by lia.
  apply Z.pow_lt_mono_r_iff in L1; [|lia|apply len_nonneg].
  apply Z.pow_lt_mono_r_iff in L2; [|lia|apply len_nonneg]. lia.
Qed.

Lemma digits_spec fuel n acc :
  0 ≤ n < 2 ^ Z.of_nat fuel → (0 < fuel)%nat → all_digits acc →
  all_digits (digits fuel n acc)
  ∧ digits_val (digits fuel n acc) 0 = n * 10 ^ len acc + digits_val acc 0
  ∧ (0 < n → leading_nonzero (digits fuel n acc)).
Proof.
  revert n acc. induction fuel as [|fuel IH]; intros n acc Hn Hf Hacc; [lia|].
  cbn [digits]. destruct (digit_char_spec (n `mod` 10)) as [Hd Hdv]; [by apply Z.mod_pos_bound|].
  destruct (Z.ltb_spec n 10) as [Hlt|Hge].
  - split_and!.
    + apply all_digits_cons. done.
    + rewrite digits_val_cons, Hdv, Z.mod_small by lia. done.
    + intros. cbn. rewrite Hdv, Z.mod_small by lia. lia.
  - rewrite Nat2Z.inj_succ, Z.pow_succ_r in Hn by lia.
    assert (n / 10 * 2 ≤ n) by (pose proof (Z.mul_div_le n 10); lia).
    assert (0 < n / 10) by (apply Z.div_str_pos; lia).
    destruct fuel as [|fuel']; [cbn in Hn; lia|].
    destruct (IH (n / 10) (String (digit_char (n `mod` 10)) acc)) as (IH1 & IH2 & IH3);
      [lia|lia|by apply all_digits_cons|].
    split_and!; [done| |by intros; apply IH3].
    rewrite IH2, digits_val_cons, Hdv, len_cons, Z.pow_add_r by (pose proof (len_nonneg acc); lia).
    rewrite (Z.div_mod n 10) at 3 by lia. lia.
Qed.

Lemma Itoa_spec n : 0 ≤ n →
  all_digits (Itoa n) ∧ digits_val (Itoa n) 0 = n ∧ (0 < n → leading_nonzero (Itoa n)).
Proof.
  intros Hn. unfold Itoa. destruct (Z.ltb_spec n 0); [lia|].
  destruct (digits_spec (S (Z.to_nat (Z.log2 n))) n "") as (H1 & H2 & H3); [|lia|done|].
  - split; [done|]. rewrite Nat2Z.inj_succ, Z2Nat.id by apply Z.log2_nonneg.
    destruct (decide (n = 0)) as [->|]; [done|]. apply Z.log2_spec. lia.
  - split_and!; [done| |done]. rewrite H2. unfold len. cbn. lia.
Qed.

Lemma repeat_zero_spec k :
  all_digits (repeat_char "0" k) ∧ digits_val (repeat_char "0" k) 0 = 0
  ∧ len (repeat_char "0" k) = Z.of_nat k.
Proof.
  induction k as [|k (H1 & H2 & H3)]; [done|]. cbn [repeat_char]. split_and!.
  - by apply all_digits_cons.
  - rewrite digits_val_cons, H2. done.
  - rewrite len_cons, H3. lia.
Qed.

Lemma digits_val_app a b : digits_val (a +:+ b) 0 = digits_val a 0 * 10 ^ len b + digits_val b 0.
Proof.
  induction a as [|c a IH]; [cbn; lia|]. cbn [String.append].
  rewrite !digits_val_cons, IH, len_app, Z.pow_add_r by apply len_nonneg. lia.
Qed.

Lemma zero_padded_spec w n : 0 ≤ w → 0 ≤ n →
  all_digits (zero_padded w n) ∧ digits_val (zero_padded w n) 0 = n
  ∧ len (zero_padded w n) = Z.max w (len (Itoa n)).
Proof.
  intros Hw Hn. unfold zero_padded. destruct (Z.ltb_spec w 0); [lia|].
  destruct (Z.ltb_spec n 0); [lia|].
  destruct (Itoa_spec n Hn) as (H1 & H2 & _).
  destruct (repeat_zero_spec (Z.to_nat (w - len (Itoa n)))) as (R1 & R2 & R3).
  split_and!.
  - by apply all_digits_app.
  - by rewrite digits_val_app, R2, H2.
  - rewrite len_app, R3. lia.
Qed.

(** ** Sorting byte strings *)

Lemma sort_strings_perm l : sort_strings l ≡ₚ l.
Proof. apply merge_sort_Permutation. Qed.
Lemma sort_strings_sorted l : StronglySorted String.le (sort_strings l).
Proof. apply StronglySorted_merge_sort; apply _. Qed.
Lemma sorted_perm_eq l1 l2 :
  StronglySorted String.le l1 → StronglySorted String.le l2 → l1 ≡ₚ l2 → l1 = l2.
Proof. apply StronglySorted_unique. apply _. Qed.
Lemma sort_strings_ext l1 l2 : l1 ≡ₚ l2 → sort_strings l1 = sort_strings l2.
Proof.
  intros H. apply sorted_perm_eq; [apply sort_strings_sorted..|]. by rewrite !sort_strings_perm.
Qed.
Lemma sort_strings_id l : StronglySorted String.le l → sort_strings l = l.
Proof. intros. apply sorted_perm_eq; [apply sort_strings_sorted|done|apply sort_strings_perm]. Qed.
#[export] Instance sort_strings_proper : Proper ((≡ₚ) ==> (=)) sort_strings.
Proof. intros l1 l2. apply sort_strings_ext. Qed.

(** ** The bytewise order *)

Lemma string_le_cons a s b t :
  String.le (String a s) (String b t) ↔ (byte a < byte b)%N ∨ a = b ∧ String.le s t.
Proof.
  unfold String.le, String.leb, byte. cbn [String.compare].
  destruct (Ascii.compare a b) eqn:Hab.
  - apply Ascii.compare_eq_iff in Hab as ->. split; [by right|]. intros [?|[_ ?]]; [lia|done].
  - split; [|done]. left. by apply N.compare_lt_iff.
  - apply N.compare_gt_iff in Hab. split; [done|]. intros [?|[-> _]]; lia.
Qed.

Lemma string_le_nil s : String.le "" s.
Proof. by destruct s. Qed.

Lemma string_le_app p s : String.le p (p +:+ s).
Proof.
  induction p as [|c p IH]; [apply string_le_nil|]. cbn [String.append].
  apply string_le_cons. by right.
Qed.

(** Between a prefix and one of its extensions there are only extensions. *)
Lemma string_le_sandwich p n t :
  String.le p n → String.le n (p +:+ t) → ∃ s, n = p +:+ s ∧ String.le s t.
Proof.
  revert n. induction p as [|c p IH]; intros n H1 H2; [by exists n|].
  cbn [String.append] in H2. destruct n as [|d n]; [done|].
  apply string_le_cons in H1. apply string_le_cons in H2.
  destruct H1 as [H1|[-> H1]]; [destruct H2 as [H2|[-> H2]]; lia|].
  destruct H2 as [H2|[_ H2]]; [lia|].
  destruct (IH n H1 H2) as (s & -> & Hs). by exists s.
Qed.

(** ** Lower case *)

Lemma ascii_lower_idem s : ascii_lower (ascii_lower s) = ascii_lower s.
Proof.
  induction s as [|c s IH]; cbn; [done|]. f_equal; [|done].
  by destruct c as [[] [] [] [] [] [] [] []].
Qed.
Lemma is_ascii_lower s : is_ascii (ascii_lower s) = is_ascii s.
Proof.
  induction s as [|c s IH]; cbn; [done|]. f_equal; [|done].
  by destruct c as [[] [] [] [] [] [] [] []].
Qed.
Lemma ToLower_ascii `{GoEnv} s : is_ascii s = true → ToLower s = ascii_lower s.
Proof. unfold ToLower. by intros ->. Qed.
Lemma ToLower_idem `{GoEnv} s : ToLower (ToLower s) = ToLower s.
Proof.
  unfold ToLower at 2 3. destruct (is_ascii s) eqn:Hs.
  - rewrite ToLower_ascii by (by rewrite is_ascii_lower). apply ascii_lower_idem.
  - apply (uni_to_lower_idem s Hs).
Qed.

Lemma decode_runes_ascii s :
  is_ascii s = true → decode_runes s = (λ c, Some (byte c)) <$> String.list_ascii_of_string s.
Proof.
  induction s as [|c s IH]; [done|]. cbn. rewrite andb_true_iff. intros [Hc Hs].
  rewrite Hc. by rewrite IH.
Qed.

(** ** Lemmas on [span] *)

Definition starts_outside (f : ascii → bool) (s : string) : Prop :=
  match s with "" => True | String c _ => f c = false end.

Lemma span_Some f s a b :
  span f s = (a, b) ↔ s = a +:+ b ∧ string_forall f a = true ∧ starts_outside f b.
Proof.
  revert a b. induction s as [|c s IH]; intros a b; cbn.
  - split; [by intros [= <- <-]|]. intros (Hab & _ & _). destruct a; [by destruct b|done].
  - destruct (f c) eqn:Hf.
    + destruct (span f s) as [a' b']. split.
      * intros [= <- <-]. destruct (IH a' b') as [(-> & H1 & H2) _]; [done|].
        cbn. by rewrite Hf, H1.
      * intros (Hab & H1 & H2). destruct a as [|c' a]; cbn in *.
        { destruct b; [done|]. injection Hab as <- <-. cbn in H2. congruence. }
        injection Hab as <- ->. apply andb_true_iff in H1 as [_ H1].
        destruct (IH a b) as [_ H]. by injection (H (conj eq_refl (conj H1 H2))) as -> ->.
    + split.
      * intros [= <- <-]. cbn. by rewrite Hf.
      * intros (Hab & H1 & H2). destruct a as [|c' a]; cbn in *; [by subst|].
        injection Hab as <- ->. by rewrite Hf in H1.
Qed.

Lemma span_app f a b :
  string_forall f a = true → starts_outside f b → span f (a +:+ b) = (a, b).
Proof. intros. by apply span_Some. Qed.

Lemma span_all f s : string_forall f s = true → span f s = (s, "").
Proof. intros Hs. rewrite <- (string_app_nil_r s) at 1. by apply span_app. Qed.

Lemma CutPrefix_None_head c p s : starts_outside (λ x, bool_decide (x = c)) s →
  CutPrefix s (String c p) = None.
Proof.
  destruct s as [|c' s]; cbn; [done|]. intros Hc. destruct (ascii_dec _ _); [|done].
  subst. by rewrite bool_decide_true in Hc.
Qed.

Lemma CutSuffix_None s x f :
  string_forall f s = true → string_forall f x = false → CutSuffix s x = None.
Proof.
  intros Hs Hx. destruct (CutSuffix s x) eqn:Hc; [|done].
  apply CutSuffix_Some in Hc as ->. rewrite string_forall_app, Hx, andb_false_r in Hs. done.
Qed.

Lemma last_nonempty_app l e acc : e ≠ "" → last_nonempty (l ++ [e]) acc = e.
Proof.
  intros He. revert acc. induction l as [|x l IH]; intros acc; cbn; [|by apply IH].
  by rewrite bool_decide_false.
Qed.

(** [path.Base] of a path that ends in an element. *)
Lemma Base_app a b : no_slash b → b ≠ "" → Base (a +:+ "/" +:+ b) = b.
Proof.
  intros Hb Hne. assert (∀ p, split_on slash p = split_on slash a ++ [b] → p ≠ "" → Base p = b) as Hg.
  { intros p Hp Hp0. unfold Base. rewrite Hp, last_nonempty_app by done.
    destruct p; [done|]. by rewrite bool_decide_false. }
  apply Hg.
  - change (a +:+ "/" +:+ b) with (a +:+ String slash b).
    by rewrite split_on_app_any, (split_on_no_sep b).
  - by destruct a.
Qed.

Lemma string_forall_no_slash f s : string_forall f s = true → f slash = false → no_slash s.
Proof.
  unfold no_slash. induction s as [|c s IH]; cbn; [done|]. intros [Hc Hs]%andb_true_iff Hf.
  destruct (ascii_dec c slash) as [->|_]; [congruence|]. by apply IH.
Qed.

Lemma plain_path_elem b : no_slash b → plain_elem b → plain_path b.
Proof. intros Hs Hb. unfold plain_path. rewrite split_on_no_sep by done. by constructor. Qed.

(** A name in a directory: the path, and its base. *)
Lemma Join_dir dir b : ValidPath dir = true → plain_path b →
  Join [dir; b] = if bool_decide (dir = ".") then b else dir +:+ "/" +:+ b.
Proof.
  intros Hd Hb. case_bool_decide as Hdot.
  - subst. pose proof (plain_path_nonempty b Hb). unfold Join.
    rewrite !filter_cons_True by done. rewrite filter_nil. cbn [join_with].
    unfold Clean. cbn. change (split_on slash (String "." (String "/" b))) with ("." :: split_on slash b).
    cbn. rewrite clean_elems_plain by done. cbn [rev app].
    change (bool_decide ("." = "") || bool_decide ("." = ".")) with true. cbn iota.
    rewrite join_split. by rewrite bool_decide_false.
  - apply Join_plain; [|done]. by apply ValidPath_plain.
Qed.

Lemma Base_no_slash b : no_slash b → b ≠ "" → Base b = b.
Proof.
  intros Hb Hne. unfold Base. rewrite split_on_no_sep by done. cbn.
  destruct b; [done|]. by rewrite !bool_decide_false.
Qed.

Lemma Base_Join_dir dir b : ValidPath dir = true → no_slash b → plain_elem b → Base (Join [dir; b]) = b.
Proof.
  intros Hd Hb Hp. pose proof (proj1 (plain_elem_spec b) Hp) as (Hne & _ & _).
  rewrite Join_dir by (done || by apply plain_path_elem).
  case_bool_decide; [by apply Base_no_slash|by apply Base_app].
Qed.

(** ** Slices and concatenations of strings *)

Fixpoint concat_strings (l : list string) : string :=
  match l with [] => "" | x :: l => x +:+ concat_strings l end.

Lemma string_take_drop n s : s = string_take n s +:+ string_drop n s.
Proof. revert s. induction n as [|n IH]; intros [|c s]; cbn; [done..|]. by rewrite <- IH. Qed.

Lemma string_length_take n s : (n ≤ String.length s)%nat → String.length (string_take n s) = n.
Proof. revert s. induction n as [|n IH]; intros [|c s]; cbn; [done|done|lia|]. intros. rewrite IH; lia. Qed.

Lemma string_drop_drop a b s : string_drop b (string_drop a s) = string_drop (a + b) s.
Proof. revert s. induction a as [|a IH]; intros s; [done|]. destruct s; cbn; [by destruct b|apply IH]. Qed.

Lemma string_length_drop n s : String.length (string_drop n s) = (String.length s - n)%nat.
Proof. revert s. induction n as [|n IH]; intros [|c s]; cbn; [done..|]. apply IH. Qed.

Lemma string_forall_take f n s : string_forall f s = true → string_forall f (string_take n s) = true.
Proof.
  intros Hs. rewrite (string_take_drop n s), string_forall_app in Hs. by apply andb_true_iff in Hs as [? _].
Qed.

Lemma string_forall_drop f n s : string_forall f s = true → string_forall f (string_drop n s) = true.
Proof.
  intros Hs. rewrite (string_take_drop n s), string_forall_app in Hs. by apply andb_true_iff in Hs as [_ ?].
Qed.

Lemma string_app_inj_length a b c d :
  String.length a = String.length c → a +:+ b = c +:+ d → a = c ∧ b = d.
Proof.
  revert c. induction a as [|x a IH]; intros [|y c]; cbn; [done..|].
  intros [= Hl] [= -> Heq]. destruct (IH c Hl Heq) as [-> ->]. done.
Qed.

Lemma slice_Ok s i j t : slice s i j = Ok t →
  0 ≤ i ∧ i ≤ j ∧ j ≤ len s ∧ t = string_take (Z.to_nat (j - i)) (string_drop (Z.to_nat i) s).
Proof.
  unfold slice. destruct (_ && _) eqn:Hb; [|done]. bool_to_prop. intros [= <-]. naive_solver.
Qed.

Lemma slice_in s i j : 0 ≤ i → i ≤ j → j ≤ len s →
  slice s i j = Ok (string_take (Z.to_nat (j - i)) (string_drop (Z.to_nat i) s)).
Proof. intros. unfold slice. rewrite (proj2 (Z.leb_le _ _)), (proj2 (Z.leb_le _ _)), (proj2 (Z.leb_le _ _)) by done. done. Qed.

Lemma concat_strings_app l x : concat_strings (l ++ [x]) = concat_strings l +:+ x.
Proof. induction l as [|y l IH]; cbn; [by rewrite string_app_nil_r|]. by rewrite IH, string_app_assoc. Qed.
