(* ===== verification/VNum.v ===== *)
(** * Version numbers ([src/vnum.go])

    [VNum] is the pair of a sequence number and a zero-padding width; the file
    models parsing, printing, the successor with its padding overflow, the
    lineage of a head and the validity of a sequence of version numbers.  The
    theorems are the parse/print round trips, the bounds of [Next] and the exact
    meaning of [VNums.Valid]. *)
From S2P Require Import Prelude GoStd.

(** [src/vnum.go:24-27] VNum *)
Record VNum := mkVNum { num : Z; padding : Z }.

#[global] Instance VNum_eq_dec : EqDecision VNum.
Proof. solve_decision. Defined.
#[global] Instance VNum_countable : Countable VNum :=
  inj_countable' (λ v, (num v, padding v)) (λ p, mkVNum p.1 p.2) (λ '(mkVNum _ _), eq_refl).

(** [src/vnum.go:32-41] V *)
Definition V (ns : list Z) : VNum :=
  match ns with
  | [] => mkVNum 0 0
  | [n] => mkVNum n 0
  | n :: p :: _ => mkVNum n p
  end.

Definition err_vnum_invalid : error := ErrWrap "" (ErrVar ErrVNumInvalid).

(** The loop over [v[1:]]: rejects non-digits and reports whether a non-zero
    digit was seen. *)
Fixpoint vnum_scan (s : string) (nonzero : bool) : option bool :=
  match s with
  | "" => Some nonzero
  | String c s =>
      if (byte c <? 48)%N || (57 <? byte c)%N then None
      else vnum_scan s (nonzero || negb (byte c =? 48)%N)
  end.

(** [src/vnum.go:44-74] ParseVNum *)
Definition ParseVNum (v : string) : res VNum :=
  if len v <? 2 then Err err_vnum_invalid
  else match v with
  | String c0 ds =>
      if negb (bool_decide (c0 = "v"%char)) then Err err_vnum_invalid
      else
        let p := match ds with
                 | String c1 _ => if bool_decide (c1 = "0"%char) then len v - 1 else 0
                 | "" => 0
                 end in
        match vnum_scan ds false with
        | None => Err err_vnum_invalid
        | Some false => Err err_vnum_invalid
        | Some true =>
            match Atoi ds with
            | None => Err err_vnum_invalid
            | Some n => Ok (mkVNum n p)
            end
        end
  | "" => Err err_vnum_invalid
  end.

(** [src/vnum.go:78-85] MustParseVNum *)
Definition MustParseVNum (s : string) : res VNum :=
  match ParseVNum s with Ok v => Ok v | _ => Panic end.

(** [src/vnum.go:98-100] IsZero *)
Definition IsZero (v : VNum) : bool := (num v =? 0) && (padding v =? 0).
(** [src/vnum.go:103-105] First *)
Definition First (v : VNum) : bool := num v =? 1.

(** [int(math.Pow10(n))] for [n >= 0]: 10^18 is the last power below 2^63. *)
Definition pow10_int `{GoEnv} (n : Z) : Z := if n <=? 18 then 10 ^ n else float_to_int_oob.

(** [src/vnum.go:137-139] paddingOverflow *)
Definition paddingOverflow `{GoEnv} (v : VNum) : bool :=
  (0 <? padding v) && (pow10_int (padding v - 1) <=? num v).

(** [src/vnum.go:109-119] Next *)
Definition Next `{GoEnv} (v : VNum) : res VNum :=
  let next := mkVNum (wrap64 (num v + 1)) (padding v) in
  if paddingOverflow next
  then Err (ErrWrap "next version: padding overflow" (ErrVar ErrVNumInvalid))
  else Ok next.

(** [src/vnum.go:122-125] String *)
Definition VNum_String (v : VNum) : string := "v" +:+ zero_padded (padding v) (num v).

(** [src/vnum.go:128-134] Valid *)
Definition VNum_Valid `{GoEnv} (v : VNum) : option error :=
  if (num v <=? 0) || paddingOverflow v then Some err_vnum_invalid else None.

(** The loop filling the slice of [Lineage]. *)
Definition lineage (n p : Z) : list VNum := (λ i, mkVNum (i + 1) p) <$> seqZ 0 n.

(** [src/vnum.go:142-151] Lineage *)
Definition Lineage (v : VNum) : res (list VNum) :=
  if num v =? 0 then Ok []
  else if num v <? 0 then Panic (* makeslice: len out of range *)
  else Ok (lineage (num v) (padding v)).

(** [src/vnum.go:157-163] UnmarshalText *)
Definition VNum_UnmarshalText (text : string) : res VNum := ParseVNum text.

(** [src/vnum.go:165-170] MarshalText *)
Definition VNum_MarshalText `{GoEnv} (v : VNum) : res string :=
  match VNum_Valid v with Some e => Err e | None => Ok (VNum_String v) end.

(** [src/vnum.go:222-224] Less *)
Definition VNum_Less (v w : VNum) : bool := num v <? num w.

(** [sort.IsSorted] *)
Fixpoint is_sorted_slice {A} (less : A → A → bool) (l : list A) : bool :=
  match l with
  | x :: (y :: _) as l' => negb (less y x) && is_sorted_slice less l'
  | _ => true
  end.

(** [src/vnum.go:198-203] Head *)
Definition VNums_Head (vs : list VNum) : VNum :=
  match last vs with Some v => v | None => mkVNum 0 0 end.
(** [src/vnum.go:206-211] Padding *)
Definition VNums_Padding (vs : list VNum) : Z :=
  match vs with v :: _ => padding v | [] => 0 end.

Fixpoint VNums_check (i pad : Z) (vs : list VNum) : option error :=
  match vs with
  | [] => None
  | v :: vs =>
      if negb (num v =? i + 1)
      then Some (ErrWrap (VNum_String (V [i + 1; pad])) (ErrVar ErrVNumMissing))
      else if negb (padding v =? pad) then Some (ErrVar ErrVNumPadding)
      else VNums_check (i + 1) pad vs
  end.

(** [src/vnum.go:177-195] Valid, with the slice as the in-place sort leaves it *)
Definition VNums_Valid `{GoEnv} (vs : list VNum) : list VNum * option error :=
  match vs with
  | [] => (vs, Some (ErrVar ErrVerEmpty))
  | _ =>
      let vs := if is_sorted_slice VNum_Less vs then vs else sort_slice VNum_Less vs in
      (vs, match VNums_check 0 (VNums_Padding vs) vs with
           | Some e => Some e
           | None => VNum_Valid (VNums_Head vs)
           end)
  end.

(** ** Parsing *)

Lemma vnum_scan_spec s b :
  match vnum_scan s b with
  | None => ¬ all_digits s
  | Some nz => all_digits s ∧ nz = b || negb (digits_val s 0 =? 0)
  end.
Proof.
  revert b. induction s as [|c s IH]; intros b; cbn [vnum_scan].
  { split; [done|]. cbn. by rewrite orb_false_r. }
  assert ((byte c <? 48)%N || (57 <? byte c)%N = negb (is_digit c)) as ->.
  { unfold is_digit, in_range. rewrite negb_andb, <- !N.ltb_antisym. done. }
  destruct (is_digit c) eqn:Hc; cbn [negb].
  - specialize (IH (b || negb (byte c =? 48)%N)).
    destruct (vnum_scan s _) as [nz|].
    + destruct IH as [Hs ->]. split; [by apply all_digits_cons|].
      rewrite digits_val_cons, <- orb_assoc. f_equal.
      pose proof (digits_val_bound s Hs) as Hb. apply digit_val_range in Hc.
      assert ((byte c =? 48)%N = (digit_val c =? 0)) as ->.
      { apply Bool.eq_iff_eq_true. rewrite N.eqb_eq, Z.eqb_eq. unfold digit_val. lia. }
      rewrite <- negb_andb. f_equal. apply Bool.eq_iff_eq_true.
      rewrite andb_true_iff, !Z.eqb_eq. nia.
    + rewrite all_digits_cons. tauto.
  - rewrite all_digits_cons, Hc. naive_solver.
Qed.

(** [Atoi] on a string of digits. *)
Lemma Atoi_digits s : all_digits s → s ≠ "" →
  Atoi s = if digits_val s 0 <? 2 ^ 63 then Some (digits_val s 0) else None.
Proof.
  intros Hs Hne. pose proof (digits_val_bound s Hs) as Hb.
  assert (Atoi s = match atoi_unsigned s with
    | None => None
    | Some n => if (- 2 ^ 63 <=? n) && (n <? 2 ^ 63) then Some n else None end) as ->.
  { destruct s as [|c s]; [done|]. apply all_digits_cons in Hs as [Hc _].
    unfold Atoi. destruct (decide (c = "-"%char)) as [->|N1]; [done|].
    destruct (decide (c = "+"%char)) as [->|N2]; [done|].
    destruct c as [[] [] [] [] [] [] [] []]; done. }
  unfold atoi_unsigned. rewrite bool_decide_false by done. rewrite Hs.
  destruct (Z.leb_spec (- 2 ^ 63) (digits_val s 0)); [done|lia].
Qed.

(** The strings [ParseVNum] accepts, and what it makes of them. *)
Lemma ParseVNum_Ok v n p :
  ParseVNum v = Ok (mkVNum n p) ↔
  ∃ c s, v = String "v" (String c s) ∧ all_digits (String c s)
    ∧ n = digits_val (String c s) 0 ∧ 0 < n < 2 ^ 63
    ∧ p = if bool_decide (c = "0"%char) then len (String c s) else 0.
Proof.
  unfold ParseVNum. split.
  - destruct (Z.ltb_spec (len v) 2) as [|Hlen]; [done|].
    destruct v as [|c0 ds]; [done|]. destruct ds as [|c s]; [done|].
    case_bool_decide as Hc0; cbn [negb]; [subst c0|done].
    pose proof (vnum_scan_spec (String c s) false) as Hscan.
    destruct (vnum_scan (String c s) false) as [[]|]; [|done..].
    destruct Hscan as [Hd Hnz]. rewrite Atoi_digits by done.
    destruct (Z.ltb_spec (digits_val (String c s) 0) (2 ^ 63)); [|done].
    assert (0 < digits_val (String c s) 0) as Hpos.
    { pose proof (digits_val_bound _ Hd). symmetry in Hnz. cbn [orb] in Hnz.
      apply negb_true_iff, Z.eqb_neq in Hnz. lia. }
    intros [= <- <-]. exists c, s. split_and!; [done..|].
    rewrite !len_cons. case_bool_decide; lia.
  - intros (c & s & -> & Hd & -> & Hn & ->).
    assert (len (String "v" (String c s)) = 2 + len s) as Hl by (rewrite !len_cons; lia).
    pose proof (len_nonneg s).
    destruct (Z.ltb_spec (len (String "v" (String c s))) 2); [lia|].
    rewrite bool_decide_true by done. cbn [negb].
    pose proof (vnum_scan_spec (String c s) false) as Hscan.
    destruct (vnum_scan (String c s) false) as [nz|]; [|done].
    destruct Hscan as [_ ->]. rewrite (proj2 (Z.eqb_neq _ _)) by lia. cbn [orb negb].
    rewrite Atoi_digits by done. destruct (Z.ltb_spec (digits_val (String c s) 0) (2 ^ 63)); [|lia].
    do 2 f_equal. case_bool_decide; [|done]. rewrite Hl, len_cons. lia.
Qed.

Lemma ParseVNum_not_panic s : ParseVNum s ≠ Panic.
Proof. unfold ParseVNum. repeat case_match; done. Qed.

(** What [Valid] accepts: the documented numbers. *)
Lemma VNum_Valid_None `{GoEnv} v :
  VNum_Valid v = None ↔ 0 < num v ∧ (0 < padding v → num v < pow10_int (padding v - 1)).
Proof.
  unfold VNum_Valid, paddingOverflow.
  destruct (Z.leb_spec (num v) 0); cbn [orb]; [split; [done|lia]|].
  destruct (Z.ltb_spec 0 (padding v)); cbn [andb]; [|split; [lia|done]].
  destruct (Z.leb_spec (pow10_int (padding v - 1)) (num v)); (split; [|done || lia]); [done|lia].
Qed.

Lemma digit_char_zero c : is_digit c = true → digit_val c = 0 → c = "0"%char.
Proof. intros _ Hv. by apply digit_val_inj. Qed.

Lemma zero_padded_leading w n :
  0 ≤ w → 0 ≤ n → len (Itoa n) < w → ∃ s, zero_padded w n = String "0" s.
Proof.
  intros Hw Hn Hl. unfold zero_padded. destruct (Z.ltb_spec w 0); [lia|].
  destruct (Z.ltb_spec n 0); [lia|].
  destruct (Z.to_nat (w - len (Itoa n))) eqn:Hk; [lia|]. cbn. eauto.
Qed.

Lemma Itoa_len n k : 0 < n → 0 ≤ k → n < 10 ^ k → len (Itoa n) ≤ k.
Proof.
  intros Hn Hk Hlt. destruct (Itoa_spec n) as (H1 & H2 & H3); [lia|].
  pose proof (leading_nonzero_bound _ H1 (H3 Hn)) as Hlo. rewrite H2 in Hlo.
  assert (10 ^ (len (Itoa n) - 1) < 10 ^ k) as L by lia.
  apply Z.pow_lt_mono_r_iff in L; lia.
Qed.

Lemma pow10_int_len `{GoEnv} n k :
  0 < n < 2 ^ 63 → 0 < k → n < pow10_int (k - 1) → len (Itoa n) < k.
Proof.
  intros Hn Hk. unfold pow10_int. destruct (Z.leb_spec (k - 1) 18); intros Hlt.
  - pose proof (Itoa_len n (k - 1)). lia.
  - pose proof (Itoa_len n 19) as L. assert (n < 10 ^ 19) by (cbn; lia). lia.
Qed.

Lemma VNum_String_parse `{GoEnv} v :
  VNum_Valid v = None → num v < 2 ^ 63 → 0 ≤ padding v →
  ParseVNum (VNum_String v) = Ok v.
Proof.
  destruct v as [n p]. rewrite VNum_Valid_None. cbn [num padding]. intros [Hn Hp] Hmax Hp0.
  apply ParseVNum_Ok. unfold VNum_String. cbn [num padding].
  destruct (zero_padded_spec p n) as (Z1 & Z2 & Z3); [lia..|].
  destruct (Itoa_spec n) as (I1 & I2 & I3); [lia|]. specialize (I3 Hn).
  destruct (decide (p = 0)) as [->|Hne].
  - assert (zero_padded 0 n = Itoa n) as Heq.
    { unfold zero_padded. cbn [Z.ltb Z.compare]. destruct (Z.ltb_spec n 0); [lia|].
      destruct (Z.to_nat (0 - len (Itoa n))) eqn:Hk; [done|]. pose proof (len_nonneg (Itoa n)). lia. }
    rewrite Heq in *. destruct (Itoa n) as [|c s] eqn:Hs; [done|].
    exists c, s. split_and!; [done..|by rewrite I2|lia|lia|].
    rewrite bool_decide_false; [done|]. intros ->. by cbn in I3.
  - pose proof (pow10_int_len n p ltac:(lia) ltac:(lia) (Hp ltac:(lia))) as Hl.
    destruct (zero_padded_leading p n) as [s Hs]; [lia..|]. rewrite Hs in *.
    exists "0"%char, s. split_and!; [done..|by rewrite Z2|lia|lia|].
    rewrite bool_decide_true by done. lia.
Qed.

(** C37. Printing then parsing a version number gives it back: for every valid
    number (an int64, padding not negative), [ParseVNum (v.String())] succeeds
    and returns [v] with its padding. *)
Theorem ParseVNum_String `{GoEnv} v :
  VNum_Valid v = None → num v < 2 ^ 63 → 0 ≤ padding v →
  ParseVNum (VNum_String v) = Ok v.
Proof. apply VNum_String_parse. Qed.

(** Parsing is injective on its domain: a string accepted by [ParseVNum]
    is the [String] of the number it returns, so "v1", "v01" and "v001" are three
    different version numbers and nothing else prints as them. *)
Theorem String_ParseVNum s v : ParseVNum s = Ok v → VNum_String v = s.
Proof.
  destruct v as [n p]. intros (c & ds & -> & Hd & -> & Hn & ->)%ParseVNum_Ok.
  unfold VNum_String. cbn [num padding]. cbn [String.append]. f_equal.
  set (n := digits_val (String c ds) 0) in *.
  destruct (Itoa_spec n) as (I1 & I2 & I3); [lia|]. specialize (I3 ltac:(lia)).
  case_bool_decide as Hc.
  - destruct (zero_padded_spec (len (String c ds)) n) as (Z1 & Z2 & Z3); [apply len_nonneg|lia|].
    apply digits_val_inj; [done..| |done]. rewrite Z3.
    enough (len (Itoa n) ≤ len (String c ds)) by lia.
    apply Itoa_len; [lia|apply len_nonneg|]. by apply digits_val_bound.
  - assert (zero_padded 0 n = Itoa n) as ->.
    { unfold zero_padded. cbn [Z.ltb Z.compare]. destruct (Z.ltb_spec n 0); [lia|].
      destruct (Z.to_nat (0 - len (Itoa n))) eqn:Hk; [done|]. pose proof (len_nonneg (Itoa n)). lia. }
    apply leading_nonzero_inj; [done..| |done]. cbn. intros Hz.
    apply Hc. apply all_digits_cons in Hd as [Hd _]. by apply digit_char_zero.
Qed.

(** Whatever is parsed from a name of at most 20 bytes is a valid number. *)
Lemma ParseVNum_Valid `{GoEnv} s v :
  ParseVNum s = Ok v → len s ≤ 20 → VNum_Valid v = None.
Proof.
  destruct v as [n p]. intros (c & ds & -> & Hd & -> & Hn & ->)%ParseVNum_Ok Hlen.
  apply VNum_Valid_None. cbn [num padding]. split; [lia|]. intros Hp.
  case_bool_decide as Hc; [subst c|lia].
  rewrite len_cons in Hlen. unfold pow10_int. destruct (Z.leb_spec (len (String "0" ds) - 1) 18); [|lia].
  apply all_digits_cons in Hd as [_ Hd]. rewrite digits_val_cons, len_cons.
  replace (1 + len ds - 1) with (len ds) by lia.
  pose proof (digits_val_bound ds Hd). change (digit_val "0") with 0. lia.
Qed.

(** ** The successor *)

(** C36. [Next] on a valid number below the int64 maximum: it fails exactly when
    the padding leaves no room, and otherwise returns a valid number, one larger,
    with the same padding. *)
Theorem Next_spec `{GoEnv} v :
  VNum_Valid v = None → num v < max_int64 →
  match Next v with
  | Ok v' => num v' = num v + 1 ∧ padding v' = padding v ∧ VNum_Valid v' = None
  | Err e => errors_Is e ErrVNumInvalid = true ∧ 0 < padding v ∧ pow10_int (padding v - 1) = num v + 1
  | Panic => False
  end.
Proof.
  rewrite VNum_Valid_None. intros [Hn Hp] Hmax. unfold Next.
  rewrite wrap64_id by (unfold in_int64, max_int64 in *; lia).
  destruct (paddingOverflow _) eqn:Ho.
  - unfold paddingOverflow in Ho. cbn [num padding] in Ho. bool_to_prop. destruct Ho as [H1 H2].
    split; [done|]. specialize (Hp H1). lia.
  - split_and!; [done..|]. unfold VNum_Valid. rewrite Ho. cbn [num].
    destruct (Z.leb_spec (num v + 1) 0); [lia|done].
Qed.

(** ** Sequences *)

Lemma VNum_Less_weak_order : weak_order VNum_Less.
Proof.
  split; unfold VNum_Less; intros; rewrite ?Z.ltb_irrefl, ?Z.ltb_lt, ?Z.ltb_ge in *; lia || done.
Qed.

Lemma lineage_S n p : 0 ≤ n → lineage (n + 1) p = lineage n p ++ [mkVNum (n + 1) p].
Proof. intros. unfold lineage. rewrite seqZ_app, fmap_app by lia. done. Qed.

Lemma lineage_lookup n p i v : lineage n p !! i = Some v ↔ v = mkVNum (Z.of_nat i + 1) p ∧ Z.of_nat i < n.
Proof.
  unfold lineage. rewrite list_lookup_fmap, fmap_Some. setoid_rewrite lookup_seqZ. naive_solver lia.
Qed.

Lemma lineage_length n p : length (lineage n p) = Z.to_nat n.
Proof. unfold lineage. rewrite length_fmap. apply length_seqZ. Qed.

Lemma lineage_elem n p v : v ∈ lineage n p ↔ 0 < num v ≤ n ∧ padding v = p.
Proof.
  unfold lineage. rewrite list_elem_of_fmap. setoid_rewrite elem_of_seqZ. destruct v as [k q]; cbn.
  split; [intros (i & [= -> ->] & Hi); lia|]. intros [Hk ->]. exists (k - 1). split; [f_equal|]; lia.
Qed.

Lemma lineage_NoDup n p : NoDup (lineage n p).
Proof. unfold lineage. apply (NoDup_fmap_2_strong); [|apply NoDup_seqZ]. intros ???? [=]. lia. Qed.

Lemma VNums_check_None i pad vs :
  VNums_check i pad vs = None ↔ ∀ k v, vs !! k = Some v → v = mkVNum (i + Z.of_nat k + 1) pad.
Proof.
  revert i. induction vs as [|[n p] vs IH]; intros i; cbn; [done|].
  destruct (Z.eqb_spec n (i + 1)); cbn [negb].
  2:{ split; [done|]. intros Hall. specialize (Hall 0%nat _ eq_refl). simplify_eq. lia. }
  destruct (Z.eqb_spec p pad); cbn [negb].
  2:{ split; [done|]. intros Hall. specialize (Hall 0%nat _ eq_refl). by simplify_eq. }
  subst. rewrite IH. split.
  - intros Hall [|k] v; cbn; [intros [= <-]; f_equal; lia|]. intros ->%Hall. f_equal. lia.
  - intros Hall k v Hk. rewrite (Hall (S k) v Hk). f_equal. lia.
Qed.

Lemma VNums_check_lineage vs pad :
  VNums_check 0 pad vs = None ↔ vs = lineage (Z.of_nat (length vs)) pad.
Proof.
  rewrite VNums_check_None. split.
  - intros Hall. apply list_eq. intros k. destruct (vs !! k) as [v|] eqn:Hk.
    + symmetry. apply lineage_lookup. pose proof (lookup_lt_Some _ _ _ Hk).
      rewrite (Hall _ _ Hk). split; [f_equal|]; lia.
    + symmetry. apply lookup_ge_None. rewrite lineage_length. apply lookup_ge_None in Hk. lia.
  - intros Heq k v Hk. rewrite Heq in Hk. apply lineage_lookup in Hk as [-> _]. f_equal; lia.
Qed.

Lemma lineage_sorted n p : StronglySorted (λ x y, VNum_Less y x = false) (lineage n p).
Proof.
  unfold lineage. destruct (decide (0 ≤ n)) as [Hn|]; [|by rewrite seqZ_nil by lia; constructor].
  pattern n. apply natlike_ind; [constructor| |done].
  intros k Hk IH. unfold Z.succ. rewrite seqZ_app, fmap_app by lia. cbn.
  apply StronglySorted_app_2; [|done|by repeat constructor].
  intros x y (i & -> & Hi)%list_elem_of_fmap ->%list_elem_of_singleton.
  apply elem_of_seqZ in Hi. unfold VNum_Less. cbn. apply Z.ltb_ge. lia.
Qed.

Lemma is_sorted_slice_spec vs :
  is_sorted_slice VNum_Less vs = true → StronglySorted (λ x y, VNum_Less y x = false) vs.
Proof.
  intros Hs. apply Sorted_StronglySorted.
  { intros x y z Hxy Hyz. by apply (wo_incomp _ VNum_Less_weak_order z y x). }
  induction vs as [|x [|y vs] IH]; [by constructor|by repeat constructor|].
  cbn in Hs. apply andb_true_iff in Hs as [H1%negb_true_iff H2].
  constructor; [by apply IH|by constructor].
Qed.

(** The slice after [Valid]'s in-place sort. *)
Definition vnums_sorted `{GoEnv} (vs : list VNum) : list VNum := (VNums_Valid vs).1.

Lemma vnums_sorted_spec `{GoEnv} vs :
  vnums_sorted vs ≡ₚ vs ∧ StronglySorted (λ x y, VNum_Less y x = false) (vnums_sorted vs).
Proof.
  unfold vnums_sorted, VNums_Valid. destruct vs as [|v vs]; cbn [fst]; [split; [done|constructor]|].
  destruct (is_sorted_slice VNum_Less (v :: vs)) eqn:Hs.
  - split; [done|by apply is_sorted_slice_spec].
  - split; [apply sort_slice_perm|apply sort_slice_sorted, VNum_Less_weak_order].
Qed.

(** Two sorted arrangements of a lineage agree: its numbers are distinct. *)
Lemma sorted_lineage_unique vs n p :
  StronglySorted (λ x y, VNum_Less y x = false) vs → vs ≡ₚ lineage n p → vs = lineage n p.
Proof.
  intros Hs Hp.
  eapply (StronglySorted_unique_strong (λ x y, VNum_Less y x = false)); [|done|apply lineage_sorted|done].
  intros x y Hx%(elem_of_Permutation_proper _ _ _ Hp)%lineage_elem Hy%lineage_elem.
  unfold VNum_Less. rewrite !Z.ltb_ge. destruct x, y; cbn in *. intros. f_equal; [lia|]. naive_solver.
Qed.

Lemma last_lineage n p : 0 < n → last (lineage n p) = Some (mkVNum n p).
Proof.
  intros Hn. replace n with ((n - 1) + 1) at 1 by lia. rewrite lineage_S by lia.
  rewrite last_snoc. do 2 f_equal. lia.
Qed.

Lemma VNums_Valid_None `{GoEnv} vs :
  (VNums_Valid vs).2 = None ↔
  ∃ n p, VNum_Valid (mkVNum n p) = None ∧ vs ≡ₚ lineage n p
    ∧ (VNums_Valid vs).1 = lineage n p ∧ VNums_Head (VNums_Valid vs).1 = mkVNum n p.
Proof.
  destruct (vnums_sorted_spec vs) as [Hperm Hsorted].
  assert (vs = [] ∨ (VNums_Valid vs).2 =
    match VNums_check 0 (VNums_Padding (vnums_sorted vs)) (vnums_sorted vs) with
    | Some e => Some e | None => VNum_Valid (VNums_Head (vnums_sorted vs)) end) as [->|Heq].
  { destruct vs; [by left|by right]. }
  { cbn. split; [done|]. intros (n & p & [Hn _]%VNum_Valid_None & Hp & _).
    apply Permutation_length in Hp. rewrite lineage_length in Hp. cbn in *. lia. }
  fold (vnums_sorted vs). rewrite Heq. clear Heq. set (ws := vnums_sorted vs) in *. split.
  - destruct (VNums_check _ _ ws) eqn:Hc; [done|]. intros Hv.
    apply VNums_check_lineage in Hc. exists (Z.of_nat (length ws)), (VNums_Padding ws).
    assert (0 < Z.of_nat (length ws)) as Hlen.
    { destruct ws; [|cbn; lia]. apply VNum_Valid_None in Hv as [Hv _]. done. }
    assert (VNums_Head ws = mkVNum (Z.of_nat (length ws)) (VNums_Padding ws)) as Hh.
    { unfold VNums_Head. rewrite Hc at 1. by rewrite last_lineage. }
    rewrite Hh in Hv. split_and!; [done| |done|done]. by rewrite <- Hperm, <- Hc.
  - intros (n & p & Hv & Hp & Hw & Hh). rewrite Hh.
    assert (VNums_check 0 (VNums_Padding ws) ws = None) as ->; [|done].
    pose proof Hv as [Hn _]%VNum_Valid_None. cbn in Hn.
    assert (VNums_Padding ws = p) as ->.
    { rewrite Hw. unfold VNums_Padding. destruct (lineage n p) as [|v l] eqn:Hl.
      - apply (f_equal length) in Hl. rewrite lineage_length in Hl. cbn in Hl. lia.
      - assert (v ∈ lineage n p) as [_ ?]%lineage_elem; [rewrite Hl; left|done]. }
    apply VNums_check_lineage. rewrite Hw at 2. rewrite lineage_length. by rewrite Z2Nat.id by lia.
Qed.

Lemma VNums_Valid_lineage `{GoEnv} vs n p :
  VNum_Valid (mkVNum n p) = None → vs ≡ₚ lineage n p → VNums_Valid vs = (lineage n p, None).
Proof.
  intros Hv Hp. pose proof Hv as [Hn _]%VNum_Valid_None. cbn in Hn.
  destruct (vnums_sorted_spec vs) as [Hperm Hsorted].
  assert ((VNums_Valid vs).1 = lineage n p) as H1.
  { apply sorted_lineage_unique; [done|]. by etrans. }
  assert ((VNums_Valid vs).2 = None) as H2.
  { apply VNums_Valid_None. exists n, p. rewrite H1. unfold VNums_Head. by rewrite last_lineage. }
  destruct (VNums_Valid vs). by cbn in *; subst.
Qed.

(** [VNums.Valid] accepts exactly the arrangements of v1..vn with one
    padding that the last number fits; the slice is then left as that lineage, in
    order, whatever order the (unstable) sort gives to equal numbers. *)
Theorem VNums_Valid_iff `{GoEnv} vs :
  (VNums_Valid vs).2 = None ↔
  ∃ n p, VNum_Valid (mkVNum n p) = None ∧ vs ≡ₚ lineage n p
    ∧ (VNums_Valid vs).1 = lineage n p ∧ VNums_Head (VNums_Valid vs).1 = mkVNum n p.
Proof. apply VNums_Valid_None. Qed.

(** ** Concrete instances *)

Lemma ParseVNum_String_witness :
  @VNum_Valid ref_env (mkVNum 12 4) = None
  ∧ ParseVNum (VNum_String (mkVNum 12 4)) = Ok (mkVNum 12 4).
Proof.
  split; [by vm_compute|].
  apply (@ParseVNum_String ref_env (mkVNum 12 4)); [by vm_compute|done|done].
Defined.

Lemma String_ParseVNum_witness :
  ParseVNum "v007" = Ok (mkVNum 7 3) ∧ VNum_String (mkVNum 7 3) = "v007".
Proof. split; [by vm_compute|]. apply (String_ParseVNum "v007"). by vm_compute. Defined.

Lemma Next_spec_witness :
  @Next ref_env (mkVNum 99 3) = Err (ErrWrap "next version: padding overflow" (ErrVar ErrVNumInvalid))
  ∨ match @Next ref_env (mkVNum 98 3) with
    | Ok v' => num v' = 99 ∧ padding v' = 3 ∧ @VNum_Valid ref_env v' = None
    | Err e => errors_Is e ErrVNumInvalid = true ∧ 0 < 3 ∧ @pow10_int ref_env 2 = 99
    | Panic => False
    end.
Proof. right. apply (@Next_spec ref_env (mkVNum 98 3)); by vm_compute. Defined.
