(* ===== verification/DigestMap.v ===== *)
(** * Digest maps ([src/digestmap.go])

    [DigestMap] maps a digest to the paths with that content, [PathMap] a path to
    its digest.  Every loop over a map goes through [GoEnv.range], so the theorems
    hold for every iteration order.  They fix what [Valid] accepts, that
    [Normalize] is idempotent, that [Eq] decides equality of normalised maps and
    that [Merge] overlays one state on another. *)
From S2P Require Import Prelude GoStd.

(** The types [DigestMap] and [PathMap] ([src/digestmap.go:16], [:282]). *)
Notation DigestMap := (gmap string (list string)).
Notation PathMap := (gmap string string).
(** [src/digestmap.go:310-310] PathMutation *)
Definition PathMutation : Type := list string → list string.

Section digestmap.
Context `{GoEnv}.

(** [m[d]]: the zero value of a slice for a missing key. *)
Definition paths_of (m : DigestMap) (d : string) : list string := default [] (m !! d).

(** [src/digestmap.go:277-279] normalizeDigest *)
Definition normalizeDigest (d : string) : string := ToLower d.

(** [src/digestmap.go:269-275] validPath *)
Definition validPath (p : string) : bool :=
  if bool_decide (p = ".") then false else ValidPath p.

(** The loop of [validPaths] over neighbours of the sorted slice. *)
Fixpoint path_conflict (paths : list string) : option error :=
  match paths with
  | p :: (next :: _) as rest =>
      if bool_decide (p = next) || HasPrefix next (p +:+ "/")
      then Some (MapPathConflictErr p)
      else path_conflict rest
  | _ => None
  end.

(** [src/digestmap.go:243-266] validPaths *)
Definition validPaths (paths : list string) : option error :=
  match find_some (λ p, if validPath p then None else Some (MapPathInvalidErr p)) paths with
  | Some e => Some e
  | None => path_conflict (sort_strings paths)
  end.

(** [src/digestmap.go:158-164] NumPaths *)
Definition NumPaths (m : DigestMap) : Z :=
  foldl (λ l '(_, paths), l + Z.of_nat (length paths)) 0 (range 0 m).

(** [src/digestmap.go:19-26] AllPaths *)
Definition AllPaths (m : DigestMap) : list string :=
  sort_strings (foldl (λ pths '(_, paths), pths ++ paths) [] (range 1 m)).

(** [src/digestmap.go:29-35] Clone *)
Definition Clone (m : DigestMap) : DigestMap :=
  foldl (λ newM '(d, p), <[d := p]> newM) m (range 2 m).

(** [src/digestmap.go:176-186] Paths: the pairs in the order they are yielded *)
Definition Paths (m : DigestMap) : list (string * string) :=
  '(d, paths) ← range 3 m; (λ p, (p, d)) <$> paths.

(** [src/digestmap.go:168-172] PathMap *)
Definition DM_PathMap (m : DigestMap) : PathMap :=
  foldl (λ pm '(p, d), <[p := d]> pm) ∅ (Paths m).

(** The rune loop of [hasDigestCase], with its early return. *)
Fixpoint case_runes (rs : list (option N)) (hasLower hasUpper : bool) : bool * bool * bool :=
  match rs with
  | [] => (hasLower, hasUpper, false)
  | r :: rs =>
      let '(hasLower, hasUpper) :=
        if IsLower r then (true, hasUpper)
        else if IsUpper r then (hasLower, true) else (hasLower, hasUpper) in
      if hasLower && hasUpper then (hasLower, hasUpper, true)
      else case_runes rs hasLower hasUpper
  end.

Fixpoint case_keys (keys : list string) (hasLower hasUpper : bool) : bool * bool :=
  match keys with
  | [] => (hasLower, hasUpper)
  | d :: keys =>
      let '(l, u, done) := case_runes (decode_runes d) hasLower hasUpper in
      if done : bool then (l, u) else case_keys keys l u
  end.

(** [src/digestmap.go:204-219] hasDigestCase *)
Definition hasDigestCase (m : DigestMap) : bool * bool :=
  case_keys ((range 4 m).*1) false false.

Fixpoint digest_conflict (keys : list string) (norms : gset string) : option error :=
  match keys with
  | [] => None
  | d :: keys =>
      let norm := normalizeDigest d in
      if bool_decide (norm ∈ norms) then Some (MapDigestConflictErr d)
      else digest_conflict keys ({[norm]} ∪ norms)
  end.

(** [src/digestmap.go:223-239] validDigests *)
Definition validDigests (m : DigestMap) : option error :=
  let '(hasLower, hasUpper) := hasDigestCase m in
  if negb hasLower || negb hasUpper then None
  else digest_conflict ((range 5 m).*1) ∅.

(** [src/digestmap.go:189-200] Valid *)
Definition DM_Valid (m : DigestMap) : option error :=
  match validDigests m with
  | Some e => Some e
  | None =>
      match find_some (λ '(d, paths), if bool_decide (paths = [])
                                      then Some (ErrNew "no paths for digest") else None)
              (range 6 m) with
      | Some e => Some e
      | None => validPaths (AllPaths m)
      end
  end.

(** [src/digestmap.go:143-155] Normalize *)
Definition Normalize (m : DigestMap) : res DigestMap :=
  match DM_Valid m with
  | Some e => Err e
  | None =>
      Ok (foldl (λ norm '(digest, paths), <[normalizeDigest digest := sort_strings paths]> norm)
            ∅ (range 7 m))
  end.

(** The loop of [Eq]: it sorts the slices of [m] in place as it goes. *)
Fixpoint eq_loop (otherNorm : DigestMap) (l : list (string * list string)) (m : DigestMap)
    : DigestMap * bool :=
  match l with
  | [] => (m, true)
  | (dig, paths) :: l =>
      if bool_decide (paths = []) then (m, false)
      else
        let otherPaths := paths_of otherNorm (normalizeDigest dig) in
        if negb (length paths =? length otherPaths)%nat then (m, false)
        else
          let paths := sort_strings paths in
          let m := <[dig := paths]> m in
          if bool_decide (paths = sort_strings otherPaths) then eq_loop otherNorm l m
          else (m, false)
  end.

(** [src/digestmap.go:41-67] Eq, with [m] as the call leaves it *)
Definition DM_Eq (m other : DigestMap) : DigestMap * bool :=
  if negb (size m =? size other)%nat then (m, false)
  else if (size m =? 0)%nat then (m, true)
  else match Normalize other with
       | Ok otherNorm => eq_loop otherNorm (range 8 m) m
       | _ => (m, false)
       end.

(** [src/digestmap.go:71-81] DigestFor *)
Definition DigestFor (m : DigestMap) (p : string) : string :=
  if bool_decide (p = "") then ""
  else default "" (find_some (λ '(d, pths), if bool_decide (p ∈ pths) then Some d else None)
                     (range 9 m)).

(** [if !slices.Contains(merged[dig], pth) { merged[dig] = append(...) }] *)
Definition add_path (merged : DigestMap) (dig pth : string) : DigestMap :=
  if bool_decide (pth ∈ paths_of merged dig) then merged
  else <[dig := paths_of merged dig ++ [pth]]> merged.

Fixpoint merge_first (m2PathMap : PathMap) (replace : bool) (l : list (string * string))
    (merged : DigestMap) : res DigestMap :=
  match l with
  | [] => Ok merged
  | (pth, dig) :: l =>
      match m2PathMap !! pth with
      | Some dig2 =>
          if bool_decide (dig = dig2) then merge_first m2PathMap replace l (add_path merged dig pth)
          else if replace then merge_first m2PathMap replace l (add_path merged dig2 pth)
          else Err (MapPathConflictErr pth)
      | None => merge_first m2PathMap replace l (add_path merged dig pth)
      end
  end.

Fixpoint merge_second (m1PathMap : PathMap) (l : list (string * string)) (merged : DigestMap)
    : DigestMap :=
  match l with
  | [] => merged
  | (pth, dig) :: l =>
      match m1PathMap !! pth with
      | Some _ => merge_second m1PathMap l merged
      | None => merge_second m1PathMap l (add_path merged dig pth)
      end
  end.

(** [src/digestmap.go:86-125] Merge *)
Definition Merge (m1 m2 : DigestMap) (replace : bool) : res DigestMap :=
  m1Norm ← Normalize m1;
  m2Norm ← Normalize m2;
  let m1PathMap := DM_PathMap m1Norm in
  let m2PathMap := DM_PathMap m2Norm in
  merged ← merge_first m2PathMap replace (range 10 m1PathMap) ∅;
  let merged := merge_second m1PathMap (range 11 m2PathMap) merged in
  match validPaths (AllPaths merged) with
  | Some e => Err e
  | None => Ok merged
  end.

(** [src/digestmap.go:130-139] Mutate *)
Definition Mutate (m : DigestMap) (fns : list PathMutation) : DigestMap :=
  foldl (λ m '(digest, _),
           let paths := foldl (λ paths fn, fn paths) (paths_of m digest) fns in
           if bool_decide (paths = []) then delete digest m else <[digest := paths]> m)
    m (range 12 m).

(** [src/digestmap.go:286-292] DigestMap *)
Definition PM_DigestMap (pm : PathMap) : DigestMap :=
  foldl (λ dm '(pth, dig), <[dig := paths_of dm dig ++ [pth]]> dm) ∅ (range 13 pm).

(** [src/digestmap.go:296-306] SortedPaths: the pairs in the order they are yielded *)
Definition SortedPaths (pm : PathMap) : list (string * string) :=
  (λ p, (p, default "" (pm !! p))) <$> sort_strings ((range 14 pm).*1).

(** [slices.Index] *)
Fixpoint slice_index (paths : list string) (p : string) : option nat :=
  match paths with
  | [] => None
  | q :: paths => if bool_decide (q = p) then Some O else S <$> slice_index paths p
  end.

(** [src/digestmap.go:316-339] RenamePaths *)
Definition RenamePaths (src dst : string) : PathMutation := λ paths,
  if bool_decide (src = ".") then (λ p, Join [dst; p]) <$> paths
  else match slice_index paths src with
       | Some idx => <[idx := dst]> paths
       | None =>
           (λ p, match CutPrefix p (src +:+ "/") with
                 | Some suffix => Join [dst; suffix]
                 | None => p
                 end) <$> paths
       end.

(** [src/digestmap.go:342-349] RemovePath *)
Definition RemovePath (name : string) : PathMutation := λ paths,
  match slice_index paths name with
  | Some idx => delete idx paths
  | None => paths
  end.

End digestmap.

(** ** Validity of a set of paths *)

(** [p] is a directory of the path [q]. *)
Definition is_dir_of (p q : string) : Prop := ∃ r, q = p +:+ "/" +:+ r.

(** What the neighbour check establishes. *)
Definition neighbours_ok (l : list string) : Prop :=
  ∀ i p q, l !! i = Some p → l !! S i = Some q → p ≠ q ∧ ¬ is_dir_of p q.

Lemma HasPrefix_dir p q : HasPrefix q (p +:+ "/") = true ↔ is_dir_of p q.
Proof. rewrite HasPrefix_true. unfold is_dir_of. by setoid_rewrite <- string_app_assoc. Qed.

Lemma path_conflict_None l : path_conflict l = None ↔ neighbours_ok l.
Proof.
  induction l as [|p [|q l] IH]; [done|by split; [intros _ [|i] ??|]|].
  change (path_conflict (p :: q :: l)) with
    (if bool_decide (p = q) || HasPrefix q (p +:+ "/") then Some (MapPathConflictErr p)
     else path_conflict (q :: l)).
  destruct (bool_decide (p = q) || HasPrefix q (p +:+ "/")) eqn:Hc.
  - split; [done|]. intros Hok. destruct (Hok 0%nat p q eq_refl eq_refl) as [H1 H2].
    apply orb_true_iff in Hc as [Hc|Hc]; [by apply bool_decide_eq_true in Hc|].
    by apply HasPrefix_dir in Hc.
  - apply orb_false_iff in Hc as [H1 H2]. apply bool_decide_eq_false in H1. rewrite IH. split.
    + intros Hok [|i] p' q' Hp Hq; [|by apply (Hok i)]. cbn in Hp, Hq. simplify_eq.
      split; [done|]. intros Hd. apply HasPrefix_dir in Hd. congruence.
    + intros Hok i. apply (Hok (S i)).
Qed.

Lemma path_conflict_Some l e :
  path_conflict l = Some e →
  ∃ i p q, e = MapPathConflictErr p ∧ l !! i = Some p ∧ l !! S i = Some q ∧ (p = q ∨ is_dir_of p q).
Proof.
  induction l as [|p [|q l] IH]; [done|done|].
  change (path_conflict (p :: q :: l)) with
    (if bool_decide (p = q) || HasPrefix q (p +:+ "/") then Some (MapPathConflictErr p)
     else path_conflict (q :: l)).
  destruct (bool_decide (p = q) || HasPrefix q (p +:+ "/")) eqn:Hc.
  - intros [= <-]. exists 0%nat, p, q. split_and!; [done..|].
    apply orb_true_iff in Hc as [Hc|Hc]; [by left; apply bool_decide_eq_true in Hc|].
    right. by apply HasPrefix_dir.
  - intros (i & p' & q' & He)%IH. by exists (S i), p', q'.
Qed.

Lemma sorted_neighbours_NoDup l : StronglySorted String.le l → neighbours_ok l → NoDup l.
Proof.
  induction l as [|p l IH]; intros Hs Hok; [constructor|].
  apply StronglySorted_cons in Hs as [Hp Hs]. constructor.
  - destruct l as [|q l]; [by intros ?%elem_of_nil|].
    destruct (Hok 0%nat p q eq_refl eq_refl) as [Hne _].
    intros Hin. apply Hne. apply (anti_symm String.le).
    + rewrite Forall_forall in Hp. apply Hp. left.
    + apply StronglySorted_cons in Hs as [Hq _]. apply elem_of_cons in Hin as [->|Hin]; [done|].
      rewrite Forall_forall in Hq. by apply Hq.
  - apply IH; [done|]. intros i. apply (Hok (S i)).
Qed.

(** The byte after a prefix sorts below the slash. *)
Definition before_slash (p x : string) : Prop := ∃ c s, x = p +:+ String c s ∧ (byte c < 47)%N.

Lemma sorted_next l p q :
  StronglySorted String.le l → neighbours_ok l → p ∈ l → q ∈ l → is_dir_of p q →
  ∃ x, x ∈ l ∧ before_slash p x.
Proof.
  intros Hs Hok Hp Hq [r ->]. induction l as [|x l IH]; [by apply elem_of_nil in Hp|].
  pose proof Hs as [Hx Hs']%StronglySorted_cons. rewrite Forall_forall in Hx.
  assert (p ≠ p +:+ "/" +:+ r) as Hne.
  { intros Heq. apply (f_equal String.length) in Heq. rewrite string_length_app in Heq. cbn in Heq. lia. }
  apply elem_of_cons in Hp as [->|Hp].
  - apply elem_of_cons in Hq as [Hq|Hq]; [congruence|].
    destruct l as [|n l]; [by apply elem_of_nil in Hq|].
    destruct (Hok 0%nat x n eq_refl eq_refl) as [Hxn Hdir].
    exists n. split; [by right; left|].
    assert (String.le n (x +:+ "/" +:+ r)) as Hle.
    { apply StronglySorted_cons in Hs' as [Hn _]. rewrite Forall_forall in Hn.
      apply elem_of_cons in Hq as [->|Hq]; [done|by apply Hn]. }
    destruct (string_le_sandwich x n ("/" +:+ r)) as (s & -> & Hs1); [apply Hx; left|done|].
    destruct s as [|c s]; [by rewrite string_app_nil_r in Hxn|].
    exists c, s. split; [done|]. apply string_le_cons in Hs1 as [?|[-> _]]; [done|].
    destruct Hdir. by exists s.
  - assert (p +:+ "/" +:+ r ∈ l) as Hq'.
    { apply elem_of_cons in Hq as [Hq|Hq]; [|done]. exfalso. apply Hne.
      apply (anti_symm String.le); [apply string_le_app|]. rewrite Hq. by apply Hx. }
    destruct IH as (y & Hy & Hyb); [done| |done..|by exists y; split; [right|]].
    intros i. apply (Hok (S i)).
Qed.

(** The specification of [validPaths]. *)
Definition paths_ok (l : list string) : Prop :=
  Forall (λ p, validPath p = true) l ∧ neighbours_ok (sort_strings l).

Lemma validPaths_None l : validPaths l = None ↔ paths_ok l.
Proof.
  unfold validPaths, paths_ok. destruct (find_some _ l) eqn:Hf.
  - split; [done|]. intros [Hall _]. apply find_some_Some in Hf as (x & Hx & He).
    rewrite Forall_forall in Hall. by rewrite Hall in He.
  - rewrite path_conflict_None. apply find_some_None in Hf. split; [|tauto].
    intros. split; [|done]. eapply Forall_impl; [apply Hf|]. cbn. intros x. by destruct (validPath x).
Qed.

Lemma paths_ok_NoDup l : paths_ok l → NoDup l.
Proof.
  intros [_ Hn]. rewrite <- (sort_strings_perm l).
  apply sorted_neighbours_NoDup; [apply sort_strings_sorted|done].
Qed.

Lemma paths_ok_proper l1 l2 : l1 ≡ₚ l2 → paths_ok l1 → paths_ok l2.
Proof.
  intros Hp [H1 H2]. split; [by rewrite <- Hp|]. by rewrite <- (sort_strings_ext _ _ Hp).
Qed.
#[export] Instance paths_ok_perm : Proper ((≡ₚ) ==> iff) paths_ok.
Proof. intros l1 l2 Hl. split; by apply paths_ok_proper. Qed.

(** C31. Accepted paths are valid and pairwise distinct, and one is a directory of
    another only if a third path extends it with a byte below the slash (a
    space, a dash or a dot): without such paths the neighbour check of the
    sorted slice finds every file used as a directory. *)
Theorem validPaths_sound l :
  validPaths l = None →
  (∀ p, p ∈ l → validPath p = true) ∧ NoDup l
  ∧ (∀ p q, p ∈ l → q ∈ l → is_dir_of p q → ∃ x, x ∈ l ∧ before_slash p x).
Proof.
  rewrite validPaths_None. intros Hok. pose proof Hok as [Hv Hn]. split_and!.
  - by apply Forall_forall.
  - by apply paths_ok_NoDup.
  - intros p q Hp Hq Hd. rewrite <- (sort_strings_perm l) in Hp, Hq.
    destruct (sorted_next (sort_strings l) p q) as (x & Hx & Hb); [apply sort_strings_sorted|done..|].
    exists x. by rewrite sort_strings_perm in Hx.
Qed.

(** Every error of [validPaths] names a path of the slice that is invalid, or
    that is duplicated or used as a directory by another path of the slice. *)
Theorem validPaths_complete l e :
  validPaths l = Some e →
  (∃ p, p ∈ l ∧ e = MapPathInvalidErr p ∧ validPath p = false)
  ∨ (∃ p q l', l ≡ₚ p :: q :: l' ∧ e = MapPathConflictErr p ∧ (p = q ∨ is_dir_of p q)).
Proof.
  unfold validPaths. destruct (find_some _ l) as [e'|] eqn:Hf.
  - intros [= <-]. left. apply find_some_Some in Hf as (p & Hp & He). exists p.
    destruct (validPath p); naive_solver.
  - intros (i & p & q & -> & Hp & Hq & Hc)%path_conflict_Some. right.
    exists p, q. pose proof (sort_strings_perm l) as Hperm.
    apply list_elem_of_split_length in Hp as (l1 & l2 & Hl & ->).
    rewrite Hl in Hq, Hperm. rewrite lookup_app_r in Hq by lia.
    replace (S (length l1) - length l1)%nat with 1%nat in Hq by lia. cbn in Hq.
    destruct l2 as [|q' l2]; [done|]. cbn in Hq. simplify_eq.
    exists (l1 ++ l2). split; [|done]. rewrite <- Hperm. by rewrite <- !Permutation_middle.
Qed.

(** The neighbour check misses a file used as a directory when a sibling sorts
    between them: "a", "a.txt" and "a/b" are accepted although "a" cannot be
    both a file and the directory of "a/b". *)
Theorem validPaths_misses_conflict :
  validPaths ["a"; "a.txt"; "a/b"] = None ∧ is_dir_of "a" "a/b"
  ∧ validPaths ["a"; "a/b"] = Some (MapPathConflictErr "a").
Proof. split_and!; [by vm_compute|by exists "b"|by vm_compute]. Qed.

(** ** Contents of a digest map *)

(** All paths, in no particular order. *)
Definition all_paths (m : DigestMap) : list string := mjoin (map_to_list m).*2.

Definition contains (m : DigestMap) (p d : string) : Prop := p ∈ paths_of m d.

Definition ascii_keys (m : DigestMap) : Prop := ∀ d, is_Some (m !! d) → is_ascii d = true.

Definition digests_distinct `{GoEnv} (m : DigestMap) : Prop :=
  ∀ d1 d2, is_Some (m !! d1) → is_Some (m !! d2) → ToLower d1 = ToLower d2 → d1 = d2.

Definition nonempty_lists (m : DigestMap) : Prop := ∀ d, m !! d ≠ Some [].

(** The specification of [DigestMap.Valid]. *)
Definition DM_ok `{GoEnv} (m : DigestMap) : Prop :=
  digests_distinct m ∧ nonempty_lists m ∧ paths_ok (all_paths m).

Lemma contains_lookup m p d : contains m p d ↔ ∃ ps, m !! d = Some ps ∧ p ∈ ps.
Proof.
  unfold contains, paths_of. destruct (m !! d) as [ps|]; cbn; [naive_solver|].
  split; [by intros ?%elem_of_nil|naive_solver].
Qed.

Lemma all_paths_elem m p : p ∈ all_paths m ↔ ∃ d, contains m p d.
Proof.
  unfold all_paths. rewrite list_elem_of_join. setoid_rewrite contains_lookup. split.
  - intros (ps & Hp & ([d ps'] & -> & Hd%elem_of_map_to_list)%list_elem_of_fmap). eauto.
  - intros (d & ps & Hd & Hp). exists ps. split; [done|].
    apply list_elem_of_fmap. exists (d, ps). by rewrite elem_of_map_to_list.
Qed.

Section contents.
Context `{GoEnv}.

Lemma range_elem {K} `{Countable K} {V} site (m : gmap K V) k v :
  (k, v) ∈ range site m ↔ m !! k = Some v.
Proof. by rewrite range_perm, elem_of_map_to_list. Qed.

Lemma range_keys_NoDup {K} `{Countable K} {V} site (m : gmap K V) : NoDup (range site m).*1.
Proof. rewrite range_perm. apply NoDup_fst_map_to_list. Qed.

Lemma range_keys_elem {K} `{Countable K} {V} site (m : gmap K V) k :
  k ∈ (range site m).*1 ↔ is_Some (m !! k).
Proof.
  rewrite list_elem_of_fmap. split.
  - intros ([k' v] & -> & Hk%range_elem). by exists v.
  - intros [v Hv]. exists (k, v). by rewrite range_elem.
Qed.

Lemma AllPaths_eq m : AllPaths m = sort_strings (all_paths m).
Proof.
  unfold AllPaths, all_paths. apply sort_strings_ext.
  rewrite (foldl_ext _ (λ acc x, acc ++ x.2)) by (by intros ? []).
  rewrite foldl_app_concat. cbn. apply mjoin_Permutation. by rewrite range_perm.
Qed.

Lemma validPaths_AllPaths m : validPaths (AllPaths m) = None ↔ paths_ok (all_paths m).
Proof. by rewrite validPaths_None, AllPaths_eq, sort_strings_perm. Qed.

Lemma NumPaths_eq m : NumPaths m = Z.of_nat (length (all_paths m)).
Proof.
  assert (length (all_paths m) = length (mjoin (range 0 m).*2)) as ->.
  { apply Permutation_length, mjoin_Permutation. by rewrite range_perm. }
  unfold NumPaths. transitivity (0 + Z.of_nat (length (mjoin (range 0 m).*2))); [|lia].
  generalize 0 as acc. induction (range 0 m) as [|[d ps] l IH]; intros acc; cbn; [lia|].
  rewrite IH, length_app, Nat2Z.inj_add. apply eq_sym, Z.add_assoc.
Qed.

Lemma Paths_elem m p d : (p, d) ∈ Paths m ↔ contains m p d.
Proof.
  unfold Paths. rewrite contains_lookup, list_elem_of_bind. split.
  - intros ([d' ps] & Hp & Hd%range_elem). apply list_elem_of_fmap in Hp as (q & [= -> ->] & Hq). eauto.
  - intros (ps & Hd & Hp). exists (d, ps). rewrite range_elem. split; [|done].
    apply list_elem_of_fmap. eauto.
Qed.

Lemma Paths_fst m : (Paths m).*1 ≡ₚ all_paths m.
Proof.
  unfold Paths, all_paths. rewrite <- (range_perm 3 _ _ _ _ m).
  induction (range 3 m) as [|[d ps] l IH]; [done|].
  cbn. rewrite fmap_app. apply Permutation_app; [|done].
  rewrite <- list_fmap_compose. cbn. by rewrite list_fmap_id.
Qed.

Lemma Clone_id m : Clone m = m.
Proof.
  unfold Clone. assert (∀ d p, (d, p) ∈ range 2 m → m !! d = Some p) as Hin by (intros; by apply range_elem in H0).
  induction (range 2 m) as [|[d p] l IH]; [done|]. cbn.
  rewrite insert_id by (apply Hin; left). apply IH. intros. apply Hin. by right.
Qed.

(** The inverse direction: when no path is repeated, [PathMap] inverts the map. *)
Lemma DM_PathMap_lookup m p d :
  NoDup (all_paths m) → DM_PathMap m !! p = Some d ↔ contains m p d.
Proof.
  intros Hnd. unfold DM_PathMap.
  rewrite (foldl_ext _ (λ pm x, <[x.1 := x.2]> pm)) by (by intros ? []).
  change (foldl _ ∅ (Paths m)) with (insert_all fst snd ∅ (Paths m)).
  rewrite insert_all_lookup by (by rewrite Paths_fst).
  rewrite <- Paths_elem. split; [by intros ([] & ? & -> & ->)|]. intros. by exists (p, d).
Qed.

(** ** Digest keys *)

Definition has_lower (s : string) : bool := existsb is_lower_ascii (String.list_ascii_of_string s).
Definition has_upper (s : string) : bool := existsb is_upper_ascii (String.list_ascii_of_string s).

Lemma ascii_lower_id s : has_upper s = false → ascii_lower s = s.
Proof.
  unfold has_upper. induction s as [|c s IH]; cbn; [done|]. rewrite orb_false_iff. intros [Hc Hs].
  unfold ascii_lower in *. f_equal; [|by apply IH]. unfold lower_byte. by rewrite Hc.
Qed.

Lemma lower_byte_upper c :
  is_upper_ascii c = true → byte (lower_byte c) = (byte c + 32)%N ∧ is_lower_ascii (lower_byte c) = true.
Proof.
  intros Hc. unfold lower_byte. rewrite Hc. unfold is_upper_ascii in Hc. apply in_range_spec in Hc.
  assert (byte (ascii_of_N (byte c + 32)) = (byte c + 32)%N) as Hb.
  { unfold byte at 1. apply N_ascii_embedding. lia. }
  split; [done|]. unfold is_lower_ascii. apply in_range_spec. lia.
Qed.

Lemma lower_byte_inj c d :
  is_lower_ascii c = false → is_lower_ascii d = false → lower_byte c = lower_byte d → c = d.
Proof.
  intros Hc Hd Heq. destruct (is_upper_ascii c) eqn:Uc, (is_upper_ascii d) eqn:Ud.
  - apply lower_byte_upper in Uc as [Bc _], Ud as [Bd _]. apply byte_inj. rewrite Heq in Bc. lia.
  - apply lower_byte_upper in Uc as [_ Lc]. rewrite Heq in Lc. unfold lower_byte in Lc.
    rewrite Ud in Lc. congruence.
  - apply lower_byte_upper in Ud as [_ Ld]. rewrite <- Heq in Ld. unfold lower_byte in Ld.
    rewrite Uc in Ld. congruence.
  - unfold lower_byte in Heq. by rewrite Uc, Ud in Heq.
Qed.

Lemma ascii_lower_inj_upper s t :
  has_lower s = false → has_lower t = false → ascii_lower s = ascii_lower t → s = t.
Proof.
  unfold has_lower, ascii_lower. revert t.
  induction s as [|c s IH]; intros [|d t]; cbn; try done.
  rewrite !orb_false_iff. intros [Hc Hs] [Hd Ht] [= Heq Hst].
  f_equal; [by apply lower_byte_inj|by apply IH].
Qed.

Lemma case_runes_spec s l u : is_ascii s = true → l && u = false →
  let '(l', u', b) := case_runes (decode_runes s) l u in
  if b : bool then l' = true ∧ u' = true
  else l' = l || has_lower s ∧ u' = u || has_upper s ∧ l' && u' = false.
Proof.
  intros Hs. rewrite decode_runes_ascii by done. unfold has_lower, has_upper.
  revert l u Hs. induction s as [|c s IH]; intros l u Hs Hlu; cbn.
  { by rewrite !orb_false_r. }
  cbn in Hs. apply andb_true_iff in Hs as [Hc Hs]. unfold is_ascii_byte in Hc. rewrite Hc.
  fold (is_lower_ascii c) (is_upper_ascii c).
  change ((97 <=? byte c)%N && (byte c <=? 122)%N) with (is_lower_ascii c).
  change ((65 <=? byte c)%N && (byte c <=? 90)%N) with (is_upper_ascii c).
  assert (is_lower_ascii c && is_upper_ascii c = false) as Hex.
  { by destruct c as [[] [] [] [] [] [] [] []]. }
  destruct (is_lower_ascii c) eqn:Hl; [|destruct (is_upper_ascii c) eqn:Hu].
  - cbn in Hex. rewrite Hex. cbn. destruct u; cbn; [done|].
    specialize (IH true false Hs eq_refl). destruct (case_runes _ _ _) as [[l' u'] []]; [done|].
    destruct IH as (-> & -> & ?). by rewrite orb_true_r.
  - cbn. destruct l; cbn; [done|].
    specialize (IH false true Hs eq_refl). destruct (case_runes _ _ _) as [[l' u'] []]; [done|].
    destruct IH as (-> & -> & ?). by rewrite orb_true_r.
  - cbn. rewrite Hlu. by apply IH.
Qed.

Lemma case_keys_spec keys l u : Forall (λ d, is_ascii d = true) keys → l && u = false →
  let '(l', u') := case_keys keys l u in
  l' && u' = false → Forall (λ d, has_lower d = false) keys ∨ Forall (λ d, has_upper d = false) keys.
Proof.
  assert (∀ keys l u, Forall (λ d, is_ascii d = true) keys → l && u = false →
    let '(l', u') := case_keys keys l u in l' && u' = false →
    (l' = false → l = false ∧ Forall (λ d, has_lower d = false) keys) ∧
    (u' = false → u = false ∧ Forall (λ d, has_upper d = false) keys)) as Hgen.
  { clear. intros keys. induction keys as [|d keys IH]; intros l u Hall Hlu; cbn; [done|].
    inversion_clear Hall as [|?? Hd Hkeys].
    pose proof (case_runes_spec d l u Hd Hlu) as Hr.
    destruct (case_runes (decode_runes d) l u) as [[l1 u1] []]; [by destruct Hr as [-> ->]|].
    destruct Hr as (-> & -> & Hlu1). specialize (IH _ _ Hkeys Hlu1).
    destruct (case_keys keys _ _) as [l2 u2]. intros Hlu2. destruct (IH Hlu2) as [IHl IHu].
    split; intros Hf.
    - destruct (IHl Hf) as [[? ?]%orb_false_iff ?]. split; [done|by constructor].
    - destruct (IHu Hf) as [[? ?]%orb_false_iff ?]. split; [done|by constructor]. }
  intros Hall Hlu. specialize (Hgen keys l u Hall Hlu). destruct (case_keys keys l u) as [l' u'].
  intros Hf. destruct (Hgen Hf) as [H1 H2]. apply andb_false_iff in Hf as [->| ->]; naive_solver.
Qed.

Lemma digest_conflict_None keys norms :
  digest_conflict keys norms = None ↔
  NoDup (ToLower <$> keys) ∧ ∀ d, d ∈ keys → ToLower d ∉ norms.
Proof.
  revert norms. induction keys as [|d keys IH]; intros norms; cbn.
  { split; [|done]. intros _. split; [constructor|by intros ? ?%elem_of_nil]. }
  unfold normalizeDigest. case_bool_decide as Hin.
  - split; [done|]. intros [_ Hall]. by destruct (Hall d ltac:(left)).
  - rewrite IH, NoDup_cons, list_elem_of_fmap. setoid_rewrite elem_of_cons.
    setoid_rewrite elem_of_union. setoid_rewrite elem_of_singleton. split.
    + intros [Hnd Hall]. split_and!; [|done|].
      * intros (d' & Heq & Hd'). destruct (Hall d' Hd'). by left.
      * intros d' [->|Hd']; [done|]. intros ?. destruct (Hall d' Hd'). by right.
    + intros [[Hnot Hnd] Hall]. split; [done|]. intros d' Hd' [Heq|Hn].
      * apply Hnot. exists d'. by rewrite Heq.
      * by apply (Hall d' ltac:(by right)).
Qed.

(** The case shortcut of [validDigests] is sound on ASCII digests. *)
Lemma validDigests_None m :
  ascii_keys m → validDigests m = None ↔ digests_distinct m.
Proof.
  intros Hascii. unfold validDigests.
  assert (∀ d, d ∈ (range 4 m).*1 → is_ascii d = true) as Ha.
  { intros d Hd%range_keys_elem. by apply Hascii. }
  apply Forall_forall in Ha. pose proof (case_keys_spec _ false false Ha eq_refl) as Hc.
  unfold hasDigestCase. destruct (case_keys _ _ _) as [l u].
  rewrite <- negb_andb. destruct (l && u); cbn [negb].
  - rewrite digest_conflict_None. split.
    + intros [Hnd _] d1 d2 H1 H2 Heq.
      apply (range_keys_elem 5) in H1 as [i Hi]%list_elem_of_lookup.
      apply (range_keys_elem 5) in H2 as [j Hj]%list_elem_of_lookup.
      assert (i = j) as ->; [|congruence].
      eapply NoDup_lookup; [apply Hnd|..]; rewrite list_lookup_fmap.
      * by rewrite Hi.
      * rewrite Hj. cbn. by rewrite Heq.
    + intros Hd. split; [|set_solver].
      apply NoDup_fmap_2_strong; [|apply range_keys_NoDup].
      intros d1 d2 H1%range_keys_elem H2%range_keys_elem. by apply Hd.
  - split; [|done]. intros _ d1 d2 H1 H2 Heq.
    rewrite !ToLower_ascii in Heq by (by apply Hascii).
    apply (range_keys_elem 4) in H1. apply (range_keys_elem 4) in H2.
    destruct (Hc eq_refl) as [Hall|Hall]; rewrite Forall_forall in Hall.
    + apply ascii_lower_inj_upper; [by apply Hall..|done].
    + rewrite !ascii_lower_id in Heq by (by apply Hall). done.
Qed.

Lemma find_empty_list_None m :
  find_some (λ '(d, paths), if bool_decide (paths = [])
    then Some (ErrNew "no paths for digest") else None) (range 6 m : list (string * list string)) = None
  ↔ nonempty_lists m.
Proof.
  rewrite find_some_None, Forall_forall. split.
  - intros Hall d Hd. specialize (Hall (d, [])). rewrite range_elem in Hall. by specialize (Hall Hd).
  - intros Hne [d ps] Hd%range_elem. rewrite bool_decide_false; [done|]. intros ->. by apply (Hne d).
Qed.

Lemma DM_Valid_None m : ascii_keys m → DM_Valid m = None ↔ DM_ok m.
Proof.
  intros Ha. unfold DM_Valid, DM_ok. rewrite <- validDigests_None by done.
  destruct (validDigests m); [naive_solver|].
  rewrite <- find_empty_list_None, <- validPaths_AllPaths.
  destruct (find_some _ (range 6 m)); naive_solver.
Qed.

(** C30. [DigestMap.Valid] accepts exactly the maps without two spellings of one
    digest, without empty path lists and with paths that [validPaths] accepts;
    the case shortcut of [validDigests] loses nothing on ASCII digests. *)
Theorem DM_Valid_iff m : ascii_keys m → DM_Valid m = None ↔ DM_ok m.
Proof. apply DM_Valid_None. Qed.
End contents.

(** ** Normalisation *)

(** [n] has the entries of [m] under lower-case digests, with sorted paths. *)
Definition is_norm `{GoEnv} (m n : DigestMap) : Prop :=
  ∀ d ps, n !! d = Some ps ↔ ∃ d0 ps0, m !! d0 = Some ps0 ∧ d = ToLower d0 ∧ ps = sort_strings ps0.

Section normalize.
Context `{GoEnv}.

Lemma is_norm_unique m n1 n2 : is_norm m n1 → is_norm m n2 → n1 = n2.
Proof.
  intros H1 H2. apply map_eq. intros d. apply option_eq. intros ps. by rewrite (H1 d), (H2 d).
Qed.

Lemma norm_entries_NoDup m : digests_distinct m → NoDup ((λ e, ToLower e.1) <$> map_to_list m).
Proof.
  intros Hd. change (NoDup (ToLower ∘ fst <$> map_to_list m)). rewrite list_fmap_compose.
  apply NoDup_fmap_2_strong; [|apply NoDup_fst_map_to_list].
  intros d1 d2 H1 H2. rewrite <- (range_perm 0 _ _ _ _ m) in H1, H2.
  apply range_keys_elem in H1, H2. by apply Hd.
Qed.

Lemma Normalize_Ok m n : ascii_keys m → Normalize m = Ok n ↔ DM_ok m ∧ is_norm m n.
Proof.
  intros Ha. pose proof (DM_Valid_None m Ha) as Hv.
  assert (digests_distinct m →
    is_norm m (foldl (λ norm '(digest, paths), <[normalizeDigest digest := sort_strings paths]> norm)
            ∅ (range 7 m))) as Hn.
  { intros Hd d ps.
    rewrite (foldl_ext _ (λ norm e, <[ToLower e.1 := sort_strings e.2]> norm)) by (by intros ? []).
    change (foldl _ ∅ (range 7 m)) with
      (insert_all (λ e, ToLower e.1) (λ e, sort_strings e.2) ∅ (range 7 m)).
    rewrite insert_all_lookup by (rewrite range_perm; by apply norm_entries_NoDup). split.
    - intros ([d0 ps0] & ?%range_elem & -> & ->). eauto.
    - intros (d0 & ps0 & ? & -> & ->). exists (d0, ps0). by rewrite range_elem. }
  unfold Normalize. destruct (DM_Valid m) as [e|].
  - split; [done|]. intros [Hok _]. by apply Hv in Hok.
  - assert (DM_ok m) as Hok by (by apply Hv). specialize (Hn (proj1 Hok)). split.
    + intros [= <-]. done.
    + intros [_ Hm]. f_equal. by apply (is_norm_unique m).
Qed.

Lemma Normalize_nonempty m n : Normalize m = Ok n → nonempty_lists n.
Proof.
  unfold Normalize, DM_Valid. destruct (validDigests m); [done|].
  destruct (find_some _ (range 6 m)) eqn:Hf; [done|]. rewrite find_empty_list_None in Hf.
  destruct (validPaths _); [done|]. intros [= <-].
  assert (∀ l (m' : DigestMap), nonempty_lists m' → Forall (λ e, e.2 ≠ []) l →
    nonempty_lists (foldl (λ norm '(digest, paths), <[normalizeDigest digest := sort_strings paths]> norm) m' l))
    as Hg.
  { clear. induction l as [|[d ps] l IH]; intros m' Hm'; [done|]. intros [Hps Hl]%Forall_cons.
    apply IH; [|done]. intros d' [[_ Hs]|[_ Hd]]%lookup_insert_Some; [|by eapply Hm'].
    apply Hps, Permutation_nil_r. rewrite <- Hs. by rewrite sort_strings_perm. }
  apply Hg; [by intros d; rewrite lookup_empty|]. rewrite Forall_forall. intros [d ps] Hin%range_elem. cbn.
  intros ->. by eapply Hf.
Qed.

Lemma Normalize_exists m : ascii_keys m → DM_ok m → ∃ n, Normalize m = Ok n.
Proof.
  intros Ha Hok. unfold Normalize. rewrite (proj2 (DM_Valid_None m Ha) Hok). eauto.
Qed.

Lemma is_norm_ascii m n : ascii_keys m → is_norm m n → ascii_keys n.
Proof.
  intros Ha Hn d [ps (d0 & ps0 & Hd0 & -> & ->)%Hn].
  assert (is_ascii d0 = true) as H0 by (apply Ha; by eexists).
  by rewrite ToLower_ascii, is_ascii_lower.
Qed.

Lemma is_norm_lower m n d : is_norm m n → is_Some (n !! d) → ToLower d = d.
Proof. intros Hn [ps (d0 & ps0 & _ & -> & _)%Hn]. apply ToLower_idem. Qed.

Lemma is_norm_distinct m n : is_norm m n → digests_distinct n.
Proof.
  intros Hn d1 d2 H1 H2. by rewrite (is_norm_lower m n d1), (is_norm_lower m n d2).
Qed.

Lemma is_norm_nonempty m n : nonempty_lists m → is_norm m n → nonempty_lists n.
Proof.
  intros Hne Hn d (d0 & ps0 & Hd0 & _ & Hps)%Hn. destruct (Hne d0).
  rewrite Hd0. f_equal. apply Permutation_nil_r. rewrite Hps. by rewrite sort_strings_perm.
Qed.

Lemma is_norm_all_paths m n : digests_distinct m → is_norm m n → all_paths n ≡ₚ all_paths m.
Proof.
  intros Hd Hn. unfold all_paths.
  assert (map_to_list n ≡ₚ (λ e, (ToLower e.1, sort_strings e.2)) <$> map_to_list m) as ->.
  { apply NoDup_Permutation; [apply NoDup_map_to_list| |].
    - apply (NoDup_fmap_1 fst). rewrite <- list_fmap_compose. by apply (norm_entries_NoDup m).
    - intros [d ps]. rewrite elem_of_map_to_list, (Hn d ps), list_elem_of_fmap. split.
      + intros (d0 & ps0 & ? & -> & ->). exists (d0, ps0). by rewrite elem_of_map_to_list.
      + intros ([d0 ps0] & [= -> ->] & ?%elem_of_map_to_list). eauto. }
  rewrite <- list_fmap_compose. apply mjoin_fmap_Permutation. intros [d ps]. apply sort_strings_perm.
Qed.

Lemma is_norm_ok m n : DM_ok m → is_norm m n → DM_ok n.
Proof.
  intros (Hd & Hne & Hp) Hn. split_and!.
  - by eapply is_norm_distinct.
  - by eapply is_norm_nonempty.
  - by rewrite (is_norm_all_paths m n).
Qed.

Lemma is_norm_contains m n p d : digests_distinct m → is_norm m n →
  contains n p d ↔ ∃ d0, contains m p d0 ∧ d = ToLower d0.
Proof.
  intros Hd Hn. setoid_rewrite contains_lookup. split.
  - intros (ps & (d0 & ps0 & Hd0 & -> & ->)%Hn & Hp). rewrite sort_strings_perm in Hp. eauto.
  - intros (d0 & (ps0 & Hd0 & Hp) & ->). exists (sort_strings ps0). split; [apply Hn; eauto|].
    by rewrite sort_strings_perm.
Qed.

(** A normalised map is a fixed point: it is valid, its digests are in lower
    case, its paths are those of the original, and normalising it again changes
    nothing. *)
Theorem Normalize_idempotent m n :
  ascii_keys m → Normalize m = Ok n →
  Normalize n = Ok n ∧ DM_Valid n = None ∧ all_paths n ≡ₚ all_paths m
  ∧ (∀ d, is_Some (n !! d) → ToLower d = d)
  ∧ (∀ p d, contains m p d → contains n p (ToLower d)).
Proof.
  intros Ha [Hok Hn]%Normalize_Ok; [|done].
  pose proof (is_norm_ascii m n Ha Hn) as Han. pose proof (is_norm_ok m n Hok Hn) as Hokn.
  pose proof Hok as (Hd & _). split_and!.
  - apply Normalize_Ok; [done|]. split; [done|]. intros d ps. split.
    + intros Hps. pose proof Hps as (d0 & ps0 & ? & -> & ->)%Hn.
      exists (ToLower d0), (sort_strings ps0). rewrite ToLower_idem. split_and!; [done..|].
      symmetry. apply sort_strings_id, sort_strings_sorted.
    + intros (d0 & ps0 & Hd0 & -> & ->). pose proof Hd0 as (d1 & ps1 & ? & -> & ->)%Hn.
      rewrite ToLower_idem, (sort_strings_id (sort_strings ps1)) by apply sort_strings_sorted. done.
  - by apply DM_Valid_None.
  - by apply is_norm_all_paths.
  - intros d. by apply is_norm_lower with m.
  - intros p d Hp. apply (is_norm_contains m n); eauto.
Qed.

(** ** Equality *)

Lemma eq_loop_true no l m :
  (eq_loop no l m).2 = true ↔
  ∀ d ps, (d, ps) ∈ l → ps ≠ [] ∧ sort_strings ps = sort_strings (paths_of no (ToLower d)).
Proof.
  revert m. induction l as [|[d ps] l IH]; intros m; cbn.
  { split; [by intros _ ?? ?%elem_of_nil|done]. }
  assert (∀ P : string → list string → Prop,
    (∀ d' ps', (d', ps') ∈ (d, ps) :: l → P d' ps') ↔ P d ps ∧ ∀ d' ps', (d', ps') ∈ l → P d' ps') as Hcons.
  { intros P. setoid_rewrite elem_of_cons. naive_solver. }
  rewrite (Hcons (λ d ps, ps ≠ [] ∧ _)). unfold normalizeDigest.
  case_bool_decide as Hps; cbn; [naive_solver|].
  destruct (Nat.eqb_spec (length ps) (length (paths_of no (ToLower d)))) as [Hl|Hl]; cbn.
  - case_bool_decide as Hs; cbn; [rewrite IH; tauto|]. naive_solver.
  - split; [done|]. intros [[_ Hs] _]. destruct Hl.
    by rewrite <- (sort_strings_perm ps), Hs, sort_strings_perm.
Qed.

(** C33. On valid maps with ASCII digests [Eq] decides equality of the normalised
    maps: same digests up to case, each with the same paths. *)
Theorem DM_Eq_iff m other n no :
  ascii_keys m → ascii_keys other → Normalize m = Ok n → Normalize other = Ok no →
  (DM_Eq m other).2 = true ↔ n = no.
Proof.
  intros Ha Hao Hn Hno. pose proof Hno as Hno'.
  apply Normalize_Ok in Hn as [(Hd & Hne & _) Hn]; [|done].
  apply Normalize_Ok in Hno as [(Hdo & Hneo & _) Hno]; [|done].
  assert (∀ m n, digests_distinct m → is_norm m n → size n = size m) as Hsize.
  { clear. intros m n Hd Hn. rewrite <- !length_map_to_list.
    rewrite <- (length_fmap (λ e : string * list string, ToLower e.1) (map_to_list m)).
    rewrite <- (length_fmap fst (map_to_list n)). apply Permutation_length.
    apply NoDup_Permutation; [apply NoDup_fst_map_to_list|by apply norm_entries_NoDup|].
    intros d. rewrite !list_elem_of_fmap. split.
    - intros ([d' ps] & -> & (d0 & ps0 & ? & -> & ->)%elem_of_map_to_list%Hn).
      exists (d0, ps0). by rewrite elem_of_map_to_list.
    - intros ([d0 ps0] & -> & ?%elem_of_map_to_list). exists (ToLower d0, sort_strings ps0).
      rewrite elem_of_map_to_list. split; [done|]. apply Hn. eauto. }
  pose proof (Hsize m n Hd Hn) as Sn. pose proof (Hsize other no Hdo Hno) as Sno.
  unfold DM_Eq. rewrite Hno'. destruct (Nat.eqb_spec (size m) (size other)) as [Hs|Hs]; cbn [negb snd].
  2:{ split; [done|]. intros ->. congruence. }
  destruct (Nat.eqb_spec (size m) 0) as [H0|H0]; cbn [snd].
  { split; [|done]. intros _. rewrite Hs, <- Sno in H0. rewrite Hs, <- Sno, H0 in Sn.
    apply map_size_empty_inv in H0 as ->. by apply map_size_empty_inv in Sn as ->. }
  rewrite eq_loop_true. split.
  - intros Hall. enough (n ⊆ no) as Hsub.
    { apply map_subseteq_size_eq; [done|]. rewrite Sn, Sno, Hs. reflexivity. }
    apply map_subseteq_spec.
    intros d ps (d0 & ps0 & Hd0 & -> & ->)%Hn.
    destruct (Hall d0 ps0) as [Hps0 Heq]; [by apply range_elem|].
    unfold paths_of in Heq. destruct (no !! ToLower d0) as [ps|] eqn:Hl; cbn in Heq.
    + f_equal. rewrite Heq. symmetry. apply sort_strings_id.
      apply Hno in Hl as (? & ? & _ & _ & ->). apply sort_strings_sorted.
    + exfalso. apply Hps0, Permutation_nil_r. by rewrite <- (sort_strings_perm ps0), Heq.
  - intros <- d ps Hdps%range_elem. split; [intros ->; by apply (Hne d)|].
    unfold paths_of. rewrite (proj2 (Hn (ToLower d) (sort_strings ps))) by eauto. cbn.
    symmetry. apply sort_strings_id, sort_strings_sorted.
Qed.
End normalize.

(** ** Merging *)

Section merge.
Context `{GoEnv}.

Lemma paths_of_insert m d ps d' :
  paths_of (<[d := ps]> m) d' = if decide (d = d') then ps else paths_of m d'.
Proof. unfold paths_of. rewrite lookup_insert. by case_decide. Qed.

Lemma add_path_contains m dig pth p d :
  contains (add_path m dig pth) p d ↔ contains m p d ∨ (p = pth ∧ d = dig).
Proof.
  unfold add_path, contains. case_bool_decide as Hin; [naive_solver|].
  rewrite paths_of_insert. case_decide as Hd; [subst|naive_solver].
  rewrite elem_of_app, list_elem_of_singleton. naive_solver.
Qed.

Lemma add_path_nonempty m dig pth : nonempty_lists m → nonempty_lists (add_path m dig pth).
Proof.
  intros Hne d. unfold add_path. case_bool_decide; [apply Hne|].
  rewrite lookup_insert. case_decide; [|apply Hne]. intros [=]. by destruct (paths_of m dig).
Qed.

(** The digest a path of [m1] keeps. *)
Definition chosen (pm2 : PathMap) (p d : string) : string := default d (pm2 !! p).

Lemma merge_first_spec pm2 replace l merged merged' :
  merge_first pm2 replace l merged = Ok merged' →
  (∀ p d, contains merged' p d ↔ contains merged p d ∨ ∃ d0, (p, d0) ∈ l ∧ d = chosen pm2 p d0)
  ∧ (nonempty_lists merged → nonempty_lists merged')
  ∧ (replace = false → ∀ p d, (p, d) ∈ l → chosen pm2 p d = d).
Proof.
  revert merged. induction l as [|[pth dig] l IH]; intros merged; cbn.
  { intros [= <-]. split_and!; [|done|by intros ??? ?%elem_of_nil].
    intros p d. split; [by left|]. by intros [?|(? & ?%elem_of_nil & _)]. }
  set (dsel := chosen pm2 pth dig).
  intros Hm. assert (merge_first pm2 replace l (add_path merged dsel pth) = Ok merged'
    ∧ (replace = false → dsel = dig)) as [Hm' Hsel].
  { subst dsel. unfold chosen. destruct (pm2 !! pth) as [dig2|] eqn:H2; cbn; [|done].
    case_bool_decide as Hd; [by subst|]. by destruct replace. }
  destruct (IH _ Hm') as (Hc & Hne & Hr). split_and!.
  - intros p d. rewrite Hc, add_path_contains. setoid_rewrite elem_of_cons. split.
    + intros [[?|[-> ->]]|(d0 & ? & ->)]; [by left|right; exists dig; auto|right; exists d0; auto].
    + intros [?|(d0 & [[= -> ->]|?] & ->)]; [by left; left|by left; right|right; eauto].
  - intros ?. by apply Hne, add_path_nonempty.
  - intros Hrep p d [[= -> ->]|?]%elem_of_cons; [by apply Hsel|by apply Hr].
Qed.

Lemma merge_first_Err pm2 replace l merged :
  replace = true ∨ (∀ p d, (p, d) ∈ l → chosen pm2 p d = d) →
  ∃ merged', merge_first pm2 replace l merged = Ok merged'.
Proof.
  revert merged. induction l as [|[pth dig] l IH]; intros merged Hr; cbn; [eauto|].
  assert (replace = true ∨ ∀ p d, (p, d) ∈ l → chosen pm2 p d = d) as Hr'.
  { destruct Hr as [?|Hr]; [by left|right]. intros. apply Hr. by right. }
  destruct (pm2 !! pth) as [dig2|] eqn:H2; [|by apply IH].
  case_bool_decide as Hd; [by apply IH|]. destruct replace; [by apply IH|].
  destruct Hr as [?|Hr]; [done|]. specialize (Hr pth dig ltac:(left)).
  unfold chosen in Hr. rewrite H2 in Hr. by cbn in Hr; subst.
Qed.

Lemma merge_second_spec pm1 l merged :
  (∀ p d, contains (merge_second pm1 l merged) p d ↔
     contains merged p d ∨ ((p, d) ∈ l ∧ pm1 !! p = None))
  ∧ (nonempty_lists merged → nonempty_lists (merge_second pm1 l merged)).
Proof.
  revert merged. induction l as [|[pth dig] l IH]; intros merged; cbn.
  { split; [|done]. intros p d. split; [by left|]. by intros [?|[?%elem_of_nil _]]. }
  destruct (pm1 !! pth) eqn:H1; destruct (IH merged) as [Hc Hne].
  - split; [|done]. intros p d. rewrite Hc, elem_of_cons. naive_solver.
  - destruct (IH (add_path merged dig pth)) as [Hc' Hne']. split.
    + intros p d. rewrite Hc', add_path_contains, elem_of_cons. naive_solver.
    + intros. by apply Hne', add_path_nonempty.
Qed.

(** Two path maps agree on the paths they share. *)
Definition agree (pm1 pm2 : PathMap) : Prop :=
  ∀ p d1 d2, pm1 !! p = Some d1 → pm2 !! p = Some d2 → d1 = d2.

Lemma merged_contains pm1 pm2 replace m p d :
  merge_first pm2 replace (range 10 pm1) ∅ = Ok m →
  contains (merge_second pm1 (range 11 pm2) m) p d ↔ (pm2 ∪ pm1) !! p = Some d.
Proof.
  intros Hm. apply merge_first_spec in Hm as (Hc & _ & _).
  rewrite (proj1 (merge_second_spec _ _ _)), Hc, range_elem. setoid_rewrite range_elem.
  rewrite lookup_union_Some_raw. unfold chosen. split.
  - intros [[Hf|(d0 & Hd0 & ->)]|[? ?]]; [|destruct (pm2 !! p); cbn; auto|by left].
    apply contains_lookup in Hf as (? & ? & _). by rewrite lookup_empty in H0.
  - intros [H2|[H2 H1]].
    + destruct (pm1 !! p) as [d1|] eqn:H1; [|by right].
      left; right. exists d1. by rewrite H2.
    + left; right. exists d. by rewrite H2.
Qed.

Definition distinct_lists (m : DigestMap) : Prop := ∀ d ps, m !! d = Some ps → NoDup ps.

Lemma add_path_distinct m dig pth : distinct_lists m → distinct_lists (add_path m dig pth).
Proof.
  intros Hm d ps. unfold add_path. case_bool_decide as Hin; [apply Hm|].
  rewrite lookup_insert. case_decide; [|apply Hm]. intros [= <-].
  apply NoDup_app. split_and!.
  - unfold paths_of. destruct (m !! dig) eqn:Hd; cbn; [by eapply Hm|constructor].
  - by intros x Hx ->%list_elem_of_singleton.
  - apply NoDup_singleton.
Qed.

Lemma merge_first_distinct pm2 replace l merged merged' :
  merge_first pm2 replace l merged = Ok merged' → distinct_lists merged → distinct_lists merged'.
Proof.
  revert merged. induction l as [|[pth dig] l IH]; intros merged; cbn; [by intros [= <-]|].
  repeat case_match; try done; intros Hm Hd; (eapply IH; [apply Hm|by apply add_path_distinct]).
Qed.

Lemma merge_second_distinct pm1 l merged :
  distinct_lists merged → distinct_lists (merge_second pm1 l merged).
Proof.
  revert merged. induction l as [|[pth dig] l IH]; intros merged Hd; cbn; [done|].
  case_match; apply IH; [done|by apply add_path_distinct].
Qed.

Lemma NoDup_mjoin_disjoint (l : list (string * list string)) :
  NoDup l.*1 → (∀ d ps, (d, ps) ∈ l → NoDup ps) →
  (∀ d1 ps1 d2 ps2 p, (d1, ps1) ∈ l → (d2, ps2) ∈ l → p ∈ ps1 → p ∈ ps2 → d1 = d2) →
  NoDup (mjoin l.*2).
Proof.
  induction l as [|[d ps] l IH]; cbn; [constructor|].
  intros [Hd Hnd]%NoDup_cons Hps Hdis. apply NoDup_app. split_and!.
  - eapply Hps. left.
  - intros p Hp Hj. apply list_elem_of_join in Hj as (ps' & Hp' & Hps').
    apply list_elem_of_fmap in Hps' as ([d' ps''] & -> & Hin). cbn in Hp'.
    assert (d = d') as ->; [|by apply (list_elem_of_fmap_2 fst) in Hin].
    eapply (Hdis d ps d' ps'' p); [left|by right|done|done].
  - apply IH; [done|intros; eapply Hps; by right|].
    intros d1 ps1 d2 ps2 p ????. by eapply (Hdis d1 ps1 d2 ps2 p); [right|right|..].
Qed.

Lemma all_paths_NoDup m :
  distinct_lists m → (∀ p d1 d2, contains m p d1 → contains m p d2 → d1 = d2) → NoDup (all_paths m).
Proof.
  intros Hd Hf. apply NoDup_mjoin_disjoint.
  - apply NoDup_fst_map_to_list.
  - intros d ps Hps%elem_of_map_to_list. by eapply Hd.
  - intros d1 ps1 d2 ps2 p H1%elem_of_map_to_list H2%elem_of_map_to_list P1 P2.
    apply (Hf p); apply contains_lookup; eauto.
Qed.

(** A map that holds exactly the entries of a path map lists its keys once. *)
Lemma all_paths_of_pathmap m (pm : PathMap) :
  distinct_lists m → (∀ p d, contains m p d ↔ pm !! p = Some d) →
  all_paths m ≡ₚ (map_to_list pm).*1.
Proof.
  intros Hd Hc. apply NoDup_Permutation.
  - apply all_paths_NoDup; [done|]. intros p d1 d2 H1%Hc H2%Hc. congruence.
  - apply NoDup_fst_map_to_list.
  - intros p. rewrite all_paths_elem, list_elem_of_fmap. setoid_rewrite Hc. split.
    + intros [d Hd']. exists (p, d). by rewrite elem_of_map_to_list.
    + intros ([p' d] & -> & ?%elem_of_map_to_list). eauto.
Qed.

Lemma distinct_lists_empty : distinct_lists ∅.
Proof. intros d ps. by rewrite lookup_empty. Qed.

(** The map [Merge] builds, before its final check. *)
Definition merged_map (pm1 pm2 : PathMap) (replace : bool) : res DigestMap :=
  merged ← merge_first pm2 replace (range 10 pm1) ∅;
  Ok (merge_second pm1 (range 11 pm2) merged).

Lemma merged_map_spec pm1 pm2 replace m :
  merged_map pm1 pm2 replace = Ok m →
  (∀ p d, contains m p d ↔ (pm2 ∪ pm1) !! p = Some d)
  ∧ nonempty_lists m ∧ all_paths m ≡ₚ (map_to_list (pm2 ∪ pm1)).*1
  ∧ (replace = true ∨ agree pm1 pm2).
Proof.
  unfold merged_map. intros Hm. inv_res. subst m. rename x into merged. rename Hx into Hf.
  pose proof (merge_first_spec _ _ _ _ _ Hf) as (_ & Hne & Hrep).
  assert (∀ p d, contains (merge_second pm1 (range 11 pm2) merged) p d ↔ (pm2 ∪ pm1) !! p = Some d)
    as Hc by (intros; by eapply merged_contains).
  split_and!; [done| | |].
  - apply merge_second_spec, Hne. intros d. by rewrite lookup_empty.
  - apply all_paths_of_pathmap; [|done]. apply merge_second_distinct.
    eapply merge_first_distinct; [done|apply distinct_lists_empty].
  - destruct replace; [by left|right]. intros p d1 d2 H1 H2.
    specialize (Hrep eq_refl p d1). rewrite range_elem in Hrep. specialize (Hrep H1).
    unfold chosen in Hrep. by rewrite H2 in Hrep.
Qed.

Lemma merged_map_exists pm1 pm2 replace :
  replace = true ∨ agree pm1 pm2 → ∃ m, merged_map pm1 pm2 replace = Ok m.
Proof.
  intros Hrep. unfold merged_map.
  destruct (merge_first_Err pm2 replace (range 10 pm1) ∅) as [merged ->]; [|cbn; eauto].
  destruct Hrep as [?|Hag]; [by left|right]. intros p d1 H1%range_elem. unfold chosen.
  destruct (pm2 !! p) as [d2|] eqn:H2; cbn; [|done]. symmetry. by apply (Hag p).
Qed.

Lemma Merge_merged_map m1 m2 replace n1 n2 m :
  Normalize m1 = Ok n1 → Normalize m2 = Ok n2 →
  Merge m1 m2 replace = Ok m ↔
  merged_map (DM_PathMap n1) (DM_PathMap n2) replace = Ok m ∧ paths_ok (all_paths m).
Proof.
  intros H1 H2. unfold Merge, merged_map. rewrite H1, H2. cbn.
  destruct (merge_first _ _ _ _) as [merged| |]; cbn; [|naive_solver..].
  destruct (validPaths _) eqn:Hv.
  - split; [done|]. intros [[= <-] Hp]. apply validPaths_AllPaths in Hp. congruence.
  - apply validPaths_AllPaths in Hv. naive_solver.
Qed.

(** The digests of a normalised map's path map are in lower case. *)
Lemma norm_PathMap_lower m n p d :
  ascii_keys m → Normalize m = Ok n → DM_PathMap n !! p = Some d → ToLower d = d.
Proof.
  intros Ha Hn. apply Normalize_Ok in Hn as [Hok Hn]; [|done].
  pose proof (is_norm_ok _ _ Hok Hn) as (_ & _ & Hp%paths_ok_NoDup).
  rewrite DM_PathMap_lookup, contains_lookup by done. intros (ps & Hd & _).
  apply (is_norm_lower m n d Hn). eauto.
Qed.

Lemma union_lower (pm1 pm2 : PathMap) :
  (∀ p d, pm1 !! p = Some d → ToLower d = d) → (∀ p d, pm2 !! p = Some d → ToLower d = d) →
  ∀ p d, (pm2 ∪ pm1) !! p = Some d → ToLower d = d.
Proof. intros L1 L2 p d [Hd|[_ Hd]]%lookup_union_Some_raw; eauto. Qed.

Lemma lower_contents_distinct m (pm : PathMap) :
  nonempty_lists m → (∀ p d, contains m p d ↔ pm !! p = Some d) →
  (∀ p d, pm !! p = Some d → ToLower d = d) → digests_distinct m.
Proof.
  intros Hne Hc Hl. assert (∀ d, is_Some (m !! d) → ToLower d = d) as Hlow.
  { intros d [[|p ps] Hps]; [by destruct (Hne d)|]. apply (Hl p), Hc.
    apply contains_lookup. eexists. split; [done|left]. }
  intros d1 d2 H1 H2. by rewrite !Hlow.
Qed.

(** Without a file that is used as a directory, [validPaths] accepts. *)
Lemma paths_ok_no_dirs l : Forall (λ p, validPath p = true) l → NoDup l →
  (∀ p q, p ∈ l → q ∈ l → ¬ is_dir_of p q) → paths_ok l.
Proof.
  intros Hv Hnd Hno. split; [done|]. intros i p q Hp Hq. split.
  - intros ->. rewrite <- (sort_strings_perm l) in Hnd. pose proof (NoDup_lookup _ _ _ _ Hnd Hp Hq). lia.
  - apply Hno; rewrite <- (sort_strings_perm l); by eapply list_elem_of_lookup_2.
Qed.

Lemma norm_PathMap_valid m n p d :
  ascii_keys m → Normalize m = Ok n → DM_PathMap n !! p = Some d → validPath p = true.
Proof.
  intros Ha Hn. apply Normalize_Ok in Hn as [Hok Hn]; [|done].
  pose proof (is_norm_ok _ _ Hok Hn) as (_ & _ & Hp). pose proof (paths_ok_NoDup _ Hp) as Hnd. destruct Hp as [Hv _].
  rewrite DM_PathMap_lookup by done. intros Hc. rewrite Forall_forall in Hv. apply Hv, all_paths_elem. eauto.
Qed.

Lemma Merge_norm m1 m2 replace n1 n2 : Normalize m1 = Ok n1 → Normalize m2 = Ok n2 →
  is_ok (Merge m1 m2 replace) = true ↔
  (replace = true ∨ agree (DM_PathMap n1) (DM_PathMap n2)) ∧ paths_ok (map_to_list (DM_PathMap n2 ∪ DM_PathMap n1)).*1.
Proof.
  intros Hn1 Hn2. split.
  - destruct (Merge m1 m2 replace) as [m| |] eqn:Hm; [intros _|done..].
    apply (Merge_merged_map m1 m2 replace n1 n2 m Hn1 Hn2) in Hm as [Hm Hp].
    destruct (merged_map_spec _ _ _ _ Hm) as (_ & _ & Hall & Hrep). split; [done|]. by rewrite <- Hall.
  - intros [Hrep Hp]. destruct (merged_map_exists _ _ replace Hrep) as [m Hm].
    destruct (merged_map_spec _ _ _ _ Hm) as (_ & _ & Hall & _). rewrite <- Hall in Hp.
    by rewrite (proj2 (Merge_merged_map m1 m2 replace n1 n2 m Hn1 Hn2) (conj Hm Hp)).
Qed.

Lemma Merge_result m1 m2 replace n1 n2 m : ascii_keys m1 → ascii_keys m2 → Normalize m1 = Ok n1 → Normalize m2 = Ok n2 →
  Merge m1 m2 replace = Ok m → DM_ok m ∧ DM_PathMap m = DM_PathMap n2 ∪ DM_PathMap n1.
Proof.
  intros Ha1 Ha2 Hn1 Hn2 [Hm Hp]%(Merge_merged_map m1 m2 replace n1 n2 m Hn1 Hn2).
  destruct (merged_map_spec _ _ _ _ Hm) as (Hc & Hne & _ & _). split_and!.
  - split_and!; [|done|done]. apply (lower_contents_distinct m (DM_PathMap n2 ∪ DM_PathMap n1)); [done..|].
    apply union_lower; intros p d; [apply (norm_PathMap_lower m1)|apply (norm_PathMap_lower m2)]; done.
  - apply map_eq. intros p. apply option_eq. intros d.
    by rewrite DM_PathMap_lookup, Hc by (by apply paths_ok_NoDup).
Qed.

(** The merge of two maps without a file that is used as a directory. *)
Lemma Merge_no_dirs m1 m2 replace n1 n2 (pm := DM_PathMap n2 ∪ DM_PathMap n1) : ascii_keys m1 → ascii_keys m2 →
  Normalize m1 = Ok n1 → Normalize m2 = Ok n2 → (replace = true ∨ agree (DM_PathMap n1) (DM_PathMap n2)) →
  (∀ p q, is_Some (pm !! p) → is_Some (pm !! q) → ¬ is_dir_of p q) → is_ok (Merge m1 m2 replace) = true.
Proof.
  intros Ha1 Ha2 Hn1 Hn2 Hr Hno. apply (Merge_norm m1 m2 replace n1 n2 Hn1 Hn2). split; [done|]. fold pm.
  assert (∀ p, p ∈ (map_to_list pm).*1 → is_Some (pm !! p)) as Hin.
  { intros p ([q d] & -> & Hq%elem_of_map_to_list)%list_elem_of_fmap. by exists d. }
  apply paths_ok_no_dirs.
  - apply Forall_forall. intros p [d [Hd|[_ Hd]]%lookup_union_Some_raw]%Hin.
    + by apply (norm_PathMap_valid m2 n2 p d).
    + by apply (norm_PathMap_valid m1 n1 p d).
  - apply NoDup_fst_map_to_list.
  - intros p q Hp%Hin Hq%Hin. by apply Hno.
Qed.

(** C32. [Merge] overlays the second map, for maps with ASCII digests: it succeeds
    exactly when both maps have a normal form (they are valid), the shared paths
    agree or [replace] is set, and [validPaths] accepts the paths of the union
    ([paths_ok]); the result is then valid and gives every path the digest of the
    normal form of [m2] if that has the path, and the digest of the normal form of
    [m1] otherwise.  [validPaths] accepts whenever no path of the union is a
    directory of another; it compares neighbours in sorted order only and accepts
    some unions where one is ([validPaths_misses_conflict]). *)
Theorem Merge_iff m1 m2 replace : ascii_keys m1 → ascii_keys m2 →
  (is_ok (Merge m1 m2 replace) = true ↔ ∃ n1 n2, Normalize m1 = Ok n1 ∧ Normalize m2 = Ok n2
     ∧ (replace = true ∨ agree (DM_PathMap n1) (DM_PathMap n2))
     ∧ paths_ok (map_to_list (DM_PathMap n2 ∪ DM_PathMap n1)).*1)
  ∧ (∀ m n1 n2, Merge m1 m2 replace = Ok m → Normalize m1 = Ok n1 → Normalize m2 = Ok n2 →
     DM_ok m ∧ DM_PathMap m = DM_PathMap n2 ∪ DM_PathMap n1)
  ∧ (∀ n1 n2 (pm := DM_PathMap n2 ∪ DM_PathMap n1), Normalize m1 = Ok n1 → Normalize m2 = Ok n2 →
     replace = true ∨ agree (DM_PathMap n1) (DM_PathMap n2) →
     (∀ p q, is_Some (pm !! p) → is_Some (pm !! q) → ¬ is_dir_of p q) → is_ok (Merge m1 m2 replace) = true).
Proof.
  intros Ha1 Ha2. split_and!.
  - split; [|intros (n1 & n2 & Hn1 & Hn2 & Hr); by apply (Merge_norm m1 m2 replace n1 n2)].
    intros Hm. assert (∃ n1 n2, Normalize m1 = Ok n1 ∧ Normalize m2 = Ok n2) as (n1 & n2 & Hn1 & Hn2).
    { revert Hm. unfold Merge. destruct (Normalize m1), (Normalize m2); by eauto. }
    exists n1, n2. split_and!; [done..| |]; by apply (Merge_norm m1 m2 replace n1 n2).
  - intros m n1 n2 Hm Hn1 Hn2. by apply (Merge_result m1 m2 replace).
  - intros n1 n2 pm Hn1 Hn2 Hr Hno. by apply (Merge_no_dirs m1 m2 replace n1 n2).
Qed.

(** Inverting a path map and inverting back is the identity: [PathMap.DigestMap]
    followed by [DigestMap.PathMap] returns the path map. *)
Theorem PathMap_DigestMap_roundtrip (pm : PathMap) : DM_PathMap (PM_DigestMap pm) = pm.
Proof.
  assert (∀ l dm, NoDup l.*1 → distinct_lists dm → (∀ p d d', (p, d) ∈ l → ¬ contains dm p d') →
    let dm' := foldl (λ dm '(pth, dig), <[dig := paths_of dm dig ++ [pth]]> dm) dm l in
    distinct_lists dm' ∧ ∀ p d, contains dm' p d ↔ contains dm p d ∨ (p, d) ∈ l) as Hgen.
  { induction l as [|[pth dig] l IH]; intros dm Hnd Hdm Hfresh; cbn.
    { split; [done|]. intros p d. split; [by left|]. by intros [?|?%elem_of_nil]. }
    cbn in Hnd. apply NoDup_cons in Hnd as [Hpth Hnd].
    assert (<[dig := paths_of dm dig ++ [pth]]> dm = add_path dm dig pth) as ->.
    { unfold add_path. rewrite bool_decide_false; [done|]. by eapply Hfresh; left. }
    destruct (IH (add_path dm dig pth)) as [H1 H2]; [done|by apply add_path_distinct| |].
    - intros p d d' Hp [Hd|[-> ->]]%add_path_contains.
      + by eapply Hfresh; [right|].
      + by apply (list_elem_of_fmap_2 fst) in Hp.
    - split; [done|]. intros p d. rewrite H2, add_path_contains, elem_of_cons. naive_solver. }
  destruct (Hgen (range 13 pm) ∅) as [Hd Hc].
  { apply range_keys_NoDup. } { apply distinct_lists_empty. }
  { intros p d d' _ (? & ? & _)%contains_lookup. by rewrite lookup_empty in H0. }
  fold (PM_DigestMap pm) in Hd, Hc. apply map_eq. intros p. apply option_eq. intros d.
  assert (∀ p d, contains (PM_DigestMap pm) p d ↔ pm !! p = Some d) as Hcp.
  { intros p' d'. rewrite Hc, range_elem. split; [|by right].
    intros [(? & Hf & _)%contains_lookup|?]; [by rewrite lookup_empty in Hf|done]. }
  rewrite DM_PathMap_lookup; [done|]. apply all_paths_NoDup; [done|].
  intros q d1 d2 H1%Hcp H2%Hcp. congruence.
Qed.
End merge.

(** [Eq] is not symmetric when one side spells a digest twice: only the
    argument is normalised, so a map with such a conflict can equal a valid one. *)
Theorem DM_Eq_asymmetric :
  let m := <["AB" := ["x"]]> {["ab" := ["x"]]} in
  let other := <["cd" := ["y"]]> {["ab" := ["x"]]} in
  (@DM_Eq ref_env m other).2 = true ∧ (@DM_Eq ref_env other m).2 = false.
Proof. split; by vm_compute. Qed.

(** ** Concrete instances *)

Lemma ascii_keys_check m :
  forallb (λ e : string * list string, is_ascii e.1) (map_to_list m) = true → ascii_keys m.
Proof.
  intros Hf d [ps Hd]. rewrite forallb_forall in Hf.
  apply (Hf (d, ps)), list_elem_of_In, elem_of_map_to_list, Hd.
Qed.

Definition ex_map1 : DigestMap := <["AB" := ["b/c"; "a"]]> {["cd" := ["d"]]}.
Definition ex_map2 : DigestMap := <["ab" := ["a"; "b/c"]]> {["CD" := ["d"]]}.
Definition ex_norm : DigestMap := <["ab" := ["a"; "b/c"]]> {["cd" := ["d"]]}.

Lemma validPaths_sound_witness :
  validPaths ["a"; "a.txt"; "a/b"] = None
  ∧ (∀ p, p ∈ ["a"; "a.txt"; "a/b"] → validPath p = true) ∧ NoDup ["a"; "a.txt"; "a/b"]
  ∧ (∀ p q, p ∈ ["a"; "a.txt"; "a/b"] → q ∈ ["a"; "a.txt"; "a/b"] → is_dir_of p q →
       ∃ x, x ∈ ["a"; "a.txt"; "a/b"] ∧ before_slash p x).
Proof. split; [by vm_compute|]. apply validPaths_sound. by vm_compute. Defined.

Lemma validPaths_complete_witness :
  let l := ["b"; "a/x"; "a"] in
  let e := MapPathConflictErr "a" in
  (∃ p, p ∈ l ∧ e = MapPathInvalidErr p ∧ validPath p = false)
  ∨ (∃ p q l', l ≡ₚ p :: q :: l' ∧ e = MapPathConflictErr p ∧ (p = q ∨ is_dir_of p q)).
Proof. cbn zeta. apply validPaths_complete. by vm_compute. Defined.

Lemma DM_Valid_iff_witness : ascii_keys ex_map1 ∧ (@DM_Valid ref_env ex_map1 = None ↔ @DM_ok ref_env ex_map1).
Proof.
  assert (ascii_keys ex_map1) as Ha by (by apply ascii_keys_check; vm_compute).
  split; [done|]. by apply (@DM_Valid_iff ref_env ex_map1).
Defined.

Lemma Normalize_idempotent_witness :
  @Normalize ref_env ex_map1 = Ok ex_norm ∧ @Normalize ref_env ex_norm = Ok ex_norm.
Proof.
  assert (ascii_keys ex_map1) as Ha by (by apply ascii_keys_check; vm_compute).
  assert (@Normalize ref_env ex_map1 = Ok ex_norm) as Hn by (by vm_compute).
  split; [done|]. apply (@Normalize_idempotent ref_env ex_map1 ex_norm Ha Hn).
Defined.

Lemma DM_Eq_iff_witness : (@DM_Eq ref_env ex_map1 ex_map2).2 = true ↔ ex_norm = ex_norm.
Proof.
  apply (@DM_Eq_iff ref_env); [by apply ascii_keys_check; vm_compute..|by vm_compute|by vm_compute].
Defined.

Lemma Merge_iff_witness :
  let m2 : DigestMap := {["ef" := ["d"]]} in
  is_ok (@Merge ref_env ex_map1 m2 true) = true
  ∧ ∀ m, @Merge ref_env ex_map1 m2 true = Ok m → @DM_ok ref_env m.
Proof.
  cbn zeta. set (m2 := {["ef" := ["d"]]} : DigestMap).
  assert (@Normalize ref_env ex_map1 = Ok (@ex_norm)) as Hn1 by (by vm_compute).
  assert (@Normalize ref_env m2 = Ok m2) as Hn2 by (by vm_compute).
  destruct (@Merge_iff ref_env ex_map1 m2 true) as (_ & Hr & Hs); [by apply ascii_keys_check; vm_compute..|].
  split; [|intros m Hm; exact (proj1 (Hr m _ _ Hm Hn1 Hn2))].
  apply (Hs _ _ Hn1 Hn2); [by left|].
  assert (let pm := @DM_PathMap ref_env m2 ∪ @DM_PathMap ref_env ex_norm in
    map_Forall (λ p _, map_Forall (λ q _, HasPrefix q (p +:+ "/") = false) pm) pm) as Hd
    by (apply (bool_decide_unpack _); vm_compute; reflexivity).
  intros p q [d Hp] [d' Hq] Hpq%HasPrefix_dir. specialize (Hd p d Hp q d' Hq). cbn in Hd. congruence.
Defined.
