(* ===== verification/Spec.v ===== *)
(** * OCFL versions and NAMASTE declarations
    ([src/spec.go], [src/namaste.go], [src/ocfl.go])

    [Spec] is the version string of the specification, ordered by [Spec_Cmp]
    through the float64 the code parses it to; [InventoryType] is its URI in an
    inventory; [Namaste] is the declaration file of an object or a storage root.
    The regular expressions are written out as scanners over the bytes. *)
From S2P Require Import Prelude GoStd.

Definition invTypePrefix : string := "https://ocfl.io/".
Definition invTypeSuffix : string := "/spec/#inventory".

(** [src/spec.go:36-36] Spec *)
Definition Spec : Type := string.

Definition is_word (c : ascii) : bool :=
  is_digit c || is_upper_ascii c || is_lower_ascii c || bool_decide (c = "_"%char).

(** The optional group of [verNumRegex] up to the end of the text. *)
Definition match_suffix (s : string) : bool :=
  match s with
  | "" => true
  | String "-" w => negb (bool_decide (w = "")) && string_forall is_word w
  | _ => false
  end.

(** [src/spec.go:27-29] verNumRegex *)
Definition verNumRegex (s : string) : bool :=
  match s with
  | String d (String "." r) =>
      let '(ds, rest) := span is_digit r in
      is_digit d && negb (bool_decide (ds = "")) && match_suffix rest
  | _ => false
  end.

(** [src/spec.go:38-43] Spec.Valid *)
Definition Spec_Valid (s : Spec) : option error :=
  if negb (verNumRegex s) then Some (ErrVar ErrSpecInvalid) else None.

(** A non-negative finite float64 is an integral multiple of [2^-1074]; it is
    represented by that multiple.  [round_float num den] is the float64 nearest
    to [num / den], ties to even: 53 significant bits, fewer for subnormals. *)
Definition round_float (num den : Z) : Z :=
  let n := num * 2 ^ 1074 in
  let step := 2 ^ Z.max 0 (Z.log2 (n / den) - 52) in
  let q := n / (den * step) in
  let r := n - q * (den * step) in
  let q' := if 2 * r <? den * step then q
            else if den * step <? 2 * r then q + 1
            else q + q `mod` 2 in
  q' * step.

(** [strconv.ParseFloat] on "d.ddd": no sign, no exponent, below 10, so that it
    is finite and the parse does not fail. *)
Definition ParseFloat (s : string) : Z :=
  let '(i, f, _) := Cut s "." in
  round_float (digits_val (i +:+ f) 0) (10 ^ len f).

(** [src/spec.go:87-98] Spec.parse *)
Definition Spec_parse (s : Spec) : res (Z * string) :=
  match Spec_Valid s with
  | Some err => Err err
  | None =>
      let '(numStr, suffix, _) := Cut s "-" in
      Ok (ParseFloat numStr, suffix)
  end.

(** [src/spec.go:45-81] Spec.Cmp *)
Definition Spec_Cmp (v1 v2 : Spec) : res Z :=
  match Spec_parse v1, Spec_parse v2 with
  | Ok (f1, suf1), Ok (f2, suf2) =>
      if f1 =? f2 then
        if bool_decide (suf1 = "") && negb (bool_decide (suf2 = "")) then Ok 1
        else if bool_decide (suf2 = "") && negb (bool_decide (suf1 = "")) then Ok (-1)
        else Ok 0
      else if f2 <? f1 then Ok 1
      else Ok (-1)
  | Ok _, _ => Ok 1
  | _, Ok _ => Ok (-1)
  | _, _ => Panic
  end.

(** [src/spec.go:83-85] Spec.Empty *)
Definition Spec_Empty (s : Spec) : bool := bool_decide (s = "").

(** [src/spec.go:132-136] InventoryType *)
Record InventoryType := mkInventoryType { it_Spec : Spec }.
#[global] Instance InventoryType_eq_dec : EqDecision InventoryType.
Proof. solve_decision. Defined.

(** [src/spec.go:100-103] Spec.InventoryType *)
Definition Spec_InventoryType (s : Spec) : InventoryType := mkInventoryType s.

(** [src/spec.go:138-140] InventoryType.String *)
Definition InventoryType_String (inv : InventoryType) : string :=
  invTypePrefix +:+ it_Spec inv +:+ invTypeSuffix.

(** [src/spec.go:142-150] InventoryType.UnmarshalText *)
Definition InventoryType_UnmarshalText (t : string) : res InventoryType :=
  let cut := TrimPrefix t invTypePrefix in
  let cut := TrimSuffix cut invTypeSuffix in
  match Spec_Valid cut with
  | Some err => Err err
  | None => Ok (mkInventoryType cut)
  end.

(** [src/spec.go:152-154] InventoryType.MarshalText *)
Definition InventoryType_MarshalText (inv : InventoryType) : res string :=
  Ok (InventoryType_String inv).

(** ** Implemented versions *)

Definition Spec1_0 : Spec := "1.0".
Definition Spec1_1 : Spec := "1.1".

Definition logsDir : string := "logs".
Definition contentDir : string := "content".
Definition extensionsDir : string := "extensions".
Definition inventoryBase : string := "inventory.json".

(** The only type that implements the [ocfl] interface ([src/ocflv1.go:23]). *)
Record ocflV1 := mkOcflV1 { v1Spec : Spec }.

(** [src/ocflv1.go:29-31] ocflV1.Spec *)
Definition ocflV1_Spec (imp : ocflV1) : Spec := v1Spec imp.

(** [src/ocfl.go:52-61] getOCFL *)
Definition getOCFL (spec : Spec) : res ocflV1 :=
  if bool_decide (spec = Spec1_0) || bool_decide (spec = Spec1_1) then Ok (mkOcflV1 spec)
  else if bool_decide (spec = "") then Err (ErrVar ErrOCFLNotImplemented)
  else Err (ErrWrap ("v" +:+ spec) (ErrVar ErrOCFLNotImplemented)).

(** [src/ocfl.go:63-64] lowestOCFL *)
Definition lowestOCFL : ocflV1 := mkOcflV1 Spec1_0.
(** [src/ocfl.go:66-67] latestOCFL *)
Definition latestOCFL : ocflV1 := mkOcflV1 Spec1_1.

(** [src/ocfl.go:69-77] mustGetOCFL *)
Definition mustGetOCFL (spec : Spec) : res ocflV1 :=
  match getOCFL spec with Ok impl => Ok impl | _ => Panic end.

(** [src/ocfl.go:79-80] defaultOCFL *)
Definition defaultOCFL : ocflV1 := latestOCFL.

(** ** NAMASTE declarations *)

Definition NamasteTypeObject : string := "ocfl_object".
Definition NamasteTypeRoot : string := "ocfl".

(** [src/namaste.go:28-32] Namaste *)
Record Namaste := mkNamaste { nam_Type : string; nam_Version : Spec }.
#[global] Instance Namaste_eq_dec : EqDecision Namaste.
Proof. solve_decision. Defined.

Definition is_type_byte (c : ascii) : bool := is_lower_ascii c || bool_decide (c = "_"%char).

(** The version group of [namasteRE]. *)
Definition match_version (s : string) : bool :=
  let '(a, rest) := span is_digit s in
  match rest with
  | String "." b => negb (bool_decide (a = "")) && negb (bool_decide (b = "")) && string_forall is_digit b
  | _ => false
  end.

(** [src/namaste.go:25-25] namasteRE: no digit is in [a-z_], so the type and its
    underscore are the longest run of such bytes. *)
Definition namasteRE (name : string) : option (string * string) :=
  r ← CutPrefix name "0=";
  let '(typ_, ver) := span is_type_byte r in
  typ ← CutSuffix typ_ "_";
  if negb (bool_decide (typ = "")) && match_version ver then Some (typ, ver) else None.

(** [src/namaste.go:83-92] ParseNamaste *)
Definition ParseNamaste (name : string) : res Namaste :=
  match namasteRE name with
  | None => Err (ErrVar ErrNamasteNotExist)
  | Some (typ, ver) => Ok (mkNamaste typ ver)
  end.

(** [src/namaste.go:56-63] Namaste.Name *)
Definition Namaste_Name (n : Namaste) : string :=
  if bool_decide (nam_Type n = "") || Spec_Empty (nam_Version n) then ""
  else "0=" +:+ nam_Type n +:+ "_" +:+ nam_Version n.

(** [src/namaste.go:65-71] Namaste.Body *)
Definition Namaste_Body (n : Namaste) : string :=
  if bool_decide (nam_Type n = "") || Spec_Empty (nam_Version n) then ""
  else nam_Type n +:+ "_" +:+ nam_Version n +:+ newline.

(** [src/namaste.go:73-76] Namaste.IsObject *)
Definition Namaste_IsObject (n : Namaste) : bool := bool_decide (nam_Type n = NamasteTypeObject).

(** [src/namaste.go:78-81] Namaste.IsRoot *)
Definition Namaste_IsRoot (n : Namaste) : bool := bool_decide (nam_Type n = NamasteTypeRoot).

(** ** The order of versions *)

(** Position of a version: invalid ones below all, then by number, and at one
    number the versions with a suffix below the plain one. *)
Definition spec_rank (v : Spec) : Z :=
  match Spec_parse v with
  | Ok (f, suf) => 2 * f + (if bool_decide (suf = "") then 1 else 0)
  | _ => -1
  end.

Lemma digits_val_nonneg s acc : all_digits s → 0 ≤ acc → 0 ≤ digits_val s acc.
Proof.
  revert acc. induction s as [|c s IH]; intros acc Hs Hacc; cbn; [done|].
  apply all_digits_cons in Hs as [Hc Hs]. pose proof (digit_val_range c Hc). apply IH; [done|lia].
Qed.

Lemma round_float_nonneg num den : 0 ≤ num → 0 < den → 0 ≤ round_float num den.
Proof.
  intros Hn Hd. unfold round_float.
  set (n := num * 2 ^ 1074). set (step := 2 ^ Z.max 0 _).
  assert (0 ≤ n) by (unfold n; lia). assert (0 < step) by (unfold step; apply Z.pow_pos_nonneg; lia).
  assert (0 ≤ n / (den * step)) by (apply Z.div_pos; nia).
  pose proof (Z.mod_pos_bound (n / (den * step)) 2). apply Z.mul_nonneg_nonneg; [|lia].
  repeat case_match; lia.
Qed.

(** The shape of a valid version. *)
Lemma Spec_Valid_shape s :
  Spec_Valid s = None ↔
  ∃ d ds rest, s = String d (String "." (ds +:+ rest)) ∧ is_digit d = true
    ∧ all_digits ds ∧ ds ≠ "" ∧ match_suffix rest = true.
Proof.
  unfold Spec_Valid. split.
  - destruct (verNumRegex s) eqn:Hv; [intros _|done].
    destruct s as [|d s]; [done|]. cbn in Hv. destruct s as [|c s]; [done|].
    repeat (destruct c as [[] [] [] [] [] [] [] []]; try done; []).
    destruct (span is_digit s) as [ds rest] eqn:Hs. apply span_Some in Hs as (-> & Hds & _).
    bool_to_prop. destruct Hv as [[Hd Hne] Hm]. by exists d, ds, rest.
  - intros (d & ds & rest & -> & Hd & Hds & Hne & Hm). cbn.
    rewrite span_app; [|done|].
    + rewrite Hd, Hm, bool_decide_false by done. done.
    + destruct rest as [|c rest]; [done|]. cbn in Hm |- *.
      destruct c as [[] [] [] [] [] [] [] []]; done.
Qed.

Lemma Cut_all_digits_dash ds rest :
  all_digits ds → match_suffix rest = true →
  (Cut (ds +:+ rest) "-").1.1 = ds.
Proof.
  intros Hds Hm. induction ds as [|c ds IH]; cbn.
  - destruct rest as [|c rest]; [done|]. cbn in *.
    by destruct c as [[] [] [] [] [] [] [] []].
  - apply all_digits_cons in Hds as [Hc Hds]. destruct (ascii_dec c "-") as [->|_]; [done|].
    specialize (IH Hds). destruct (Cut (ds +:+ rest) "-") as [[a b] f]. cbn in *. by subst.
Qed.

Lemma Cut_dot d ds : is_digit d = true → all_digits ds →
  Cut (String d (String "." ds)) "." = (String d "", ds, true).
Proof. intros Hd _. cbn. destruct (ascii_dec d ".") as [->|_]; [done|]. done. Qed.

Lemma Spec_parse_nonneg s f suf : Spec_parse s = Ok (f, suf) → 0 ≤ f.
Proof.
  unfold Spec_parse. destruct (Spec_Valid s) eqn:Hv; [done|].
  apply Spec_Valid_shape in Hv as (d & ds & rest & -> & Hd & Hds & Hne & Hm).
  assert ((Cut (String d (String "." (ds +:+ rest))) "-").1.1 = String d (String "." ds)) as Hc.
  { pose proof (Cut_all_digits_dash ds rest Hds Hm) as Hc. cbn.
    destruct (ascii_dec d "-") as [->|_]; [done|].
    destruct (Cut (ds +:+ rest) "-") as [[a b] fnd]. cbn in *. by subst. }
  destruct (Cut _ "-") as [[num b] fnd] eqn:Hcut. cbn in Hc. subst num. intros [= <- _].
  unfold ParseFloat. rewrite Cut_dot by done. apply round_float_nonneg.
  - apply digits_val_nonneg; [|lia]. by apply all_digits_cons.
  - apply Z.pow_pos_nonneg; [lia|]. apply len_nonneg.
Qed.

Lemma Spec_parse_panic s : Spec_parse s ≠ Panic.
Proof. unfold Spec_parse. by repeat case_match. Qed.

Lemma spec_rank_valid s : Spec_Valid s = None ↔ 0 ≤ spec_rank s.
Proof.
  unfold spec_rank. destruct (Spec_parse s) as [[f suf]| |] eqn:Hp.
  - pose proof (Spec_parse_nonneg _ _ _ Hp). split; [case_bool_decide; lia|intros _].
    unfold Spec_parse in Hp. by destruct (Spec_Valid s).
  - unfold Spec_parse in Hp. destruct (Spec_Valid s); [split; [done|lia]|by repeat case_match].
  - by apply Spec_parse_panic in Hp.
Qed.

(** [Cmp] is the comparison of ranks: a total preorder on versions in which
    every valid version is above the invalid ones and a version with a suffix is
    below the plain one; it panics exactly when both versions are invalid. *)
Theorem Spec_Cmp_rank v1 v2 :
  Spec_Cmp v1 v2 =
  if decide (Spec_Valid v1 ≠ None ∧ Spec_Valid v2 ≠ None) then Panic
  else Ok (Z.sgn (spec_rank v1 - spec_rank v2)).
Proof.
  pose proof (spec_rank_valid v1) as R1. pose proof (spec_rank_valid v2) as R2.
  unfold Spec_Cmp. unfold spec_rank in *.
  destruct (Spec_parse v1) as [[f1 s1]| |] eqn:H1; destruct (Spec_parse v2) as [[f2 s2]| |] eqn:H2;
    try (by apply Spec_parse_panic in H1); try (by apply Spec_parse_panic in H2).
  all: try apply Spec_parse_nonneg in H1; try apply Spec_parse_nonneg in H2.
  - assert (Spec_Valid v1 = None) by (apply R1; destruct (bool_decide _); lia).
    rewrite decide_False by naive_solver. clear R1 R2.
    destruct (Z.eqb_spec f1 f2) as [->|Hne].
    + repeat case_bool_decide; cbn; f_equal; symmetry;
        [apply Z.sgn_null|apply Z.sgn_pos|apply Z.sgn_neg|apply Z.sgn_null]; lia.
    + destruct (Z.ltb_spec f2 f1); f_equal; symmetry; [apply Z.sgn_pos|apply Z.sgn_neg];
        repeat case_bool_decide; lia.
  - assert (Spec_Valid v1 = None) by (apply R1; destruct (bool_decide _); lia).
    rewrite decide_False by naive_solver. clear R1 R2.
    f_equal. symmetry. apply Z.sgn_pos. case_bool_decide; lia.
  - assert (Spec_Valid v2 = None) by (apply R2; destruct (bool_decide _); lia).
    rewrite decide_False by naive_solver. clear R1 R2.
    f_equal. symmetry. apply Z.sgn_neg. case_bool_decide; lia.
  - rewrite decide_True; [done|]. split; intros Hv; [apply R1 in Hv|apply R2 in Hv]; lia.
Qed.

(** The numbers are compared as decimal fractions and not component by
    component: 1.10 equals 1.1 and is below 1.9, and fractions closer than the
    precision of a float64 are equal. *)
Theorem Spec_Cmp_fraction :
  Spec_Cmp "1.10" "1.1" = Ok 0 ∧ Spec_Cmp "1.10" "1.9" = Ok (-1)
  ∧ Spec_Cmp "1.0-draft" "1.0" = Ok (-1) ∧ Spec_Cmp "1.0-a" "1.0-b" = Ok 0
  ∧ Spec_Cmp "1.0" "1.00000000000000001" = Ok 0.
Proof. split_and!; by vm_compute. Qed.

(** ** Inventory types *)

Definition is_spec_byte (c : ascii) : bool :=
  is_word c || bool_decide (c = "."%char) || bool_decide (c = "-"%char).

Lemma is_digit_spec_byte c : is_digit c = true → is_spec_byte c = true.
Proof. unfold is_spec_byte, is_word. by intros ->. Qed.

Lemma is_word_spec_byte c : is_word c = true → is_spec_byte c = true.
Proof. unfold is_spec_byte. by intros ->. Qed.

Lemma Spec_Valid_bytes s :
  Spec_Valid s = None → string_forall is_spec_byte s = true ∧ ∃ d r, s = String d r ∧ is_digit d = true.
Proof.
  intros (d & ds & rest & -> & Hd & Hds & Hne & Hm)%Spec_Valid_shape. split; [|by eexists _, _].
  cbn. rewrite is_digit_spec_byte by done. rewrite string_forall_app. cbn.
  rewrite (string_forall_impl is_digit is_spec_byte ds) by
    (apply Hds || (intros; by apply is_digit_spec_byte)). cbn.
  destruct rest as [|c rest]; [done|]. cbn [match_suffix string_forall] in Hm |- *.
  assert (c = "-"%char) as -> by (by destruct c as [[] [] [] [] [] [] [] []]).
  bool_to_prop. destruct Hm as [_ Hm]. split_and!; [done|done|].
  apply (string_forall_impl is_word); [|done]. apply is_word_spec_byte.
Qed.

Lemma TrimSuffix_spec s : Spec_Valid s = None → TrimSuffix s invTypeSuffix = s.
Proof.
  intros [Hs _]%Spec_Valid_bytes. unfold TrimSuffix.
  by rewrite (CutSuffix_None s invTypeSuffix is_spec_byte) by done.
Qed.

Lemma TrimPrefix_spec s r : Spec_Valid s = None → TrimPrefix (s +:+ r) invTypePrefix = s +:+ r.
Proof.
  intros (_ & d & s' & -> & Hd)%Spec_Valid_bytes. unfold TrimPrefix, invTypePrefix. cbn [String.append].
  rewrite CutPrefix_None_head; [done|]. cbn. by rewrite bool_decide_false by (by intros ->).
Qed.

(** [UnmarshalText] reads a valid version with or without the two parts of
    the URI around it, and nothing else; in particular it inverts [String]. *)
Theorem InventoryType_UnmarshalText_iff t s :
  InventoryType_UnmarshalText t = Ok (mkInventoryType s) ↔
  Spec_Valid s = None ∧
  (t = s ∨ t = s +:+ invTypeSuffix ∨ t = invTypePrefix +:+ s
   ∨ t = InventoryType_String (mkInventoryType s)).
Proof.
  unfold InventoryType_UnmarshalText. split.
  - destruct (Spec_Valid _) eqn:Hv; [done|]. intros [= <-]. split; [done|].
    unfold TrimSuffix in *. destruct (CutSuffix _ _) as [u|] eqn:Hu in Hv |- *.
    + apply CutSuffix_Some in Hu. unfold TrimPrefix, InventoryType_String in *.
      cbn [it_Spec]. destruct (CutPrefix t _) as [w|] eqn:Hw.
      * apply CutPrefix_Some in Hw as ->. subst w. auto.
      * subst t. auto.
    + unfold TrimPrefix in *. destruct (CutPrefix t _) as [w|] eqn:Hw; [|auto].
      apply CutPrefix_Some in Hw as ->. auto.
  - intros [Hv Ht].
    assert (TrimSuffix (TrimPrefix t invTypePrefix) invTypeSuffix = s) as ->; [|by rewrite Hv].
    destruct Ht as [-> | [-> | [-> | ->]]]; unfold InventoryType_String; cbn [it_Spec].
    + rewrite <- (string_app_nil_r s) at 1. rewrite TrimPrefix_spec, string_app_nil_r by done.
      by apply TrimSuffix_spec.
    + rewrite TrimPrefix_spec by done. apply TrimSuffix_app.
    + rewrite TrimPrefix_app. by apply TrimSuffix_spec.
    + rewrite TrimPrefix_app. apply TrimSuffix_app.
Qed.


(** ** Declarations *)

Lemma match_version_start v : match_version v = true → starts_outside is_type_byte v.
Proof.
  unfold match_version. destruct v as [|c v]; [done|]. cbn [span starts_outside].
  destruct (is_digit c) eqn:Hc.
  - intros _. unfold is_digit in Hc. apply in_range_spec in Hc.
    apply orb_false_iff. split.
    + unfold is_lower_ascii. apply not_true_iff_false. rewrite in_range_spec. lia.
    + apply bool_decide_eq_false. intros ->. by destruct Hc.
  - intros Hm. assert (c = "."%char) as ->; [|done].
    by destruct c as [[] [] [] [] [] [] [] []].
Qed.

Lemma match_version_no_slash v :
  match_version v = true → string_forall (λ c, negb (bool_decide (c = slash))) v = true.
Proof.
  unfold match_version. destruct (span is_digit v) as [a b] eqn:Hs.
  apply span_Some in Hs as (-> & Ha & _). destruct b as [|c b]; [done|]. intros Hm.
  assert (c = "."%char) as -> by (by destruct c as [[] [] [] [] [] [] [] []]).
  bool_to_prop. destruct Hm as [_ Hb].
  assert (∀ s, string_forall is_digit s = true →
    string_forall (λ c, negb (bool_decide (c = slash))) s = true) as Hd.
  { intros s. apply string_forall_impl. intros c Hc.
    apply negb_true_iff, bool_decide_eq_false. by intros ->. }
  rewrite string_forall_app. cbn. by rewrite !Hd.
Qed.

Lemma match_version_nonempty v : match_version v = true → v ≠ "".
Proof. by intros Hm ->. Qed.

Lemma ParseNamaste_Ok name n :
  ParseNamaste name = Ok n ↔
  name = Namaste_Name n ∧ nam_Type n ≠ "" ∧ string_forall is_type_byte (nam_Type n) = true
  ∧ match_version (nam_Version n) = true.
Proof.
  destruct n as [typ ver]. unfold ParseNamaste, namasteRE, Namaste_Name, Spec_Empty.
  cbn [nam_Type nam_Version]. split.
  - destruct (CutPrefix name "0=") as [r|] eqn:Hr; [|done]. cbn [mbind option_bind].
    apply CutPrefix_Some in Hr as ->.
    destruct (span is_type_byte r) as [t v] eqn:Hs. apply span_Some in Hs as (-> & Ht & _).
    destruct (CutSuffix t "_") as [t'|] eqn:Hc; [|done]. cbn [mbind option_bind].
    apply CutSuffix_Some in Hc as ->. rewrite string_forall_app in Ht.
    destruct (negb _ && _) eqn:Hg; [|done]. intros [= -> ->]. bool_to_prop.
    destruct Hg as [Hne Hv]. pose proof (match_version_nonempty _ Hv).
    rewrite !bool_decide_false by done. cbn [orb]. rewrite <- !string_app_assoc. naive_solver.
  - intros (-> & Hne & Ht & Hv). pose proof (match_version_nonempty _ Hv).
    rewrite !bool_decide_false by done. cbn [orb]. rewrite CutPrefix_app. cbn [mbind option_bind].
    rewrite string_app_assoc, span_app; [|by rewrite string_forall_app, Ht|by apply match_version_start].
    rewrite CutSuffix_app. cbn [mbind option_bind]. by rewrite bool_decide_false, Hv by done.
Qed.

(** The declarations [ParseNamaste] accepts are the names [Name] gives to a
    type of lower-case letters and underscores with a dotted version number, so
    the two are inverse to each other there; the [Body] of a parsed declaration is
    its name without the "0=" tag, ended by a newline. *)
Theorem ParseNamaste_iff name n :
  (ParseNamaste name = Ok n ↔
   name = Namaste_Name n ∧ nam_Type n ≠ "" ∧ string_forall is_type_byte (nam_Type n) = true
   ∧ match_version (nam_Version n) = true)
  ∧ (ParseNamaste name = Ok n → name +:+ newline = "0=" +:+ Namaste_Body n).
Proof.
  split; [apply ParseNamaste_Ok|]. intros (-> & Hne & _ & Hv%match_version_nonempty)%ParseNamaste_Ok.
  unfold Namaste_Name, Namaste_Body, Spec_Empty. rewrite !bool_decide_false by done.
  cbn [orb]. by rewrite <- !string_app_assoc.
Qed.
