(* ===== verification/FS.v ===== *)
(** * File systems ([src/fs/fs.go], [src/fs/files.go], [src/fs/wrapfs.go])

    An [FS] of the program is a reference to a storage backend; [W] is the state
    of all storage.  The class [FileSystems] is the Go interfaces: an operation
    of an optional interface is an [option], the result of the type assertion.
    Operations are functions of the state, so that a backend may fail at any
    call; an iterator is the list of what it yields, and a consumer that stops
    early takes a prefix of it.  [WriteLaws] states what a writable backend
    promises about its files, and [mem_fs] is a backend that keeps the promise. *)
From S2P Require Import Prelude GoStd.

(** ** State-passing computations *)

Definition IO (W A : Type) : Type := W → W * A.

#[global] Instance IO_ret W : MRet (IO W) := λ A a w, (w, a).
#[global] Instance IO_bind W : MBind (IO W) := λ A B f m w, let '(w1, a) := m w in f a w1.

(** A read does not change the state. *)
Definition io_read {W A} (f : W → A) : IO W A := λ w, (w, f w).

Lemma io_bind_inv {W A B} (f : A → IO W B) (m : IO W A) w w' b :
  (m ≫= f) w = (w', b) ↔ ∃ w1 a, m w = (w1, a) ∧ f a w1 = (w', b).
Proof.
  unfold mbind, IO_bind. destruct (m w) as [w1 a]. split; [by exists w1, a|].
  intros (w2 & a' & [= <- <-] & Hf). exact Hf.
Qed.

(** Peel the binds of a computation that ran. *)
Ltac inv_io :=
  repeat match goal with
  | H : (_ ≫= _) _ = (_, _) |- _ =>
      apply io_bind_inv in H;
      let w := fresh "w" in let a := fresh "a" in let Ha := fresh "Ha" in
      destruct H as (w & a & Ha & H); cbn beta in H
  | H : mret _ _ = (_, _) |- _ => unfold mret, IO_ret in H; simplify_eq
  | H : io_read _ _ = (_, _) |- _ => unfold io_read in H; simplify_eq
  | H : (let '(_, _) := ?a in _) _ = (_, _) |- _ => destruct a; cbn beta iota in H
  end.

(** The value or the error of a call that does not panic. *)
Notation result A := (A + error)%type.

(** ** Modes and directory entries ([io/fs]) *)

Definition ModeDir : Z := 2 ^ 31.
Definition ModeSymlink : Z := 2 ^ 27.
Definition ModeDevice : Z := 2 ^ 26.
Definition ModeNamedPipe : Z := 2 ^ 25.
Definition ModeSocket : Z := 2 ^ 24.
Definition ModeCharDevice : Z := 2 ^ 21.
Definition ModeIrregular : Z := 2 ^ 19.
Definition ModeType : Z :=
  Z.lor ModeDir (Z.lor ModeSymlink (Z.lor ModeNamedPipe (Z.lor ModeSocket
    (Z.lor ModeDevice (Z.lor ModeCharDevice ModeIrregular))))).

Definition Mode_Type (m : Z) : Z := Z.land m ModeType.
Definition Mode_IsDir (m : Z) : bool := negb (Z.land m ModeDir =? 0).
Definition Mode_IsRegular (m : Z) : bool := Z.land m ModeType =? 0.

Record FileInfo := mkFileInfo {
  fi_Name : string;
  fi_Size : Z;
  fi_Mode : Z;
  fi_ModTime : Z
}.

Record DirEntry := mkDirEntry {
  de_Name : string;
  de_Type : Z;
  de_Info : result FileInfo
}.
Definition de_IsDir (e : DirEntry) : bool := Mode_IsDir (de_Type e).

(** What a reader delivers before it ends, and the error it ends with ([None] is
    [io.EOF]). *)
Record reader := mkReader { rd_data : string; rd_err : option error }.
Definition bytes_reader (b : string) : reader := mkReader b None.

(** [io.ReadAll] *)
Definition io_ReadAll (r : reader) : res string :=
  match rd_err r with None => Ok (rd_data r) | Some e => Err e end.

(** An open file: its bytes, [Stat] and [Close]. *)
Record File := mkFile {
  f_reader : reader;
  f_Stat : result FileInfo;
  f_Close : option error
}.

(** [src/fs/files.go:28-33] FileRef *)
Record FileRef (FS : Type) := mkFileRef {
  fr_FS : FS;
  fr_BaseDir : string;
  fr_Path : string;
  fr_Info : option FileInfo
}.
Arguments mkFileRef {FS} fr_FS fr_BaseDir fr_Path fr_Info.
Arguments fr_FS {FS} f.
Arguments fr_BaseDir {FS} f.
Arguments fr_Path {FS} f.
Arguments fr_Info {FS} f.

(** [src/fs/fs.go:47-56] WriteFS *)
Record WriteFS (W : Type) := mkWriteFS {
  w_Write : string → reader → IO W (Z * option error);
  w_Remove : string → IO W (option error);
  w_RemoveAll : string → IO W (option error)
}.
Arguments w_Write {W} w name r.
Arguments w_Remove {W} w name.
Arguments w_RemoveAll {W} w name.

(** [src/fs/fs.go:21-45] FS, DirEntriesFS, FileWalker *)
Class FileSystems (W FS : Type) := {
  #[global] FS_eq_dec :: EqDecision FS;
  OpenFile : FS → string → W → result File;
  as_DirEntriesFS : FS → option (string → W → list (result DirEntry));
  as_FileWalker : FS → option (string → W → list (res (FileRef FS)));
  as_WriteFS : FS → option (WriteFS W);
  (** [Copy dst src] of a [CopyFS] *)
  as_CopyFS : FS → option (string → string → IO W (Z * option error))
}.

Section fs.
Context `{GoEnv} {W FS : Type} `{!FileSystems W FS}.
Implicit Types (fsys : FS) (w : W).

(** [src/fs/fs.go:180-188] Write *)
Definition fs_Write (fsys : FS) (name : string) (r : reader) : IO W (Z * option error) :=
  match as_WriteFS fsys with
  | None => mret (0, Some (PathError "write" name (ErrVar ErrOpUnsupported)))
  | Some writeFS => w_Write writeFS name r
  end.

(** [errors.Join(err, closeErr)] of a deferred close. *)
Definition join_close (err closeErr : option error) : option error :=
  match err, closeErr with
  | err, None => err
  | None, Some c => Some c
  | Some e, Some c => Some (ErrJoin e c)
  end.

(** Open [src] and write its bytes to [dst]. *)
Definition copy_manually (dstFS : FS) (dst : string) (srcFS : FS) (src : string)
    : IO W (Z * option error) :=
  f ← io_read (OpenFile srcFS src);
  match f with
  | inr err => mret (0, Some (ErrWrap "opening for copy" err))
  | inl srcF =>
      '(size, err) ← fs_Write dstFS dst (f_reader srcF);
      mret (size, join_close (ErrWrap "writing during copy" <$> err) (f_Close srcF))
  end.

(** [src/fs/fs.go:66-95] Copy: a failed [Close] is joined to the error after the
    error was wrapped *)
Definition fs_Copy (dstFS : FS) (dst : string) (srcFS : FS) (src : string) : IO W (Z * option error) :=
  match as_CopyFS dstFS with
  | Some copy =>
      if decide (dstFS = srcFS) then
        '(size, err) ← copy dst src;
        mret (size, ErrWrap "during copy" <$> err)
      else copy_manually dstFS dst srcFS src
  | None => copy_manually dstFS dst srcFS src
  end.

(** [src/fs/fs.go:97-109] DirEntries *)
Definition fs_DirEntries (fsys : FS) (name : string) (w : W) : list (result DirEntry) :=
  match as_DirEntriesFS fsys with
  | None => [inr (PathError "readdir" name (ErrVar ErrOpUnsupported))]
  | Some dirEntries => dirEntries name w
  end.

(** The values before the first error of a sequence, and that error. *)
Fixpoint until_err {A} (l : list (result A)) : list A * option error :=
  match l with
  | [] => ([], None)
  | inl a :: l => let '(l, err) := until_err l in (a :: l, err)
  | inr err :: _ => ([], Some err)
  end.

Definition by_name (a b : DirEntry) : bool := String.ltb (de_Name a) (de_Name b).

(** [src/fs/fs.go:111-128] ReadDir: the entries read before an error are not sorted *)
Definition fs_ReadDir (fsys : FS) (name : string) (w : W) : list DirEntry * option error :=
  let '(entries, err) := until_err (fs_DirEntries fsys name w) in
  match err with
  | Some err => (entries, Some err)
  | None => (sort_slice by_name entries, None)
  end.

(** [src/fs/fs.go:130-138] ReadAll *)
Definition fs_ReadAll (fsys : FS) (name : string) (w : W) : res string :=
  match OpenFile fsys name w with
  | inr err => Err err
  | inl f => io_ReadAll (f_reader f)
  end.

(** [src/fs/fs.go:140-148] Remove *)
Definition fs_Remove (fsys : FS) (name : string) : IO W (option error) :=
  match as_WriteFS fsys with
  | None => mret (Some (PathError "remove" name (ErrVar ErrOpUnsupported)))
  | Some writeFS => w_Remove writeFS name
  end.

(** The loop of [RemoveAll] on the top-level directory.  An entry is named after a
    file of the directory and never ".", so that the recursive call on a
    directory entry is the backend's [RemoveAll]. *)
Fixpoint remove_entries (writeFS : WriteFS W) (entries : list (result DirEntry)) : IO W (option error) :=
  match entries with
  | [] => mret None
  | inr err :: _ => mret (Some err)
  | inl entry :: entries =>
      err ← (if de_IsDir entry then w_RemoveAll writeFS else w_Remove writeFS) (de_Name entry);
      match err with
      | Some err => mret (Some err)
      | None => remove_entries writeFS entries
      end
  end.

(** [src/fs/fs.go:150-178] RemoveAll *)
Definition fs_RemoveAll (fsys : FS) (name : string) : IO W (option error) :=
  match as_WriteFS fsys with
  | None => mret (Some (PathError "remove_all" name (ErrVar ErrOpUnsupported)))
  | Some writeFS =>
      if negb (bool_decide (name = ".")) then w_RemoveAll writeFS name
      else entries ← io_read (fs_DirEntries fsys "."); remove_entries writeFS entries
  end.

(** [src/fs/fs.go:190-198] StatFile *)
Definition fs_StatFile (fsys : FS) (name : string) (w : W) : result FileInfo :=
  match OpenFile fsys name w with
  | inr err => inr err
  | inl f => f_Stat f
  end.

(** [src/fs/fs.go:211-243] fileWalk: a consumer that goes on after an error of
    the directory makes the loop call a method of the nil entry; the fuel bounds
    the depth of the tree, without which Go's stack would overflow *)
Fixpoint fileWalk (fuel : nat) (fsys : FS) (walkRoot subDir : string) (w : W) : list (res (FileRef FS)) :=
  match fuel with
  | O => [Panic]
  | S fuel =>
      e ← fs_DirEntries fsys (Join [walkRoot; subDir]) w;
      match e with
      | inr err => [Err err; Panic]
      | inl e =>
          let entryPath := Join [subDir; de_Name e] in
          if de_IsDir e then fileWalk fuel fsys walkRoot entryPath w
          else match de_Info e with
               | inr err => [Err err; Ok (mkFileRef fsys walkRoot entryPath None)]
               | inl info => [Ok (mkFileRef fsys walkRoot entryPath (Some info))]
               end
      end
  end.

(** [src/fs/fs.go:200-209] WalkFiles *)
Definition fs_WalkFiles (fuel : nat) (fsys : FS) (dir : string) (w : W) : list (res (FileRef FS)) :=
  match as_FileWalker fsys with
  | Some walk => walk dir w
  | None => fileWalk fuel fsys dir "." w
  end.

(** ** [files.go] *)

(** [src/fs/files.go:11-23] Files *)
Definition fs_Files (fsys : FS) (names : list string) : list (FileRef FS) :=
  (λ n, mkFileRef fsys "" n None) <$> names.

(** [src/fs/files.go:35-38] FileRef.FullPath *)
Definition FullPath (f : FileRef FS) : string := Join [fr_BaseDir f; fr_Path f].

(** [src/fs/files.go:40-44] FileRef.FullPathDir *)
Definition FullPathDir (f : FileRef FS) : string := Dir (FullPath f).

(** [src/fs/files.go:46-49] FileRef.Open *)
Definition FileRef_Open (f : FileRef FS) (w : W) : result File := OpenFile (fr_FS f) (FullPath f) w.

(** [src/fs/files.go:51-56] FileRef.Stat: [Info] is the nil interface on failure *)
Definition FileRef_Stat (f : FileRef FS) (w : W) : FileRef FS * option error :=
  match fs_StatFile (fr_FS f) (FullPath f) w with
  | inl stat => (mkFileRef (fr_FS f) (fr_BaseDir f) (fr_Path f) (Some stat), None)
  | inr err => (mkFileRef (fr_FS f) (fr_BaseDir f) (fr_Path f) None, Some err)
  end.

(** [src/fs/files.go:58-71] FilterFiles *)
Definition FilterFiles (files : list (FileRef FS)) (keep : FileRef FS → bool) : list (FileRef FS) :=
  List.filter keep files.

(** [src/fs/files.go:73-87] StatFiles *)
Definition StatFiles (files : list (FileRef FS)) (w : W) : list (FileRef FS * option error) :=
  (λ file, FileRef_Stat file w) <$> files.

(** [src/fs/files.go:89-98] IsNotHidden *)
Definition IsNotHidden (info : FileRef FS) : bool :=
  forallb (λ part, match part with String "." _ => false | _ => true end)
    (split_on slash (fr_Path info)).

(** [src/fs/files.go:118-122] ValidFileType *)
Definition ValidFileType (mode : Z) : bool :=
  Mode_IsDir mode || Mode_IsRegular mode || (Mode_Type mode =? ModeIrregular).

(** [src/fs/files.go:124-144] CheckFileTypes: the file, after the call to [Stat]
    that updates it, and the error *)
Definition CheckFileTypes (files : list (FileRef FS)) (w : W) : list (FileRef FS * option error) :=
  (λ f,
    let '(f, err) := match fr_Info f with None => FileRef_Stat f w | Some _ => (f, None) end in
    match err, fr_Info f with
    | None, Some info =>
        if negb (ValidFileType (fi_Mode info))
        then (f, Some (PathError "stat" (FullPath f) (ErrVar ErrFileType)))
        else (f, None)
    | _, _ => (f, err)
    end) <$> files.
End fs.

(** [src/fs/files.go:100-116] UntilErr: the values before the first error, and
    the error the returned function reports once they are consumed *)
Fixpoint UntilErr {A} (seq : list (res A)) : list A * res unit :=
  match seq with
  | [] => ([], Ok ())
  | Ok val :: seq => let '(vals, err) := UntilErr seq in (val :: vals, err)
  | Err err :: _ => ([], Err err)
  | Panic :: _ => ([], Panic)
  end.

(** ** [wrapfs.go]: a backend over an [io/fs.FS] *)

(** Set the path of the first [*fs.PathError] of the chain, found by [errors.As];
    [None] if there is none. *)
Fixpoint set_path (name : string) (e : error) : option error :=
  match e with
  | PathError op _ e => Some (PathError op name e)
  | ErrWrap ctx e => ErrWrap ctx <$> set_path name e
  | ValidationError c e => ValidationError c <$> set_path name e
  | ErrJoin e1 e2 =>
      match set_path name e1 with
      | Some e1 => Some (ErrJoin e1 e2)
      | None => ErrJoin e1 <$> set_path name e2
      end
  | _ => None
  end.

Section wrapfs.
Context {W : Type}.
(** The wrapped file system, and [ctx.Err()] at each call. *)
Context (Open : string → W → result File).
Context (ReadDir : string → W → list DirEntry * option error).
Context (ctx_Err : W → option error).

(** [src/fs/wrapfs.go:22-48] WrapFS.OpenFile *)
Definition WrapFS_OpenFile (name : string) (w : W) : result File :=
  match ctx_Err w with
  | Some err => inr (PathError "openfile" name err)
  | None =>
      if negb (ValidPath name) then inr (PathError "openfile" name (ErrVar fs_ErrInvalid))
      else match Open name w with
           | inr err => inr (default err (set_path name err))
           | inl f => inl f
           end
  end.

(** [src/fs/wrapfs.go:50-79] WrapFS.DirEntries *)
Definition WrapFS_DirEntries (name : string) (w : W) : list (result DirEntry) :=
  if negb (ValidPath name) then [inr (PathError "readdir" name (ErrVar fs_ErrInvalid))]
  else
    let '(entries, err) := ReadDir name w in
    match entries, ctx_Err w with
    | _ :: _, Some e => [inr (PathError "readdir" name e)]
    | _, _ => (inl <$> entries) ++ match err with Some err => [inr err] | None => [] end
    end.
End wrapfs.

(** ** What a writable backend promises *)

(** [p] is below the directory [dir]; the second function includes [dir] itself. *)
Definition below (dir p : string) : bool := HasPrefix p (dir +:+ "/").
Definition under (dir p : string) : bool := bool_decide (p = dir) || below dir p.

(** The files outside a directory. *)
Definition remove_under (dir : string) (m : gmap string string) : gmap string string :=
  filter (λ e : string * string, under dir e.1 = false) m.

Lemma below_under dir p : below dir p = true → under dir p = true.
Proof. unfold under. intros ->. apply orb_true_r. Qed.

Lemma remove_under_out dir m p : under dir p = false → remove_under dir m !! p = m !! p.
Proof.
  intros Hu. unfold remove_under. destruct (m !! p) as [d|] eqn:Hm.
  - by apply map_lookup_filter_Some.
  - apply map_lookup_filter_None. by left.
Qed.

Lemma remove_under_in dir m p : under dir p = true → remove_under dir m !! p = None.
Proof.
  intros Hu. apply map_lookup_filter_None. right. intros d _. cbn. by rewrite Hu.
Qed.

(** [files w] are the regular files of the backend.  A successful write stores
    all bytes of the reader at the name; a failed one may leave anything at that
    name, and nothing else changes.  A [Remove] that fails may have removed the
    file, as when the answer to a request is lost.  [RemoveAll] removes the files
    below a directory, and a file with that name or not; one that fails may have
    removed some of them.  [fs.ErrNotExist] means that there is no such file. *)
Record WriteLaws {W FS : Type} `{!FileSystems W FS} (fsys : FS) (ops : WriteFS W)
    (files : W → gmap string string) : Prop := {
  law_as : as_WriteFS fsys = Some ops;
  law_write_ok : ∀ name r w w' n,
    w_Write ops name r w = (w', (n, None)) →
    rd_err r = None ∧ files w' = <[name := rd_data r]> (files w);
  law_write_err : ∀ name r w w' n e,
    w_Write ops name r w = (w', (n, Some e)) →
    delete name (files w') = delete name (files w);
  law_remove_ok : ∀ name w w',
    w_Remove ops name w = (w', None) → files w' = delete name (files w);
  law_remove_err : ∀ name w w' e,
    w_Remove ops name w = (w', Some e) →
    (files w' = files w ∨ files w' = delete name (files w))
    ∧ (errors_Is e fs_ErrNotExist = true → files w !! name = None);
  law_removeAll : ∀ name w w' e, name ≠ "." →
    w_RemoveAll ops name w = (w', e) →
    files w' ⊆ files w
    ∧ (∀ p, under name p = false → files w' !! p = files w !! p)
    ∧ (e = None → ∀ p, below name p = true → files w' !! p = None)
}.

(** A failed write, or removal of a file, leaves the old file alone. *)
Record AtomicWrites {W : Type} (ops : WriteFS W) (files : W → gmap string string) : Prop := {
  atomic_write : ∀ name r w w' n e, w_Write ops name r w = (w', (n, Some e)) → files w' = files w;
  atomic_remove : ∀ name w w' e, w_Remove ops name w = (w', Some e) → files w' = files w
}.

(** What reads return: the bytes of a file that is there, read to its end. *)
Record ReadLaws {W FS : Type} `{!FileSystems W FS} (fsys : FS) (files : W → gmap string string) : Prop := {
  law_open_ok : ∀ name w f, OpenFile fsys name w = inl f →
    ∃ data, files w !! name = Some data ∧ (rd_err (f_reader f) = None → rd_data (f_reader f) = data);
  law_open_err : ∀ name w e, OpenFile fsys name w = inr e →
    errors_Is e fs_ErrNotExist = true → files w !! name = None
}.

(** What a backend that copies files itself promises; [Copy] is not atomic. *)
Record CopyLaws {W FS : Type} `{!FileSystems W FS} (fsys : FS) (files : W → gmap string string) : Prop := {
  law_copy_ok : ∀ copy dst src w w' n, as_CopyFS fsys = Some copy →
    copy dst src w = (w', (n, None)) →
    ∃ data, files w !! src = Some data ∧ files w' = <[dst := data]> (files w);
  law_copy_err : ∀ copy dst src w w' n e, as_CopyFS fsys = Some copy →
    copy dst src w = (w', (n, Some e)) → delete dst (files w') = delete dst (files w)
}.

(** ** A backend in memory *)

(** Names of the entries of a directory, in order and without repetition. *)
Definition child_of (dir p : string) : option (string * bool) :=
  let prefix := if bool_decide (dir = ".") then "" else dir +:+ "/" in
  rest ← CutPrefix p prefix;
  let '(name, _, isDir) := Cut rest "/" in Some (name, isDir).

Definition mem_children (m : gmap string string) (dir : string) : gmap string bool :=
  list_to_map (omap (child_of dir) ((map_to_list m).*1)).

Definition mem_file (m : gmap string string) (name data : string) : File :=
  mkFile (bytes_reader data) (inl (mkFileInfo (Base name) (len data) 420 0)) None.

Definition mem_not_exist (op name : string) : error := PathError op name (ErrVar fs_ErrNotExist).

Definition mem_entry (e : string * bool) : DirEntry :=
  mkDirEntry e.1 (if e.2 then ModeDir else 0)
    (inl (mkFileInfo e.1 0 (if e.2 then ModeDir else 420) 0)).

(** The state is the files; writes and removals always succeed on valid paths. *)
Definition mem_ops : WriteFS (gmap string string) := {|
  w_Write := λ name r m,
    match rd_err r with
    | Some e => (m, (0, Some (PathError "write" name e)))
    | None => (<[name := rd_data r]> m, (len (rd_data r), None))
    end;
  w_Remove := λ name m,
    match m !! name with
    | Some _ => (delete name m, None)
    | None => (m, Some (mem_not_exist "remove" name))
    end;
  w_RemoveAll := λ name m, (remove_under name m, None)
|}.

Definition mem_fs : FileSystems (gmap string string) unit := {|
  FS_eq_dec := unit_eq_dec;
  OpenFile := λ _ name m,
    match m !! name with
    | Some data => inl (mem_file m name data)
    | None => inr (mem_not_exist "open" name)
    end;
  as_DirEntriesFS := λ _, Some (λ name m,
    let c := mem_children m name in
    if decide (c = ∅ ∧ name ≠ ".") then [inr (mem_not_exist "readdir" name)]
    else (λ e, inl (mem_entry e)) <$> merge_sort (λ a b, String.le a.1 b.1) (map_to_list c));
  as_FileWalker := λ _, None;
  as_WriteFS := λ _, Some mem_ops;
  as_CopyFS := λ _, None
|}.

Lemma mem_write_laws : @WriteLaws _ _ mem_fs () mem_ops (λ m, m).
Proof.
  split; cbn; [done| | | | |].
  - intros name r m m' n. destruct (rd_err r); [done|]. by intros [= <- _].
  - intros name r m m' n e. destruct (rd_err r); [|done]. by intros [= <- _ _].
  - intros name m m'. destruct (m !! name); [|done]. by intros [= <-].
  - intros name m m' e. destruct (m !! name) eqn:Hm; [done|]. intros [= <- <-]. split; [by left|done].
  - intros name m m' e _ [= <- <-]. split_and!.
    + apply map_filter_subseteq.
    + intros p. apply remove_under_out.
    + intros _ p Hp. by apply remove_under_in, below_under.
Qed.

Lemma mem_read_laws : @ReadLaws _ _ mem_fs () (λ m, m).
Proof.
  split; cbn; intros name m.
  - intros f. destruct (m !! name) as [data|] eqn:Hm; [|done]. intros [= <-]. exists data. done.
  - intros e. by destruct (m !! name).
Qed.

Lemma mem_copy_laws : @CopyLaws _ _ mem_fs () (λ m, m).
Proof. by split. Qed.

Lemma mem_atomic : AtomicWrites mem_ops (λ m, m).
Proof.
  split; cbn.
  - intros name r m m' n e. destruct (rd_err r); [|done]. by intros [= <- _ _].
  - intros name m m' e. destruct (m !! name); [done|]. by intros [= <- _].
Qed.
