(* ===== verification/S3.v ===== *)
(** * The S3 backend ([src/fs/s3])

    The functions of [s3.go], the multipart copy of [multicopy.go] and the methods of
    [BucketFS].  The S3 service and the AWS packages are arguments: the class
    [S3API] has the calls the code makes, on the state [W] of all storage. *)
From S2P Require Import Prelude GoStd FS.

Definition megabyte : Z := 1024 * 1024.
Definition partSizeIncrement : Z := 1 * megabyte.
Definition fileMode : Z := Z.lor 420 ModeIrregular.
Definition dirMode : Z := Z.lor 493 ModeDir.
Definition maxKeys : Z := 1000.
Definition defaultCopyPartConcurrency : Z := 6.
Definition defaultCopyPartSize : Z := 32 * megabyte.

(** ** The service *)

Record HeadObjectOutput := mkHead {
  ho_ContentLength : option Z;
  ho_ETag : string;
  ho_LastModified : Z
}.

(** An entry of [Contents], whose pointers the service always sets. *)
Record S3Item := mkItem { si_Key : string; si_Size : Z; si_LastModified : Z }.

Record ListInput := mkListInput {
  li_Prefix : option string;
  li_Delimiter : option string;
  li_ContinuationToken : option string;
  li_MaxKeys : Z
}.
Record ListOutput := mkListOutput {
  lo_CommonPrefixes : list string;
  lo_Contents : list S3Item;
  lo_NextContinuationToken : option string
}.

Record GetObjectInput := mkGetInput {
  gi_Bucket : string;
  gi_Key : string;
  gi_IfMatch : string;
  gi_IfUnmodifiedSince : Z;
  gi_Range : option string
}.

Record PutObjectInput := mkPutInput {
  pi_Bucket : string;
  pi_Key : string;
  pi_Body : reader;
  pi_ContentLength : option Z
}.

Record UploadPartCopyInput := mkPartInput {
  pc_Bucket : string;
  pc_CopySource : string;
  pc_Key : string;
  pc_UploadId : string;
  pc_PartNumber : Z;
  pc_CopySourceRange : string
}.
Record CompletedPart := mkCompleted { cp_PartNumber : Z; cp_ETag : string }.

(** The dynamic type of a reader, as the type switch of [write] sees it. *)
Inductive reader_kind := KFile (stat : result FileInfo) | KBytes (size : Z) | KLimited (n : Z) | KOther.

(** The calls; [UploadPartCopy] gets whether its context is cancelled and returns
    the tag of [CopyPartResult], a pointer that may be nil; [Upload] is the method
    of the upload manager and returns the number of bytes it read from the body.
    A [Read] of a body with bytes left gives at least one of them, and
    [body_chunk] of them if the buffer is large enough; one that takes the last
    bytes may return the end of the body with them ([body_ends]), as an
    [io.Reader] is free to do. *)
Class S3API (W : Type) := {
  HeadObject : string → string → W → result HeadObjectOutput;
  GetObject : GetObjectInput → W → result reader;
  ListObjectsV2 : string → ListInput → W → result ListOutput;
  DeleteObject : string → string → IO W (option error);
  CopyObject : string → string → string → IO W (option error);
  CreateMultipartUpload : string → string → IO W (result string);
  UploadPartCopy : bool → UploadPartCopyInput → IO W (result (option string));
  CompleteMultipartUpload : string → string → string → list CompletedPart → IO W (option error);
  AbortMultipartUpload : string → string → string → IO W (option error);
  Upload : PutObjectInput → IO W (Z * option error);
  body_chunk : string → Z → nat;
  body_ends : string → Z → bool;
  body_Close : reader → option error;
  kind_of_reader : reader → reader_kind;
  (** [errors.As] with [types.NotFound] and [types.NoSuchKey] *)
  as_NotFound : error → bool;
  as_NoSuchKey : error → bool;
  (** the text of an error contains [copySrcTooLarge] *)
  says_too_large : error → bool;
  url_QueryEscape : string → string;
  MinUploadPartSize : Z;
  MaxUploadParts : Z
}.

(** [src/fs/s3/s3.go:433-436] pathErr *)
Definition pathErr (op path : string) (err : error) : error := PathError op path err.

(** ** Part sizes and ranges *)

(** The loop of [adjustPartSize]; the arithmetic is that of int64 and the
    conversion to int32. *)
Fixpoint adjust_loop (fuel : nat) (totalSize psize maxParts : Z) : option (Z * Z) :=
  match fuel with
  | O => None
  | S fuel =>
      let pcount := wrap32 (Z.quot totalSize psize) in
      if pcount <? maxParts then Some (psize, pcount)
      else adjust_loop fuel totalSize (wrap64 (psize + partSizeIncrement)) maxParts
  end.

(** When the part size is at least [totalSize / maxParts + 1] there are fewer than
    [maxParts] full parts, so this many increments are enough. *)
Definition adjust_fuel (totalSize maxParts : Z) : nat :=
  S (S (Z.to_nat (Z.quot totalSize (maxParts * partSizeIncrement)))).

(** [src/fs/s3/s3.go:438-453] adjustPartSize: [None] if the fuel ran out *)
Definition adjustPartSize (totalSize initialPartSize maxParts : Z) : option (Z * Z) :=
  '(psize, pcount) ← adjust_loop (adjust_fuel totalSize maxParts) totalSize initialPartSize maxParts;
  Some (psize, if 0 <? Z.rem totalSize psize then wrap32 (pcount + 1) else pcount).

(** The first and the last byte of a part. *)
Definition byte_bounds (partNum partSize totalSize : Z) : Z * Z :=
  let start := wrap64 ((partNum - 1) * partSize) in
  let end_ := wrap64 (partNum * partSize - 1) in
  (start, if totalSize - 1 <? end_ then totalSize - 1 else end_).

Definition range_string (first last : Z) : string := "bytes=" +:+ Itoa first +:+ "-" +:+ Itoa last.

(** [src/fs/s3/s3.go:455-467] byteRange *)
Definition byteRange (partNum partSize totalSize : Z) : string :=
  let '(start, end_) := byte_bounds partNum partSize totalSize in range_string start end_.

Section s3.
Context `{GoEnv} {W : Type} `{!S3API W}.
Implicit Types (w : W) (buck key name dir : string).

(** [src/fs/s3/s3.go:469-476] errIsNotExist *)
Definition errIsNotExist (err : error) : bool := as_NotFound err || as_NoSuchKey err.

(** [src/fs/s3/s3.go:400-419] iofsInfo: as a file's information and as an entry *)
Definition s3_info (name : string) (size mode modTime : Z) : FileInfo := mkFileInfo name size mode modTime.
Definition s3_entry (info : FileInfo) : DirEntry := mkDirEntry (fi_Name info) (Mode_Type (fi_Mode info)) (inl info).

(** ** Reading *)

(** [src/fs/s3/s3.go:312-321] s3File *)
Record s3File := mkS3File {
  sf_bucket : string;
  sf_key : string;
  sf_body : option reader;
  sf_info : HeadObjectOutput;
  sf_offset : Z
}.

(** [src/fs/s3/s3.go:47-72] openFile *)
Definition s3_openFile buck name w : result s3File :=
  if negb (ValidPath name) || bool_decide (name = ".") then inr (pathErr "open" name (ErrVar fs_ErrInvalid))
  else match HeadObject buck name w with
       | inr err =>
           inr (PathError "open" name (if errIsNotExist err then ErrVar fs_ErrNotExist else err))
       | inl headOut => inl (mkS3File buck name None headOut 0)
       end.

(** [src/fs/s3/s3.go:323-331] s3File.Stat: a missing length is a nil pointer *)
Definition s3File_Stat (f : s3File) : res FileInfo :=
  match ho_ContentLength (sf_info f) with
  | None => Panic
  | Some size => Ok (s3_info (Base (sf_key f)) size fileMode (ho_LastModified (sf_info f)))
  end.

(** [Read] of a body: some of its bytes, and the error it ends with when there are
    no more, or already with the last ones. *)
Definition body_Read (b : reader) (n : Z) : reader * (string * option error) :=
  let end_ := Some (default (ErrVar io_EOF) (rd_err b)) in
  match rd_data b with
  | "" => (b, ("", end_))
  | data =>
      let k := if n <=? 0 then 0%nat else Nat.max 1 (Nat.min (body_chunk data n) (Z.to_nat n)) in
      let rest := string_drop k data in
      (mkReader rest (rd_err b),
        (string_take k data, if bool_decide (rest = "") && body_ends data n then end_ else None))
  end.

(** The request of [Read] for the rest of a file. *)
Definition get_params (f : s3File) : GetObjectInput :=
  mkGetInput (sf_bucket f) (sf_key f) (ho_ETag (sf_info f)) (ho_LastModified (sf_info f))
    (if 0 <? sf_offset f then Some ("bytes=" +:+ Itoa (sf_offset f) +:+ "-") else None).

(** [src/fs/s3/s3.go:333-359] s3File.Read, for a buffer of n bytes *)
Definition s3File_Read (f : s3File) (n : Z) w : res (s3File * (string * option error)) :=
  match ho_ContentLength (sf_info f) with
  | None => Panic
  | Some size =>
      if size <=? sf_offset f then Ok (f, ("", Some (ErrVar io_EOF)))
      else
        match (match sf_body f with Some b => inl b | None => GetObject (get_params f) w end) with
        | inr err => Ok (f, ("", Some err))
        | inl b =>
            let '(b, (data, err)) := body_Read b n in
            Ok (mkS3File (sf_bucket f) (sf_key f) (Some b) (sf_info f) (wrap64 (sf_offset f + len data)), (data, err))
        end
  end.

(** [src/fs/s3/s3.go:361-366] s3File.Close *)
Definition s3File_Close (f : s3File) : option error := b ← sf_body f; body_Close b.

(** [src/fs/s3/s3.go:368-370] s3File.Name *)
Definition s3File_Name (f : s3File) : string := Base (sf_key f).

(** [io.SeekStart], [io.SeekCurrent], [io.SeekEnd] and any other value. *)
Inductive whence := SeekStart | SeekCurrent | SeekEnd | OtherWhence.

(** [src/fs/s3/s3.go:372-398] s3File.Seek *)
Definition s3File_Seek (f : s3File) (offset : Z) (wh : whence) : res (s3File * (Z * option error)) :=
  match ho_ContentLength (sf_info f) with
  | None => Panic
  | Some size =>
      let newOffset := match wh with
                       | SeekStart => Some offset
                       | SeekCurrent => Some (wrap64 (sf_offset f + offset))
                       | SeekEnd => Some (wrap64 (size + offset))
                       | OtherWhence => None
                       end in
      match newOffset with
      | None => Ok (f, (0, Some (ErrNew "s3: invalid whence")))
      | Some newOffset =>
          if newOffset <? 0 then Ok (f, (0, Some (ErrNew "s3: negative position")))
          else
            let body := if bool_decide (newOffset = sf_offset f) then sf_body f else None in
            Ok (mkS3File (sf_bucket f) (sf_key f) body (sf_info f) newOffset, (newOffset, None))
      end
  end.

(** ** Listing *)

(** The loops over the pages of a listing end when there is no further token; the
    fuel bounds the number of pages. *)
Definition err_pages : error := ErrNew "more pages than the fuel".

Definition list_prefix dir : option string := if bool_decide (dir = ".") then None else Some (dir +:+ "/").

Definition item_info (item : S3Item) : FileInfo :=
  s3_info (Base (si_Key item)) (si_Size item) fileMode (si_LastModified item).

(** The entries of one page. *)
Definition page_entries (page : ListOutput) : list DirEntry :=
  ((λ p, s3_entry (s3_info (Base p) 0 dirMode 0)) <$> lo_CommonPrefixes page)
  ++ ((λ item, s3_entry (item_info item)) <$> lo_Contents page).

Fixpoint dir_pages (fuel : nat) buck dir (token : option string) (prefixHasContent : bool) w : list (result DirEntry) :=
  match fuel with
  | O => [inr err_pages]
  | S fuel =>
      match ListObjectsV2 buck (mkListInput (list_prefix dir) (Some "/") token maxKeys) w with
      | inr err => [inr (pathErr "readdir" dir err)]
      | inl page =>
          match page_entries page with
          | [] => if prefixHasContent then [] else [inr (pathErr "readdir" dir (ErrVar fs_ErrNotExist))]
          | entries =>
              (inl <$> sort_slice by_name entries)
              ++ match lo_NextContinuationToken page with
                 | None => []
                 | token => dir_pages fuel buck dir token true w
                 end
          end
      end
  end.

(** [src/fs/s3/s3.go:74-137] dirEntries *)
Definition s3_dirEntries (fuel : nat) buck dir w : list (result DirEntry) :=
  if negb (ValidPath dir) then [inr (pathErr "readdir" dir (ErrVar fs_ErrInvalid))]
  else dir_pages fuel buck dir None false w.

(** The file of a key: its path is relative to the directory. *)
Definition walk_ref {FS : Type} (fsys : FS) dir (item : S3Item) : FileRef FS :=
  mkFileRef fsys dir
    (if bool_decide (dir = ".") then si_Key item else TrimPrefix (si_Key item) (dir +:+ "/")) (Some (item_info item)).

Fixpoint walk_pages {FS : Type} (fuel : nat) (fsys : FS) buck dir (token : option string) w : list (res (FileRef FS)) :=
  match fuel with
  | O => [Panic]
  | S fuel =>
      match ListObjectsV2 buck (mkListInput (list_prefix dir) None token maxKeys) w with
      | inr err => [Err (pathErr "list_files" dir err)]
      | inl page =>
          ((λ item, Ok (walk_ref fsys dir item)) <$> lo_Contents page)
          ++ match lo_NextContinuationToken page with
             | None => []
             | token => walk_pages fuel fsys buck dir token w
             end
      end
  end.

(** [src/fs/s3/s3.go:264-310] walkFiles: [fsys] is set by [BucketFS.WalkFiles] *)
Definition s3_walkFiles {FS : Type} (fuel : nat) (fsys : FS) buck dir w : list (res (FileRef FS)) :=
  if negb (ValidPath dir) then [Err (pathErr "list_files" dir (ErrVar fs_ErrInvalid))]
  else walk_pages fuel fsys buck dir None w.

(** ** Writing *)

(** [src/fs/s3/s3.go:139-174] write *)
Definition s3_write buck key (r : reader) (opts : list (PutObjectInput → PutObjectInput)) : IO W (Z * option error) :=
  if negb (ValidPath key) || bool_decide (key = ".") then mret (0, Some (pathErr "write" key (ErrVar fs_ErrInvalid)))
  else
    let putInput := foldl (λ p o, o p) (mkPutInput "" "" (bytes_reader "") None) opts in
    let length := match pi_ContentLength putInput with
                  | Some n => Some n
                  | None =>
                      let size := match kind_of_reader r with
                                  | KFile (inl info) => fi_Size info
                                  | KFile (inr _) | KOther => -1
                                  | KBytes n | KLimited n => n
                                  end in
                      if -1 <? size then Some size else None
                  end in
    '(size, err) ← Upload (mkPutInput buck key r length);
    match err with
    | Some err => mret (0, Some (PathError "write" key err))
    | None => mret (size, None)
    end.

(** [src/fs/s3/s3.go:217-232] remove *)
Definition s3_remove buck name : IO W (option error) :=
  if negb (ValidPath name) then mret (Some (pathErr "remove" name (ErrVar fs_ErrInvalid)))
  else if bool_decide (name = ".") then mret (Some (pathErr "remove" name (ErrVar fs_ErrNotExist)))
  else
    err ← DeleteObject buck name;
    mret (pathErr "remove" name <$> err).

(** The loop over the objects of a page. *)
Fixpoint delete_items buck name (items : list S3Item) : IO W (option error) :=
  match items with
  | [] => mret None
  | obj :: items =>
      err ← DeleteObject buck (si_Key obj);
      match err with
      | Some err => mret (Some (pathErr "removeall" name err))
      | None => delete_items buck name items
      end
  end.

Fixpoint remove_pages (fuel : nat) buck name (token : option string) : IO W (option error) :=
  match fuel with
  | O => mret (Some err_pages)
  | S fuel =>
      list ← io_read (ListObjectsV2 buck (mkListInput (list_prefix name) None token maxKeys));
      match list with
      | inr err => mret (Some (pathErr "removeall" name err))
      | inl page =>
          err ← delete_items buck name (lo_Contents page);
          match err, lo_NextContinuationToken page with
          | Some err, _ => mret (Some err)
          | None, None => mret None
          | None, token => remove_pages fuel buck name token
          end
      end
  end.

(** [src/fs/s3/s3.go:234-262] removeAll *)
Definition s3_removeAll (fuel : nat) buck name : IO W (option error) :=
  if negb (ValidPath name) then mret (Some (pathErr "removeall" name (ErrVar fs_ErrInvalid)))
  else remove_pages fuel buck name None.

(** ** Copying *)

(** [src/fs/s3/multicopy.go:19-31] MultiCopier *)
Record MultiCopier := mkMultiCopier { mc_PartSize : Z; mc_Concurrency : Z }.

(** [src/fs/s3/multicopy.go:33-43] NewMultiCopier *)
Definition NewMultiCopier (opts : list (MultiCopier → MultiCopier)) : MultiCopier :=
  foldl (λ c o, o c) (mkMultiCopier 0 0) opts.

(** The goroutines that copy the parts, in the order in which their requests are
    made: after the first error the context of the others is cancelled; a nil
    [CopyPartResult] is dereferenced, which ends the program. *)
Fixpoint copy_parts (buck dst copySource uploadId : string) (psize srcSize : Z) (parts : list Z)
    (completed : gmap Z string) (failed : option error) : IO W (res (gmap Z string * option error)) :=
  match parts with
  | [] => mret (Ok (completed, failed))
  | partNum :: parts =>
      result ← UploadPartCopy (match failed with Some _ => true | None => false end)
                 (mkPartInput buck copySource dst uploadId partNum (byteRange partNum psize srcSize));
      match result with
      | inl None => mret Panic
      | inl (Some etag) => copy_parts buck dst copySource uploadId psize srcSize parts (<[partNum := etag]> completed) failed
      | inr err => copy_parts buck dst copySource uploadId psize srcSize parts completed
                     (match failed with Some e => Some e | None => Some err end)
      end
  end.

(** The slice of completed parts. *)
Definition completed_parts (pcount : Z) (completed : gmap Z string) : list CompletedPart :=
  (λ i, mkCompleted (i + 1) (default "" (completed !! (i + 1)))) <$> seqZ 0 pcount.

(** The deferred function of [Copy]: complete the upload, or abort it. *)
Definition finish_upload buck (dst uploadId : string) (partCount : Z) (completed : gmap Z string) (err : option error)
    : IO W (option error) :=
  match err with
  | Some err =>
      abortErr ← AbortMultipartUpload buck dst uploadId;
      mret (Some match abortErr with Some abortErr => ErrJoin err abortErr | None => ErrWrap "" err end)
  | None => CompleteMultipartUpload buck dst uploadId (completed_parts partCount completed)
  end.

(** [src/fs/s3/multicopy.go:45-130] MultiCopier.Copy: the copier with its fields
    set to the defaults, and the result; [make] panics for a negative number of
    parts; [copy_parts] never gives an [Err] *)
Definition MultiCopier_Copy (c : MultiCopier) buck (dst src : string) (srcHead : option HeadObjectOutput)
    : IO W (MultiCopier * res (Z * option error)) :=
  head ← io_read (λ w, match srcHead with Some h => inl h | None => HeadObject buck src w end);
  match head with
  | inr err => mret (c, Ok (0, Some (pathErr "copy" src err)))
  | inl head =>
      match ho_ContentLength head with
      | None => mret (c, Ok (0, Some (pathErr "copy" src (ErrNew "missing content length"))))
      | Some srcSize =>
          let c := mkMultiCopier (if mc_PartSize c <? MinUploadPartSize then defaultCopyPartSize else mc_PartSize c)
                     (if mc_Concurrency c <? 1 then defaultCopyPartConcurrency else mc_Concurrency c) in
          match adjustPartSize srcSize (mc_PartSize c) MaxUploadParts with
          | None => mret (c, Panic)
          | Some (psize, partCount) =>
              if partCount <? 0 then mret (c, Panic)
              else
                newUp ← CreateMultipartUpload buck dst;
                match newUp with
                | inr err => mret (c, Ok (srcSize, Some (pathErr "copy" dst err)))
                | inl uploadId =>
                    parts ← copy_parts buck dst (url_QueryEscape (buck +:+ "/" +:+ src)) uploadId psize srcSize
                      (interleave 110 ((λ i, i + 1) <$> seqZ 0 partCount)) ∅ None;
                    match parts with
                    | Ok (completed, err) =>
                        err ← finish_upload buck dst uploadId partCount completed err;
                        mret (c, Ok (srcSize, err))
                    | Err e => mret (c, Err e)
                    | Panic => mret (c, Panic)
                    end
                end
          end
      end
  end.

(** [src/fs/s3/s3.go:176-215] copy *)
Definition s3_copy buck (dst src : string) (opts : list (MultiCopier → MultiCopier)) : IO W (res (Z * option error)) :=
  if negb (ValidPath src) || bool_decide (src = ".") then mret (Ok (0, Some (pathErr "copy" src (ErrVar fs_ErrInvalid))))
  else if negb (ValidPath dst) || bool_decide (dst = ".") then mret (Ok (0, Some (pathErr "copy" dst (ErrVar fs_ErrInvalid))))
  else
    head ← io_read (HeadObject buck src);
    match head with
    | inr err => mret (Ok (0, Some (PathError "copy" src (if errIsNotExist err then ErrVar fs_ErrNotExist else err))))
    | inl srcHead =>
        err ← CopyObject buck (url_QueryEscape (buck +:+ "/" +:+ src)) dst;
        match err with
        | Some err =>
            if says_too_large err then
              '(_, r) ← MultiCopier_Copy (NewMultiCopier opts) buck dst src (Some srcHead);
              mret r
            else mret (Ok (0, Some (pathErr "copy" src err)))
        | None =>
            mret match ho_ContentLength srcHead with None => Panic | Some size => Ok (size, None) end
        end
    end.

(** ** The backend ([fs.go]) *)

(** [src/fs/s3/fs.go:17-24] BucketFS: the client and the uploader are [S3API] *)
Record BucketFS := mkBucketFS {
  bf_bucket : string;
  bf_multiPartCopyOptions : list (MultiCopier → MultiCopier)
}.

(** [src/fs/s3/fs.go:26-39] NewBucketFS *)
Definition NewBucketFS (bucket : string) (opts : list (BucketFS → BucketFS)) : BucketFS :=
  foldl (λ fsys o, o fsys) (mkBucketFS bucket []) opts.

(** [src/fs/s3/fs.go:57-61] WithMultiPartCopyOption *)
Definition WithMultiPartCopyOption (opts : list (MultiCopier → MultiCopier)) (bf : BucketFS) : BucketFS :=
  mkBucketFS (bf_bucket bf) opts.

(** [src/fs/s3/fs.go:68-71] BucketFS.Bucket *)
Definition BucketFS_Bucket (f : BucketFS) : string := bf_bucket f.

(** [src/fs/s3/fs.go:73-76] BucketFS.OpenFile *)
Definition BucketFS_OpenFile (f : BucketFS) (name : string) w : result s3File := s3_openFile (bf_bucket f) name w.

(** [src/fs/s3/fs.go:78-81] BucketFS.DirEntries *)
Definition BucketFS_DirEntries (fuel : nat) (f : BucketFS) (dir : string) w : list (result DirEntry) :=
  s3_dirEntries fuel (bf_bucket f) dir w.

(** [src/fs/s3/fs.go:87-91] BucketFS.WriteWithOptions *)
Definition BucketFS_WriteWithOptions (f : BucketFS) (name : string) (r : reader)
    (opts : list (PutObjectInput → PutObjectInput)) : IO W (Z * option error) := s3_write (bf_bucket f) name r opts.

(** [src/fs/s3/fs.go:83-85] BucketFS.Write *)
Definition BucketFS_Write (f : BucketFS) (name : string) (r : reader) : IO W (Z * option error) :=
  BucketFS_WriteWithOptions f name r [].

(** [src/fs/s3/fs.go:93-96] BucketFS.Copy *)
Definition BucketFS_Copy (f : BucketFS) (dst src : string) : IO W (res (Z * option error)) :=
  s3_copy (bf_bucket f) dst src (bf_multiPartCopyOptions f).

(** [src/fs/s3/fs.go:98-101] BucketFS.Remove *)
Definition BucketFS_Remove (f : BucketFS) (name : string) : IO W (option error) := s3_remove (bf_bucket f) name.

(** [src/fs/s3/fs.go:103-106] BucketFS.RemoveAll *)
Definition BucketFS_RemoveAll (fuel : nat) (f : BucketFS) (name : string) : IO W (option error) :=
  s3_removeAll fuel (bf_bucket f) name.

(** [src/fs/s3/fs.go:108-123] BucketFS.WalkFiles: [ref] is the backend itself *)
Definition BucketFS_WalkFiles {FS : Type} (fuel : nat) (ref : FS) (f : BucketFS) (dir : string) w : list (res (FileRef FS)) :=
  s3_walkFiles fuel ref (bf_bucket f) dir w.

(** *** The backend as an [FS] of the program

    A [File] of FS.v is what a consumer of the open file reads until the end. *)

(** Read a file to its end, with a buffer of 32 KiB as [io.Copy] has. *)
Fixpoint drain (fuel : nat) (f : s3File) w : reader * s3File :=
  match fuel with
  | O => (mkReader "" (Some (ErrNew "more reads than the fuel")), f)
  | S fuel =>
      match s3File_Read f 32768 w with
      | Ok (f, (data, None)) => let '(r, f) := drain fuel f w in (mkReader (data +:+ rd_data r) (rd_err r), f)
      | Ok (f, (data, Some err)) => (mkReader data (match err with ErrVar io_EOF => None | _ => Some err end), f)
      | Err err => (mkReader "" (Some err), f)
      | Panic => (mkReader "" (Some (ErrNew "panic")), f)
      end
  end.

(** Every [Read] but the last delivers a byte. *)
Definition s3_File (f : s3File) w : File :=
  let '(r, f') := drain (S (S (Z.to_nat (default 0 (ho_ContentLength (sf_info f)))))) f w in
  mkFile r (match s3File_Stat f with Ok info => inl info | Err e => inr e | Panic => inr (ErrNew "panic") end)
    (s3File_Close f').

(** The writing methods. *)
Definition bucket_ops (fuel : nat) (f : BucketFS) : WriteFS W := {|
  w_Write := BucketFS_Write f;
  w_Remove := BucketFS_Remove f;
  w_RemoveAll := BucketFS_RemoveAll fuel f
|}.

Definition no_panic (r : res (Z * option error)) : Z * option error :=
  match r with Ok r => r | Err e => (0, Some e) | Panic => (0, Some (ErrNew "panic")) end.

(** One bucket; the fuel is the number of pages of a listing. *)
Definition bucket_fs (fuel : nat) (f : BucketFS) : FileSystems W unit := {|
  FS_eq_dec := unit_eq_dec;
  OpenFile := λ _ name w, match BucketFS_OpenFile f name w with inl file => inl (s3_File file w) | inr err => inr err end;
  as_DirEntriesFS := λ _, Some (BucketFS_DirEntries fuel f);
  as_FileWalker := λ _, Some (BucketFS_WalkFiles fuel () f);
  as_WriteFS := λ _, Some (bucket_ops fuel f);
  as_CopyFS := λ _, Some (λ dst src, r ← BucketFS_Copy f dst src; mret (no_panic r))
|}.
End s3.
