(* ===== verification/S3Spec.v ===== *)
(** * What the S3 backend promises ([src/fs/s3])

    The parts of a multipart copy cover the source, an open file reads like the
    object's bytes at a position, and, on a service that keeps its documented
    promises ([S3Laws]), a bucket is a backend that keeps the laws of FS.v with
    atomic writes. *)
From S2P Require Import Prelude GoStd FS S3.

(** ** The parts of a copy *)

Lemma adjust_loop_spec fuel total psize maxParts :
  0 ≤ total → 0 < psize → 0 < maxParts < 2 ^ 31 → total < psize * 2 ^ 31 →
  psize + Z.of_nat fuel * partSizeIncrement < 2 ^ 63 →
  total < maxParts * (psize + Z.of_nat fuel * partSizeIncrement) →
  ∃ n psize', 0 ≤ n ∧ psize' = psize + n * partSizeIncrement ∧ psize' < 2 ^ 63
    ∧ adjust_loop (S fuel) total psize maxParts = Some (psize', total / psize') ∧ total / psize' < maxParts
    ∧ (0 < n → maxParts ≤ total / (psize' - partSizeIncrement)).
Proof.
  assert (0 < partSizeIncrement) as Hinc by done.
  revert psize. induction fuel as [|fuel IH]; intros psize Ht Hp Hm H31 H63 Hfuel.
  all: assert (0 ≤ total / psize < 2 ^ 31) as Hq by
    (split; [apply Z.div_pos; lia|apply Z.div_lt_upper_bound; lia]).
  all: cbn [adjust_loop]; rewrite Z.quot_div_nonneg, wrap32_id by lia.
  - assert (total / psize < maxParts) as Hlt by (apply Z.div_lt_upper_bound; lia).
    rewrite (proj2 (Z.ltb_lt _ _) Hlt). exists 0, psize. split_and!; [done|lia|lia|done|done|lia].
  - destruct (Z.ltb_spec (total / psize) maxParts) as [Hlt|Hge].
    { exists 0, psize. split_and!; [done|lia|lia|done|done|lia]. }
    rewrite wrap64_id by (unfold in_int64; lia).
    destruct (IH (psize + partSizeIncrement)) as (n & psize' & Hn & -> & Hb & He & Hlt & Hmin); [lia..|].
    exists (n + 1), (psize + (n + 1) * partSizeIncrement).
    replace (psize + (n + 1) * partSizeIncrement) with (psize + partSizeIncrement + n * partSizeIncrement) by lia.
    split_and!; [lia|lia|done|done|done|]. intros _. destruct (Z.eq_dec n 0) as [->|Hne].
    + replace (_ - _) with psize by lia. done.
    + apply Hmin. lia.
Qed.

(** The number of parts of that size. *)
Definition parts_of (total psize : Z) : Z := (total + psize - 1) / psize.

Lemma parts_of_spec total psize : 0 ≤ total → 0 < psize →
  parts_of total psize = total / psize + (if 0 <? Z.rem total psize then 1 else 0).
Proof.
  intros Ht Hp. unfold parts_of. rewrite Z.rem_mod_nonneg by lia.
  pose proof (Z.div_mod total psize) as Hd. pose proof (Z.mod_pos_bound total psize Hp) as Hb.
  destruct (Z.ltb_spec 0 (total `mod` psize)); symmetry; eapply Z.div_unique_pos.
  - instantiate (1 := total `mod` psize - 1). lia.
  - lia.
  - instantiate (1 := psize - 1). lia.
  - lia.
Qed.

Definition sizes_ok (total init maxParts : Z) : Prop :=
  0 ≤ total < 2 ^ 61 ∧ 0 < init < 2 ^ 61 ∧ total < init * 2 ^ 31 ∧ 0 < maxParts < 2 ^ 31.

Lemma adjustPartSize_spec total init maxParts : sizes_ok total init maxParts →
  ∃ n psize, 0 ≤ n ∧ psize = init + n * partSizeIncrement ∧ psize < 2 ^ 62
    ∧ adjustPartSize total init maxParts = Some (psize, parts_of total psize)
    ∧ 0 ≤ parts_of total psize ≤ maxParts
    ∧ (0 < n → maxParts ≤ total / (psize - partSizeIncrement)).
Proof.
  intros (Ht & Hi & H31 & Hm). assert (0 < partSizeIncrement < 2 ^ 21) as Hinc by done.
  set (q := total / (maxParts * partSizeIncrement)).
  assert (0 ≤ q) as Hq by (apply Z.div_pos; lia).
  assert (q * (maxParts * partSizeIncrement) ≤ total < (q + 1) * (maxParts * partSizeIncrement)) as [Hq1 Hq2].
  { pose proof (Z.div_mod total (maxParts * partSizeIncrement)) as Hd.
    pose proof (Z.mod_pos_bound total (maxParts * partSizeIncrement)) as Hb. fold q in Hd. nia. }
  assert (adjust_fuel total maxParts = S (Z.to_nat (q + 1))) as Hfuel.
  { unfold adjust_fuel. rewrite Z.quot_div_nonneg by nia. fold q. lia. }
  assert (q * partSizeIncrement ≤ total) as Hqi by nia.
  destruct (adjust_loop_spec (Z.to_nat (q + 1)) total init maxParts)
    as (n & psize & Hn & Hps & _ & He & Hlt & Hmin); [lia|lia|lia|lia|rewrite Z2Nat.id by lia; nia|rewrite Z2Nat.id by lia; nia|].
  assert (psize ≤ Z.max init (total + partSizeIncrement)) as Hnb.
  { destruct (Z.eq_dec n 0) as [->|Hne]; [lia|]. specialize (Hmin ltac:(lia)).
    apply Z.max_le_iff. right. apply Z.nlt_ge. intros Hlt'. rewrite Z.div_small in Hmin; lia. }
  assert (0 ≤ total / psize) as Hd by (apply Z.div_pos; lia).
  assert (psize < 2 ^ 62 ∧ 0 < psize) as [Hb H0] by nia.
  exists n, psize. rewrite parts_of_spec by lia.
  split; [done|]. split; [done|]. split; [done|]. split; [|split; [destruct (_ <? _); lia|done]].
  unfold adjustPartSize. rewrite Hfuel, He. cbn.
  destruct (_ <? _); do 2 f_equal; [apply wrap32_id; lia|lia].
Qed.

(** *** Ranges *)

(** The bytes of a range, both ends included. *)
Definition bytes_range (data : string) (first last : Z) : string :=
  string_take (Z.to_nat (last - first + 1)) (string_drop (Z.to_nat first) data).

Definition part_data (data : string) (psize partNum : Z) : string :=
  let '(first, last) := byte_bounds partNum psize (len data) in bytes_range data first last.

Lemma byte_bounds_eq i psize total :
  0 < psize < 2 ^ 62 → 0 ≤ total < 2 ^ 61 → 1 ≤ i ≤ parts_of total psize →
  byte_bounds i psize total = ((i - 1) * psize, Z.min (i * psize) total - 1) ∧ (i - 1) * psize < total.
Proof.
  intros Hp Ht Hi.
  assert ((i - 1) * psize < total) as Hlt.
  { assert (parts_of total psize * psize ≤ total + psize - 1) as Hm.
    { unfold parts_of. rewrite Z.mul_comm. apply Z.mul_div_le. lia. }
    nia. }
  split; [|done]. unfold byte_bounds. rewrite !wrap64_id by (unfold in_int64; nia).
  destruct (Z.ltb_spec (total - 1) (i * psize - 1)); f_equal; lia.
Qed.

Lemma string_take_app a b s :
  string_take (a + b) s = string_take a s +:+ string_take b (string_drop a s).
Proof. revert s. induction a as [|a IH]; intros [|c s]; cbn; [done..|by destruct b|]. by rewrite IH. Qed.

Lemma string_take_all n s : (String.length s ≤ n)%nat → string_take n s = s.
Proof. revert s. induction n as [|n IH]; intros [|c s]; cbn; [done|lia|done|]. intros. rewrite IH by lia. done. Qed.

Lemma parts_prefix data psize k :
  0 < psize < 2 ^ 62 → len data < 2 ^ 61 → Z.of_nat k ≤ parts_of (len data) psize →
  concat_strings (part_data data psize <$> seqZ 1 (Z.of_nat k))
  = string_take (Z.to_nat (Z.min (Z.of_nat k * psize) (len data))) data.
Proof.
  intros Hp Hd. pose proof (len_nonneg data) as H0. induction k as [|k IH]; intros Hk.
  { cbn. rewrite Z.min_l by lia. done. }
  rewrite Nat2Z.inj_succ, <- Z.add_1_r, seqZ_app by lia. rewrite fmap_app. cbn [fmap list_fmap seqZ].
  replace (seqZ (1 + Z.of_nat k) 1) with [1 + Z.of_nat k] by done.
  cbn [fmap list_fmap]. rewrite concat_strings_app, IH by lia.
  unfold part_data. destruct (byte_bounds_eq (1 + Z.of_nat k) psize (len data)) as [-> Hlt]; [lia..|].
  unfold bytes_range. rewrite (Z.min_l (Z.of_nat k * psize)) by lia.
  replace (1 + Z.of_nat k - 1) with (Z.of_nat k) by lia. rewrite <- string_take_app. f_equal. lia.
Qed.

Lemma parts_concat data psize :
  0 < psize < 2 ^ 62 → len data < 2 ^ 61 →
  concat_strings (part_data data psize <$> seqZ 1 (parts_of (len data) psize)) = data.
Proof.
  intros Hp Hd. pose proof (len_nonneg data) as H0.
  assert (0 ≤ parts_of (len data) psize) as Hn by (apply Z.div_pos; lia).
  rewrite <- (Z2Nat.id (parts_of _ _)) by done. rewrite parts_prefix by lia.
  rewrite Z.min_r; [apply string_take_all; unfold len; lia|]. rewrite Z2Nat.id by done.
  pose proof (Z.div_mod (len data + psize - 1) psize) as Hdm. unfold parts_of.
  pose proof (Z.mod_pos_bound (len data + psize - 1) psize). nia.
Qed.

(** C26. Every source below the size limits is cut into at most [maxParts] parts: the
    part size is the requested one or the smallest increase of it that gives
    fewer than [maxParts] full parts; the parts are non-empty ranges of the
    source, and put together in order they are the source. *)
Theorem parts_tile data init maxParts : sizes_ok (len data) init maxParts →
  ∃ psize pcount, adjustPartSize (len data) init maxParts = Some (psize, pcount)
    ∧ init ≤ psize ∧ 0 ≤ pcount ≤ maxParts
    ∧ (init < psize → maxParts ≤ len data / (psize - partSizeIncrement))
    ∧ (∀ i, 1 ≤ i ≤ pcount → ∃ first last, byteRange i psize (len data) = range_string first last
        ∧ 0 ≤ first ≤ last ∧ last < len data ∧ part_data data psize i = bytes_range data first last)
    ∧ concat_strings (part_data data psize <$> seqZ 1 pcount) = data.
Proof.
  intros Hok. destruct (adjustPartSize_spec _ _ _ Hok) as (n & psize & Hn & Hp & Hb & He & Hc & Hmin).
  assert (0 < partSizeIncrement) as Hinc by done. destruct Hok as (Ht & Hi & _).
  exists psize, (parts_of (len data) psize). split_and!; [done|lia|lia|lia|intros; apply Hmin; nia| |].
  - intros i Hi'. destruct (byte_bounds_eq i psize (len data)) as [Hbb Hlt]; [lia..|].
    exists ((i - 1) * psize), (Z.min (i * psize) (len data) - 1). unfold byteRange, part_data. rewrite Hbb.
    split_and!; [done|nia|lia|lia|done].
  - apply parts_concat; lia.
Qed.

(** ** What the service promises *)

(** A key after the one a continuation token stands for. *)
Definition after (tok_key : string → string) (token : option string) (k : string) : Prop :=
  match token with None => True | Some t => String.ltb (tok_key t) k = true end.

#[global] Instance after_dec tok_key token k : Decision (after tok_key token k).
Proof. destruct token; cbn; apply _. Defined.

Definition item_keys (page : ListOutput) : list string := si_Key <$> lo_Contents page.

(** The element of a listing with the delimiter that a key belongs to: the key, or
    its part up to the first slash after the prefix, and whether it is such a part. *)
Definition element_of (prefix k : string) : option (string * bool) :=
  rest ← CutPrefix k prefix;
  let '(n, _, d) := Cut rest "/" in Some (prefix +:+ n +:+ (if d then "/" else ""), d).

Definition page_elements (page : ListOutput) : list (string * bool) :=
  ((λ p, (p, true)) <$> lo_CommonPrefixes page) ++ ((λ i, (si_Key i, false)) <$> lo_Contents page).

(** [objects] is the content of the bucket and [uploads] the parts of its
    unfinished uploads.  A call that reports an error may have had its effect or
    left anything at its key, as when the answer is lost, but changes no other
    object; the error of a missing object is one of the SDK's types and never Go's
    [fs.ErrNotExist]; the answer to a part copy has its result; a listing continues
    after the key its token stands for. *)
Record S3Laws `{GoEnv} {W : Type} `{!S3API W} (bucket : string) (objects : W → gmap string string)
    (uploads : W → gmap string (gmap Z (string * string))) (tok_key : string → string) : Prop := {
  s3_max_size : ∀ k data w, objects w !! k = Some data → len data < 2 ^ 50;
  s3_limits : 5 * megabyte ≤ MinUploadPartSize ∧ 0 < MaxUploadParts < 2 ^ 31;
  s3_head_ok : ∀ k w h, HeadObject bucket k w = inl h →
    ∃ data, objects w !! k = Some data ∧ ho_ContentLength h = Some (len data);
  s3_head_err : ∀ k w e, HeadObject bucket k w = inr e →
    errors_Is e fs_ErrNotExist = false ∧ (errIsNotExist e = true → objects w !! k = None);
  (* the bytes from the offset of the range; an error may cut them short *)
  s3_get : ∀ gi w rd off, GetObject gi w = inl rd → gi_Bucket gi = bucket → 0 ≤ off →
    gi_Range gi = (if 0 <? off then Some ("bytes=" +:+ Itoa off +:+ "-") else None) →
    ∃ data rest, objects w !! gi_Key gi = Some data ∧ string_drop (Z.to_nat off) data = rd_data rd +:+ rest
      ∧ (rd_err rd = None → rest = "") ∧ rd_err rd ≠ Some (ErrVar io_EOF);
  s3_get_err : ∀ gi w e, GetObject gi w = inr e → e ≠ ErrVar io_EOF;
  s3_upload_ok : ∀ p w w' n, Upload p w = (w', (n, None)) → pi_Bucket p = bucket →
    rd_err (pi_Body p) = None ∧ objects w' = <[pi_Key p := rd_data (pi_Body p)]> (objects w);
  s3_upload_err : ∀ p w w' n e, Upload p w = (w', (n, Some e)) →
    delete (pi_Key p) (objects w') = delete (pi_Key p) (objects w);
  s3_delete_ok : ∀ k w w', DeleteObject bucket k w = (w', None) → objects w' = delete k (objects w);
  s3_delete_err : ∀ k w w' e, DeleteObject bucket k w = (w', Some e) →
    (objects w' = objects w ∨ objects w' = delete k (objects w)) ∧ errors_Is e fs_ErrNotExist = false;
  s3_copy_ok : ∀ src dst w w', CopyObject bucket (url_QueryEscape (bucket +:+ "/" +:+ src)) dst w = (w', None) →
    ∃ data, objects w !! src = Some data ∧ objects w' = <[dst := data]> (objects w);
  s3_copy_err : ∀ src dst w w' e, CopyObject bucket src dst w = (w', Some e) →
    delete dst (objects w') = delete dst (objects w)
    (* the size of the source is checked first *)
    ∧ (says_too_large e = true → objects w' = objects w);
  s3_create_ok : ∀ k w w' id, CreateMultipartUpload bucket k w = (w', inl id) → objects w' = objects w;
  s3_create_err : ∀ k w w' e, CreateMultipartUpload bucket k w = (w', inr e) → objects w' = objects w;
  s3_part_ok : ∀ cancelled src dst id num first last w w' result,
    UploadPartCopy cancelled
      (mkPartInput bucket (url_QueryEscape (bucket +:+ "/" +:+ src)) dst id num (range_string first last)) w
      = (w', inl result) → 0 ≤ first ≤ last →
    objects w' = objects w ∧ ∃ etag data parts, result = Some etag ∧ objects w !! src = Some data
      ∧ uploads w !! id = Some parts ∧ uploads w' !! id = Some (<[num := (etag, bytes_range data first last)]> parts);
  s3_part_err : ∀ cancelled i w w' e, UploadPartCopy cancelled i w = (w', inr e) → objects w' = objects w;
  (* the object is the parts of the list, each with the tag it was given *)
  s3_complete_ok : ∀ dst id cs w w', CompleteMultipartUpload bucket dst id cs w = (w', None) →
    ∃ parts ds, uploads w !! id = Some parts
      ∧ Forall2 (λ c d, parts !! cp_PartNumber c = Some (cp_ETag c, d)) cs ds
      ∧ objects w' = <[dst := concat_strings ds]> (objects w);
  s3_complete_err : ∀ dst id cs w w' e, CompleteMultipartUpload bucket dst id cs w = (w', Some e) →
    delete dst (objects w') = delete dst (objects w);
  s3_abort : ∀ dst id w w' e, AbortMultipartUpload bucket dst id w = (w', e) → objects w' = objects w;
  s3_list_sound : ∀ prefix token w page,
    ListObjectsV2 bucket (mkListInput prefix None token maxKeys) w = inl page →
    NoDup (item_keys page)
    ∧ (∀ k, k ∈ item_keys page → is_Some (objects w !! k) ∧ HasPrefix k (default "" prefix) = true
        ∧ after tok_key token k)
    ∧ (∀ t, lo_NextContinuationToken page = Some t → lo_Contents page ≠ []
        ∧ (∀ k, k ∈ item_keys page → ¬ after tok_key (Some t) k)
        ∧ (∀ k, after tok_key (Some t) k → after tok_key token k));
  s3_list_complete : ∀ prefix token w page k,
    ListObjectsV2 bucket (mkListInput prefix None token maxKeys) w = inl page →
    is_Some (objects w !! k) → HasPrefix k (default "" prefix) = true → after tok_key token k →
    k ∈ item_keys page ∨ ∃ t, lo_NextContinuationToken page = Some t ∧ after tok_key (Some t) k
}.

(** A service whose failed uploads and deletions had no effect, which the theorem on
    reverted updates of existing objects needs. *)
Record S3Atomic {W : Type} `{!S3API W} (objects : W → gmap string string) : Prop := {
  s3_upload_atomic : ∀ p w w' n e, Upload p w = (w', (n, Some e)) → objects w' = objects w;
  s3_delete_atomic : ∀ bucket k w w' e, DeleteObject bucket k w = (w', Some e) → objects w' = objects w
}.

Section spec.
Context `{GoEnv} {W : Type} `{!S3API W} (bucket : string) (objects : W → gmap string string)
  (uploads : W → gmap string (gmap Z (string * string))) (tok_key : string → string)
  (laws : S3Laws bucket objects uploads tok_key).
Implicit Types (w : W).

(** ** Reading *)

(** What an open file knows of the object. *)
Definition file_ok (k data : string) (f : s3File) : Prop :=
  sf_bucket f = bucket ∧ sf_key f = k ∧ ho_ContentLength (sf_info f) = Some (len data) ∧ 0 ≤ sf_offset f
  ∧ ∀ b, sf_body f = Some b → sf_offset f ≤ len data ∧ rd_err b ≠ Some (ErrVar io_EOF)
      ∧ ∃ rest, string_drop (Z.to_nat (sf_offset f)) data = rd_data b +:+ rest ∧ (rd_err b = None → rest = "").

Lemma openFile_ok name w f : s3_openFile bucket name w = inl f →
  ∃ data, objects w !! name = Some data ∧ file_ok name data f ∧ sf_offset f = 0.
Proof.
  unfold s3_openFile. destruct (_ || _); [done|].
  destruct (HeadObject bucket name w) as [h|e] eqn:Hh; [|done]. intros [= <-].
  destruct (s3_head_ok _ _ _ _ laws _ _ _ Hh) as (data & Hd & Hl).
  exists data. repeat split; done.
Qed.

Lemma body_Read_spec b n b' d err : body_Read b n = (b', (d, err)) →
  rd_data b = d +:+ rd_data b' ∧ rd_err b' = rd_err b ∧ (0 ≤ n → len d ≤ n)
  ∧ match err with
    | None => 0 < n → d ≠ ""
    | Some e => rd_data b' = "" ∧ e = default (ErrVar io_EOF) (rd_err b)
    end.
Proof.
  unfold body_Read. destruct (rd_data b) as [|c s] eqn:Hb.
  - intros [= <- <- <-]. by rewrite Hb.
  - set (k := if n <=? 0 then 0%nat else _). intros [= <- <- <-]. cbn [rd_data rd_err].
    split_and!; [apply string_take_drop|done| |]; subst k.
    + intros Hn. unfold len. destruct (Z.leb_spec n 0); [cbn; lia|].
      assert (∀ k t, (String.length (string_take k t) ≤ k)%nat) as Hk.
      { intros k. induction k as [|k IH]; intros [|? t]; cbn; [lia..|]. specialize (IH t). lia. }
      specialize (Hk (Nat.max 1 (Nat.min (body_chunk (String c s) n) (Z.to_nat n))) (String c s)). lia.
    + case_bool_decide as Hr; [destruct (body_ends _ n); [done|]|]; cbn [andb];
        intros Hn; destruct (Z.leb_spec n 0); try lia; by destruct (Nat.max 1 _) eqn:Hm; [lia|].
Qed.

(** A [Read] at a position of a byte sequence: some of its next bytes, with the end
    of file only if they are the last ones; or the end of file alone, at the end;
    or, before it, an error of the service. *)
Inductive read_at (data : string) (pos n : Z) : Z → string → option error → Prop :=
  | read_some d err : d = string_take (Z.to_nat (len d)) (string_drop (Z.to_nat pos) data) →
      pos < len data → len d ≤ n → (0 < n → d ≠ "") → (err = Some (ErrVar io_EOF) → pos + len d = len data) →
      read_at data pos n (pos + len d) d err
  | read_end : len data ≤ pos → read_at data pos n pos "" (Some (ErrVar io_EOF))
  | read_failed err : pos < len data → err ≠ ErrVar io_EOF → read_at data pos n pos "" (Some err).

Lemma string_app_take a b : string_take (String.length a) (a +:+ b) = a.
Proof. induction a as [|c a IH]; cbn; [by destruct b|]. by rewrite IH. Qed.

Lemma string_app_drop a b : string_drop (String.length a) (a +:+ b) = b.
Proof. induction a as [|c a IH]; cbn; [by destruct b|]. done. Qed.

(** The body of a file after [Read] has requested it. *)
Lemma Read_body k data f w b : file_ok k data f → objects w !! k = Some data → sf_offset f < len data →
  match sf_body f with Some b => inl b | None => GetObject (get_params f) w end = inl b →
  rd_err b ≠ Some (ErrVar io_EOF)
  ∧ ∃ rest, string_drop (Z.to_nat (sf_offset f)) data = rd_data b +:+ rest ∧ (rd_err b = None → rest = "").
Proof.
  intros (Hb & Hk & _ & Ho & Hbody) Hd Hlt Hget. destruct (sf_body f) as [b'|].
  - injection Hget as ->. destruct (Hbody b eq_refl) as (_ & Hne & Hr). done.
  - destruct (s3_get _ _ _ _ laws _ _ _ (sf_offset f) Hget) as (data' & rest & Hd' & Hr & He & Hne); [done..|].
    cbn [gi_Key get_params] in Hd'. rewrite Hk, Hd in Hd'. injection Hd' as <-. eauto.
Qed.

Lemma Read_spec k data f n w r : file_ok k data f → objects w !! k = Some data → s3File_Read f n w = r → 0 ≤ n →
  ∃ f' d err, r = Ok (f', (d, err)) ∧ file_ok k data f' ∧ read_at data (sf_offset f) n (sf_offset f') d err.
Proof.
  intros Hok Hd <- Hn. pose proof Hok as (Hb & Hk & Hl & Ho & Hbody). unfold s3File_Read. rewrite Hl.
  destruct (Z.leb_spec (len data) (sf_offset f)) as [Hle|Hlt].
  { exists f, "", (Some (ErrVar io_EOF)). split_and!; [done..|by constructor]. }
  destruct (match sf_body f with Some b => inl b | None => GetObject (get_params f) w end) as [b|e] eqn:Hget.
  - destruct (Read_body _ _ _ _ _ Hok Hd Hlt Hget) as (Hne & rest & Hdrop & Hrest).
    destruct (body_Read b n) as [b' [d err]] eqn:Hread.
    destruct (body_Read_spec _ _ _ _ _ Hread) as (Hdata & Herr & Hlen & Hres).
    assert (string_drop (Z.to_nat (sf_offset f)) data = d +:+ (rd_data b' +:+ rest)) as Hd'.
    { by rewrite Hdrop, Hdata, string_app_assoc. }
    assert (sf_offset f + len d ≤ len data) as Hbound.
    { apply (f_equal String.length) in Hd'. rewrite string_length_drop, string_length_app in Hd'. unfold len in *. lia. }
    assert (wrap64 (sf_offset f + len d) = sf_offset f + len d) as Hw.
    { apply wrap64_id. pose proof (s3_max_size _ _ _ _ laws _ _ _ Hd). pose proof (len_nonneg d). unfold in_int64. lia. }
    eexists _, d, err. split; [done|]. split.
    + split_and!; [done..|cbn; pose proof (len_nonneg d); lia|]. cbn. rewrite Hw. intros ? [= <-]. rewrite Herr.
      split_and!; [done..|]. exists rest. split; [|done].
      replace (Z.to_nat (sf_offset f + len d)) with (Z.to_nat (sf_offset f) + String.length d)%nat by (unfold len in *; lia).
      by rewrite <- string_drop_drop, Hd', string_app_drop.
    + cbn. rewrite Hw. assert (d = string_take (Z.to_nat (len d)) (string_drop (Z.to_nat (sf_offset f)) data)) as Htake.
      { rewrite Hd'. unfold len. by rewrite Nat2Z.id, string_app_take. }
      destruct err as [e|]; [|by constructor; auto].
      destruct Hres as (Hempty & He). assert (e = ErrVar io_EOF → sf_offset f + len d = len data) as Hend.
      { intros ->. destruct (rd_err b) as [e|] eqn:Hb'; cbn in He; [by subst|]. rewrite Hempty, Hrest in Hd' by done.
        apply (f_equal String.length) in Hd'. rewrite string_length_drop, string_length_app in Hd'. cbn in Hd'. unfold len in *. lia. }
      destruct (decide (d = "")) as [->|Hdne].
      * change (len "") with 0 in *. rewrite Z.add_0_r in *. apply read_failed; [done|]. intros ->. specialize (Hend eq_refl). lia.
      * constructor; [done..|by apply Hlen|done|]. intros [= Heq]. by apply Hend.
  - exists f, "", (Some e). split_and!; [done..|]. apply read_failed; [done|].
    destruct (sf_body f); [done|]. exact (s3_get_err _ _ _ _ laws _ _ _ Hget).
Qed.

(** What [Seek] does to a position. *)
Definition seek_at (data : string) (pos offset : Z) (wh : whence) : Z * (Z * option error) :=
  match (match wh with
         | SeekStart => Some offset
         | SeekCurrent => Some (wrap64 (pos + offset))
         | SeekEnd => Some (wrap64 (len data + offset))
         | OtherWhence => None
         end) with
  | None => (pos, (0, Some (ErrNew "s3: invalid whence")))
  | Some p => if p <? 0 then (pos, (0, Some (ErrNew "s3: negative position"))) else (p, (p, None))
  end.

Lemma Seek_spec k data f offset wh : file_ok k data f →
  ∃ f', s3File_Seek f offset wh = Ok (f', (seek_at data (sf_offset f) offset wh).2)
    ∧ file_ok k data f' ∧ sf_offset f' = (seek_at data (sf_offset f) offset wh).1.
Proof.
  intros Hok. pose proof Hok as (Hb & Hk & Hl & Ho & Hbody). unfold s3File_Seek, seek_at. rewrite Hl.
  destruct (match wh with SeekStart => _ | _ => _ end) as [p|]; [|by exists f].
  destruct (Z.ltb_spec p 0); [by exists f|]. eexists. split; [done|]. split; [|done].
  split_and!; [done..|]. cbn. case_bool_decide as Hp; [subst p; exact Hbody|done].
Qed.

(** Calls on an open file with what they return. *)
Inductive file_call := CRead (n : Z) (d : string) (err : option error) | CSeek (offset : Z) (wh : whence) (r : Z * option error).

Inductive file_run (w : W) : s3File → list file_call → s3File → Prop :=
  | run_nil f : file_run w f [] f
  | run_Read f n f' d err cs f'' : 0 ≤ n → s3File_Read f n w = Ok (f', (d, err)) →
      file_run w f' cs f'' → file_run w f (CRead n d err :: cs) f''
  | run_Seek f offset wh f' r cs f'' : s3File_Seek f offset wh = Ok (f', r) →
      file_run w f' cs f'' → file_run w f (CSeek offset wh r :: cs) f''.

(** The same calls on a byte sequence and a position. *)
Inductive pos_run (data : string) : Z → list file_call → Z → Prop :=
  | pos_nil p : pos_run data p [] p
  | pos_Read p n p' d err cs p'' : read_at data p n p' d err → pos_run data p' cs p'' →
      pos_run data p (CRead n d err :: cs) p''
  | pos_Seek p offset wh cs p'' : pos_run data (seek_at data p offset wh).1 cs p'' →
      pos_run data p (CSeek offset wh (seek_at data p offset wh).2 :: cs) p''.

Lemma file_run_ok k data w f cs f' : file_run w f cs f' → objects w !! k = Some data → file_ok k data f →
  file_ok k data f' ∧ pos_run data (sf_offset f) cs (sf_offset f').
Proof.
  intros Hrun Hd. induction Hrun as [f|f n f' d err cs f'' Hn Hr _ IH|f o wh f' r cs f'' Hs _ IH]; intros Hok.
  - split; [done|constructor].
  - destruct (Read_spec _ _ _ _ _ _ Hok Hd Hr Hn) as (g & d' & err' & [= -> -> ->] & Hok' & Hat).
    destruct (IH Hok') as [Hf Hp]. split; [done|]. by econstructor.
  - destruct (Seek_spec _ _ _ o wh Hok) as (g & Hg & Hok' & Hpos). rewrite Hg in Hs. injection Hs as <- <-.
    destruct (IH Hok') as [Hf Hp]. split; [done|]. apply pos_Seek. by rewrite <- Hpos.
Qed.

(** C27. An open file reads like the bytes of its object: every sequence of calls of
    [Read] and [Seek] on a file that [OpenFile] returned gives what the same calls
    give on the bytes of the object with a position ([pos_run]).  A [Read] delivers
    the next bytes, no more than its buffer holds, and reports the end of file with
    the last bytes or after them and never before; one whose request or body fails
    reports an error that is not the end of file, with the bytes it got, and the
    position stays right for the calls after it.  The range requests that [Seek]
    leads to are not visible. *)
Theorem s3File_reads name w f cs f' :
  s3_openFile bucket name w = inl f → file_run w f cs f' →
  ∃ data, objects w !! name = Some data ∧ pos_run data 0 cs (sf_offset f').
Proof.
  intros (data & Hd & Hok & H0)%openFile_ok Hrun. exists data. split; [done|].
  rewrite <- H0. by eapply file_run_ok.
Qed.

(** *** Reading to the end *)

Lemma drain_ok k data w fuel f : file_ok k data f → objects w !! k = Some data →
  len data - sf_offset f < Z.of_nat fuel → sf_offset f ≤ len data →
  let r := (drain fuel f w).1 in rd_err r = None → rd_data r = string_drop (Z.to_nat (sf_offset f)) data.
Proof.
  revert f. induction fuel as [|fuel IH]; intros f Hok Hd Hf Hle; [lia|]. cbn [drain].
  destruct (Read_spec k data f 32768 w _ Hok Hd eq_refl) as (g & d & err & -> & Hok' & Hat); [done|].
  inversion Hat as [d' err' Hd' Hlt Hn Hne Hlast Hg|Hend Hg|e Hlt He Hg]; subst.
  - destruct err as [e|].
    { intros He. assert (e = ErrVar io_EOF) as -> by by destruct e as [| []| | | | | | | | |].
      specialize (Hlast eq_refl). cbn. rewrite Hd'. apply string_take_all.
      rewrite string_length_drop. destruct Hok as (_ & _ & _ & Ho & _). unfold len in *. lia. }
    assert (0 < len d) as Hpos. { destruct d; [by destruct (Hne eq_refl)|]. rewrite len_cons. pose proof (len_nonneg d). lia. }
    assert (String.length d ≤ String.length data - Z.to_nat (sf_offset f))%nat as Hb.
    { rewrite <- string_length_drop. rewrite (string_take_drop (Z.to_nat (len d)) (string_drop _ data)), <- Hd', string_length_app. lia. }
    specialize (IH g Hok' Hd). destruct (drain fuel g w) as [r h]. cbn in IH |- *. intros He.
    destruct Hok as (_ & _ & _ & Ho & _). rewrite IH; [|unfold len in *; lia..|done]. rewrite <- Hg.
    rewrite (string_take_drop (Z.to_nat (len d)) (string_drop (Z.to_nat (sf_offset f)) data)) at 1. rewrite <- Hd'.
    f_equal. rewrite string_drop_drop. f_equal. unfold len. lia.
  - intros _. cbn. symmetry.
    pose proof (string_length_drop (Z.to_nat (sf_offset f)) data) as Hdl.
    destruct (string_drop _ data); [done|]. cbn in Hdl. unfold len in *. lia.
  - by destruct e as [| []| | | | | | | | |].
Qed.

(** ** Copying *)

Section parts.
Context (src data dst id : string) (psize : Z).
Hypothesis (Hpsize : 0 < psize < 2 ^ 62) (Hlen : len data < 2 ^ 61).

(** The service has the part, with the tag that is recorded for it. *)
Definition part_done (w : W) (completed : gmap Z string) (n : Z) : Prop :=
  ∃ parts etag, uploads w !! id = Some parts ∧ completed !! n = Some etag
    ∧ parts !! n = Some (etag, part_data data psize n).

Lemma copy_parts_spec ps completed failed w w' r :
  objects w !! src = Some data → Forall (λ n, 1 ≤ n ≤ parts_of (len data) psize) ps →
  copy_parts bucket dst (url_QueryEscape (bucket +:+ "/" +:+ src)) id psize (len data) ps completed failed w
    = (w', r) → ∃ completed' err, r = Ok (completed', err) ∧
  objects w' = objects w
  ∧ (err = None → failed = None ∧ ∀ n, n ∈ ps ∨ part_done w completed n → part_done w' completed' n).
Proof.
  intros Hd Hps. revert completed failed w Hd. induction Hps as [|n ps Hn _ IH]; intros completed failed w Hd; cbn [copy_parts].
  - intros Hr. inv_io. eexists _, _. split; [done|]. split; [done|]. intros ->. split; [done|].
    intros n [Hn|Hn]; [by apply elem_of_nil in Hn|done].
  - intros Hr. inv_io.
    destruct (byte_bounds_eq n psize (len data)) as [Hb Hlt]; [done|by pose proof (len_nonneg data)|done|].
    destruct a as [result|e].
    + unfold byteRange in Ha. rewrite Hb in Ha.
      destruct (s3_part_ok _ _ _ _ laws _ _ _ _ _ _ _ _ _ _ Ha) as (Ho & etag & data' & parts & -> & Hd' & Hp & Hp'); [nia|].
      rewrite Hd in Hd'. injection Hd' as <-.
      assert (bytes_range data ((n - 1) * psize) (Z.min (n * psize) (len data) - 1) = part_data data psize n) as Heq.
      { unfold part_data. by rewrite Hb. }
      rewrite Heq in Hp'. apply IH in Hr as (completed' & err & -> & Ho' & Hdone); [|by rewrite Ho].
      eexists _, _. split; [done|]. split; [by rewrite Ho'|].
      intros He. destruct (Hdone He) as [-> Hall]. split; [done|]. intros m Hm. apply Hall.
      destruct (decide (m = n)) as [->|Hne].
      * right. exists (<[n:=(etag, part_data data psize n)]> parts), etag. by rewrite !lookup_insert_eq.
      * destruct Hm as [Hm|(parts' & et & Hu & Hc & Hl)].
        { apply elem_of_cons in Hm as [->|Hm]; [done|by left]. }
        right. rewrite Hp in Hu. injection Hu as <-. eexists _, et. split; [exact Hp'|]. by rewrite !lookup_insert_ne.
    + apply (s3_part_err _ _ _ _ laws) in Ha. apply IH in Hr as (completed' & err & -> & Ho' & Hdone); [|by rewrite Ha].
      eexists _, _. split; [done|]. split; [by rewrite Ho'|].
      intros He. destruct (Hdone He) as [Hf _]. by destruct failed.
Qed.

(** The list that completes the upload names the parts in order. *)
Lemma completed_parts_Forall2 w completed pcount parts :
  uploads w !! id = Some parts → (∀ n, 1 ≤ n ≤ pcount → part_done w completed n) →
  ∀ ds, Forall2 (λ c d, parts !! cp_PartNumber c = Some (cp_ETag c, d)) (completed_parts pcount completed) ds →
  ds = part_data data psize <$> seqZ 1 pcount.
Proof.
  intros Hp Hall ds. unfold completed_parts. replace (seqZ 1 pcount) with (Z.add 1 <$> seqZ 0 pcount).
  2:{ rewrite <- (Z.add_0_r 1) at 2. by rewrite <- fmap_add_seqZ. }
  assert (Forall (λ i, 0 ≤ i < pcount) (seqZ 0 pcount)) as Hin.
  { apply Forall_forall. intros i Hi. apply elem_of_seqZ in Hi. lia. }
  revert ds. induction Hin as [|i l Hi _ IH]; intros ds; cbn [fmap list_fmap].
  - by intros ->%Forall2_nil_inv_l.
  - intros (d & ds' & Hd & Hds & ->)%Forall2_cons_inv_l. f_equal; [|by apply IH].
    destruct (Hall (i + 1)) as (parts' & etag & Hu & Hc & Hl); [lia|]. rewrite Hp in Hu. injection Hu as <-.
    cbn [cp_PartNumber cp_ETag] in Hd. rewrite Hl in Hd. injection Hd as _ <-. by rewrite Z.add_comm.
Qed.
End parts.

Lemma finish_upload_err dst id pcount completed err w w' e :
  finish_upload bucket dst id pcount completed err w = (w', Some e) → delete dst (objects w') = delete dst (objects w).
Proof.
  unfold finish_upload. destruct err as [err|].
  - intros Hf. inv_io. by rewrite (s3_abort _ _ _ _ laws _ _ _ _ _ Ha).
  - apply (s3_complete_err _ _ _ _ laws).
Qed.

(** The size limits of the service fit the arithmetic of the part sizes. *)
Lemma service_sizes_ok k data w partSize : objects w !! k = Some data → partSize < 2 ^ 61 →
  sizes_ok (len data) (if partSize <? MinUploadPartSize then defaultCopyPartSize else partSize) MaxUploadParts.
Proof.
  intros Hd Hp. pose proof (s3_max_size _ _ _ _ laws _ _ _ Hd) as Hs.
  destruct (s3_limits _ _ _ _ laws) as [Hmin Hmax]. pose proof (len_nonneg data) as H0.
  unfold sizes_ok. assert (5 * megabyte = 5242880) as Hmb by done. rewrite Hmb in Hmin.
  assert (defaultCopyPartSize = 33554432) as -> by done.
  destruct (Z.ltb_spec partSize MinUploadPartSize); lia.
Qed.

Lemma MultiCopier_Copy_spec c dst src h data w w' c' r :
  mc_PartSize c < 2 ^ 61 → objects w !! src = Some data → ho_ContentLength h = Some (len data) →
  MultiCopier_Copy c bucket dst src (Some h) w = (w', (c', r)) →
  ∃ n err, r = Ok (n, err) ∧ match err with
    | None => objects w' = <[dst := data]> (objects w)
    | Some _ => delete dst (objects w') = delete dst (objects w)
    end.
Proof.
  intros Hps Hd Hh Hr. unfold MultiCopier_Copy in Hr. apply io_bind_inv in Hr as (w0 & hd & [= <- <-] & Hr).
  rewrite Hh in Hr. cbn [mc_PartSize] in Hr. set (init := if mc_PartSize c <? _ then _ else _) in Hr.
  pose proof (service_sizes_ok _ _ _ _ Hd Hps) as Hok. fold init in Hok.
  destruct (adjustPartSize_spec (len data) init MaxUploadParts Hok) as (n & psize & Hn & Heq & Hb & He & Hc & _).
  assert (0 < psize) as H0.
  { assert (0 < partSizeIncrement) by done. destruct Hok as (_ & Hi & _). nia. }
  rewrite He, (proj2 (Z.ltb_ge _ _)) in Hr by lia. clear Heq. apply io_bind_inv in Hr as (w1 & newUp & Hcreate & Hr).
  destruct newUp as [id|e]; inv_io.
  2:{ eexists _, _. split; [done|]. by rewrite (s3_create_err _ _ _ _ laws _ _ _ _ Hcreate). }
  apply (s3_create_ok _ _ _ _ laws) in Hcreate. pose proof (s3_max_size _ _ _ _ laws _ _ _ Hd) as Hmax.
  eapply copy_parts_spec in Ha as (completed & err & -> & Ho & Hdone); [|lia|lia|by rewrite Hcreate|].
  2:{ rewrite (interleave_perm 110). apply Forall_forall. intros i Hi.
      apply list_elem_of_fmap in Hi as (j & -> & Hj). apply elem_of_seqZ in Hj. lia. }
  inv_io. eexists _, _. split; [done|]. destruct a as [e|].
  { apply finish_upload_err in Ha. by rewrite Ha, Ho, Hcreate. }
  unfold finish_upload in Ha. destruct err as [e|]; inv_io.
  destruct (Hdone eq_refl) as [_ Hparts].
  destruct (s3_complete_ok _ _ _ _ laws _ _ _ _ _ Ha) as (parts & ds & Hu & Hds & ->).
  rewrite Ho, Hcreate. f_equal. rewrite <- (parts_concat data psize) by lia. f_equal.
  eapply completed_parts_Forall2; [exact Hu| |exact Hds].
  intros i Hi. apply Hparts. left. rewrite (interleave_perm 110). apply list_elem_of_fmap.
  exists (i - 1). split; [lia|]. apply elem_of_seqZ. lia.
Qed.

(** The options of a backend that ask for parts below 2^61 bytes. *)
Definition options_ok (opts : list (MultiCopier → MultiCopier)) : Prop := mc_PartSize (NewMultiCopier opts) < 2 ^ 61.

Lemma s3_copy_spec dst src opts w w' r : options_ok opts → s3_copy bucket dst src opts w = (w', r) →
  ∃ n err, r = Ok (n, err) ∧ match err with
    | None => ValidPath src = true ∧ src ≠ "." ∧ ValidPath dst = true ∧ dst ≠ "."
        ∧ ∃ data, objects w !! src = Some data ∧ objects w' = <[dst := data]> (objects w)
    | Some _ => delete dst (objects w') = delete dst (objects w)
    end.
Proof.
  intros Hopts. unfold s3_copy.
  destruct (ValidPath src) eqn:Hvs; [|intros Hr; cbn [negb orb] in Hr; inv_io; by eexists _, _]. cbn [negb orb].
  case_bool_decide as Hs; [intros Hr; inv_io; by eexists _, _|].
  destruct (ValidPath dst) eqn:Hvd; [|intros Hr; cbn [negb orb] in Hr; inv_io; by eexists _, _]. cbn [negb orb].
  case_bool_decide as Hdd; [intros Hr; inv_io; by eexists _, _|].
  intros Hr. inv_io. destruct (HeadObject bucket src w0) as [h|e] eqn:Hh; inv_io; [|by eexists _, _].
  destruct (s3_head_ok _ _ _ _ laws _ _ _ Hh) as (data & Hd & Hl).
  destruct a as [e|].
  - apply (s3_copy_err _ _ _ _ laws) in Ha as [Ha' Ha]. destruct (says_too_large e); inv_io; [|by eexists _, _].
    specialize (Ha eq_refl).
    destruct (MultiCopier_Copy_spec _ _ _ _ data _ _ _ _ Hopts ltac:(by rewrite Ha) Hl Ha0) as (n & err & -> & Herr).
    eexists _, _. split; [done|]. rewrite Ha in Herr. destruct err; [done|]. split_and!; [done..|eauto].
  - rewrite Hl in Hr. inv_io. eexists _, _. split; [done|].
    destruct (s3_copy_ok _ _ _ _ laws _ _ _ _ Ha) as (d & Hd' & Ho). split_and!; [done..|eauto].
Qed.

(** ** Removing *)

Lemma delete_items_spec name items w w' e :
  delete_items bucket name items w = (w', e) →
  objects w' ⊆ objects w
  ∧ (∀ k, k ∉ si_Key <$> items → objects w' !! k = objects w !! k)
  ∧ (e = None → ∀ k, k ∈ si_Key <$> items → objects w' !! k = None).
Proof.
  revert w. induction items as [|i items IH]; intros w; cbn [delete_items].
  - intros Hr. inv_io. split_and!; [done..|]. intros _ k Hk. by apply elem_of_nil in Hk.
  - intros Hr. inv_io. destruct a as [err|]; inv_io.
    + apply (s3_delete_err _ _ _ _ laws) in Ha as [[-> | ->] _]; [by split_and!|]. split_and!; [apply delete_subseteq| |done].
      intros k Hk. rewrite fmap_cons, not_elem_of_cons in Hk. destruct Hk as [Hne _]. by rewrite lookup_delete_ne.
    + apply (s3_delete_ok _ _ _ _ laws) in Ha. apply IH in Hr as (Hs & Hout & Hin). rewrite Ha in Hs, Hout.
      split_and!.
      * etrans; [exact Hs|apply delete_subseteq].
      * intros k Hk. rewrite fmap_cons, not_elem_of_cons in Hk. destruct Hk as [Hne Hk]. rewrite Hout by done. by rewrite lookup_delete_ne.
      * intros He k [->|Hk]%elem_of_cons; [|by apply Hin].
        destruct (decide (si_Key i ∈ si_Key <$> items)) as [Hi|Hi]; [by apply Hin|].
        rewrite Hout by done. apply lookup_delete_eq.
Qed.

Lemma remove_pages_spec fuel name token w w' e : name ≠ "." →
  (∀ k, is_Some (objects w !! k) → below name k = true → after tok_key token k) →
  remove_pages fuel bucket name token w = (w', e) →
  objects w' ⊆ objects w
  ∧ (∀ k, below name k = false → objects w' !! k = objects w !! k)
  ∧ (e = None → ∀ k, below name k = true → objects w' !! k = None).
Proof.
  intros Hname. revert token w. induction fuel as [|fuel IH]; intros token w Hafter; cbn [remove_pages].
  { intros Hr. by inv_io. }
  intros Hr. inv_io. assert (list_prefix name = Some (name +:+ "/")) as Hlp.
  { unfold list_prefix. by rewrite bool_decide_false. }
  destruct (ListObjectsV2 bucket _ w0) as [page|err] eqn:Hpage; inv_io; [|done].
  destruct (s3_list_sound _ _ _ _ laws _ _ _ _ Hpage) as (_ & Hsound & Hnext). rewrite Hlp in Hsound. cbn in Hsound.
  pose proof (delete_items_spec _ _ _ _ _ Ha) as (Hs & Hout & Hin).
  assert (∀ k, below name k = false → objects w !! k = objects w0 !! k) as Hframe.
  { intros k Hk. apply Hout. intros Hi. apply Hsound in Hi as (_ & Hp & _). unfold below in Hk. by rewrite Hp in Hk. }
  assert (a = None → ∀ k, is_Some (objects w !! k) → below name k = true →
    ∃ t, lo_NextContinuationToken page = Some t ∧ after tok_key (Some t) k) as Hrest.
  { intros He k Hk Hb. assert (is_Some (objects w0 !! k)) as Hk0.
    { destruct Hk as [d Hd]. exists d. by eapply lookup_weaken. }
    destruct (s3_list_complete _ _ _ _ laws _ _ _ _ k Hpage Hk0) as [Hi|Ht]; [by rewrite Hlp|by apply Hafter| |done].
    specialize (Hin He k Hi). rewrite Hin in Hk. by destruct Hk. }
  destruct a as [err|]; [inv_io; by split_and!|].
  destruct (lo_NextContinuationToken page) as [t|] eqn:Ht.
  - apply IH in Hr as (Hs' & Hframe' & Hgone).
    + split_and!; [by etrans| |done]. intros k Hk. by rewrite Hframe', Hframe.
    + intros k Hk Hb. by destruct (Hrest eq_refl k Hk Hb) as (t' & [= <-] & Ha').
  - inv_io. split_and!; [done..|]. intros _ k Hb. destruct (objects w' !! k) as [d|] eqn:Hk; [|done].
    by destruct (Hrest eq_refl k ltac:(by eexists) Hb) as (t & ? & _).
Qed.

(** ** The bucket as a backend *)

(** The files of the backend are the objects whose key is a path; other keys of
    the bucket cannot be named. *)
Definition addressable (k : string) : bool := ValidPath k && negb (bool_decide (k = ".")).

Definition bucket_files (w : W) : gmap string string :=
  filter (λ e : string * string, addressable e.1 = true) (objects w).

Lemma addressable_true k : addressable k = true ↔ ValidPath k = true ∧ k ≠ ".".
Proof. unfold addressable. rewrite andb_true_iff, negb_true_iff, bool_decide_eq_false. done. Qed.

Lemma bucket_files_lookup w k : bucket_files w !! k = if addressable k then objects w !! k else None.
Proof.
  unfold bucket_files. rewrite map_lookup_filter. destruct (objects w !! k) as [d|]; cbn; [|by destruct (addressable k)].
  destruct (addressable k) eqn:Ha; [by rewrite option_guard_True|by rewrite option_guard_False by (cbn; congruence)].
Qed.

Lemma bucket_files_insert w w' k d : addressable k = true → objects w' = <[k := d]> (objects w) →
  bucket_files w' = <[k := d]> (bucket_files w).
Proof. intros Ha Ho. unfold bucket_files. rewrite Ho. by apply map_filter_insert_True. Qed.

Lemma bucket_files_delete w w' k : objects w' = delete k (objects w) → bucket_files w' = delete k (bucket_files w).
Proof. intros Ho. unfold bucket_files. rewrite Ho. apply map_filter_delete. Qed.

Lemma bucket_files_eq w w' : objects w' = objects w → bucket_files w' = bucket_files w.
Proof. unfold bucket_files. by intros ->. Qed.

Lemma bucket_files_other w w' k : delete k (objects w') = delete k (objects w) →
  delete k (bucket_files w') = delete k (bucket_files w).
Proof. intros Hd. unfold bucket_files. by rewrite <- !map_filter_delete, Hd. Qed.

Context (fuel : nat) (f : BucketFS) (Hbucket : bf_bucket f = bucket) (Hopts : options_ok (bf_multiPartCopyOptions f)).

Lemma s3_write_spec name r opts w w' n e : s3_write bucket name r opts w = (w', (n, e)) →
  match e with
  | None => addressable name = true ∧ rd_err r = None ∧ objects w' = <[name := rd_data r]> (objects w)
  | Some _ => delete name (objects w') = delete name (objects w) ∧ (S3Atomic objects → objects w' = objects w)
  end.
Proof.
  unfold s3_write. destruct (negb (ValidPath name) || bool_decide (name = ".")) eqn:Hv; [intros Hr; by inv_io|].
  apply orb_false_iff in Hv as [Hv Hd]. apply negb_false_iff in Hv. apply bool_decide_eq_false in Hd.
  intros Hr. inv_io. destruct o as [err|]; inv_io.
  { split; [by apply (s3_upload_err _ _ _ _ laws) in Ha|]. intros Hat. by eapply (s3_upload_atomic _ Hat). }
  apply (s3_upload_ok _ _ _ _ laws) in Ha as [He Ho]; [|done]. split_and!; [by apply addressable_true|done..].
Qed.

Lemma s3_remove_spec name w w' e : s3_remove bucket name w = (w', e) →
  match e with
  | None => bucket_files w' = delete name (bucket_files w)
  | Some err =>
      (bucket_files w' = bucket_files w ∨ bucket_files w' = delete name (bucket_files w))
      ∧ (errors_Is err fs_ErrNotExist = true → bucket_files w !! name = None) ∧ (S3Atomic objects → objects w' = objects w)
  end.
Proof.
  unfold s3_remove. destruct (ValidPath name) eqn:Hv; cbn [negb]; [|intros Hr; inv_io; by split; [left|]].
  case_bool_decide as Hd.
  - intros Hr. inv_io. split; [by left|]. split; [|done]. intros _. by rewrite bucket_files_lookup.
  - intros Hr. inv_io. destruct a as [err|]; cbn.
    + pose proof Ha as Hat. apply (s3_delete_err _ _ _ _ laws) in Ha as [Ho He]. split_and!.
      * destruct Ho; [left; by apply bucket_files_eq|right; by apply bucket_files_delete].
      * by rewrite He.
      * intros Hatomic. by eapply (s3_delete_atomic _ Hatomic).
    + by apply bucket_files_delete, (s3_delete_ok _ _ _ _ laws).
Qed.

#[local] Instance fsys : FileSystems W unit := bucket_fs fuel f.

Lemma bucket_write_laws : WriteLaws () (bucket_ops fuel f) bucket_files.
Proof.
  split; cbn; rewrite ?Hbucket.
  - done.
  - intros name r w w' n Hw. unfold BucketFS_Write, BucketFS_WriteWithOptions in Hw. rewrite Hbucket in Hw.
    apply s3_write_spec in Hw as (Ha & He & Ho). split; [done|]. by apply bucket_files_insert.
  - intros name r w w' n e Hw. unfold BucketFS_Write, BucketFS_WriteWithOptions in Hw. rewrite Hbucket in Hw.
    apply s3_write_spec in Hw as [Hw _]. by apply bucket_files_other.
  - intros name w w' Hr. unfold BucketFS_Remove in Hr. rewrite Hbucket in Hr. by apply s3_remove_spec in Hr.
  - intros name w w' e Hr. unfold BucketFS_Remove in Hr. rewrite Hbucket in Hr. apply s3_remove_spec in Hr as (Ho & He & _).
    by split.
  - intros name w w' e Hne Hr. unfold BucketFS_RemoveAll, s3_removeAll in Hr. rewrite Hbucket in Hr.
    destruct (ValidPath name); cbn [negb] in Hr; [|by inv_io].
    apply remove_pages_spec in Hr as (Hs & Hout & Hin); [|done|done]. split_and!.
    + by apply map_filter_subseteq_mono.
    + intros p Hp. rewrite !bucket_files_lookup. unfold under in Hp. apply orb_false_iff in Hp as [_ Hp]. by rewrite Hout.
    + intros He p Hp. rewrite bucket_files_lookup, Hin by done. by destruct (addressable p).
Qed.

Lemma bucket_atomic : S3Atomic objects → AtomicWrites (bucket_ops fuel f) bucket_files.
Proof.
  intros Hat. split; cbn.
  - intros name r w w' n e Hw. unfold BucketFS_Write, BucketFS_WriteWithOptions in Hw. rewrite Hbucket in Hw.
    apply s3_write_spec in Hw as [_ Ho]. by apply bucket_files_eq, Ho.
  - intros name w w' e Hr. unfold BucketFS_Remove in Hr. rewrite Hbucket in Hr. apply s3_remove_spec in Hr as (_ & _ & Ho).
    by apply bucket_files_eq, Ho.
Qed.

Lemma bucket_read_laws : ReadLaws () bucket_files.
Proof.
  split; cbn; unfold BucketFS_OpenFile; rewrite Hbucket; intros name w.
  - intros file. destruct (s3_openFile bucket name w) as [g|e] eqn:Ho; [|done]. intros [= <-].
    assert (addressable name = true) as Ha.
    { unfold s3_openFile in Ho. apply addressable_true. destruct (ValidPath name); [|done]. cbn [negb orb] in Ho.
      case_bool_decide; done. }
    destruct (openFile_ok _ _ _ Ho) as (data & Hd & Hok & H0). exists data. rewrite bucket_files_lookup, Ha.
    split; [done|]. unfold s3_File. pose proof Hok as (_ & _ & -> & _). pose proof (len_nonneg data) as Hl.
    pose proof (drain_ok name data w (S (S (Z.to_nat (len data)))) g Hok Hd) as Hdrain.
    cbn [default from_option id]. destruct (drain _ g w) as [r g']. cbn in *. intros He.
    rewrite Hdrain; [by rewrite H0|lia..|done].
  - intros e. unfold s3_openFile. destruct (negb (ValidPath name) || bool_decide (name = ".")) eqn:Hv.
    { by intros [= <-]. }
    destruct (HeadObject bucket name w) as [h|err] eqn:Hh; [done|]. intros [= <-]. cbn.
    destruct (s3_head_err _ _ _ _ laws _ _ _ Hh) as [Hne Hnone]. rewrite bucket_files_lookup.
    destruct (errIsNotExist err); [by rewrite Hnone; destruct (addressable name)|]. congruence.
Qed.

Lemma bucket_copy dst src w w' n e :
  (r ← BucketFS_Copy f dst src; mret (no_panic r)) w = (w', (n, e)) →
  match e with
  | None => ∃ data, bucket_files w !! src = Some data ∧ bucket_files w' = <[dst := data]> (bucket_files w)
  | Some _ => delete dst (bucket_files w') = delete dst (bucket_files w)
  end.
Proof.
  intros Hr. apply io_bind_inv in Hr as (w1 & r & Hc & Hr). unfold BucketFS_Copy in Hc. rewrite Hbucket in Hc.
  destruct (s3_copy_spec _ _ _ _ _ _ Hopts Hc) as (n' & err & -> & Herr). cbn in Hr. injection Hr as <- _ <-.
  destruct err as [err|]; [by apply bucket_files_other|].
  destruct Herr as (Hvs & Hs & Hvd & Hd & data & Hdata & Ho). exists data.
  rewrite bucket_files_lookup, (proj2 (addressable_true src)) by done. split; [done|].
  apply bucket_files_insert; [by apply addressable_true|done].
Qed.

Lemma bucket_copy_laws : CopyLaws () bucket_files.
Proof.
  split; cbn; [intros copy dst src w w' n [= <-] Hr|intros copy dst src w w' n e [= <-] Hr]; by apply bucket_copy in Hr.
Qed.

(** C15. On a service that keeps its promises a bucket is a backend of the library:
    writes, removals, reads and copies, in one request or by multipart copy, keep
    the laws of FS.v on the objects whose keys are paths, so that the theorems on
    updates hold for objects in a bucket, and no copy panics; writes are atomic if
    a request that reports an error had no effect. *)
Theorem BucketFS_refines :
  WriteLaws () (bucket_ops fuel f) bucket_files ∧ (S3Atomic objects → AtomicWrites (bucket_ops fuel f) bucket_files)
  ∧ ReadLaws () bucket_files ∧ CopyLaws () bucket_files
  ∧ ∀ dst src w, ∃ w' n err, BucketFS_Copy f dst src w = (w', Ok (n, err)).
Proof.
  split_and!; [apply bucket_write_laws|apply bucket_atomic|apply bucket_read_laws|apply bucket_copy_laws|].
  intros dst src w. unfold BucketFS_Copy. rewrite Hbucket.
  destruct (s3_copy _ dst src _ w) as [w' r] eqn:Hc.
  destruct (s3_copy_spec _ _ _ _ _ _ Hopts Hc) as (n & err & -> & _). by exists w', n, err.
Qed.

(** *** Listing *)

Lemma plain_path_app_inv a b : plain_path (a +:+ "/" +:+ b) → plain_path b.
Proof.
  unfold plain_path. change ("/" +:+ b) with (String slash b). rewrite split_on_app_any. by intros [_ ?]%Forall_app.
Qed.


(** The key of a file that a walk of [dir] yields. *)
Definition walk_key {FS : Type} (dir : string) (r : FileRef FS) : string :=
  if bool_decide (dir = ".") then fr_Path r else dir +:+ "/" +:+ fr_Path r.

(** The keys that a listing has not reached. *)
Definition pending (w : W) (dir : string) (token : option string) : gset string :=
  filter (λ k, HasPrefix k (default "" (list_prefix dir)) = true ∧ after tok_key token k) (dom (objects w)).

Lemma walk_pages_spec {FS : Type} n (ref : FS) dir token w :
  (∀ token, ∃ page, ListObjectsV2 bucket (mkListInput (list_prefix dir) None token maxKeys) w = inl page) →
  (size (pending w dir token) < n)%nat →
  ∃ items, walk_pages n ref bucket dir token w = (λ i, Ok (walk_ref ref dir i)) <$> items
    ∧ NoDup (si_Key <$> items) ∧ ∀ k, k ∈ si_Key <$> items ↔ k ∈ pending w dir token.
Proof.
  intros Hlist. revert token. induction n as [|n IH]; intros token Hn; [lia|]. cbn [walk_pages].
  destruct (Hlist token) as [page Hp]. rewrite Hp.
  destruct (s3_list_sound _ _ _ _ laws _ _ _ _ Hp) as (Hnd & Hin & Hnext).
  assert (∀ k, k ∈ item_keys page → k ∈ pending w dir token) as Hin'.
  { intros k Hk. apply Hin in Hk as (Hs & Hpre & Ha). apply elem_of_filter. by rewrite elem_of_dom. }
  assert (∀ k, k ∈ pending w dir token → k ∈ item_keys page
    ∨ ∃ t, lo_NextContinuationToken page = Some t ∧ k ∈ pending w dir (Some t)) as Hcomp.
  { intros k [[Hpre Ha] Hs]%elem_of_filter. apply elem_of_dom in Hs.
    destruct (s3_list_complete _ _ _ _ laws _ _ _ _ k Hp Hs Hpre Ha) as [Hk|(t & Ht & Hat)]; [by left|].
    right. exists t. split; [done|]. apply elem_of_filter. by rewrite elem_of_dom. }
  destruct (lo_NextContinuationToken page) as [t|] eqn:Ht.
  - destruct (Hnext t eq_refl) as (Hne & Hnot & Hmono).
    assert (pending w dir (Some t) ⊂ pending w dir token) as Hsub.
    { split.
      - intros k [[Hpre Ha] Hs]%elem_of_filter. apply elem_of_filter. auto.
      - destruct (lo_Contents page) as [|i l] eqn:Hc; [done|]. intros Hsub.
        assert (si_Key i ∈ item_keys page) as Hi by (unfold item_keys; rewrite Hc; left).
        specialize (Hsub _ (Hin' _ Hi)). apply elem_of_filter in Hsub as [[_ Ha] _]. by apply (Hnot _ Hi). }
    apply subset_size in Hsub as Hsz. destruct (IH (Some t)) as (items & Hw & Hnd' & Hitems); [lia|].
    exists (lo_Contents page ++ items). rewrite !fmap_app, Hw. split; [done|]. split.
    + apply NoDup_app. split_and!; [done| |done]. intros k Hk Hk'. apply Hitems in Hk'.
      apply elem_of_filter in Hk' as [[_ Ha] _]. by apply (Hnot _ Hk).
    + intros k. rewrite elem_of_app, Hitems. split; [intros [Hk|Hk]; [by apply Hin'|by apply Hsub]|].
      intros [Hk|(t' & [= <-] & Hk)]%Hcomp; auto.
  - exists (lo_Contents page). rewrite app_nil_r. split_and!; [done..|]. intros k. split; [apply Hin'|].
    by intros [Hk|(t' & [=] & _)]%Hcomp.
Qed.

Lemma walk_key_item {FS : Type} (ref : FS) dir item :
  HasPrefix (si_Key item) (default "" (list_prefix dir)) = true → walk_key dir (walk_ref ref dir item) = si_Key item.
Proof.
  unfold walk_key, walk_ref, list_prefix. cbn [fr_Path]. case_bool_decide; [done|]. cbn.
  intros [r ->]%HasPrefix_true. rewrite TrimPrefix_app. apply (string_app_assoc dir "/" r).
Qed.

(** [WalkFiles] ends and lists a directory completely: when the service answers
    its requests, a walk yields each object below the directory exactly once and
    no error, however the listing is cut into pages; the full path of a file that
    can be named is its key. *)
Theorem WalkFiles_complete (ref : unit) dir w :
  ValidPath dir = true → (size (objects w) < fuel)%nat →
  (∀ token, ∃ page, ListObjectsV2 bucket (mkListInput (list_prefix dir) None token maxKeys) w = inl page) →
  ∃ refs, BucketFS_WalkFiles fuel ref f dir w = Ok <$> refs
    ∧ NoDup (walk_key dir <$> refs)
    ∧ (∀ p, p ∈ walk_key dir <$> refs ↔ is_Some (objects w !! p) ∧ (dir = "." ∨ below dir p = true))
    ∧ ∀ r, r ∈ refs → addressable (walk_key dir r) = true → FullPath r = walk_key dir r.
Proof.
  intros Hdir Hfuel Hlist. unfold BucketFS_WalkFiles, s3_walkFiles. rewrite Hbucket, Hdir. cbn [negb].
  destruct (walk_pages_spec fuel ref dir None w Hlist) as (items & Hw & Hnd & Hitems).
  { eapply Nat.le_lt_trans; [|exact Hfuel]. rewrite <- size_dom. apply subseteq_size. intros k. by intros [_ ?]%elem_of_filter. }
  assert (walk_key dir <$> (walk_ref ref dir <$> items) = si_Key <$> items) as Hkeys.
  { rewrite <- list_fmap_compose. apply list_fmap_ext. intros i item Hi. unfold compose. apply walk_key_item.
    assert (si_Key item ∈ pending w dir None) as [[Hp _] _]%elem_of_filter; [|done].
    apply Hitems, list_elem_of_fmap. exists item. split; [done|]. by eapply list_elem_of_lookup_2. }
  exists (walk_ref ref dir <$> items). rewrite Hkeys. split_and!.
  - rewrite Hw, <- list_fmap_compose. done.
  - done.
  - intros p. rewrite Hitems. unfold pending. rewrite elem_of_filter, elem_of_dom. unfold list_prefix, below, after.
    case_bool_decide as Hd; cbn; naive_solver.
  - intros r Hr Ha. apply list_elem_of_fmap in Hr as (item & -> & _). unfold FullPath. apply addressable_true in Ha as [Hv Hne].
    pose proof (ValidPath_plain _ Hv Hne) as Hp. unfold walk_key in *. cbn [walk_ref fr_BaseDir fr_Path] in *.
    rewrite Join_dir; [done..|]. case_bool_decide; [done|]. by apply plain_path_app_inv in Hp.
Qed.
End spec.

(** ** A service in memory

    The bucket "b" with its objects and the parts of its uploads.  [CopyObject]
    refuses sources above ten bytes, so that these are copied in parts. *)
Module mem_s3.
Definition state : Type := gmap string string * gmap string (gmap Z (string * string)).

Definition small (data : string) : bool := len data <? 2 ^ 50.
Definition objects (w : state) : gmap string string := filter (λ e : string * string, small e.2 = true) w.1.

Definition not_found : error := ErrNew "NotFound".
Definition too_large : error := ErrNew "the copy source is larger than the maximum allowable size".

(** The object a copy source names. *)
Definition source (copySource : string) (w : state) : option string := k ← CutPrefix copySource "b/"; objects w !! k.

(** The two numbers of a range. *)
Definition parse_range (s : string) : option (Z * Z) :=
  r ← CutPrefix s "bytes=";
  let '(a, b, _) := Cut r "-" in Some (digits_val a 0, digits_val b 0).

Definition put (k data : string) (w : state) : state * option error :=
  if small data then ((<[k := data]> w.1, w.2), None) else (w, Some (ErrNew "EntityTooLarge")).

Definition head (k : string) (w : state) : result HeadObjectOutput :=
  match objects w !! k with
  | Some data => inl (mkHead (Some (len data)) "etag" 0)
  | None => inr not_found
  end.

Definition get (gi : GetObjectInput) (w : state) : result reader :=
  match objects w !! gi_Key gi with
  | None => inr not_found
  | Some data =>
      let off := match gi_Range gi with
                 | None => 0
                 | Some r => (default (0, 0) (parse_range r)).1
                 end in
      inl (bytes_reader (string_drop (Z.to_nat off) data))
  end.

(** The elements of a listing with the delimiter. *)
Definition elements_after (prefix : string) (token : option string) (w : state) : list (string * bool) :=
  filter (λ e : string * bool, after (λ t, t) token e.1)
    (remove_dups (omap (element_of prefix) ((map_to_list (objects w)).*1))).

Definition list_objects (i : ListInput) (w : state) : result ListOutput :=
  let prefix := default "" (li_Prefix i) in
  match li_Delimiter i with
  | None =>
      inl (mkListOutput []
        ((λ e, mkItem e.1 (len e.2) 0) <$> map_to_list
           (filter (λ e : string * string, HasPrefix e.1 prefix = true
              ∧ after (λ t, t) (li_ContinuationToken i) e.1) (objects w))) None)
  | Some _ =>
      let es := elements_after prefix (li_ContinuationToken i) w in
      inl (mkListOutput (omap (λ e : string * bool, if e.2 then Some e.1 else None) es)
        (omap (λ e : string * bool, if e.2 then None else Some (mkItem e.1 (len (default "" (objects w !! e.1))) 0)) es) None)
  end.

Definition part_copy (i : UploadPartCopyInput) (w : state) : state * result (option string) :=
  match source (pc_CopySource i) w, parse_range (pc_CopySourceRange i), w.2 !! pc_UploadId i with
  | Some data, Some (first, last), Some parts =>
      ((w.1, <[pc_UploadId i := <[pc_PartNumber i := ("tag", bytes_range data first last)]> parts]> w.2), inl (Some "tag"))
  | _, _, _ => (w, inr (ErrNew "InvalidRequest"))
  end.

(** The data of the parts of a list. *)
Definition part_list (parts : gmap Z (string * string)) (cs : list CompletedPart) : option (list string) :=
  mapM (λ c, p ← parts !! cp_PartNumber c; if bool_decide (p.1 = cp_ETag c) then Some p.2 else None) cs.

Definition complete (dst id : string) (cs : list CompletedPart) (w : state) : state * option error :=
  match (parts ← w.2 !! id; part_list parts cs) with
  | Some ds => put dst (concat_strings ds) w
  | None => (w, Some (ErrNew "InvalidPart"))
  end.

#[global] Instance api : S3API state := {|
  HeadObject := λ _, head;
  GetObject := get;
  ListObjectsV2 := λ _, list_objects;
  DeleteObject := λ _ k w, ((delete k w.1, w.2), None);
  CopyObject := λ _ src dst w,
    match source src w with
    | Some data => if len data <=? 10 then put dst data w else (w, Some too_large)
    | None => (w, Some not_found)
    end;
  CreateMultipartUpload := λ _ _ w, ((w.1, <["upload" := ∅]> w.2), inl "upload");
  UploadPartCopy := λ _, part_copy;
  CompleteMultipartUpload := λ _, complete;
  AbortMultipartUpload := λ _ _ _ w, (w, None);
  Upload := λ p w, match rd_err (pi_Body p) with
                   | Some e => (w, (0, Some e))
                   | None => let '(w, e) := put (pi_Key p) (rd_data (pi_Body p)) w in (w, (len (rd_data (pi_Body p)), e))
                   end;
  body_chunk := λ _ _, 4%nat;
  body_ends := λ _ _, true;
  body_Close := λ _, None;
  kind_of_reader := λ _, KOther;
  as_NotFound := λ e, match e with ErrNew "NotFound" => true | _ => false end;
  as_NoSuchKey := λ _, false;
  says_too_large := λ e, match e with ErrNew s => HasSuffix s "larger than the maximum allowable size" | _ => false end;
  url_QueryEscape := λ s, s;
  MinUploadPartSize := 5 * megabyte;
  MaxUploadParts := 10000
|}.

Lemma objects_lookup w k d : objects w !! k = Some d ↔ w.1 !! k = Some d ∧ small d = true.
Proof. unfold objects. by rewrite map_lookup_filter_Some. Qed.

Lemma put_ok k d w w' : put k d w = (w', None) → objects w' = <[k := d]> (objects w).
Proof.
  unfold put. destruct (small d) eqn:Hs; [|done]. intros [= <-]. unfold objects. cbn. by apply map_filter_insert_True.
Qed.

Lemma put_err k d w w' e : put k d w = (w', Some e) → w' = w.
Proof. unfold put. destruct (small d); [done|]. by intros [= <-]. Qed.

Lemma source_key k w : source ("b" +:+ "/" +:+ k) w = objects w !! k.
Proof. unfold source. change ("b" +:+ "/" +:+ k) with ("b/" +:+ k). by rewrite CutPrefix_app. Qed.

Lemma Cut_digits ds rest : all_digits ds → Cut (ds +:+ String "-" rest) "-" = (ds, rest, true).
Proof.
  induction ds as [|c ds IH]; [done|]. intros [Hc Hds]%all_digits_cons. cbn.
  destruct (ascii_dec c "-") as [->|_]; [done|]. by rewrite IH.
Qed.

Lemma parse_range_string first last : 0 ≤ first → 0 ≤ last → parse_range (range_string first last) = Some (first, last).
Proof.
  intros Hf Hl. destruct (Itoa_spec first Hf) as (Hfd & Hfv & _). destruct (Itoa_spec last Hl) as (_ & Hlv & _).
  unfold parse_range, range_string. rewrite CutPrefix_app. cbn [mbind option_bind].
  change ("-" +:+ ?x) with (String "-" x). by rewrite Cut_digits, Hfv, Hlv.
Qed.

Lemma parse_offset off : 0 ≤ off → parse_range ("bytes=" +:+ Itoa off +:+ "-") = Some (off, 0).
Proof.
  intros Ho. destruct (Itoa_spec off Ho) as (Hd & Hv & _). unfold parse_range. rewrite CutPrefix_app. cbn [mbind option_bind].
  change (Itoa off +:+ "-") with (Itoa off +:+ String "-" ""). by rewrite Cut_digits, Hv.
Qed.

Lemma part_list_Forall2 parts cs ds : part_list parts cs = Some ds →
  Forall2 (λ c d, parts !! cp_PartNumber c = Some (cp_ETag c, d)) cs ds.
Proof.
  intros Hp%mapM_Some. eapply Forall2_impl; [exact Hp|]. intros c d. cbn.
  destruct (parts !! cp_PartNumber c) as [[t x]|]; [|done]. cbn. case_bool_decide; [|done]. intros [= <-]. by subst.
Qed.

Lemma list_keys i w page k : li_Delimiter i = None → list_objects i w = inl page →
  k ∈ item_keys page ↔ is_Some (objects w !! k) ∧ HasPrefix k (default "" (li_Prefix i)) = true ∧ after (λ t, t) (li_ContinuationToken i) k.
Proof.
  unfold list_objects. intros -> [= <-]. unfold item_keys. cbn [lo_Contents]. rewrite <- list_fmap_compose. unfold compose. cbn [si_Key].
  rewrite list_elem_of_fmap. split.
  - intros ([k' d] & -> & Hin). apply elem_of_map_to_list, map_lookup_filter_Some in Hin as (Ho & Hp & Ht). cbn in *. eauto.
  - intros ([d Hd] & Hp & Ht). exists (k, d). split; [done|]. by apply elem_of_map_to_list, map_lookup_filter_Some.
Qed.

Lemma laws `{GoEnv} : S3Laws "b" objects snd (λ t, t).
Proof.
  split.
  - intros k data w [_ Hs]%objects_lookup. by apply Z.ltb_lt in Hs.
  - done.
  - intros k w h. cbn. unfold head. destruct (objects w !! k); [|done]. intros [= <-]. eauto.
  - intros k w e. cbn. unfold head. destruct (objects w !! k); [done|]. by intros [= <-].
  - intros gi w rd off. cbn [GetObject api]. unfold get. destruct (objects w !! gi_Key gi) as [data|]; [|done].
    intros [= <-] _ Ho Hr. exists data, "". rewrite string_app_nil_r, Hr. split_and!; try done. cbn [rd_data bytes_reader].
    destruct (Z.ltb_spec 0 off); [by rewrite parse_offset|]. by replace off with 0 by lia.
  - intros gi w e. cbn. unfold get. destruct (objects w !! gi_Key gi); [done|]. by intros [= <-].
  - intros p w w' n. cbn. destruct (rd_err (pi_Body p)); [done|]. destruct (put _ _ w) as [w1 e] eqn:Hp.
    intros [= -> _ ->] _. split; [done|]. by apply put_ok.
  - intros p w w' n e. cbn. destruct (rd_err (pi_Body p)); [by intros [= <- _ _]|]. destruct (put _ _ w) as [w1 e1] eqn:Hp.
    intros [= -> _ ->]. by apply put_err in Hp as ->.
  - intros k w w' [= <-]. unfold objects. cbn. apply map_filter_delete.
  - done.
  - intros src dst w w'. cbn [CopyObject api url_QueryEscape]. rewrite source_key.
    destruct (objects w !! src) as [data|]; [|done]. destruct (_ <=? _); [|done]. intros Hp%put_ok. eauto.
  - intros src dst w w' e. cbn [CopyObject api]. destruct (source src w); [|by intros [= <- _]]. destruct (_ <=? _); [|by intros [= <- _]].
    by intros ->%put_err.
  - by intros k w w' id [= <- _].
  - done.
  - intros c src dst id num first last w w' result. cbn [UploadPartCopy api url_QueryEscape]. unfold part_copy.
    cbn [pc_CopySource pc_CopySourceRange pc_UploadId pc_PartNumber]. rewrite source_key.
    destruct (objects w !! src) as [data|]; [|done]. intros Hp Hfl. rewrite parse_range_string in Hp by lia.
    destruct (w.2 !! id) as [parts|]; [|done]. injection Hp as <- <-. split; [done|].
    exists "tag", data, parts. cbn. by rewrite lookup_insert_eq.
  - intros c i w w' e. cbn. unfold part_copy. destruct (source _ w); [|by intros [= <- _]].
    destruct (parse_range _) as [[]|]; [|by intros [= <- _]]. destruct (w.2 !! _); [done|by intros [= <- _]].
  - intros dst id cs w w'. cbn. unfold complete. destruct (w.2 !! id) as [parts|] eqn:Hw; [|done]. cbn.
    destruct (part_list parts cs) as [ds|] eqn:Hd; [|done]. intros Hp%put_ok. exists parts, ds.
    split_and!; [done|by apply part_list_Forall2|done].
  - intros dst id cs w w' e. cbn. unfold complete. destruct (_ ≫= _); [by intros ->%put_err|by intros [= <- _]].
  - by intros dst id w w' e [= <- _].
  - intros prefix token w page Hp. cbn in Hp. split_and!.
    + injection Hp as <-. unfold item_keys. cbn [lo_Contents]. rewrite <- list_fmap_compose. apply NoDup_fst_map_to_list.
    + intros k Hk. by apply (list_keys (mkListInput prefix None token maxKeys) w page k eq_refl Hp) in Hk.
    + by injection Hp as <-.
  - intros prefix token w page k Hp Ho Hpre Ha. left. by apply (list_keys (mkListInput prefix None token maxKeys) w page k eq_refl Hp).
Qed.

Lemma atomic : S3Atomic objects.
Proof.
  split; [|done]. intros p w w' n e. cbn. destruct (rd_err (pi_Body p)); [by intros [= <- _ _]|].
  destruct (put _ _ w) as [w1 e1] eqn:Hp. intros [= -> _ ->]. by apply put_err in Hp as ->.
Qed.
End mem_s3.

(** ** Witnesses *)

#[local] Existing Instance ref_env.

Lemma parts_tile_witness : sizes_ok (len "hello") 2 3 ∧
  concat_strings (part_data "hello" 2 <$> [1; 2; 3]) = "hello".
Proof.
  assert (sizes_ok (len "hello") 2 3) as Hok by (unfold sizes_ok, len; cbn; lia). split; [exact Hok|].
  destruct (parts_tile "hello" 2 3 Hok) as (psize & pcount & He & _ & _ & _ & _ & Hc).
  assert (adjustPartSize (len "hello") 2 3 = Some (2, 3)) as He' by by vm_compute.
  rewrite He' in He. injection He as <- <-. exact Hc.
Defined.

Definition ex_bucket : mem_s3.state := ({["d/x" := "0123456789abcdef"]} , ∅).
(** Open, read two bytes, seek to the tenth byte, read to the end. *)
Definition ex_file : s3File := mkS3File "b" "d/x" None (mkHead (Some 16) "etag" 0) 0.
Definition ex_read (f : s3File) (n : Z) : s3File * (string * option error) :=
  match s3File_Read f n ex_bucket with Ok r => r | _ => (f, ("", None)) end.
Definition ex_seek (f : s3File) (offset : Z) (wh : whence) : s3File * (Z * option error) :=
  match s3File_Seek f offset wh with Ok r => r | _ => (f, (0, None)) end.
Definition ex_file1 := (ex_read ex_file 2).1.
Definition ex_file2 := (ex_seek ex_file1 (-6) SeekEnd).1.
Definition ex_file3 := (ex_read ex_file2 100).1.
Definition ex_file4 := (ex_read ex_file3 100).1.
Definition ex_calls : list file_call :=
  [CRead 2 "01" None; CSeek (-6) SeekEnd (10, None); CRead 100 "abcd" None; CRead 100 "ef" (Some (ErrVar io_EOF))].

Lemma s3File_reads_witness : ∃ data, mem_s3.objects ex_bucket !! "d/x" = Some data ∧ pos_run data 0 ex_calls 16.
Proof.
  apply (s3File_reads "b" mem_s3.objects snd (λ t, t) mem_s3.laws "d/x" ex_bucket ex_file ex_calls ex_file4).
  - by vm_compute.
  - eapply (run_Read _ _ 2 ex_file1); [done|by vm_compute|].
    eapply (run_Seek _ _ _ _ ex_file2); [by vm_compute|].
    eapply (run_Read _ _ 100 ex_file3); [done|by vm_compute|].
    eapply (run_Read _ _ 100 ex_file4); [done|by vm_compute|]. apply run_nil.
Defined.

Definition ex_backend : BucketFS := NewBucketFS "b" [WithMultiPartCopyOption [λ c, mkMultiCopier (6 * megabyte) 2]].

Lemma BucketFS_refines_witness :
  (∃ w', BucketFS_Copy ex_backend "d/y" "d/x" ex_bucket = (w', Ok (16, None))
    ∧ mem_s3.objects w' !! "d/y" = Some "0123456789abcdef")
  ∧ @WriteLaws _ _ (bucket_fs 5 ex_backend) () (bucket_ops 5 ex_backend) (bucket_files mem_s3.objects)
  ∧ AtomicWrites (bucket_ops 5 ex_backend) (bucket_files mem_s3.objects).
Proof.
  split; [eexists; split; [by vm_compute|by vm_compute]|].
  destruct (BucketFS_refines "b" mem_s3.objects snd (λ t, t) mem_s3.laws 5 ex_backend eq_refl eq_refl) as (Hw & Hat & _).
  split; [exact Hw|]. exact (Hat mem_s3.atomic).
Defined.

Lemma WalkFiles_complete_witness : ∃ refs, BucketFS_WalkFiles 5 () ex_backend "d" ex_bucket = Ok <$> refs
  ∧ (∀ p, p ∈ walk_key "d" <$> refs ↔ is_Some (mem_s3.objects ex_bucket !! p) ∧ ("d" = "." ∨ below "d" p = true)).
Proof.
  destruct (WalkFiles_complete "b" mem_s3.objects snd (λ t, t) mem_s3.laws 5 ex_backend eq_refl () "d" ex_bucket)
    as (refs & Hw & _ & Hk & _).
  - by vm_compute.
  - vm_compute. lia.
  - intros token. by eexists.
  - exact (ex_intro _ refs (conj Hw Hk)).
Defined.
