(* ===== verification/Local.v ===== *)
(** * The local backend ([src/fs/local/localfs.go])

    The methods of the backend over a directory of the operating system.  The calls
    of the [os] package are arguments (the class [OS]), on the state [W] of all
    storage; paths are those of a Unix system, where [path/filepath] is [path] and
    [FromSlash] the identity.  On a system that keeps the promises of [OSLaws] the
    backend keeps the laws of FS.v, but its writes are not atomic. *)
From S2P Require Import Prelude GoStd FS.

(** ** The operating system *)

Definition O_WRONLY : Z := 1.
Definition O_CREATE : Z := 64.
Definition O_TRUNC : Z := 512.

Class OS (W : Type) := {
  (** [ctx.Err()] of the caller's context *)
  os_ctx_Err : W → option error;
  os_handle : Type;
  os_MkdirAll : string → Z → IO W (option error);
  os_OpenFile : string → Z → Z → IO W (result os_handle);
  (** [io.Copy] to an open file *)
  os_Copy : os_handle → reader → IO W (Z * option error);
  os_Close : os_handle → IO W (option error);
  os_Remove : string → IO W (option error);
  os_RemoveAll : string → IO W (option error);
  (** [Open] of the file system [os.DirFS(dir)], and [fs.ReadDir] on it *)
  os_DirFS_Open : string → string → W → result File;
  os_DirFS_ReadDir : string → string → W → list DirEntry * option error;
  filepath_Abs : string → result string
}.

Definition dirPerm : Z := 493.
Definition filePerm : Z := 420.

(** ** The backend *)

Section local.
Context `{OS W}.
Implicit Types (w : W).

(** [src/fs/local/localfs.go:20-24] FS *)
Record LocalFS := mkLocalFS { lf_path : string }.

(** [src/fs/local/localfs.go:29-38] NewFS *)
Definition local_NewFS (path : string) : result LocalFS :=
  match filepath_Abs path with
  | inr err => inr (ErrWrap "new backend" err)
  | inl abs => inl (mkLocalFS abs)
  end.

(** [src/fs/local/localfs.go:40-42] FS.Root *)
Definition local_Root (fsys : LocalFS) : string := lf_path fsys.

(** [src/fs/local/localfs.go:161-166] FS.osPath *)
Definition osPath (fsys : LocalFS) (name : string) : result string :=
  if negb (ValidPath name) then inr (ErrVar fs_ErrInvalid) else inl (Join [lf_path fsys; name]).

(** [src/fs/local/localfs.go:44-93] FS.Write: the error of a [Close] after a failed
    copy is dropped *)
Definition local_Write (fsys : LocalFS) (name : string) (src : reader) : IO W (Z * option error) :=
  let failed n err := mret (n, Some (PathError "write" name err)) in
  match osPath fsys name with
  | inr err => failed 0 err
  | inl fullPath =>
      ctxErr ← io_read os_ctx_Err;
      match ctxErr with
      | Some err => failed 0 err
      | None =>
          err ← os_MkdirAll (Dir fullPath) dirPerm;
          match err with
          | Some err => failed 0 err
          | None =>
              dst ← os_OpenFile fullPath (Z.lor O_CREATE (Z.lor O_TRUNC O_WRONLY)) filePerm;
              match dst with
              | inr err => failed 0 err
              | inl dst =>
                  '(n, err) ← os_Copy dst src;
                  closeErr ← os_Close dst;
                  match err, closeErr with
                  | Some err, _ => failed n err
                  | None, Some err => failed n err
                  | None, None => mret (n, None)
                  end
              end
          end
      end
  end.

(** The checks of [Remove] and [RemoveAll]. *)
Definition removable (fsys : LocalFS) (name : string) (remove : string → IO W (option error)) : IO W (option error) :=
  let failed err := mret (Some (PathError "remove" name err)) in
  match osPath fsys name with
  | inr err => failed err
  | inl fullPath =>
      if bool_decide (name = ".") then failed (ErrNew "cannot remove top-level directory")
      else
        ctxErr ← io_read os_ctx_Err;
        match ctxErr with
        | Some err => failed err
        | None =>
            err ← remove fullPath;
            match err with
            | Some err => failed err
            | None => mret None
            end
        end
  end.

(** [src/fs/local/localfs.go:95-126] FS.Remove *)
Definition local_Remove (fsys : LocalFS) (name : string) : IO W (option error) := removable fsys name os_Remove.

(** [src/fs/local/localfs.go:128-159] FS.RemoveAll *)
Definition local_RemoveAll (fsys : LocalFS) (name : string) : IO W (option error) :=
  removable fsys name (λ fullPath, os_RemoveAll (fullPath +:+ "/")).

Definition local_ops (fsys : LocalFS) : WriteFS W := {|
  w_Write := local_Write fsys;
  w_Remove := local_Remove fsys;
  w_RemoveAll := local_RemoveAll fsys
|}.

(** The backend embeds the wrapped [os.DirFS] for reading and has no [Copy]. *)
Definition local_fs (fsys : LocalFS) : FileSystems W unit := {|
  FS_eq_dec := unit_eq_dec;
  OpenFile := λ _, WrapFS_OpenFile (os_DirFS_Open (lf_path fsys)) os_ctx_Err;
  as_DirEntriesFS := λ _, Some (WrapFS_DirEntries (os_DirFS_ReadDir (lf_path fsys)) os_ctx_Err);
  as_FileWalker := λ _, None;
  as_WriteFS := λ _, Some (local_ops fsys);
  as_CopyFS := λ _, None
|}.

(** ** What the operating system promises *)

(** [files] are the regular files by their absolute path.  Opening for writing
    truncates; a failed copy may leave anything in the file. *)
Record OSLaws (files : W → gmap string string) (opened : os_handle → string) : Prop := {
  os_mkdir : ∀ p perm w w' e, os_MkdirAll p perm w = (w', e) → files w' = files w;
  os_open_ok : ∀ p perm w w' h, os_OpenFile p (Z.lor O_CREATE (Z.lor O_TRUNC O_WRONLY)) perm w = (w', inl h) →
    opened h = p ∧ files w' = <[p := ""]> (files w);
  os_open_err : ∀ p flags perm w w' e, os_OpenFile p flags perm w = (w', inr e) →
    delete p (files w') = delete p (files w);
  os_copy_ok : ∀ h r w w' n, os_Copy h r w = (w', (n, None)) → files w !! opened h = Some "" →
    rd_err r = None ∧ files w' = <[opened h := rd_data r]> (files w);
  os_copy_err : ∀ h r w w' n e, os_Copy h r w = (w', (n, Some e)) →
    delete (opened h) (files w') = delete (opened h) (files w);
  os_close : ∀ h w w' e, os_Close h w = (w', e) → files w' = files w;
  os_remove_ok : ∀ p w w', os_Remove p w = (w', None) → files w' = delete p (files w);
  os_remove_err : ∀ p w w' e, os_Remove p w = (w', Some e) →
    files w' = files w ∧ (errors_Is e fs_ErrNotExist = true → files w !! p = None);
  os_removeAll : ∀ p w w' e, os_RemoveAll (p +:+ "/") w = (w', e) →
    files w' ⊆ files w
    ∧ (∀ q, under p q = false → files w' !! q = files w !! q)
    ∧ (e = None → ∀ q, below p q = true → files w' !! q = None);
  os_read_ok : ∀ dir name w f, os_DirFS_Open dir name w = inl f → ValidPath name = true →
    ∃ data, files w !! Join [dir; name] = Some data ∧ (rd_err (f_reader f) = None → rd_data (f_reader f) = data);
  os_read_err : ∀ dir name w e, os_DirFS_Open dir name w = inr e → ValidPath name = true →
    errors_Is e fs_ErrNotExist = true → files w !! Join [dir; name] = None;
  (* the errors of a context are [Canceled] and [DeadlineExceeded] *)
  os_ctx : ∀ w e, os_ctx_Err w = Some e → errors_Is e fs_ErrNotExist = false
}.
End local.

(** ** The files below the root *)

Lemma clean_elems_app rooted out l rest : Forall plain_elem l →
  clean_elems rooted out (l ++ rest) = clean_elems rooted (rev l ++ out) rest.
Proof.
  revert out. induction l as [|e l IH]; intros out Hl; cbn; [done|].
  inversion_clear Hl as [|?? He Hl']. apply plain_elem_spec in He as (H1 & H2 & H3).
  rewrite !bool_decide_false by done. cbn. rewrite IH by done. by rewrite <- (assoc_L (++)).
Qed.

(** An absolute path other than the root of the file system. *)
Definition abs_path (root : string) : Prop := ∃ r, root = "/" +:+ r ∧ plain_path r.

Lemma Clean_abs p : Clean ("/" +:+ p) = "/" +:+ join_with "/" (clean_elems true [] (split_on slash p)).
Proof. done. Qed.

Lemma plain_abs r : plain_path r → join_with "/" (clean_elems true [] (split_on slash r)) = r.
Proof. intros Hr. rewrite clean_elems_plain by done. cbn [rev app]. apply join_split. Qed.

Lemma osPath_Join root n : abs_path root → ValidPath n = true →
  Join [root; n] = if bool_decide (n = ".") then root else root +:+ "/" +:+ n.
Proof.
  intros (r & -> & Hr) Hn.
  assert (Join ["/" +:+ r; n] = Clean ("/" +:+ (r +:+ "/" +:+ n))) as ->.
  { unfold Join. rewrite filter_cons_True by done. rewrite filter_cons_True by (intros ->; done). done. }
  rewrite Clean_abs. case_bool_decide as Hd.
  - subst n. change (r +:+ "/" +:+ ".") with (r +:+ String slash "."). rewrite split_on_app_any.
    rewrite clean_elems_app by done.
    change (split_on slash ".") with ["."]. cbn [clean_elems].
    rewrite (bool_decide_true ("." = ".")), orb_true_r, app_nil_r, rev_involutive, join_split by done. done.
  - rewrite plain_abs by (apply plain_path_app; [done|by apply ValidPath_plain]). done.
Qed.

Lemma osPath_inj root n m : abs_path root → ValidPath n = true → ValidPath m = true →
  Join [root; n] = Join [root; m] → n = m.
Proof.
  intros Hroot Hn Hm. rewrite !osPath_Join by done.
  assert (∀ p, root ≠ root +:+ "/" +:+ p) as Hne.
  { intros p Heq. apply (f_equal String.length) in Heq. rewrite !string_length_app in Heq. cbn in Heq. lia. }
  do 2 case_bool_decide; intros Heq; [congruence|by destruct (Hne m)|by destruct (Hne n)|].
  by apply string_app_inj_length in Heq as [_ [= ->]].
Qed.

(** The files of the backend: those of the system below the root, by their names. *)
Definition local_name (root p : string) : option string :=
  if bool_decide (p = root) then Some "."
  else n ← CutPrefix p (root +:+ "/"); if ValidPath n && negb (bool_decide (n = ".")) then Some n else None.

Lemma local_name_Some root p n : abs_path root →
  local_name root p = Some n ↔ ValidPath n = true ∧ p = Join [root; n].
Proof.
  intros Hroot. unfold local_name. split.
  - case_bool_decide as Hp; [intros [= <-]; by rewrite osPath_Join|].
    destruct (CutPrefix p (root +:+ "/")) as [m|] eqn:Hc; [|done]. cbn.
    destruct (ValidPath m) eqn:Hv; [|done]. cbn. case_bool_decide as Hd; [done|]. intros [= <-].
    apply CutPrefix_Some in Hc as ->. rewrite osPath_Join, bool_decide_false by done. split; [done|].
    by rewrite <- string_app_assoc.
  - intros [Hv ->]. rewrite osPath_Join by done.
    destruct (decide (n = ".")) as [->|Hd]; [by rewrite (bool_decide_true ("." = ".")), bool_decide_true|].
    rewrite (bool_decide_false (n = ".")) by done. rewrite bool_decide_false.
    2:{ intros Heq. apply (f_equal String.length) in Heq. rewrite !string_length_app in Heq. cbn in Heq. lia. }
    change (root +:+ "/" +:+ n) with (root +:+ ("/" +:+ n)). rewrite string_app_assoc, CutPrefix_app. cbn.
    rewrite Hv. cbn. by rewrite bool_decide_false.
Qed.

Definition local_files_of (root : string) (m : gmap string string) : gmap string string :=
  list_to_map (omap (λ e : string * string, n ← local_name root e.1; Some (n, e.2)) (map_to_list m)).

Section names.
Context (root : string) (Hroot : abs_path root).

Lemma local_files_lookup m n : local_files_of root m !! n = if ValidPath n then m !! Join [root; n] else None.
Proof.
  assert (∀ n d, (n, d) ∈ omap (λ e : string * string, n ← local_name root e.1; Some (n, e.2)) (map_to_list m)
    ↔ ValidPath n = true ∧ m !! Join [root; n] = Some d) as Hin.
  { intros k d. rewrite list_elem_of_omap. split.
    - intros ([p d'] & Hp%elem_of_map_to_list & Hk). cbn in Hk. destruct (local_name root p) as [k'|] eqn:Hl; [|done].
      cbn in Hk. injection Hk as -> ->. apply local_name_Some in Hl as [Hv ->]; done.
    - intros [Hv Hd]. exists (Join [root; k], d). split; [by apply elem_of_map_to_list|]. cbn.
      by rewrite (proj2 (local_name_Some root _ k Hroot)). }
  unfold local_files_of. set (l := omap _ _) in *.
  assert (∀ d d', (n, d) ∈ l → (n, d') ∈ l → d = d') as Huniq.
  { intros d d' [_ Hd]%Hin [_ Hd']%Hin. congruence. }
  destruct (list_to_map (M:=gmap string string) l !! n) as [d|] eqn:Hl.
  - apply elem_of_list_to_map_2, Hin in Hl as [-> ->]. done.
  - apply not_elem_of_list_to_map_2 in Hl. destruct (ValidPath n) eqn:Hv; [|done].
    destruct (m !! Join [root; n]) as [d|] eqn:Hd; [|done]. destruct Hl.
    apply list_elem_of_fmap. exists (n, d). split; [done|]. by apply Hin.
Qed.
Lemma local_files_insert m n d : ValidPath n = true →
  local_files_of root (<[Join [root; n] := d]> m) = <[n := d]> (local_files_of root m).
Proof.
  intros Hn. apply map_eq. intros k. rewrite local_files_lookup. destruct (decide (k = n)) as [->|Hne].
  - by rewrite Hn, !lookup_insert_eq.
  - rewrite (lookup_insert_ne (local_files_of root m)) by done. rewrite local_files_lookup.
    destruct (ValidPath k) eqn:Hk; [|done]. rewrite lookup_insert_ne; [done|]. by intros ?%osPath_inj.
Qed.

Lemma local_files_delete m n : ValidPath n = true →
  local_files_of root (delete (Join [root; n]) m) = delete n (local_files_of root m).
Proof.
  intros Hn. apply map_eq. intros k. rewrite local_files_lookup. destruct (decide (k = n)) as [->|Hne].
  - by rewrite Hn, !lookup_delete_eq.
  - rewrite (lookup_delete_ne (local_files_of root m)) by done. rewrite local_files_lookup.
    destruct (ValidPath k) eqn:Hk; [|done]. rewrite lookup_delete_ne; [done|]. by intros ?%osPath_inj.
Qed.

Lemma osPath_below n q : n ≠ "." → ValidPath n = true → ValidPath q = true →
  below (Join [root; n]) (Join [root; q]) = true ↔ below n q = true.
Proof.
  intros Hd Hn Hq. unfold below. rewrite !osPath_Join, (bool_decide_false (n = ".")), !HasPrefix_true by done. split.
  - case_bool_decide as Hqd.
    + intros [r Hr]. apply (f_equal String.length) in Hr. rewrite !string_length_app in Hr. cbn in Hr. lia.
    + intros [r Hr]. exists r. rewrite <- !string_app_assoc in Hr.
      apply string_app_inj_length in Hr as [_ Hr]; [|done]. injection Hr as ->. by rewrite <- string_app_assoc.
  - intros [r ->]. exists r. case_bool_decide as Hqd; [|by rewrite !string_app_assoc].
    destruct n as [|c n]; [done|]. injection Hqd as -> Hqd. by destruct n.
Qed.

Lemma osPath_under n q : n ≠ "." → ValidPath n = true → ValidPath q = true →
  under n q = false → under (Join [root; n]) (Join [root; q]) = false.
Proof.
  unfold under. intros Hd Hn Hq [Hne Hb]%orb_false_iff. apply orb_false_iff. split.
  - apply bool_decide_eq_false in Hne. apply bool_decide_eq_false. by intros ?%osPath_inj.
  - apply not_true_iff_false. rewrite osPath_below by done. congruence.
Qed.
End names.

(** ** The backend keeps the laws *)

Lemma set_path_Is name e e' t : set_path name e = Some e' → errors_Is e' t = errors_Is e t.
Proof.
  revert e'. induction e as [| |ctx e IH|op p e IH|e1 IH1 e2 IH2| | | | | |c e IH]; intros e'; cbn; try done.
  - destruct (set_path name e) eqn:Hs; [|done]. intros [= <-]. exact (IH _ eq_refl).
  - by intros [= <-].
  - destruct (set_path name e1) eqn:Hs.
    + intros [= <-]. cbn. by rewrite <- (IH1 _ eq_refl).
    + destruct (set_path name e2) eqn:Hs2; [|done]. intros [= <-]. cbn. by rewrite <- (IH2 _ eq_refl).
  - destruct (set_path name e) eqn:Hs; [|done]. intros [= <-]. exact (IH _ eq_refl).
Qed.

Section laws.
Context `{OS W} (files : W → gmap string string) (opened : os_handle → string) (laws : OSLaws files opened)
  (fsys : LocalFS) (Hroot : abs_path (lf_path fsys)).
Implicit Types (w : W).

Definition local_files (w : W) : gmap string string := local_files_of (lf_path fsys) (files w).

Lemma local_Write_spec name src w w' n e : local_Write fsys name src w = (w', (n, e)) →
  match e with
  | None => ValidPath name = true ∧ rd_err src = None ∧ files w' = <[Join [lf_path fsys; name] := rd_data src]> (files w)
  | Some _ => files w' = files w
      ∨ ValidPath name = true ∧ delete (Join [lf_path fsys; name]) (files w') = delete (Join [lf_path fsys; name]) (files w)
  end.
Proof.
  unfold local_Write, osPath. destruct (ValidPath name) eqn:Hv; cbn [negb]; [|intros Hr; inv_io; by left].
  intros Hr. inv_io. destruct (os_ctx_Err w0); [inv_io; by left|]. inv_io.
  apply (os_mkdir _ _ laws) in Ha. destruct a; [inv_io; by left|]. inv_io. destruct a as [h|err]; inv_io.
  2:{ right. split; [done|]. rewrite (os_open_err _ _ laws _ _ _ _ _ _ Ha0). by rewrite Ha. }
  apply (os_open_ok _ _ laws) in Ha0 as [Hh Ho]. destruct o as [err|].
  - apply (os_close _ _ laws) in Ha2. apply (os_copy_err _ _ laws) in Ha1. inv_io. right. split; [done|].
    rewrite Ha2. rewrite Hh in Ha1. rewrite Ha1, Ho, Ha. by rewrite delete_insert_eq.
  - apply (os_close _ _ laws) in Ha2. apply (os_copy_ok _ _ laws) in Ha1 as [He Hc].
    2:{ rewrite Hh, Ho. by apply lookup_insert_eq. }
    rewrite Hh in Hc. destruct a; inv_io.
    + right. split; [done|]. rewrite Ha2, Hc, Ho, Ha. by rewrite !delete_insert_eq.
    + split_and!; [done..|]. rewrite Ha2, Hc, Ho, Ha. by rewrite insert_insert_eq.
Qed.

Lemma removable_spec name remove w w' e : removable fsys name remove w = (w', e) →
  (∃ err, e = Some err ∧ w' = w ∧ errors_Is err fs_ErrNotExist = false)
  ∨ ValidPath name = true ∧ name ≠ "." ∧ ∃ e', remove (Join [lf_path fsys; name]) w = (w', e')
      ∧ e = (PathError "remove" name <$> e').
Proof.
  unfold removable, osPath. destruct (ValidPath name) eqn:Hv; cbn [negb]; [|intros Hr; inv_io; left; by eexists].
  case_bool_decide as Hd; [intros Hr; inv_io; left; by eexists|].
  intros Hr. inv_io. destruct (os_ctx_Err w0) as [err|] eqn:Hc; inv_io.
  - left. eexists. split_and!; [done..|]. cbn. by apply (os_ctx _ _ laws) in Hc.
  - right. split_and!; [done..|]. exists a. destruct a; by inv_io.
Qed.

#[local] Instance lfs : FileSystems W unit := local_fs fsys.

Lemma local_write_laws : WriteLaws () (local_ops fsys) local_files.
Proof.
  split; cbn [w_Write w_Remove w_RemoveAll local_ops].
  - done.
  - intros name r w w' n (Hv & He & Hf)%local_Write_spec. split; [done|]. unfold local_files. rewrite Hf.
    by apply local_files_insert.
  - intros name r w w' n e [Hf|[Hv Hf]]%local_Write_spec; unfold local_files; [by rewrite Hf|].
    by rewrite <- !local_files_delete, Hf.
  - intros name w w' [(err & ? & _)|(Hv & Hd & e' & Hr & He)]%removable_spec; [done|]. destruct e'; [done|].
    apply (os_remove_ok _ _ laws) in Hr. unfold local_files. rewrite Hr. by apply local_files_delete.
  - intros name w w' e [(err & [= <-] & -> & Hn)|(Hv & Hd & e' & Hr & He)]%removable_spec; [split; [by left|congruence]|].
    destruct e' as [e'|]; [|done]. injection He as ->. apply (os_remove_err _ _ laws) in Hr as [Hf Hn].
    unfold local_files. rewrite Hf. split; [by left|]. intros Hi. rewrite local_files_lookup, Hv by done. by apply Hn.
  - intros name w w' e Hne [(err & -> & -> & _)|(Hv & Hd & e' & Hr & ->)]%removable_spec; [done|].
    apply (os_removeAll _ _ laws) in Hr as (Hs & Hout & Hin). split_and!.
    + apply map_subseteq_spec. intros k d. unfold local_files. rewrite !local_files_lookup by done.
      destruct (ValidPath k); [|done]. intros Hk. by eapply lookup_weaken.
    + intros p Hp. unfold local_files. rewrite !local_files_lookup by done. destruct (ValidPath p) eqn:Hvp; [|done].
      apply Hout. by apply osPath_under.
    + intros He p Hp. unfold local_files. rewrite local_files_lookup by done. destruct (ValidPath p) eqn:Hvp; [|done].
      apply Hin; [by destruct e'|]. by apply osPath_below.
Qed.

Lemma local_read_laws : ReadLaws () local_files.
Proof.
  split; cbn; unfold WrapFS_OpenFile; intros name w.
  - intros f. destruct (os_ctx_Err w); [done|]. destruct (ValidPath name) eqn:Hv; [|done]. cbn [negb].
    destruct (os_DirFS_Open (lf_path fsys) name w) as [g|] eqn:Ho; [|done]. intros [= <-].
    destruct (os_read_ok _ _ laws _ _ _ _ Ho Hv) as (data & Hd & Hr). exists data. unfold local_files.
    by rewrite local_files_lookup, Hv.
  - intros e. destruct (os_ctx_Err w) as [err|] eqn:Hc.
    { intros [= <-]. cbn. by rewrite (os_ctx _ _ laws _ _ Hc). }
    destruct (ValidPath name) eqn:Hv; [|by intros [= <-]]. cbn [negb].
    destruct (os_DirFS_Open (lf_path fsys) name w) as [g|err] eqn:Ho; [done|]. intros [= <-] He.
    unfold local_files. rewrite local_files_lookup, Hv by done. apply (os_read_err _ _ laws _ _ _ _ Ho Hv).
    destruct (set_path name err) as [e'|] eqn:Hs; [|done]. by rewrite <- (set_path_Is _ _ _ _ Hs).
Qed.

(** *** What is on the disk besides *)

Lemma nameless_ne name p : local_name (lf_path fsys) p = None → ValidPath name = true → p ≠ Join [lf_path fsys; name].
Proof. intros Hp Hv ->. by rewrite (proj2 (local_name_Some _ _ name Hroot)) in Hp. Qed.

Lemma Write_outside name r w w' n e p : local_Write fsys name r w = (w', (n, e)) → local_name (lf_path fsys) p = None →
  files w' !! p = files w !! p.
Proof.
  intros Hw%local_Write_spec Hp. pose proof (nameless_ne name p Hp) as Hne. destruct e as [e|].
  - destruct Hw as [->|[Hv Hd]]; [done|]. apply (f_equal (lookup p)) in Hd.
    by rewrite !lookup_delete_ne in Hd by (intros <-; by apply Hne).
  - destruct Hw as (Hv & _ & ->). rewrite lookup_insert_ne; [done|]. intros <-. by apply Hne.
Qed.

Lemma Remove_outside name w w' e p : local_Remove fsys name w = (w', e) → local_name (lf_path fsys) p = None →
  files w' !! p = files w !! p.
Proof.
  intros [(err & _ & -> & _)|(Hv & _ & e' & Hr & _)]%removable_spec Hp; [done|].
  destruct e' as [e'|]; [by apply (os_remove_err _ _ laws) in Hr as [-> _]|].
  apply (os_remove_ok _ _ laws) in Hr as ->. rewrite lookup_delete_ne; [done|]. intros <-. by eapply nameless_ne.
Qed.

Lemma RemoveAll_outside name w w' e p : local_RemoveAll fsys name w = (w', e) →
  below (lf_path fsys) p = false ∨ under (Join [lf_path fsys; name]) p = false → files w' !! p = files w !! p.
Proof.
  intros [(err & _ & -> & _)|(Hv & Hd & e' & Hr & _)]%removable_spec Hp; [done|].
  apply (os_removeAll _ _ laws) in Hr as (_ & Hout & _). apply Hout. destruct Hp as [Hp|Hp]; [|done].
  rewrite osPath_Join, bool_decide_false by done. unfold under, below in *. rewrite orb_false_iff, bool_decide_eq_false.
  split; [intros ->|apply not_true_iff_false; intros [r ->]%HasPrefix_true]; apply not_true_iff_false in Hp; apply Hp, HasPrefix_true.
  - exists name. by rewrite <- string_app_assoc.
  - exists (name +:+ "/" +:+ r). by rewrite <- !string_app_assoc.
Qed.

End laws.

(** ** A system whose disk holds ten bytes per file

    A copy that does not fit writes the first ten bytes and fails. *)
Module small_disk.
Definition copy (p : string) (r : reader) (m : gmap string string) : gmap string string * (Z * option error) :=
  match rd_err r with
  | Some e => (<[p := rd_data r]> m, (len (rd_data r), Some e))
  | None =>
      if 10 <? len (rd_data r) then (<[p := string_take 10 (rd_data r)]> m, (10, Some (ErrNew "no space left on device")))
      else (<[p := rd_data r]> m, (len (rd_data r), None))
  end.

#[global] Instance os : OS (gmap string string) := {|
  os_ctx_Err := λ _, None;
  os_handle := string;
  os_MkdirAll := λ _ _ m, (m, None);
  os_OpenFile := λ p _ _ m, (<[p := ""]> m, inl p);
  os_Copy := copy;
  os_Close := λ _ m, (m, None);
  os_Remove := λ p m, match m !! p with
                      | Some _ => (delete p m, None)
                      | None => (m, Some (mem_not_exist "remove" p))
                      end;
  os_RemoveAll := λ p m, (remove_under (TrimSuffix p "/") m, None);
  os_DirFS_Open := λ dir name m, match m !! Join [dir; name] with
                                 | Some data => inl (mem_file m name data)
                                 | None => inr (mem_not_exist "open" name)
                                 end;
  os_DirFS_ReadDir := λ dir name m,
    let c := mem_children (local_files_of dir m) name in
    if decide (c = ∅ ∧ name ≠ ".") then ([], Some (mem_not_exist "open" name))
    else (mem_entry <$> merge_sort (λ a b, String.le a.1 b.1) (map_to_list c), None);
  filepath_Abs := inl
|}.

Lemma os_laws : OSLaws (λ m : gmap string string, m) (λ p : @os_handle _ os, p).
Proof.
  split; cbn.
  - by intros p perm w w' e [= <- _].
  - by intros p perm w w' h [= <- <-].
  - done.
  - intros h r w w' n. unfold copy. destruct (rd_err r); [done|]. destruct (10 <? _); [done|]. by intros [= <- _].
  - intros h r w w' n e. unfold copy. destruct (rd_err r); [|destruct (10 <? _); [|done]]; intros [= <- _ _]; by rewrite delete_insert_eq.
  - by intros h w w' e [= <- _].
  - intros p w w'. destruct (w !! p); [|done]. by intros [= <-].
  - intros p w w' e. destruct (w !! p) eqn:Hp; [done|]. by intros [= <- <-].
  - intros p w w' e [= <- <-]. rewrite TrimSuffix_app. split_and!.
    + apply map_filter_subseteq.
    + intros q. apply remove_under_out.
    + intros _ q Hq. by apply remove_under_in, below_under.
  - intros dir name w f. destruct (w !! _) as [d|]; [|done]. intros [= <-] _. by exists d.
  - intros dir name w e. by destruct (w !! _).
  - done.
Qed.
End small_disk.

Definition ex_local : LocalFS := mkLocalFS "/srv/ocfl".

