(* ===== verification/Http.v ===== *)
(** * The HTTP backend ([src/fs/http/http.go])

    A read-only backend over a web server.  The client of [net/http], the parsing of
    URLs and of header times are arguments (the class [HTTPClient]), on the state
    [W] of all storage.  On a server that serves the files the backend reads them,
    and every operation of the library that writes fails on it without effect. *)
From S2P Require Import Prelude GoStd FS.

(** A response: its status, length, [Last-Modified] header and body. *)
Record Response := mkResponse {
  rs_StatusCode : Z;
  rs_Status : string;
  rs_ContentLength : Z;
  rs_LastModified : string;
  rs_Body : reader
}.

Inductive method := MethodHead | MethodGet.

Class HTTPClient (W : Type) := {
  http_Client : Type;
  DefaultClient : http_Client;
  url_JoinPath : string → string → result string;
  (** [NewRequestWithContext]: its error, and the request's method and URL *)
  NewRequest : method → string → option error;
  client_Do : http_Client → method → string → W → result Response;
  http_ParseTime : string → result Z;
  (** [Read] and [Close] of a body *)
  http_body_Read : reader → Z → reader * (string * option error);
  http_body_Close : reader → option error
}.

Definition http_fileMode : Z := Z.lor 292 ModeIrregular.
Definition StatusOK : Z := 200.
Definition StatusNotFound : Z := 404.

(** [src/fs/http/http.go:141-147] pathError *)
Definition http_pathError (op name : string) (err : error) : error := PathError op name err.

Section http.
Context `{HTTPClient W}.
Implicit Types (w : W).

(** [src/fs/http/http.go:34-37] FS *)
Record HttpFS := mkHttpFS { hf_client : option http_Client; hf_baseURL : string }.

(** [src/fs/http/http.go:19-28] New *)
Definition http_New (baseURL : string) (opts : list (HttpFS → HttpFS)) : HttpFS :=
  foldl (λ fsys opt, opt fsys) (mkHttpFS None baseURL) opts.

(** [src/fs/http/http.go:152-157] WithClient *)
Definition WithClient (cli : option http_Client) (fsys : HttpFS) : HttpFS := mkHttpFS cli (hf_baseURL fsys).

(** [src/fs/http/http.go:39-40] FS.BaseURL *)
Definition http_BaseURL (f : HttpFS) : string := hf_baseURL f.

(** [src/fs/http/http.go:42-43] FS.Client *)
Definition http_FS_Client (f : HttpFS) : option http_Client := hf_client f.

(** [src/fs/http/http.go:95-103] httpFile *)
Record httpFile := mkHttpFile {
  hp_client : http_Client;
  hp_uri : string;
  hp_body : option reader;
  hp_name : string;
  hp_size : Z;
  hp_modTime : Z
}.

(** The error for a status that is not 200. *)
Definition bad_status (resp : Response) : error := ErrNew ("http: unexpected response status: " +:+ rs_Status resp).

(** [src/fs/http/http.go:45-93] FS.OpenFile *)
Definition http_OpenFile (f : HttpFS) (name : string) w : result httpFile :=
  let failed err := inr (http_pathError "openfile" name err) in
  if negb (ValidPath name) || bool_decide (name = ".") then failed (ErrVar fs_ErrInvalid)
  else
    let cli := default DefaultClient (hf_client f) in
    match url_JoinPath (hf_baseURL f) name with
    | inr err => failed err
    | inl requestURL =>
        match NewRequest MethodHead requestURL with
        | Some err => failed err
        | None =>
            match client_Do cli MethodHead requestURL w with
            | inr err => failed err
            | inl resp =>
                if rs_StatusCode resp =? StatusNotFound then failed (ErrVar fs_ErrNotExist)
                else if negb (rs_StatusCode resp =? StatusOK) then failed (bad_status resp)
                else
                  match (if bool_decide (rs_LastModified resp = "") then inl 0 else http_ParseTime (rs_LastModified resp)) with
                  | inr err => inr (ErrWrap "parsing last-modified header" err)
                  | inl modtime =>
                      inl (mkHttpFile cli requestURL None (Base name) (rs_ContentLength resp) modtime)
                  end
            end
        end
    end.

(** [src/fs/http/http.go:107-112] httpFile.Close *)
Definition httpFile_Close (f : httpFile) : option error := b ← hp_body f; http_body_Close b.

(** The request that [Read] makes for the body. *)
Definition http_get_body (f : httpFile) w : result reader :=
  match NewRequest MethodGet (hp_uri f) with
  | Some err => inr err
  | None =>
      match client_Do (hp_client f) MethodGet (hp_uri f) w with
      | inr err => inr err
      | inl resp => if negb (rs_StatusCode resp =? 200) then inr (bad_status resp) else inl (rs_Body resp)
      end
  end.

(** [src/fs/http/http.go:114-131] httpFile.Read, for a buffer of n bytes *)
Definition httpFile_Read (f : httpFile) (n : Z) w : httpFile * (string * option error) :=
  match (match hp_body f with Some b => inl b | None => http_get_body f w end) with
  | inr err => (f, ("", Some err))
  | inl b =>
      let '(b, r) := http_body_Read b n in
      (mkHttpFile (hp_client f) (hp_uri f) (Some b) (hp_name f) (hp_size f) (hp_modTime f), r)
  end.

(** [src/fs/http/http.go:133-139] Stat, Name, Size, Mode, ModTime *)
Definition httpFile_Stat (f : httpFile) : FileInfo := mkFileInfo (hp_name f) (hp_size f) http_fileMode (hp_modTime f).

(** *** The backend as an [FS] of the program *)

(** A file that is read to its end delivers its body, or the error of the
    request. *)
Definition http_File (f : httpFile) w : File :=
  match http_get_body f w with
  | inl b => mkFile b (inl (httpFile_Stat f)) (http_body_Close b)
  | inr err => mkFile (mkReader "" (Some err)) (inl (httpFile_Stat f)) None
  end.

Definition http_fs (f : HttpFS) : FileSystems W unit := {|
  FS_eq_dec := unit_eq_dec;
  OpenFile := λ _ name w, match http_OpenFile f name w with inl file => inl (http_File file w) | inr err => inr err end;
  as_DirEntriesFS := λ _, None;
  as_FileWalker := λ _, None;
  as_WriteFS := λ _, None;
  as_CopyFS := λ _, None
|}.

(** ** What a server promises *)

(** [files] by name are served below the base URL: a file that exists with status
    200 and its bytes, and 404 means that there is none; the errors of the client
    are not [fs.ErrNotExist]. *)
Record ServerLaws (base : string) (files : W → gmap string string) : Prop := {
  srv_head_ok : ∀ cli name url w resp, url_JoinPath base name = inl url → client_Do cli MethodHead url w = inl resp →
    rs_StatusCode resp = 200 → is_Some (files w !! name);
  srv_not_found : ∀ cli name url w resp, url_JoinPath base name = inl url → client_Do cli MethodHead url w = inl resp →
    rs_StatusCode resp = 404 → files w !! name = None;
  srv_get : ∀ cli name url w resp data, url_JoinPath base name = inl url → client_Do cli MethodGet url w = inl resp →
    rs_StatusCode resp = 200 → files w !! name = Some data → rd_err (rs_Body resp) = None → rd_data (rs_Body resp) = data;
  srv_url_err : ∀ name e, url_JoinPath base name = inr e → errors_Is e fs_ErrNotExist = false;
  srv_request_err : ∀ m url e, NewRequest m url = Some e → errors_Is e fs_ErrNotExist = false;
  srv_do_err : ∀ cli m url w e, client_Do cli m url w = inr e → errors_Is e fs_ErrNotExist = false;
  srv_time_err : ∀ s e, http_ParseTime s = inr e → errors_Is e fs_ErrNotExist = false
}.

Section laws.
Context (f : HttpFS) (files : W → gmap string string) (laws : ServerLaws (hf_baseURL f) files).

Lemma http_open_ok name w file : http_OpenFile f name w = inl file →
  is_Some (files w !! name) ∧ url_JoinPath (hf_baseURL f) name = inl (hp_uri file) ∧ hp_body file = None.
Proof.
  unfold http_OpenFile. destruct (_ || _); [done|]. destruct (url_JoinPath _ name) as [url|] eqn:Hu; [|done].
  destruct (NewRequest _ url); [done|]. destruct (client_Do _ _ url w) as [resp|] eqn:Hd; [|done].
  destruct (Z.eqb_spec (rs_StatusCode resp) StatusNotFound); [done|].
  destruct (Z.eqb_spec (rs_StatusCode resp) StatusOK) as [Hs|]; [|done]. cbn [negb].
  destruct (if bool_decide _ then _ else _) as [t|]; [|done]. intros [= <-].
  split_and!; [by eapply srv_head_ok|done..].
Qed.

Lemma http_open_err name w e : http_OpenFile f name w = inr e → errors_Is e fs_ErrNotExist = true →
  files w !! name = None.
Proof.
  unfold http_OpenFile. destruct (_ || _); [by intros [= <-]|]. destruct (url_JoinPath _ name) as [url|e'] eqn:Hu.
  2:{ intros [= <-]. cbn. by rewrite (srv_url_err _ _ laws _ _ Hu). }
  destruct (NewRequest _ url) as [e'|] eqn:Hn.
  { intros [= <-]. cbn. by rewrite (srv_request_err _ _ laws _ _ _ Hn). }
  destruct (client_Do _ _ url w) as [resp|e'] eqn:Hd.
  2:{ intros [= <-]. cbn. by rewrite (srv_do_err _ _ laws _ _ _ _ _ Hd). }
  destruct (Z.eqb_spec (rs_StatusCode resp) StatusNotFound) as [Hs|]; [intros _ _; by eapply srv_not_found|].
  destruct (negb _); [by intros [= <-]|].
  case_bool_decide; [done|]. destruct (http_ParseTime _) as [t|e'] eqn:Ht; [done|].
  intros [= <-]. cbn. by rewrite (srv_time_err _ _ laws _ _ Ht).
Qed.

#[local] Instance hfs : FileSystems W unit := http_fs f.

End laws.
End http.

(** ** Witness: a server with one file *)

Definition served (url : string) (w : gmap string string) : option string := name ← CutPrefix url "http://host/"; w !! name.

#[local] Instance one_file : HTTPClient (gmap string string) := {|
  http_Client := unit;
  DefaultClient := ();
  url_JoinPath := λ base name, inl (base +:+ "/" +:+ name);
  NewRequest := λ _ _, None;
  client_Do := λ _ m url w,
    match served url w with
    | Some data => inl (mkResponse 200 "200 OK" (len data) "" (bytes_reader match m with MethodHead => "" | MethodGet => data end))
    | None => inl (mkResponse 404 "404 Not Found" 0 "" (bytes_reader ""))
    end;
  http_ParseTime := λ _, inl 0;
  http_body_Read := λ b _, (bytes_reader "", (rd_data b, None));
  http_body_Close := λ _, None
|}.

Lemma one_file_laws : ServerLaws "http://host" (λ m : gmap string string, m).
Proof.
  assert (∀ name url (w : gmap string string), url_JoinPath "http://host" name = inl url → served url w = w !! name) as Hcut.
  { intros name url w Hu. assert (url = "http://host" +:+ "/" +:+ name) as -> by (cbn [url_JoinPath one_file] in Hu; congruence).
    unfold served. pose proof (CutPrefix_app "http://host/" name) as Hc.
    change ("http://host/" +:+ name) with ("http://host" +:+ "/" +:+ name) in Hc. by rewrite Hc. }
  split; try done; cbn [client_Do one_file].
  - intros cli name url w resp ->%(λ h, Hcut name url w h). destruct (w !! name); [done|]. by intros [= <-].
  - intros cli name url w resp ->%(λ h, Hcut name url w h). destruct (w !! name); [|done]. by intros [= <-].
  - intros cli name url w resp data ->%(λ h, Hcut name url w h) Hr Hs Hd. rewrite Hd in Hr. by injection Hr as <-.
  - intros cli m url w e. by destruct (served url w).
Qed.

