(* ===== verification/Namaste.v ===== *)
(** * Declarations and specification files in a backend ([src/namaste.go],
    [src/spec.go])

    The operations on NAMASTE declarations and on the specification text that
    read or write a file system. *)
From S2P Require Import Prelude GoStd Spec FS.

(** [src/namaste.go:34-54] FindNamaste *)
Definition FindNamaste (items : list DirEntry) : res Namaste :=
  let found := omap (λ e,
    if de_IsDir e then None
    else match ParseNamaste (de_Name e) with Ok dec => Some dec | _ => None end) items in
  match found with
  | [] => Err (ErrVar ErrNamasteNotExist)
  | [dec] => Ok dec
  | _ => Err (ErrVar ErrNamasteMultiple)
  end.

Section namaste_fs.
Context `{GoEnv} {W FS : Type} `{!FileSystems W FS}.

(** [src/namaste.go:94-124] ValidateNamaste *)
Definition ValidateNamaste (fsys : FS) (name : string) (w : W) : option error :=
  match ParseNamaste (Base name) with
  | Err err => Some err
  | Panic => None
  | Ok nam =>
      match OpenFile fsys name w with
      | inr err =>
          if errors_Is err fs_ErrNotExist
          then Some (ErrWrap ("opening " +:+ name) (ErrVar ErrNamasteNotExist))
          else Some (ErrWrap ("opening " +:+ name) err)
      | inl f =>
          let err := match io_ReadAll (f_reader f) with
                     | Ok decl =>
                         if negb (bool_decide (decl = Namaste_Body nam))
                         then Some (ErrWrap ("contents of " +:+ name) (ErrVar ErrNamasteContents))
                         else None
                     | Err err => Some (ErrWrap ("reading " +:+ name) err)
                     | Panic => None
                     end in
          join_close err (f_Close f)
      end
  end.

(** [src/namaste.go:126-133] WriteDeclaration *)
Definition WriteDeclaration (root : FS) (dir : string) (d : Namaste) : IO W (option error) :=
  let cont := bytes_reader (Namaste_Body d) in
  '(_, err) ← fs_Write root (Join [dir; Namaste_Name d]) cont;
  mret (ErrWrap "writing declaration" <$> err).

(** The files of [src/specs] embedded in the program. *)
Definition spec_files : list string := ["ocfl_1.0.txt"; "ocfl_1.1.md"].

(** [src/spec.go:105-130] WriteSpecFile: the content of the embedded files is an
    argument; a valid version has no wildcard of [fs.Glob] *)
Definition WriteSpecFile (specFS : string → string) (fsys : FS) (ops : WriteFS W) (dir : string)
    (n : Spec) : IO W (string * option error) :=
  match Spec_Valid n with
  | Some err => mret ("", Some err)
  | None =>
      match filter (λ f, HasPrefix f ("ocfl_" +:+ n +:+ ".") = true) spec_files with
      | [name] =>
          let dst := Join [dir; name] in
          f ← io_read (OpenFile fsys dst);
          match f with
          | inl _ => mret ("", Some (ErrNew ("already exists: " +:+ dst)))
          | inr _ =>
              '(_, err) ← w_Write ops dst (bytes_reader (specFS name));
              match err with
              | Some err => mret ("", Some (ErrWrap ("writing OCFL spec file " +:+ dst) err))
              | None => mret (dst, None)
              end
          end
      | _ => mret ("", Some (ErrVar ErrSpecNotFound))
      end
  end.

Context (fsys : FS) (ops : WriteFS W) (files : W → gmap string string).

Lemma Namaste_Name_elem n :
  ParseNamaste (Namaste_Name n) = Ok n → no_slash (Namaste_Name n) ∧ plain_elem (Namaste_Name n).
Proof.
  intros (_ & Hne & Ht & Hv)%ParseNamaste_Ok. pose proof (match_version_nonempty _ Hv) as Hv0.
  unfold Namaste_Name, Spec_Empty. rewrite !bool_decide_false by done. cbn [orb]. split.
  - apply (string_forall_no_slash (λ c, negb (bool_decide (c = slash)))); [|done].
    cbn [String.append string_forall]. rewrite !string_forall_app. cbn [string_forall].
    bool_to_prop. split_and!; try done.
    + apply (string_forall_impl is_type_byte); [|done]. intros c Hc.
      apply negb_true_iff, bool_decide_eq_false. by intros ->.
    + by apply match_version_no_slash.
  - apply plain_elem_spec. cbn. done.
Qed.

(** A declaration written successfully is one that [ValidateNamaste] accepts,
    as long as reads succeed: the name parses back and the contents are those it
    expects. *)
Theorem WriteDeclaration_valid dir n w w' f :
  WriteLaws fsys ops files → ReadLaws fsys files →
  ValidPath dir = true → ParseNamaste (Namaste_Name n) = Ok n →
  WriteDeclaration fsys dir n w = (w', None) →
  OpenFile fsys (Join [dir; Namaste_Name n]) w' = inl f →
  rd_err (f_reader f) = None → f_Close f = None →
  ValidateNamaste fsys (Join [dir; Namaste_Name n]) w' = None.
Proof.
  intros Hw Hr Hdir Hn. unfold WriteDeclaration, fs_Write. rewrite (law_as _ _ _ Hw).
  intros Hwd. inv_io. destruct o as [err|]; [done|].
  intros Ho He Hc. apply (law_write_ok _ _ _ Hw) in Ha as [_ Hf]. cbn in Hf.
  destruct (law_open_ok _ _ Hr _ _ _ Ho) as (data & Hd & Hdata).
  rewrite Hf, lookup_insert_eq in Hd. injection Hd as <-.
  destruct (Namaste_Name_elem n Hn) as [Hs Hp]. unfold ValidateNamaste.
  rewrite Base_Join_dir, Hn, Ho by done. unfold io_ReadAll. rewrite He, Hdata by done.
  by rewrite bool_decide_true, Hc.
Qed.
End namaste_fs.

(** ** Concrete instances *)

Lemma WriteDeclaration_valid_witness :
  let n := mkNamaste NamasteTypeRoot Spec1_1 in
  let m : gmap string string := {["a/0=ocfl_1.1" := Namaste_Body n]} in
  @WriteDeclaration _ _ mem_fs () "a" n ∅ = (m, None)
  ∧ @ValidateNamaste _ _ mem_fs () "a/0=ocfl_1.1" m = None.
Proof.
  cbn zeta. split; [by vm_compute|].
  apply (@WriteDeclaration_valid _ _ mem_fs () mem_ops (λ m, m) "a" (mkNamaste NamasteTypeRoot Spec1_1)
    ∅ _ (mem_file ∅ "a/0=ocfl_1.1" (Namaste_Body (mkNamaste NamasteTypeRoot Spec1_1))));
    [apply mem_write_laws|apply mem_read_laws|by vm_compute..].
Defined.
