(* ===== verification/ObjectState.v ===== *)
(** * The state of an object root directory ([src/objectstate.go])

    [ParseObjectDir] reads the entries of an object root in one pass.  The
    theorem relates the flags, version directories and non-conforming names it
    collects to a classification of the entries. *)
From S2P Require Import Prelude GoStd VNum Spec FS.

(** [src/objectstate.go:41-41] objectStateFlag: a uint8 *)
Definition objectStateFlag : Type := Z.
Definition flag_Namaste : objectStateFlag := 1.
Definition flag_Inventory : objectStateFlag := 2.
Definition flag_Sidecar : objectStateFlag := 4.
Definition flag_Extensions : objectStateFlag := 8.
Definition flag_Logs : objectStateFlag := 16.

(** [src/objectstate.go:25-25] maxObjectStateInvalid *)
Definition maxObjectStateInvalid : nat := 8.
(** [src/objectstate.go:26-26] objectDeclPrefix *)
Definition objectDeclPrefix : string := "0=" +:+ NamasteTypeObject.
(** [src/objectstate.go:27-27] sidecarPrefix *)
Definition sidecarPrefix : string := inventoryBase +:+ ".".

(** [src/objectstate.go:30-39] ObjectState *)
Record ObjectState := mkObjectState {
  os_Spec : Spec;
  os_VersionDirs : list VNum;
  os_SidecarAlg : string;
  os_Invalid : list string;
  os_Flags : objectStateFlag
}.

Definition has_flag (flag : objectStateFlag) (state : ObjectState) : bool :=
  0 <? Z.land (os_Flags state) flag.

(** [src/objectstate.go:105-108] ObjectState.HasNamaste *)
Definition HasNamaste : ObjectState → bool := has_flag flag_Namaste.
(** [src/objectstate.go:110-113] ObjectState.HasInventory *)
Definition HasInventory : ObjectState → bool := has_flag flag_Inventory.
(** [src/objectstate.go:115-118] ObjectState.HasSidecar *)
Definition HasSidecar : ObjectState → bool := has_flag flag_Sidecar.
(** [src/objectstate.go:120-123] ObjectState.HasExtensions *)
Definition HasExtensions : ObjectState → bool := has_flag flag_Extensions.
(** [src/objectstate.go:125-128] ObjectState.HasLogs *)
Definition HasLogs : ObjectState → bool := has_flag flag_Logs.

(** [src/objectstate.go:150-154] validFileType *)
Definition validFileType (mode : Z) : bool :=
  Mode_IsDir mode || Mode_IsRegular mode || (Mode_Type mode =? ModeIrregular).

(** [src/objectstate.go:47-51] addInvalid *)
Definition addInvalid (name : string) (st : ObjectState) : ObjectState :=
  if bool_decide (length (os_Invalid st) < maxObjectStateInvalid)%nat
  then mkObjectState (os_Spec st) (os_VersionDirs st) (os_SidecarAlg st)
         (os_Invalid st ++ [name]) (os_Flags st)
  else st.

Definition set_flag (flag : objectStateFlag) (st : ObjectState) : ObjectState :=
  mkObjectState (os_Spec st) (os_VersionDirs st) (os_SidecarAlg st) (os_Invalid st)
    (Z.lor (os_Flags st) flag).

Definition add_version (v : VNum) (st : ObjectState) : ObjectState :=
  mkObjectState (os_Spec st) (os_VersionDirs st ++ [v]) (os_SidecarAlg st) (os_Invalid st) (os_Flags st).

Definition set_sidecar (alg : string) (st : ObjectState) : ObjectState :=
  mkObjectState (os_Spec st) (os_VersionDirs st) alg (os_Invalid st) (os_Flags st).

Definition set_spec (spec : Spec) (st : ObjectState) : ObjectState :=
  mkObjectState spec (os_VersionDirs st) (os_SidecarAlg st) (os_Invalid st) (os_Flags st).

(** [src/objectstate.go:52-101] body of the loop of ParseObjectDir *)
Definition parse_entry (st : ObjectState) (e : DirEntry) : ObjectState :=
  let name := de_Name e in
  if de_IsDir e then
    if bool_decide (name = logsDir) then set_flag flag_Logs st
    else if bool_decide (name = extensionsDir) then set_flag flag_Extensions st
    else match ParseVNum name with
         | Ok v => add_version v st
         | _ => addInvalid name st
         end
  else if validFileType (de_Type e) then
    if bool_decide (name = inventoryBase) then set_flag flag_Inventory st
    else if HasPrefix name sidecarPrefix then
      if HasSidecar st then addInvalid name st
      else set_flag flag_Sidecar (set_sidecar (TrimPrefix name sidecarPrefix) st)
    else if HasPrefix name objectDeclPrefix then
      if HasNamaste st then addInvalid name st
      else match ParseNamaste name with
           | Ok decl => set_flag flag_Namaste (set_spec (nam_Version decl) st)
           | _ => addInvalid name st
           end
    else addInvalid name st
  else addInvalid name st.

Definition empty_state : ObjectState := mkObjectState "" [] "" [] 0.

(** [src/objectstate.go:43-103] ParseObjectDir *)
Definition ParseObjectDir (entries : list DirEntry) : ObjectState :=
  foldl parse_entry empty_state entries.

(** [src/objectstate.go:130-133] ObjectState.HasVersionDir *)
Definition HasVersionDir (st : ObjectState) (v : VNum) : bool :=
  existsb (λ v', bool_decide (v' = v)) (os_VersionDirs st).

(** [src/objectstate.go:135-138] ObjectState.Empty *)
Definition ObjectState_Empty (st : ObjectState) : bool :=
  (os_Flags st =? 0) && bool_decide (os_VersionDirs st = []) && bool_decide (os_Invalid st = []).

(** [src/objectstate.go:140-148] ObjectState.Namaste *)
Definition ObjectState_Namaste (st : ObjectState) : Namaste :=
  if HasNamaste st then mkNamaste NamasteTypeObject (os_Spec st) else mkNamaste "" "".

(** ** Specification *)

(** What an entry of an object root is. *)
Inductive entry_kind : Type :=
  | Logs | Extensions | Version (v : VNum)
  | InventoryFile | Sidecar (alg : string) | Declaration (n : Namaste) | Nonconforming.

Definition kind_of (e : DirEntry) : entry_kind :=
  let name := de_Name e in
  if de_IsDir e then
    if decide (name = logsDir) then Logs
    else if decide (name = extensionsDir) then Extensions
    else match ParseVNum name with Ok v => Version v | _ => Nonconforming end
  else if validFileType (de_Type e) then
    if decide (name = inventoryBase) then InventoryFile
    else match CutPrefix name sidecarPrefix with
         | Some alg => Sidecar alg
         | None =>
             if HasPrefix name objectDeclPrefix
             then match ParseNamaste name with Ok n => Declaration n | _ => Nonconforming end
             else Nonconforming
         end
  else Nonconforming.

Definition version_of (e : DirEntry) : option VNum :=
  match kind_of e with Version v => Some v | _ => None end.
Definition sidecar_of (e : DirEntry) : option string :=
  match kind_of e with Sidecar alg => Some alg | _ => None end.
Definition declaration_of (e : DirEntry) : option Namaste :=
  match kind_of e with Declaration n => Some n | _ => None end.

(** The names that do not belong there: the non-conforming ones, and every
    sidecar and declaration after the first. *)
Fixpoint invalid_names (sidecar decl : bool) (entries : list DirEntry) : list string :=
  match entries with
  | [] => []
  | e :: entries =>
      match kind_of e with
      | Nonconforming => de_Name e :: invalid_names sidecar decl entries
      | Sidecar _ => (if sidecar then [de_Name e] else []) ++ invalid_names true decl entries
      | Declaration _ => (if decl then [de_Name e] else []) ++ invalid_names sidecar true entries
      | _ => invalid_names sidecar decl entries
      end
  end.

Definition flags : list objectStateFlag :=
  [flag_Namaste; flag_Inventory; flag_Sidecar; flag_Extensions; flag_Logs].

Lemma in_flags f :
  f = 1 ∨ f = 2 ∨ f = 4 ∨ f = 8 ∨ f = 16 → f ∈ flags.
Proof. unfold flags. set_solver. Qed.

Lemma has_flag_lor F f g :
  0 ≤ F → f ∈ flags → g ∈ flags →
  (0 <? Z.land (Z.lor F f) g) = (0 <? Z.land F g) || bool_decide (f = g).
Proof.
  intros HF Hf Hg. rewrite Z.land_lor_distr_l.
  assert (0 ≤ f ∧ 0 ≤ g ∧ (0 <? Z.land f g) = bool_decide (f = g)) as (Hf0 & Hg0 & <-).
  { unfold flags in *. set_unfold in Hf. set_unfold in Hg.
    destruct Hf as [->|[->|[->|[->|[->|[]]]]]], Hg as [->|[->|[->|[->|[->|[]]]]]]; by vm_compute. }
  assert (0 ≤ Z.land F g) by (apply Z.land_nonneg; lia).
  assert (0 ≤ Z.land f g) by (apply Z.land_nonneg; lia).
  apply eq_true_iff_eq. rewrite orb_true_iff, !Z.ltb_lt.
  pose proof (Z.lor_eq_0_iff (Z.land F g) (Z.land f g)).
  assert (0 ≤ Z.lor (Z.land F g) (Z.land f g)) by (apply Z.lor_nonneg; lia). lia.
Qed.

Definition flags_ok (st : ObjectState) : Prop := 0 ≤ os_Flags st.

Lemma has_flag_set_flag g f st :
  flags_ok st → f ∈ flags → g ∈ flags →
  has_flag g (set_flag f st) = has_flag g st || bool_decide (f = g).
Proof. intros. by apply has_flag_lor. Qed.

(** Whether the pass over the entries sets a flag. *)
Definition sets_flag (g : objectStateFlag) (e : DirEntry) : bool :=
  match kind_of e with
  | Logs => bool_decide (flag_Logs = g)
  | Extensions => bool_decide (flag_Extensions = g)
  | InventoryFile => bool_decide (flag_Inventory = g)
  | Sidecar _ => bool_decide (flag_Sidecar = g)
  | Declaration _ => bool_decide (flag_Namaste = g)
  | _ => false
  end.

Definition add_names (st : ObjectState) (names : list string) : list string :=
  take maxObjectStateInvalid (os_Invalid st ++ names).

Lemma addInvalid_names name st names :
  add_names (addInvalid name st) names = add_names st (name :: names).
Proof.
  unfold addInvalid, add_names, maxObjectStateInvalid. case_bool_decide as Hl; cbn [os_Invalid].
  - by rewrite <- (assoc_L (++)).
  - rewrite !take_app_le by lia. done.
Qed.

(** One entry, by its kind. *)
Lemma parse_entry_kind st e :
  parse_entry st e =
  match kind_of e with
  | Logs => set_flag flag_Logs st
  | Extensions => set_flag flag_Extensions st
  | Version v => add_version v st
  | InventoryFile => set_flag flag_Inventory st
  | Sidecar alg =>
      if HasSidecar st then addInvalid (de_Name e) st
      else set_flag flag_Sidecar (set_sidecar alg st)
  | Declaration n =>
      if HasNamaste st then addInvalid (de_Name e) st
      else set_flag flag_Namaste (set_spec (nam_Version n) st)
  | Nonconforming => addInvalid (de_Name e) st
  end.
Proof.
  unfold parse_entry, kind_of, HasPrefix, TrimPrefix.
  repeat (case_bool_decide || case_decide || case_match); by simplify_eq.
Qed.

Lemma addInvalid_fields name st :
  os_Flags (addInvalid name st) = os_Flags st
  ∧ os_VersionDirs (addInvalid name st) = os_VersionDirs st
  ∧ os_SidecarAlg (addInvalid name st) = os_SidecarAlg st
  ∧ os_Spec (addInvalid name st) = os_Spec st.
Proof. unfold addInvalid. by case_bool_decide. Qed.

(** What one entry does to each field. *)
Section parse_entry.
Context (st : ObjectState) (e : DirEntry).

Lemma parse_entry_flags g :
  flags_ok st → g ∈ flags →
  flags_ok (parse_entry st e) ∧ has_flag g (parse_entry st e) = has_flag g st || sets_flag g e.
Proof.
  intros Hok Hg. rewrite parse_entry_kind. unfold sets_flag.
  assert (∀ name, flags_ok (addInvalid name st)
    ∧ has_flag g (addInvalid name st) = has_flag g st || false) as Hadd.
  { intros name. unfold flags_ok, has_flag. rewrite (proj1 (addInvalid_fields name st)).
    by rewrite orb_false_r. }
  assert (∀ f st', f ∈ flags → os_Flags st' = os_Flags st → flags_ok (set_flag f st')
    ∧ has_flag g (set_flag f st') = has_flag g st || bool_decide (f = g)) as Hset.
  { intros f st' Hf He. split.
    - unfold flags_ok. cbn. rewrite He. apply Z.lor_nonneg. split; [done|].
      unfold flags in Hf. set_unfold in Hf. destruct Hf as [->|[->|[->|[->|[->|[]]]]]]; by vm_compute.
    - rewrite has_flag_set_flag by (done || by unfold flags_ok; rewrite He).
      unfold has_flag. by rewrite He. }
  assert (∀ f name, has_flag f st = true → flags_ok (addInvalid name st) ∧
    has_flag g (addInvalid name st) = has_flag g st || bool_decide (f = g)) as Hdup.
  { intros f name Hf. destruct (Hadd name) as [H1 H2]. split; [done|]. rewrite H2.
    case_bool_decide; [subst; by rewrite Hf|done]. }
  unfold HasSidecar, HasNamaste.
  destruct (kind_of e); repeat case_match; first [by apply Hset; [apply in_flags; cbn; auto|]
    | by apply Hdup | by apply Hadd | idtac].
  by rewrite orb_false_r.
Qed.

Lemma parse_entry_versions :
  os_VersionDirs (parse_entry st e) = os_VersionDirs st ++ option_list (version_of e).
Proof.
  rewrite parse_entry_kind. unfold version_of.
  destruct (addInvalid_fields (de_Name e) st) as (_ & Hv & _ & _).
  destruct (kind_of e); cbn; repeat case_match; rewrite ?app_nil_r; try done.
Qed.

Lemma parse_entry_sidecar :
  os_SidecarAlg (parse_entry st e) =
  if HasSidecar st then os_SidecarAlg st else default (os_SidecarAlg st) (sidecar_of e).
Proof.
  rewrite parse_entry_kind. unfold sidecar_of.
  destruct (addInvalid_fields (de_Name e) st) as (_ & _ & Hs & _).
  destruct (kind_of e); cbn; repeat case_match; done.
Qed.

Lemma parse_entry_spec :
  os_Spec (parse_entry st e) =
  if HasNamaste st then os_Spec st else default (os_Spec st) (nam_Version <$> declaration_of e).
Proof.
  rewrite parse_entry_kind. unfold declaration_of.
  destruct (addInvalid_fields (de_Name e) st) as (_ & _ & _ & Hs).
  destruct (kind_of e); cbn; repeat case_match; done.
Qed.

Lemma parse_entry_invalid names :
  add_names (parse_entry st e) names
  = add_names st (invalid_names (HasSidecar st) (HasNamaste st) [e] ++ names).
Proof.
  rewrite parse_entry_kind. cbn [invalid_names].
  destruct (kind_of e); try done; repeat case_match; try done; apply addInvalid_names.
Qed.
End parse_entry.

(** The whole pass. *)
Section parse_entries.
Implicit Types (st : ObjectState) (entries : list DirEntry).

Lemma parse_entries_flags entries st g :
  flags_ok st → g ∈ flags →
  flags_ok (foldl parse_entry st entries)
  ∧ has_flag g (foldl parse_entry st entries) = has_flag g st || existsb (sets_flag g) entries.
Proof.
  revert st. induction entries as [|e entries IH]; intros st Hok Hg; cbn; [by rewrite orb_false_r|].
  destruct (parse_entry_flags st e g Hok Hg) as [H1 H2].
  destruct (IH _ H1 Hg) as [H3 H4]. split; [done|]. by rewrite H4, H2, orb_assoc.
Qed.

Lemma parse_entries_versions entries st :
  os_VersionDirs (foldl parse_entry st entries) = os_VersionDirs st ++ omap version_of entries.
Proof.
  revert st. induction entries as [|e entries IH]; intros st; cbn; [by rewrite app_nil_r|].
  rewrite IH, parse_entry_versions, <- (assoc_L (++)). by destruct (version_of e).
Qed.

Lemma sets_sidecar e : sets_flag flag_Sidecar e = match sidecar_of e with Some _ => true | None => false end.
Proof. unfold sets_flag, sidecar_of. by destruct (kind_of e). Qed.

Lemma sets_namaste e : sets_flag flag_Namaste e = match declaration_of e with Some _ => true | None => false end.
Proof. unfold sets_flag, declaration_of. by destruct (kind_of e). Qed.

Lemma HasSidecar_step st e : flags_ok st →
  HasSidecar (parse_entry st e) = HasSidecar st || match sidecar_of e with Some _ => true | None => false end.
Proof.
  intros Hok. rewrite <- sets_sidecar. apply parse_entry_flags; [done|]. apply in_flags. auto.
Qed.

Lemma HasNamaste_step st e : flags_ok st →
  HasNamaste (parse_entry st e) = HasNamaste st || match declaration_of e with Some _ => true | None => false end.
Proof.
  intros Hok. rewrite <- sets_namaste. apply parse_entry_flags; [done|]. apply in_flags. auto.
Qed.

Lemma parse_entry_ok st e : flags_ok st → flags_ok (parse_entry st e).
Proof. intros. apply (parse_entry_flags st e flag_Logs); [done|]. apply in_flags. auto 10. Qed.

Lemma parse_entries_sidecar entries st : flags_ok st →
  os_SidecarAlg (foldl parse_entry st entries) =
  if HasSidecar st then os_SidecarAlg st
  else default (os_SidecarAlg st) (head (omap sidecar_of entries)).
Proof.
  revert st. induction entries as [|e entries IH]; intros st Hok; cbn; [by case_match|].
  rewrite IH, HasSidecar_step, parse_entry_sidecar by auto using parse_entry_ok.
  destruct (HasSidecar st); cbn; [done|]. by destruct (sidecar_of e).
Qed.

Lemma parse_entries_spec entries st : flags_ok st →
  os_Spec (foldl parse_entry st entries) =
  if HasNamaste st then os_Spec st
  else default (os_Spec st) (nam_Version <$> head (omap declaration_of entries)).
Proof.
  revert st. induction entries as [|e entries IH]; intros st Hok; cbn; [by case_match|].
  rewrite IH, HasNamaste_step, parse_entry_spec by auto using parse_entry_ok.
  destruct (HasNamaste st); cbn; [done|]. by destruct (declaration_of e).
Qed.

Lemma invalid_names_cons a b e entries :
  invalid_names a b (e :: entries) = invalid_names a b [e]
    ++ invalid_names (a || match sidecar_of e with Some _ => true | None => false end)
                     (b || match declaration_of e with Some _ => true | None => false end) entries.
Proof.
  unfold sidecar_of, declaration_of. cbn.
  destruct (kind_of e); cbn; rewrite ?orb_false_r, ?orb_true_r; repeat case_match; done.
Qed.

Lemma parse_entries_invalid entries st :
  flags_ok st → (length (os_Invalid st) ≤ maxObjectStateInvalid)%nat →
  os_Invalid (foldl parse_entry st entries)
  = add_names st (invalid_names (HasSidecar st) (HasNamaste st) entries).
Proof.
  revert st. induction entries as [|e entries IH]; intros st Hok Hlen; cbn [foldl].
  { unfold add_names. cbn. by rewrite app_nil_r, take_ge. }
  rewrite IH; [rewrite invalid_names_cons, HasSidecar_step, HasNamaste_step by done| |].
  - by apply parse_entry_invalid.
  - by apply parse_entry_ok.
  - rewrite parse_entry_kind. assert (∀ name, length (os_Invalid (addInvalid name st)) ≤ maxObjectStateInvalid)%nat.
    { intros name. unfold addInvalid. case_bool_decide; [|done]. cbn. rewrite length_app. cbn. lia. }
    destruct (kind_of e); repeat case_match; done.
Qed.
End parse_entries.

(** C40. [ParseObjectDir] sets each flag exactly when some entry calls for it, lists
    the version directories in order, takes the digest algorithm and the version
    of the specification from the first sidecar and the first declaration, and
    keeps the names of the first eight entries that do not belong there. *)
Theorem ParseObjectDir_spec entries :
  let st := ParseObjectDir entries in
  (∀ g, g ∈ flags → has_flag g st = existsb (sets_flag g) entries)
  ∧ os_VersionDirs st = omap version_of entries
  ∧ os_SidecarAlg st = default "" (head (omap sidecar_of entries))
  ∧ os_Spec st = default "" (nam_Version <$> head (omap declaration_of entries))
  ∧ os_Invalid st = take 8 (invalid_names false false entries).
Proof.
  cbn zeta. unfold ParseObjectDir. assert (flags_ok empty_state) as Hok by done. split_and!.
  - intros g Hg. rewrite (proj2 (parse_entries_flags entries _ g Hok Hg)).
    unfold flags in Hg. set_unfold in Hg. destruct Hg as [->|[->|[->|[->|[->|[]]]]]]; done.
  - by rewrite parse_entries_versions.
  - by rewrite parse_entries_sidecar.
  - by rewrite parse_entries_spec.
  - rewrite parse_entries_invalid by (done || cbn; lia). done.
Qed.
