(* ===== verification/Pipeline.v ===== *)
(** * Concurrent pipeline ([src/internal/pipeline/pipeline.go])

    [results] starts one goroutine that feeds a task channel, a number of workers
    and one that closes the result channel, and yields the results in the calling
    goroutine.  The goroutines and channels are the state of a step relation with
    one rule for each action that another goroutine can observe, so that a run is
    an interleaving of the goroutines.  The theorems hold for every run: it
    terminates, never blocks before it is finished, yields the result of every
    task exactly once unless the consumer stops it, and leaves no goroutine
    behind in either case. *)
From S2P Require Import Prelude GoStd.

Section pipeline.
Context {Tin R : Type}.
(** The result of [workFn] on a task (input, output and error), and whether the
    consumer's [yield] returns false after the results it has seen. *)
Context (work : Tin → R) (stop : list R → bool).
Context (numWorkers : nat).

(** [src/internal/pipeline/pipeline.go:74-88] a worker of results: waiting on the
    task channel, holding a task it received, about to send a result, or returned *)
Inductive worker : Type :=
  | Idle | Holding (t : Tin) | Sending (r : R) | Exited.

(** The calling goroutine: ranging over the results, draining the result channel
    after [yield] returned false, or returned. *)
Inductive main_state : Type := Yielding | Draining | Finished.

(** [src/internal/pipeline/pipeline.go:42-56] the channels and goroutines of
    results *)
Record state := mkState {
  pending : list Tin;        (* tasks the iterator has not delivered *)
  taskQ_open : bool;         (* false after [close(taskQ)] *)
  workers : list worker;
  resultQ : list R;          (* buffered channel of capacity [numWorkers] *)
  resultQ_open : bool;
  main : main_state;
  yielded : list R
}.

Definition cancelled (s : state) : bool :=
  match main s with Yielding => false | _ => true end.

Definition initial (tasks : list Tin) : state :=
  mkState tasks true (replicate numWorkers Idle) [] true Yielding [].

(** [src/internal/pipeline/pipeline.go:42-99] pipeline.results: the actions of its
    goroutines *)
Inductive step : state → state → Prop :=
  | step_task s t ts i :            (* taskQ <- task, received by worker i *)
      pending s = t :: ts → taskQ_open s = true → workers s !! i = Some Idle →
      step s (mkState ts true (<[i := Holding t]> (workers s)) (resultQ s) (resultQ_open s)
                (main s) (yielded s))
  | step_close_tasks s :            (* the task iterator ends *)
      pending s = [] → taskQ_open s = true →
      step s (mkState [] false (workers s) (resultQ s) (resultQ_open s) (main s) (yielded s))
  | step_cancel_tasks s :           (* <-cancel in the task loop *)
      cancelled s = true → taskQ_open s = true →
      step s (mkState (pending s) false (workers s) (resultQ s) (resultQ_open s) (main s) (yielded s))
  | step_work s i t :               (* workFn *)
      workers s !! i = Some (Holding t) → cancelled s = false →
      step s (mkState (pending s) (taskQ_open s) (<[i := Sending (work t)]> (workers s))
                (resultQ s) (resultQ_open s) (main s) (yielded s))
  | step_skip s i t :               (* <-cancel in a worker *)
      workers s !! i = Some (Holding t) → cancelled s = true →
      step s (mkState (pending s) (taskQ_open s) (<[i := Idle]> (workers s))
                (resultQ s) (resultQ_open s) (main s) (yielded s))
  | step_send s i r :               (* resultQ <- r *)
      workers s !! i = Some (Sending r) → (length (resultQ s) < numWorkers)%nat →
      step s (mkState (pending s) (taskQ_open s) (<[i := Idle]> (workers s))
                (resultQ s ++ [r]) (resultQ_open s) (main s) (yielded s))
  | step_exit s i :                 (* range taskQ ends *)
      workers s !! i = Some Idle → taskQ_open s = false →
      step s (mkState (pending s) false (<[i := Exited]> (workers s))
                (resultQ s) (resultQ_open s) (main s) (yielded s))
  | step_close_results s :          (* wg.Wait(); close(resultQ) *)
      Forall (λ w, w = Exited) (workers s) → resultQ_open s = true →
      step s (mkState (pending s) (taskQ_open s) (workers s) (resultQ s) false (main s) (yielded s))
  | step_yield s r rs :             (* yield(r) *)
      resultQ s = r :: rs → main s = Yielding →
      step s (mkState (pending s) (taskQ_open s) (workers s) rs (resultQ_open s)
                (if stop (yielded s ++ [r]) then Draining else Yielding) (yielded s ++ [r]))
  | step_drain s r rs :             (* for range resultQ *)
      resultQ s = r :: rs → main s = Draining →
      step s (mkState (pending s) (taskQ_open s) (workers s) rs (resultQ_open s) Draining (yielded s))
  | step_finish s :                 (* resultQ is closed and empty *)
      resultQ s = [] → resultQ_open s = false → main s ≠ Finished →
      step s (mkState (pending s) (taskQ_open s) (workers s) [] false Finished (yielded s)).

Definition steps : state → state → Prop := rtc step.

(** ** Every run ends *)

Definition worker_weight (w : worker) : nat :=
  match w with Idle => 1 | Holding _ => 4 | Sending _ => 3 | Exited => 0 end.
Definition main_weight (m : main_state) : nat :=
  match m with Yielding => 2 | Draining => 1 | Finished => 0 end.

(** What is left to do. *)
Definition weight (s : state) : nat :=
  4 * length (pending s) + (if taskQ_open s then 1 else 0)
  + sum_list (worker_weight <$> workers s) + length (resultQ s)
  + (if resultQ_open s then 1 else 0) + main_weight (main s).

Lemma sum_list_app l1 l2 : sum_list (l1 ++ l2) = (sum_list l1 + sum_list l2)%nat.
Proof. induction l1; cbn; lia. Qed.

Lemma workers_update ws i (w w' : worker) :
  ws !! i = Some w →
  (sum_list (worker_weight <$> <[i := w']> ws) + worker_weight w
   = sum_list (worker_weight <$> ws) + worker_weight w')%nat.
Proof.
  intros Hi. rewrite <- (take_drop_middle ws i w Hi) at 2.
  rewrite insert_take_drop by (by eapply lookup_lt_Some).
  rewrite !fmap_app, !fmap_cons, !sum_list_app. cbn. lia.
Qed.

Lemma step_weight s s' : step s s' → (weight s' < weight s)%nat.
Proof.
  unfold weight, cancelled.
  destruct 1; cbn [pending taskQ_open workers resultQ resultQ_open main yielded];
    repeat match goal with
    | H : _ !! _ = Some _ |- context [worker_weight <$> <[_ := ?w']> _] =>
        pose proof (workers_update _ _ _ w' H); clear H
    | H : pending _ = _ |- _ => rewrite H
    | H : resultQ _ = _ |- _ => rewrite H
    | H : taskQ_open _ = _ |- _ => rewrite H
    | H : resultQ_open _ = _ |- _ => rewrite H
    | H : main _ = _ |- _ => rewrite H
    end; cbn in *; rewrite ?length_app; cbn; repeat case_match; cbn in *; simplify_eq; try done; try lia.
  all: destruct (main s); [cbn; lia..|done].
Qed.

(** ** What is yielded *)

Definition in_flight (w : worker) : list R :=
  match w with Holding t => [work t] | Sending r => [r] | _ => [] end.

(** All results, of the tasks to come too. *)
Definition content (s : state) : list R :=
  mjoin (in_flight <$> workers s) ++ resultQ s ++ yielded s ++ (work <$> pending s).

Lemma in_flight_at ws i (w : worker) :
  ws !! i = Some w → ∃ X, mjoin (in_flight <$> ws) ≡ₚ in_flight w ++ X
    ∧ ∀ w', mjoin (in_flight <$> <[i := w']> ws) ≡ₚ in_flight w' ++ X.
Proof.
  intros Hi. exists (mjoin (in_flight <$> take i ws ++ drop (S i) ws)).
  assert (∀ w', mjoin (in_flight <$> take i ws ++ w' :: drop (S i) ws)
    ≡ₚ in_flight w' ++ mjoin (in_flight <$> take i ws ++ drop (S i) ws)) as Hm.
  { intros w'. rewrite <- (mjoin_Permutation (in_flight <$> w' :: take i ws ++ drop (S i) ws)); [done|].
    by rewrite Permutation_middle. }
  split.
  - rewrite <- Hm. by rewrite (take_drop_middle ws i w Hi).
  - intros w'. by rewrite insert_take_drop, Hm by (by eapply lookup_lt_Some).
Qed.

(** The channels are closed in order. *)
Definition closing_ok (s : state) : Prop :=
  (resultQ_open s = false → Forall (λ w, w = Exited) (workers s))
  ∧ (taskQ_open s = true → Forall (λ w, w ≠ Exited) (workers s))
  ∧ (taskQ_open s = false → main s = Yielding → pending s = [])
  ∧ (main s = Finished → resultQ_open s = false)
  ∧ length (workers s) = numWorkers.

Lemma closing_step s s' : step s s' → closing_ok s → closing_ok s'.
Proof.
  intros Hs (H1 & H2 & H3 & H4 & H5).
  assert (∀ i w w', workers s !! i = Some w → w ≠ Exited →
    resultQ_open s = false → Forall (λ w, w = Exited) (<[i := w']> (workers s))) as Hex.
  { intros i w w' Hi Hw Ho. specialize (H1 Ho). rewrite Forall_lookup in H1. by apply H1 in Hi. }
  destruct Hs; unfold closing_ok, cancelled in *; cbn;
    rewrite ?length_insert; split_and!; try done; try (by intros; eapply Hex).
  all: try (intros; apply Forall_insert; [by auto|done]).
  all: try (intros; congruence). all: try (by rewrite H in *).
  all: try (intros Hq Hm; rewrite Hm in *; done).
  all: try (intros; by destruct (stop _)).
  - intros _. by apply H3.
  - intros Ho Hy. by apply H3.
  - intros _. by apply H1.
Qed.

Lemma closing_initial tasks : closing_ok (initial tasks).
Proof.
  unfold closing_ok. cbn. split_and!; try done. - intros _. by apply Forall_replicate.
  - by rewrite length_replicate.
Qed.

(** Either the consumer is served and nothing is lost, or it has stopped or seen
    everything. *)
Definition served (all : list R) (s : state) : Prop :=
  match main s with
  | Yielding => content s ≡ₚ all
  | Draining => yielded s ⊆+ all ∧ stop (yielded s) = true
  | Finished => yielded s ⊆+ all ∧ (stop (yielded s) = true ∨ yielded s ≡ₚ all)
  end.

Lemma all_exited_content ws : Forall (λ w, w = Exited) ws → mjoin (in_flight <$> ws) = [].
Proof. induction 1 as [|w ws -> _ IH]; [done|exact IH]. Qed.

Lemma served_step all s s' :
  (0 < numWorkers)%nat → step s s' → closing_ok s → served all s → served all s'.
Proof.
  intros Hn Hs (H1 & H2 & H3 & H4 & H5).
  destruct Hs as [s t ts i Hp Ho Hi|s Hp Ho|s Hc Ho|s i t Hi Hc|s i t Hi Hc|s i r Hi _|s i Hi _|s _ _|
    s r rs Hr Hm|s r rs Hr Hm|s Hr Ho Hm]; unfold served, content, cancelled in *; cbn; try done.
  all: try (destruct (in_flight_at _ _ _ Hi) as (X & HX & HX')).
  - destruct (main s); try done. intros <-. rewrite HX', HX, Hp. cbn.
    by rewrite <- !Permutation_middle.
  - destruct (main s); try done. by rewrite Hp.
  - destruct (main s); try done. intros <-. by rewrite HX', HX.
  - by destruct (main s).
  - destruct (main s); try done. intros <-. rewrite HX', HX. cbn.
    rewrite <- (assoc_L (++)). cbn. by rewrite <- !Permutation_middle.
  - destruct (main s); try done. intros <-. by rewrite HX', HX.
  - rewrite Hm, Hr. intros Hall.
    assert ((yielded s ++ [r]) ++ mjoin (in_flight <$> workers s) ++ rs ++ (work <$> pending s) ≡ₚ all) as Hall'.
    { rewrite <- Hall. rewrite <- (assoc_L (++)). cbn. rewrite <- !Permutation_middle. f_equiv.
      rewrite (Permutation_app_swap_app (yielded s)). f_equiv. apply Permutation_app_swap_app. }
    destruct (stop _) eqn:Hstop.
    + split; [|done]. rewrite <- Hall'. by apply submseteq_inserts_r.
    + rewrite <- Hall', (Permutation_app_swap_app (yielded s ++ [r])). f_equiv.
      apply Permutation_app_swap_app.
  - rewrite Hm. done.
  - destruct (main s); [|naive_solver|done]. specialize (H1 Ho). rewrite all_exited_content, Hr by done.
    assert (taskQ_open s = false) as Hq.
    { destruct (taskQ_open s); [|done]. specialize (H2 eq_refl).
      destruct (workers s) as [|w ws]; [cbn in H5; lia|].
      apply Forall_cons in H1 as [-> _]. by apply Forall_cons in H2 as [H2 _]. }
    rewrite H3 by done. cbn. rewrite app_nil_r. intros Hall. split; [by rewrite Hall|by right].
Qed.

Lemma reachable tasks s :
  (0 < numWorkers)%nat → steps (initial tasks) s → closing_ok s ∧ served (work <$> tasks) s.
Proof.
  intros Hn Hs. pattern s. revert s Hs. apply rtc_ind_r.
  - split; [apply closing_initial|]. unfold served, content. cbn.
    assert (mjoin (in_flight <$> replicate numWorkers Idle) = []) as ->; [|done].
    clear. by induction numWorkers.
  - intros s s' _ Hs [Hc Hv]. split; [by eapply closing_step|by eapply served_step].
Qed.

(** ** No deadlock *)

Lemma worker_progress s i w :
  closing_ok s → workers s !! i = Some w → w ≠ Exited → resultQ s = [] →
  main s ≠ Finished → (0 < numWorkers)%nat → ∃ s', step s s'.
Proof.
  intros (H1 & H2 & H3 & H4 & H5) Hi Hw Hr Hm Hn. destruct w as [|t|r|]; [| | |done].
  - destruct (taskQ_open s) eqn:Ho; [|eexists; by eapply step_exit].
    destruct (pending s) as [|t ts] eqn:Hp; [eexists; by eapply step_close_tasks|].
    eexists. by eapply step_task.
  - destruct (cancelled s) eqn:Hc; eexists; [by eapply step_skip|by eapply step_work].
  - eexists. eapply step_send; [done|]. rewrite Hr. done.
Qed.

Definition is_exited (w : worker) : bool := match w with Exited => true | _ => false end.

Lemma progress s :
  closing_ok s → (0 < numWorkers)%nat → main s ≠ Finished → ∃ s', step s s'.
Proof.
  intros Hc Hn Hm. destruct (resultQ s) as [|r rs] eqn:Hr.
  - destruct (resultQ_open s) eqn:Ho; [|eexists; by eapply step_finish].
    destruct (decide (Forall (λ w, is_exited w = true) (workers s))) as [Hall|Hex].
    + eexists. eapply step_close_results; [|done].
      eapply Forall_impl; [done|]. by intros [].
    + apply not_Forall_Exists in Hex; [|by intros w; destruct (is_exited w); [left|right]].
      apply Exists_exists in Hex as (w & Hin & Hw).
      apply list_elem_of_lookup in Hin as [i Hi]. eapply worker_progress; try done.
      intros ->. by apply Hw.
  - destruct (main s) eqn:Hmain; [eexists; by eapply step_yield|eexists; by eapply step_drain|done].
Qed.

(** ** One worker keeps the order *)

Definition served_in_order (all : list R) (s : state) : Prop :=
  match main s with
  | Yielding => yielded s ++ resultQ s ++ mjoin (in_flight <$> workers s) ++ (work <$> pending s) = all
  | _ => yielded s `prefix_of` all
  end.

Lemma one_worker (ws : list worker) i w : length ws = 1%nat → ws !! i = Some w → ws = [w] ∧ i = 0%nat.
Proof.
  intros Hl Hi. destruct ws as [|w' [|]]; try done. pose proof (lookup_lt_Some _ _ _ Hi) as Hlt.
  cbn in Hlt. assert (i = 0%nat) as -> by lia. by injection Hi as ->.
Qed.

Lemma in_order_step all s s' :
  numWorkers = 1%nat → step s s' → closing_ok s → served_in_order all s → served_in_order all s'.
Proof.
  intros Hn Hs (H1 & H2 & H3 & H4 & H5). rewrite Hn in H5.
  destruct Hs as [s t ts i Hp Ho Hi|s Hp Ho|s Hc Ho|s i t Hi Hc|s i t Hi Hc|s i r Hi _|s i Hi _|s _ _|
    s r rs Hr Hm|s r rs Hr Hm|s Hr Ho Hm]; unfold served_in_order, cancelled in *; cbn; try done.
  all: try (apply one_worker in Hi as [Hws ->]; [|done]; rewrite Hws; cbn).
  all: try (destruct (main s) eqn:Hmain; try done).
  - by rewrite Hp.
  - by rewrite Hp.
  - by rewrite <- (assoc_L (++)).
  - rewrite Hr. cbn. intros <-. destruct (stop _).
    + eexists. by rewrite <- (assoc_L (++)).
    + by rewrite <- (assoc_L (++)).
  - intros <-. by eexists.
Qed.

Lemma reachable_in_order tasks s :
  numWorkers = 1%nat → steps (initial tasks) s → closing_ok s ∧ served_in_order (work <$> tasks) s.
Proof.
  intros Hn Hs. pattern s. revert s Hs. apply rtc_ind_r.
  - split; [apply closing_initial|]. unfold served_in_order, initial. by rewrite Hn.
  - intros s s' _ Hs [Hc Hv]. split; [by eapply closing_step|by eapply in_order_step].
Qed.

Lemma step_terminates s : sn step s.
Proof.
  remember (weight s) as n eqn:Hw. revert s Hw.
  induction (lt_wf n) as [n _ IH]. intros s ->. constructor. intros s' Hs'.
  apply (IH (weight s')); [by apply step_weight|done].
Qed.

(** C34. [results] returns under every scheduling of its goroutines: a run never
    blocks before it has returned, cannot go on forever, and once it has returned
    the consumer was given the result of every task exactly once, or a part of
    them after which it stopped. *)
Theorem pipeline_results tasks s :
  (0 < numWorkers)%nat → steps (initial tasks) s →
  sn step s
  ∧ (main s ≠ Finished → ∃ s', step s s')
  ∧ (main s = Finished → yielded s ⊆+ (work <$> tasks)
       ∧ (stop (yielded s) = true ∨ yielded s ≡ₚ work <$> tasks)).
Proof.
  intros Hn Hs. destruct (reachable _ _ Hn Hs) as [Hc Hv]. split_and!.
  - apply step_terminates.
  - by apply progress.
  - intros Hm. unfold served in Hv. by rewrite Hm in Hv.
Qed.

(** All continuations of a run reach a state, whichever goroutine is scheduled: it
    is there, or the run can go on and each way to go on reaches it. *)
Inductive inevitable (P : state → Prop) : state → Prop :=
  | inevitable_now s : P s → inevitable P s
  | inevitable_later s : (∃ s', step s s') → (∀ s', step s s' → inevitable P s') → inevitable P s.

Lemma inevitable_terminating (P : state → Prop) s :
  sn step s → (∀ s', steps s s' → P s' ∨ ∃ s'', step s' s'') → inevitable P s.
Proof.
  induction 1 as [s _ IH]. intros Hp. destruct (Hp s (rtc_refl _ _)) as [?|Hs]; [by left|].
  right; [done|]. intros s' Hs'. apply IH; [done|]. intros s'' Hs''. apply Hp. by eapply rtc_l.
Qed.

(** What is left when [results] has returned: nothing. *)
Definition quiescent (s : state) : Prop :=
  main s = Finished ∧ taskQ_open s = false ∧ Forall (λ w, w = Exited) (workers s)
  ∧ resultQ s = [] ∧ resultQ_open s = false.

(** The calling goroutine returns last. *)
Definition drained (s : state) : Prop := main s = Finished → resultQ s = [].

Lemma drained_step s s' : step s s' → closing_ok s → drained s → drained s'.
Proof.
  intros Hs (H1 & _ & _ & H4 & _). unfold drained.
  destruct Hs as [s t ts i Hp Ho Hi|s Hp Ho|s Hc Ho|s i t Hi Hc|s i t Hi Hc|s i r Hi _|s i Hi _|s _ _|
    s r rs Hr Hm|s r rs Hr Hm|s Hr Ho Hm]; cbn; try done.
  - intros _ Hm. specialize (H1 (H4 Hm)). rewrite Forall_lookup in H1. by apply H1 in Hi.
  - by destruct (stop _).
Qed.

Lemma reachable_drained tasks s : (0 < numWorkers)%nat → steps (initial tasks) s → drained s.
Proof.
  intros Hn Hs. enough (closing_ok s ∧ drained s) by tauto. pattern s. revert s Hs. apply rtc_ind_r.
  - split; [apply closing_initial|done].
  - intros s s' _ Hs [Hc Hd]. split; [by eapply closing_step|by eapply drained_step].
Qed.

Lemma finished_quiescent s : closing_ok s → drained s → (0 < numWorkers)%nat → main s = Finished → quiescent s.
Proof.
  intros (H1 & H2 & _ & H4 & H5) Hd Hn Hm. pose proof (H4 Hm) as Ho. specialize (H1 Ho).
  split_and!; [done| |done|by apply Hd|done]. destruct (taskQ_open s); [|done]. specialize (H2 eq_refl).
  destruct (workers s) as [|w ws]; [cbn in H5; lia|]. apply Forall_cons in H1 as [-> _]. by apply Forall_cons in H2 as [H2 _].
Qed.

(** C35. No goroutine is left behind: from every state of a run, whether the consumer
    has stopped it or not and whatever the scheduler does, the run comes to a state
    in which [results] has returned, the goroutine that feeds the tasks and all
    workers have ended, both channels are closed and no result is left in one; and
    nothing can happen after that. *)
Theorem pipeline_no_leak tasks s :
  (0 < numWorkers)%nat → steps (initial tasks) s →
  inevitable (λ s', quiescent s' ∧ ∀ s'', ¬ step s' s'') s.
Proof.
  intros Hn Hs. apply inevitable_terminating; [by apply step_terminates|].
  intros s' Hs'. assert (steps (initial tasks) s') as Hr by (by etrans).
  destruct (reachable _ _ Hn Hr) as [Hc _]. pose proof (reachable_drained _ _ Hn Hr) as Hd.
  assert (main s' = Finished ∨ main s' ≠ Finished) as [Hm|Hm] by (by destruct (main s'); [right|right|left]).
  - left. pose proof (finished_quiescent s' Hc Hd Hn Hm) as Hq. split; [done|]. intros s'' Hst.
    destruct Hq as (_ & Hq & Hw & Hr' & Ho). rewrite Forall_lookup in Hw.
    destruct Hst; try congruence; by match goal with H : workers _ !! _ = Some _ |- _ => apply Hw in H end.
  - right. by apply progress.
Qed.

(** With one worker the results are yielded in the order of the tasks: what
    the consumer was given when [results] returned is a prefix of the results of
    the tasks, all of them unless it stopped. *)
Theorem pipeline_in_order tasks s :
  numWorkers = 1%nat → steps (initial tasks) s → main s = Finished →
  yielded s `prefix_of` (work <$> tasks) ∧ (stop (yielded s) = true ∨ yielded s = work <$> tasks).
Proof.
  intros Hn Hs Hm. destruct (reachable_in_order _ _ Hn Hs) as [_ Ho].
  destruct (reachable tasks s ltac:(lia) Hs) as [_ Hv].
  unfold served_in_order, served in *. rewrite Hm in *. split; [done|].
  destruct Hv as [_ [?|Hv]]; [by left|right]. destruct Ho as [k Hk].
  apply Permutation_length in Hv. rewrite Hk, length_app in Hv.
  destruct k; [by rewrite app_nil_r in Hk|cbn in Hv; lia].
Qed.
End pipeline.

(** What [Results] yields, in the order a schedule of the workers gives it: the
    theorems above are what makes this list the meaning of a run that is not
    stopped.  [site] tells the calls of the program apart. *)
Section results.
Context `{GoEnv}.

(** [src/internal/pipeline/pipeline.go:24-40] Results *)
Definition Results {Tin R} (site : nat) (tasks : list Tin) (workFn : Tin → R) (numWorkers : Z) : list R :=
  let numWorkers := if numWorkers <? 1 then go_max_procs else numWorkers in
  if numWorkers =? 1 then workFn <$> tasks else interleave site (workFn <$> tasks).

Lemma Results_Permutation {Tin R} site tasks (workFn : Tin → R) n :
  Results site tasks workFn n ≡ₚ workFn <$> tasks.
Proof. unfold Results. case_match; [|rewrite interleave_perm]; by case_match. Qed.
End results.

(** ** Concrete instances *)

Definition ex_final : state (Tin:=nat) (R:=nat) :=
  mkState [] false [Exited] [] false Finished [8%nat].

(** One worker, one task. *)
Lemma example_run : steps S (λ _, false) 1 (initial 1 [7%nat]) ex_final.
Proof.
  eapply rtc_l; [by eapply step_task with (i := 0%nat)|cbn].
  eapply rtc_l; [by eapply step_work with (i := 0%nat)|cbn].
  eapply rtc_l; [eapply step_send with (i := 0%nat); cbn; [done|lia]|cbn].
  eapply rtc_l; [by eapply step_yield|cbn].
  eapply rtc_l; [by eapply step_close_tasks|cbn].
  eapply rtc_l; [by eapply step_exit with (i := 0%nat)|cbn].
  eapply rtc_l; [eapply step_close_results; [by repeat constructor|done]|cbn].
  eapply rtc_l; [by eapply step_finish|cbn]. apply rtc_refl.
Qed.

Lemma pipeline_results_witness :
  yielded ex_final ⊆+ (S <$> [7%nat])
  ∧ (false = true ∨ yielded ex_final ≡ₚ S <$> [7%nat]).
Proof. apply (pipeline_results S (λ _, false) 1 [7%nat] ex_final); [lia|apply example_run|done]. Defined.

Lemma pipeline_in_order_witness :
  yielded ex_final `prefix_of` (S <$> [7%nat])
  ∧ (false = true ∨ yielded ex_final = S <$> [7%nat]).
Proof. apply (pipeline_in_order S (λ _, false) 1 [7%nat] ex_final); [done|apply example_run|done]. Defined.

(** A run that the consumer stops at its first result. *)
Lemma pipeline_no_leak_witness :
  inevitable S (λ _, true) 2 (λ s', quiescent s' ∧ ∀ s'', ¬ step S (λ _, true) 2 s' s'') (initial 2 [7%nat; 8%nat; 9%nat]).
Proof. apply (pipeline_no_leak S (λ _, true) 2 [7%nat; 8%nat; 9%nat]); [lia|apply rtc_refl]. Defined.
