(* ===== verification/Digest.v ===== *)
(** * Digests ([src/digest])

    Algorithms and their registry, digesting several algorithms in one pass, sets
    of digests and the validation of a file against a set.  The hash functions are
    those of the [crypto] packages, an argument of the model. *)
From S2P Require Import Prelude GoStd FS Pipeline.

(** ** Algorithms *)

(** [Sum(nil)] of the hash functions, by the name of the algorithm. *)
Class Hashes := { hash_sum : string → string → string }.

Definition hex_digit (n : N) : ascii := ascii_of_N (if (n <? 10)%N then 48 + n else 87 + n).
(** [hex.EncodeToString] *)
Fixpoint hex_encode (s : string) : string :=
  match s with
  | "" => ""
  | String c s => String (hex_digit (byte c / 16)) (String (hex_digit (byte c mod 16)) (hex_encode s))
  end.

(** [src/digest/algorithm.go:33-39] Algorithm: its name, and the [String] of a
    digester that was written the given bytes *)
Record Algorithm := mkAlgorithm {
  alg_ID : string;
  alg_sum : string → string
}.

Definition SHA512 : string := "sha512".
Definition SHA256 : string := "sha256".
Definition SHA1 : string := "sha1".
Definition MD5 : string := "md5".
Definition BLAKE2B : string := "blake2b-512".

Section algorithms.
Context `{Hashes}.

(** [src/digest/algorithm.go:70-72] hashDigester.String *)
Definition hashDigester_String (alg data : string) : string := hex_encode (hash_sum alg data).

(** [src/digest/algorithm.go:74-87] sizeDigester *)
Definition sizeDigester_String (data : string) : string := Itoa (len data).

(** [src/digest/algorithm.go:41-63] alg.Digester: the map from names to
    constructors of digesters *)
Definition builtin_alg (name : string) : Algorithm :=
  mkAlgorithm name (if bool_decide (name = "size") then sizeDigester_String else hashDigester_String name).
End algorithms.

(** ** Registries *)

(** The type [AlgorithmRegistry]. *)
Notation AlgorithmRegistry := (gmap string Algorithm).

Definition register (r : AlgorithmRegistry) (algs : list Algorithm) : AlgorithmRegistry :=
  foldl (λ r alg, <[alg_ID alg := alg]> r) r algs.

(** [src/digest/registry.go:23-32] NewAlgorithmRegistry *)
Definition NewAlgorithmRegistry (algs : list Algorithm) : AlgorithmRegistry := register ∅ algs.

(** [src/digest/registry.go:34-42] AlgorithmRegistry.Get *)
Definition reg_Get (r : AlgorithmRegistry) (id : string) : result Algorithm :=
  match r !! id with
  | None => inr (ErrWrap id (ErrVar digest_ErrUnknown))
  | Some alg => inl alg
  end.

(** [src/digest/registry.go:44-56] AlgorithmRegistry.GetAny *)
Definition reg_GetAny (r : AlgorithmRegistry) (ids : list string) : list Algorithm :=
  omap (λ id, match reg_Get r id with inl alg => Some alg | inr _ => None end) ids.

(** [src/digest/registry.go:68-76] AlgorithmRegistry.MustGet *)
Definition reg_MustGet (r : AlgorithmRegistry) (id : string) : res Algorithm :=
  match reg_Get r id with inl alg => Ok alg | inr _ => Panic end.

(** [src/digest/registry.go:118-121] AlgorithmRegistry.Len *)
Definition reg_Len (r : AlgorithmRegistry) : Z := Z.of_nat (size r).

Section registry.
Context `{GoEnv, Hashes}.

(** [src/digest/registry.go:58-66] AlgorithmRegistry.All *)
Definition reg_All (r : AlgorithmRegistry) : list Algorithm := (range 20 r).*2.

(** [src/digest/registry.go:93-107] AlgorithmRegistry.Append *)
Definition reg_Append (r : AlgorithmRegistry) (algs : list Algorithm) : AlgorithmRegistry :=
  register (register ∅ (range 21 r).*2) algs.

(** [src/digest/registry.go:109-116] AlgorithmRegistry.IDs *)
Definition reg_IDs (r : AlgorithmRegistry) : list string := (range 22 r).*1.

(** [src/digest/registry.go:14-15] defaultRegister *)
Definition DefaultRegistry : AlgorithmRegistry :=
  NewAlgorithmRegistry (builtin_alg <$> [SHA512; SHA256; SHA1; MD5; BLAKE2B]).
End registry.

(** ** Sets of digests *)

(** [src/digest/digester.go:63-64] Set: a map, [None] is the nil map *)
Definition Set_ : Type := option (gmap string string).
Definition set_map (s : Set_) : gmap string string := default ∅ s.
(** [s[alg]]: the empty string for a missing key. *)
Definition set_get (s : Set_) (alg : string) : string := default "" (set_map s !! alg).

Section digests.
Context `{GoEnv}.

(** [src/digest/digester.go:66-76] Set.Algorithms *)
Definition Set_Algorithms (s : Set_) : list string := (range 23 (set_map s)).*1.

Fixpoint set_add (s : Set_) (l : list (string * string)) : res (Set_ * option error) :=
  match l with
  | [] => Ok (s, None)
  | (alg, newDigest) :: l =>
      let currDigest := set_get s alg in
      if bool_decide (currDigest = "") then
        match s with
        | None => Panic
        | Some m => set_add (Some (<[alg := newDigest]> m)) l
        end
      else if EqualFold currDigest newDigest then set_add s l
      else Ok (s, Some (DigestError "" alg newDigest currDigest false))
  end.

(** [src/digest/digester.go:78-97] Set.Add: the map is changed up to the first
    conflict; an assignment to the nil map panics *)
Definition Set_Add (s s2 : Set_) : res (Set_ * option error) := set_add s (range 24 (set_map s2)).

(** [src/digest/digester.go:99-110] Set.ConflictsWith *)
Definition Set_ConflictsWith (s other : Set_) : list string :=
  omap (λ '(alg, sv),
    match set_map other !! alg with
    | Some ov => if EqualFold sv ov then None else Some alg
    | None => None
    end) (range 25 (set_map s)).

(** ** Digesting *)

(** The type [MultiDigester]: a digester for each name, with the bytes it was
    written. *)
Notation MultiDigester := (gmap string (Algorithm * string)).

(** [src/digest/digester.go:30-44] NewMultiDigester *)
Definition NewMultiDigester (algs : list Algorithm) : MultiDigester :=
  foldl (λ md alg, <[alg_ID alg := (alg, "")]> md) ∅ algs.

(** [Write] on the [io.MultiWriter] of the digesters. *)
Definition md_Write (md : MultiDigester) (b : string) : MultiDigester :=
  (λ d : Algorithm * string, (d.1, d.2 +:+ b)) <$> md.

(** [src/digest/digester.go:46-52] MultiDigester.Sum *)
Definition md_Sum (md : MultiDigester) (alg : string) : string :=
  match md !! alg with
  | Some (a, data) => alg_sum a data
  | None => ""
  end.

(** [src/digest/digester.go:54-61] MultiDigester.Sums *)
Definition md_Sums (md : MultiDigester) : Set_ :=
  Some ((λ d : Algorithm * string, alg_sum d.1 d.2) <$> md).

(** [src/digest/registry.go:88-91] AlgorithmRegistry.NewMultiDigester *)
Definition reg_NewMultiDigester (r : AlgorithmRegistry) (algs : list string) : MultiDigester :=
  NewMultiDigester (reg_GetAny r algs).

(** [src/digest/digester.go:247-260] Validate *)
Definition Validate (r : reader) (s : Set_) (reg : AlgorithmRegistry) : option error :=
  let digester := NewMultiDigester (reg_GetAny reg (Set_Algorithms s)) in
  match rd_err r with
  | Some err => Some err
  | None =>
      let results := md_Sums (md_Write digester (rd_data r)) in
      match Set_ConflictsWith results s with
      | [] => None
      | alg :: _ => Some (DigestError "" alg (set_get results alg) (set_get s alg) false)
      end
  end.

(** ** Files with digests *)

Section files.
Context {W FS : Type} `{!FileSystems W FS}.

(** [src/digest/digester.go:129-134] FileRef *)
Record DFileRef := mkDFileRef {
  dfr_FileRef : FileRef FS;
  dfr_Digests : Set_;
  dfr_Fixity : Set_
}.

(** [src/digest/digester.go:162-180] FileRef.allDigests: the error holds a
    [DigestError] and not a pointer to one, so [errors.As] does not find it *)
Definition allDigests (fr : DFileRef) : result Set_ :=
  match Set_ConflictsWith (dfr_Digests fr) (dfr_Fixity fr) with
  | _ :: _ => inr (ErrWrap "fixity value conflicts with primary" (ErrNew "DigestError"))
  | [] => inl (Some (set_map (dfr_Fixity fr) ∪ set_map (dfr_Digests fr)))
  end.

(** [errors.As(err, &digestErr)] with the writes to its fields. *)
Definition set_digest_error (path : string) (primary : Set_) (e : error) : error :=
  match e with
  | DigestError _ alg got expected fix_ =>
      DigestError path alg got expected
        (fix_ || match set_map primary !! alg with Some _ => false | None => true end)
  | e => e
  end.

(** [src/digest/digester.go:136-160] FileRef.Validate: [Validate] returns either a
    [*DigestError] or an error of the reader *)
Definition DFileRef_Validate (fr : DFileRef) (reg : AlgorithmRegistry) (w : W) : option error :=
  match allDigests fr with
  | inr err => Some err
  | inl digests =>
      match FileRef_Open (dfr_FileRef fr) w with
      | inr err => Some err
      | inl f =>
          set_digest_error (FullPath (dfr_FileRef fr)) (dfr_Digests fr)
            <$> Validate (f_reader f) digests reg
      end
  end.

(** [src/digest/digester.go:194-220] digestFn *)
Definition digestFn (alg : Algorithm) (fixityAlgs : list Algorithm) (w : W) (ref : FileRef FS)
    : result DFileRef :=
  match FileRef_Open ref w with
  | inr err => inr err
  | inl f =>
      match rd_err (f_reader f) with
      | Some err => inr (ErrWrap ("digesting " +:+ FullPath ref) err)
      | None =>
          let digester := md_Write (NewMultiDigester (alg :: fixityAlgs)) (rd_data (f_reader f)) in
          let sums := range 26 (set_map (md_Sums digester)) in
          let digests := List.filter (λ e : string * string, bool_decide (e.1 = alg_ID alg)) sums in
          let fixity := List.filter (λ e : string * string, negb (bool_decide (e.1 = alg_ID alg))) sums in
          inl (mkDFileRef ref (Some (list_to_map digests))
                 (match fixity with [] => None | _ => Some (list_to_map fixity) end))
      end
  end.

(** [src/digest/digester.go:187-228] DigestFilesBatch *)
Definition DigestFilesBatch (files : list (FileRef FS)) (numgos : Z) (alg : Algorithm)
    (fixityAlgs : list Algorithm) (w : W) : list (result DFileRef) :=
  Results 1 files (digestFn alg fixityAlgs w) numgos.

(** [src/digest/digester.go:182-185] DigestFiles *)
Definition DigestFiles (files : list (FileRef FS)) (alg : Algorithm) (fixAlgs : list Algorithm) (w : W)
    : list (result DFileRef) := DigestFilesBatch files 1 alg fixAlgs w.

(** [src/digest/digester.go:230-245] ValidateFilesBatch: the errors that are
    yielded *)
Definition ValidateFilesBatch (digests : list DFileRef) (reg : AlgorithmRegistry) (numgos : Z) (w : W)
    : list error :=
  omap id (Results 2 digests (λ f, DFileRef_Validate f reg w) numgos).
End files.

(** ** Adding sets *)

(** The digest of an algorithm after an addition: a present one is kept. *)
Definition added (old new : option string) : option string :=
  match old, new with
  | Some c, Some d => if bool_decide (c = "") then Some d else Some c
  | Some c, None => Some c
  | None, new => new
  end.

(** [m] has no other digest for an algorithm of [m2]. *)
Definition compatible (m m2 : gmap string string) : Prop :=
  ∀ alg c d, m !! alg = Some c → m2 !! alg = Some d → c = "" ∨ EqualFold c d = true.

Lemma set_add_spec m l :
  NoDup l.*1 →
  match set_add (Some m) l with
  | Ok (Some m', None) =>
      compatible m (list_to_map l) ∧ ∀ k, m' !! k = added (m !! k) ((list_to_map l : gmap _ _) !! k)
  | Ok (Some _, Some e) =>
      ∃ alg c d, (alg, d) ∈ l ∧ m !! alg = Some c ∧ c ≠ "" ∧ EqualFold c d = false
        ∧ e = DigestError "" alg d c false
  | _ => False
  end.
Proof.
  revert m. induction l as [|[alg d] l IH]; intros m Hnd; cbn [set_add].
  { split; [by intros a c d' _ ?|]. intros k. cbn. rewrite lookup_empty.
    by destruct (m !! k). }
  rewrite fmap_cons in Hnd. apply NoDup_cons in Hnd as [Ha Hnd]. cbn [fst] in Ha.
  assert ((list_to_map l : gmap string string) !! alg = None) as Hl by (by apply not_elem_of_list_to_map_1).
  change (set_get (Some m) alg) with (default "" (m !! alg)).
  destruct (decide (m !! alg = None ∨ m !! alg = Some "")) as [He|He].
  - rewrite bool_decide_true by (destruct He as [->| ->]; done).
    specialize (IH (<[alg := d]> m) Hnd).
    destruct (set_add _ l) as [[[m'|] [e|]]| |]; try done.
    + destruct IH as (a & c & d' & Hin & Hc & Hrest). exists a, c, d'. split; [by right|].
      rewrite lookup_insert_ne in Hc; [done|]. intros <-. apply Ha. by apply (list_elem_of_fmap_2 fst) in Hin.
    + destruct IH as [Hcomp Hm']. split.
      * intros a c d' Hc. cbn. rewrite lookup_insert. case_decide; [subst; naive_solver|].
        intros Hd. apply (Hcomp a c d'); [|done]. by rewrite lookup_insert_ne.
      * intros k. rewrite Hm'. cbn. rewrite !lookup_insert. case_decide; [subst|done].
        rewrite Hl. destruct He as [-> | ->]; done.
  - destruct (m !! alg) as [c|] eqn:Hc; [|naive_solver]. cbn [default from_option id].
    rewrite bool_decide_false by naive_solver. destruct (EqualFold c d) eqn:Hf.
    + specialize (IH m Hnd). destruct (set_add _ l) as [[[m'|] [e|]]| |]; try done.
      * destruct IH as (a & c' & d' & Hin & Hrest). exists a, c', d'. split; [by right|done].
      * destruct IH as [Hcomp Hm']. split.
        -- intros a c' d' Hc'. cbn. rewrite lookup_insert. case_decide; [naive_solver|]. by apply Hcomp.
        -- intros k. rewrite Hm'. cbn. rewrite lookup_insert. case_decide; [subst|done].
           rewrite Hl, Hc. cbn. by rewrite bool_decide_false by naive_solver.
    + exists alg, c, d. split; [left|]. naive_solver.
Qed.

(** [Set.Add] keeps the digests of the set and adds those of the other one for
    missing algorithms; it fails exactly when some algorithm has two digests
    that differ in more than case, and then reports such a pair.  The nil set
    panics as soon as there is something to add. *)
Theorem Set_Add_spec (s s2 : Set_) :
  match s, Set_Add s s2 with
  | None, r => r = if decide (set_map s2 = ∅) then Ok (None, None) else Panic
  | Some m, Ok (Some m', None) =>
      compatible m (set_map s2) ∧ ∀ k, m' !! k = added (m !! k) (set_map s2 !! k)
  | Some m, Ok (Some _, Some e) =>
      ∃ alg c d, set_map s2 !! alg = Some d ∧ m !! alg = Some c ∧ c ≠ "" ∧ EqualFold c d = false
        ∧ e = DigestError "" alg d c false
  | Some m, _ => False
  end.
Proof.
  pose proof (range_perm 24 string _ _ string (set_map s2)) as Hp. unfold Set_Add. destruct s as [m|].
  - assert (NoDup (range 24 (set_map s2)).*1) as Hnd by (rewrite Hp; apply NoDup_fst_map_to_list).
    assert ((list_to_map (range 24 (set_map s2)) : gmap _ _) = set_map s2) as Hl.
    { rewrite <- (list_to_map_to_list (set_map s2)) at 2. by apply list_to_map_proper. }
    pose proof (set_add_spec m _ Hnd) as Hs. rewrite Hl in Hs.
    destruct (set_add _ _) as [[[m'|] [e|]]| |]; try done.
    destruct Hs as (alg & c & d & Hin & Hrest). exists alg, c, d. split; [|done].
    by rewrite Hp, elem_of_map_to_list in Hin.
  - case_decide as He.
    + rewrite He in *. rewrite map_to_list_empty in Hp. by apply Permutation_nil_r in Hp as ->.
    + destruct (range 24 _) as [|[alg d] l]; [|done].
      apply Permutation_nil_l in Hp. symmetry in Hp. by apply map_to_list_empty_iff in Hp.
Qed.

(** ** Validation of a file *)

(** Registries index algorithms by their names. *)
Definition reg_ok (reg : AlgorithmRegistry) : Prop := ∀ id a, reg !! id = Some a → alg_ID a = id.

Lemma register_ok r algs : reg_ok r → reg_ok (register r algs).
Proof.
  unfold register. revert r. induction algs as [|a algs IH]; intros r Hr; cbn; [done|]. apply IH.
  intros id b. rewrite lookup_insert. case_decide; naive_solver.
Qed.

Lemma reg_GetAny_IDs reg ids :
  reg_ok reg → alg_ID <$> reg_GetAny reg ids = filter (λ id, is_Some (reg !! id)) ids.
Proof.
  intros Hok. unfold reg_GetAny, reg_Get. induction ids as [|id ids IH]; [done|].
  cbn. destruct (reg !! id) as [a|] eqn:Hr; cbn.
  - rewrite decide_True; [|eauto]. by rewrite IH, (Hok id a).
  - rewrite decide_False; [done|]. by intros [? ?].
Qed.

Lemma reg_GetAny_elem reg ids a :
  reg_ok reg → a ∈ reg_GetAny reg ids ↔ reg !! alg_ID a = Some a ∧ alg_ID a ∈ ids.
Proof.
  intros Hok. unfold reg_GetAny, reg_Get. rewrite list_elem_of_omap. split.
  - intros (id & Hid & Ha). destruct (reg !! id) as [b|] eqn:Hr; [|done]. injection Ha as ->.
    by rewrite (Hok id a Hr).
  - intros [Hr Hid]. exists (alg_ID a). by rewrite Hr.
Qed.

Lemma Set_Algorithms_elem s alg : alg ∈ Set_Algorithms s ↔ is_Some (set_map s !! alg).
Proof.
  unfold Set_Algorithms. rewrite range_perm, list_elem_of_fmap. split.
  - intros ([k v] & -> & Hin). exists v. by apply elem_of_map_to_list in Hin.
  - intros [v Hv]. exists (alg, v). by rewrite elem_of_map_to_list.
Qed.

Lemma Set_Algorithms_NoDup s : NoDup (Set_Algorithms s).
Proof. unfold Set_Algorithms. rewrite range_perm. apply NoDup_fst_map_to_list. Qed.

(** The digests of the algorithms of [s] that are registered. *)
Lemma sums_lookup reg s data k v :
  reg_ok reg →
  set_map (md_Sums (md_Write (NewMultiDigester (reg_GetAny reg (Set_Algorithms s))) data)) !! k = Some v ↔
  ∃ a, reg !! k = Some a ∧ is_Some (set_map s !! k) ∧ v = alg_sum a data.
Proof.
  intros Hok. unfold md_Sums, md_Write. cbn [set_map default from_option id]. rewrite !lookup_fmap, !fmap_Some.
  set (algs := reg_GetAny reg (Set_Algorithms s)).
  change (NewMultiDigester algs) with (insert_all alg_ID (λ a : Algorithm, (a, "")) ∅ algs).
  assert (NoDup (alg_ID <$> algs)) as Hnd.
  { unfold algs. rewrite reg_GetAny_IDs by done. apply NoDup_filter, Set_Algorithms_NoDup. }
  setoid_rewrite fmap_Some. setoid_rewrite (insert_all_lookup _ _ algs k _ Hnd). split.
  - intros (d & (d' & (a & Ha & -> & ->) & ->) & ->). exists a.
    apply reg_GetAny_elem in Ha as [Hr Hin]; [|done]. by rewrite <- Set_Algorithms_elem.
  - intros (a & Ha & Hs & ->). pose proof (Hok k a Ha) as <-.
    exists (a, data). split; [|done]. exists (a, ""). split; [|done]. exists a. split; [|done].
    apply reg_GetAny_elem; [done|]. by rewrite Set_Algorithms_elem.
Qed.

Lemma ConflictsWith_elem s other alg :
  alg ∈ Set_ConflictsWith s other ↔
  ∃ c d, set_map s !! alg = Some c ∧ set_map other !! alg = Some d ∧ EqualFold c d = false.
Proof.
  unfold Set_ConflictsWith. rewrite list_elem_of_omap. split.
  - intros ([k c] & Hin & Hc). rewrite range_perm, elem_of_map_to_list in Hin.
    destruct (set_map other !! k) as [d|] eqn:Hd; [|done]. destruct (EqualFold c d) eqn:He; [done|].
    injection Hc as ->. eauto.
  - intros (c & d & Hc & Hd & He). exists (alg, c). rewrite range_perm, elem_of_map_to_list.
    by rewrite Hd, He.
Qed.

Lemma ConflictsWith_nil s other :
  Set_ConflictsWith s other = [] ↔
  ∀ alg c d, set_map s !! alg = Some c → set_map other !! alg = Some d → EqualFold c d = true.
Proof.
  split.
  - intros Hn alg c d Hc Hd. destruct (EqualFold c d) eqn:He; [done|].
    assert (alg ∈ Set_ConflictsWith s other) as Hin by (apply ConflictsWith_elem; eauto).
    rewrite Hn in Hin. by apply elem_of_nil in Hin.
  - intros Hall. destruct (Set_ConflictsWith s other) as [|alg l] eqn:Hl; [done|].
    assert (alg ∈ Set_ConflictsWith s other) as Hin by (rewrite Hl; left).
    apply ConflictsWith_elem in Hin as (c & d & Hc & Hd & He).
    by rewrite (Hall alg c d Hc Hd) in He.
Qed.

Lemma Validate_spec r s reg :
  reg_ok reg →
  (Validate r s reg = None ↔
   rd_err r = None ∧
   ∀ alg a d, reg !! alg = Some a → set_map s !! alg = Some d → EqualFold (alg_sum a (rd_data r)) d = true)
  ∧ (∀ e, Validate r s reg = Some e → rd_err r = None →
     ∃ alg a d, reg !! alg = Some a ∧ set_map s !! alg = Some d
       ∧ e = DigestError "" alg (alg_sum a (rd_data r)) d false
       ∧ EqualFold (alg_sum a (rd_data r)) d = false).
Proof.
  intros Hok. unfold Validate. destruct (rd_err r) as [err|]; [split; [split; [done|by intros [? _]]|done]|].
  set (results := md_Sums _). destruct (Set_ConflictsWith results s) as [|alg l] eqn:Hc; split.
  - split; [|done]. intros _. split; [done|]. intros alg a d Ha Hd.
    rewrite ConflictsWith_nil in Hc. apply (Hc alg); [|done]. apply sums_lookup; eauto.
  - done.
  - split; [done|]. intros [_ Hall].
    assert (Set_ConflictsWith results s = []) as Hn; [|congruence]. apply ConflictsWith_nil.
    intros k c d (a & Ha & _ & ->)%sums_lookup Hd; [|done]. by eapply Hall.
  - intros e [= <-] _. assert (alg ∈ Set_ConflictsWith results s) as Hin by (rewrite Hc; left).
    apply ConflictsWith_elem in Hin as (c & d & Hr & Hd & He). unfold set_get. rewrite Hr, Hd.
    apply sums_lookup in Hr as (a & Ha & _ & ->); [|done]. by exists alg, a, d.
Qed.

(** C38. [Validate] accepts a reader exactly when it is read to its end and the
    digest of its bytes equals the expected one, up to case, for every algorithm
    of the set that is registered; an error that is not the reader's is a
    [DigestError] with the digest computed for an algorithm of the set. *)
Theorem Validate_iff r s reg :
  reg_ok reg →
  (Validate r s reg = None ↔
   rd_err r = None ∧
   ∀ alg a d, reg !! alg = Some a → set_map s !! alg = Some d → EqualFold (alg_sum a (rd_data r)) d = true)
  ∧ (∀ e, Validate r s reg = Some e → rd_err r = None →
     ∃ alg a d, reg !! alg = Some a ∧ set_map s !! alg = Some d
       ∧ e = DigestError "" alg (alg_sum a (rd_data r)) d false
       ∧ EqualFold (alg_sum a (rd_data r)) d = false).
Proof. apply Validate_spec. Qed.
End digests.

(** ** Concrete instances *)

Definition ref_hashes : Hashes := {| hash_sum := λ alg data, data |}.

Lemma Validate_iff_witness :
  let reg := @DefaultRegistry ref_hashes in
  let s : Set_ := Some {["sha1" := "414A"]} in
  @Validate ref_env (bytes_reader "AJ") s reg = None ↔
  rd_err (bytes_reader "AJ") = None ∧
  ∀ alg a d, reg !! alg = Some a → set_map s !! alg = Some d → @EqualFold ref_env (alg_sum a "AJ") d = true.
Proof. cbn zeta. apply (@Validate_iff ref_env). by apply register_ok. Defined.
