(* ===== verification/Extension.v ===== *)
(** * Extensions and storage layouts ([src/extension])

    The registry of extensions, their JSON configurations and the layouts that
    map an object's identifier to a path.  The syntax of JSON is an argument
    ([ConfigJSON]); filling the fields of a struct from an object is defined
    here.  A layout's [Resolve] returns a path, an error or panics, as the Go
    method does for a configuration that [Valid] should have refused. *)
From S2P Require Import Prelude GoStd FS Digest.

(** ** Configuration files *)

(** The values of a JSON object: a number is its value when it is an integer
    that fits an [int]. *)
Inductive cval : Type := CStr (s : string) | CInt (z : option Z) | CBool (b : bool) | CNull | COther.
#[global] Instance cval_eq_dec : EqDecision cval.
Proof. solve_decision. Defined.

Notation cfg := (list (string * cval)).

(** [encoding/json] on texts that hold an object ([null] is an empty one), the
    embedded documents, and implementations of [Layout] outside of the package. *)
Class ConfigJSON := {
  cfg_parse : string → result cfg;
  cfg_encode : cfg → result string;
  docs_ReadFile : string → result string
}.

(** The strings that JSON keeps: others have bytes replaced. *)
Definition cval_ok (v : cval) : Prop :=
  match v with CStr s => valid_utf8 s = true | CInt z => is_Some z | CBool _ => True | _ => False end.
Definition cfg_ok (o : cfg) : Prop := Forall (λ e, valid_utf8 e.1 = true ∧ cval_ok e.2) o.

(** What the code relies on: a text written from such an object is read back. *)
Class ConfigLaws `{ConfigJSON} : Prop := {
  cfg_encode_ok : ∀ o, cfg_ok o → ∃ b, cfg_encode o = inl b;
  cfg_parse_encode : ∀ o b, cfg_ok o → cfg_encode o = inl b → cfg_parse b = inl o
}.

Definition as_CStr (v : cval) : option string := match v with CStr s => Some s | _ => None end.
Definition as_CInt (v : cval) : option Z := match v with CInt z => z | _ => None end.
Definition as_CBool (v : cval) : option bool := match v with CBool b => Some b | _ => None end.

(** A field of the struct: the last value of its key, [null] leaves it alone; the
    flag tells that a value had another type, which is an error in the end. *)
Definition dec_field `{GoEnv} {A} (as_A : cval → option A) (key : string) (o : cfg) (old : A) : A * bool :=
  foldl (λ '(x, bad) '(k, v),
    if negb (EqualFold k key) then (x, bad)
    else match v with
         | CNull => (x, bad)
         | v => match as_A v with Some y => (y, bad) | None => (x, true) end
         end) (old, false) o.

Definition err_json_type : error := ErrNew "json: cannot unmarshal".

(** ** Extensions *)

(** [src/extension/0003_layout_hash_id_tuple.go:18-24] LayoutHashIDTuple *)
Record LayoutHashIDTuple := mkHashIDTuple {
  l3_ExtensionName : string;
  l3_DigestAlgorithm : string;
  l3_TupleSize : Z;
  l3_TupleNum : Z
}.

(** [src/extension/0004_layout_hashtuple.go:15-22] LayoutHashTuple *)
Record LayoutHashTuple := mkHashTuple {
  l4_ExtensionName : string;
  l4_DigestAlgorithm : string;
  l4_TupleSize : Z;
  l4_TupleNum : Z;
  l4_Short : bool
}.

(** [src/extension/0006_layout_flat_omit_prefix.go:14-18] LayoutFlatOmitPrefix *)
Record LayoutFlatOmitPrefix := mkFlatOmitPrefix {
  l6_ExtensionName : string;
  l6_Delimiter : string
}.

(** [src/extension/0007_layout_tuple_omit_prefix.go:18-26] LayoutTupleOmitPrefix *)
Record LayoutTupleOmitPrefix := mkTupleOmitPrefix {
  l7_ExtensionName : string;
  l7_Delimiter : string;
  l7_TupleSize : Z;
  l7_TupleNum : Z;
  l7_Padding : string;
  l7_Reverse : bool
}.

(** An implementation of [Layout] by a program that uses the package. *)
Record CustomLayout := mkCustomLayout {
  cl_Name : string;
  cl_Resolve : string → res string;
  cl_Valid : option error;
  cl_config : cfg
}.

(** [src/extension/extension.go:34-67] Extension, Base, Layout: the dynamic types *)
Inductive Extension : Type :=
  | algRegistry (name : string) (algs : AlgorithmRegistry)
  | LayoutFlatDirect (name : string)
  | HashIDTuple (l : LayoutHashIDTuple)
  | HashTuple (l : LayoutHashTuple)
  | FlatOmitPrefix (l : LayoutFlatOmitPrefix)
  | TupleOmitPrefix (l : LayoutTupleOmitPrefix)
  | Custom (l : CustomLayout).

(** [src/extension/extension.go:41-47] Base.Name *)
Definition Name (e : Extension) : string :=
  match e with
  | algRegistry name _ | LayoutFlatDirect name => name
  | HashIDTuple l => l3_ExtensionName l
  | HashTuple l => l4_ExtensionName l
  | FlatOmitPrefix l => l6_ExtensionName l
  | TupleOmitPrefix l => l7_ExtensionName l
  | Custom l => cl_Name l
  end.

(** [src/extension/algorithm.go:35-36] algRegistry.Algorithms *)
Definition Algorithms (e : Extension) : option AlgorithmRegistry :=
  match e with algRegistry _ algs => Some algs | _ => None end.

(** The type assertion [ext.(Layout)]. *)
Definition is_Layout (e : Extension) : bool :=
  match e with algRegistry _ _ => false | _ => true end.

Definition padLeft : string := "left".
Definition padRight : string := "right".
Definition extensions : string := "extensions".
Definition ext0001 : string := "0001-digest-algorithms".
Definition ext0002 : string := "0002-flat-direct-storage-layout".
Definition ext0003 : string := "0003-hash-and-id-n-tuple-storage-layout".
Definition ext0004 : string := "0004-hashed-n-tuple-storage-layout".
Definition ext0006 : string := "0006-flat-omit-prefix-storage-layout".
Definition ext0007 : string := "0007-n-tuple-omit-prefix-storage-layout".
Definition ext0009 : string := "0009-digest-algorithms".

Section constructors.
Context `{Hashes}.

(** [src/extension/0001_digest_algorithms.go:9-20] Ext0001 *)
Definition Ext0001 : Extension :=
  algRegistry ext0001 (NewAlgorithmRegistry
    (builtin_alg <$> ["blake2b-160"; "blake2b-256"; "blake2b-384"; "sha512/256"])).

(** [src/extension/0002_layout_flatdirect.go:5-10] Ext0002 *)
Definition Ext0002 : Extension := LayoutFlatDirect ext0002.

(** [src/extension/0003_layout_hash_id_tuple.go:26-34] Ext0003 *)
Definition Ext0003 : Extension := HashIDTuple (mkHashIDTuple ext0003 "sha256" 3 3).

(** [src/extension/0004_layout_hashtuple.go:24-33] Ext0004 *)
Definition Ext0004 : Extension := HashTuple (mkHashTuple ext0004 "sha256" 3 3 false).

(** [src/extension/0006_layout_flat_omit_prefix.go:20-26] Ext0006 *)
Definition Ext0006 : Extension := FlatOmitPrefix (mkFlatOmitPrefix ext0006 "").

(** [src/extension/0007_layout_tuple_omit_prefix.go:28-38] Ext0007 *)
Definition Ext0007 : Extension := TupleOmitPrefix (mkTupleOmitPrefix ext0007 ":" 3 3 padLeft false).

(** [src/extension/0009_digest_algorithms.go:9-21] Ext0009 *)
Definition Ext0009 : Extension :=
  algRegistry ext0009 (NewAlgorithmRegistry
    (builtin_alg <$> ["blake2b-160"; "blake2b-256"; "blake2b-384"; "sha512/256"; "size"])).

(** [src/extension/extension.go:19-28] baseExtensions *)
Definition baseExtensions : list Extension :=
  [Ext0001; Ext0002; Ext0003; Ext0004; Ext0006; Ext0007; Ext0009].

(** ** Layouts *)

(** [Size()] of the hash functions of the [crypto] packages. *)
Definition hash_Size (name : string) : Z :=
  if bool_decide (name = SHA512) || bool_decide (name = BLAKE2B) then 64
  else if bool_decide (name = SHA256) then 32
  else if bool_decide (name = SHA1) then 20
  else 16.

(** [src/extension/algorithm.go:44-59] getHash: the size and the sum of the hash *)
Definition getHash (name : string) : option (Z * (string → string)) :=
  if bool_decide (name ∈ [SHA512; SHA256; SHA1; MD5; BLAKE2B])
  then Some (hash_Size name, hash_sum name) else None.

Definition err_tuple (what : string) : error := ErrNew what.

(** [src/extension/0003_layout_hash_id_tuple.go:36-53] LayoutHashIDTuple.Valid *)
Definition l3_Valid (l : LayoutHashIDTuple) : option error :=
  match getHash (l3_DigestAlgorithm l) with
  | None => Some (ErrNew "unknown digest algorithm")
  | Some (size, _) =>
      if (l3_TupleSize l =? 0) && negb (l3_TupleNum l =? 0)
      then Some (ErrNew "numberOfTuples must be 0 if tupleSize is 0")
      else if (l3_TupleNum l =? 0) && negb (l3_TupleSize l =? 0)
      then Some (ErrNew "tupleSize must be 0 if numberOfTuples is 0")
      else if size * 2 <? wrap64 (l3_TupleNum l * l3_TupleSize l)
      then Some (ErrNew "product of tupleSize and numberOfTuples is more then hash length")
      else None
  end.

(** [src/extension/0004_layout_hashtuple.go:35-52] LayoutHashTuple.Valid *)
Definition l4_Valid (l : LayoutHashTuple) : option error :=
  match getHash (l4_DigestAlgorithm l) with
  | None => Some (ErrNew "unknown digest algorithm")
  | Some (size, _) =>
      if (l4_TupleSize l =? 0) && negb (l4_TupleNum l =? 0)
      then Some (ErrNew "numberOfTuples must be 0 if tupleSize is 0")
      else if (l4_TupleNum l =? 0) && negb (l4_TupleSize l =? 0)
      then Some (ErrNew "tupleSize must be 0 if numberOfTuples is 0")
      else if size * 2 <? wrap64 (l4_TupleNum l * l4_TupleSize l)
      then Some (ErrNew "product of tupleSize and numberOfTuples is more then hash length")
      else None
  end.

(** [src/extension/0006_layout_flat_omit_prefix.go:28-33] LayoutFlatOmitPrefix.Valid *)
Definition l6_Valid (l : LayoutFlatOmitPrefix) : option error :=
  if bool_decide (l6_Delimiter l = "") then Some (ErrNew "required field not set in extension config") else None.

(** [src/extension/0007_layout_tuple_omit_prefix.go:40-51] LayoutTupleOmitPrefix.Valid *)
Definition l7_Valid (l : LayoutTupleOmitPrefix) : option error :=
  if l7_TupleSize l <? 1 then Some (ErrNew "invalid tupleSize")
  else if l7_TupleNum l <? 1 then Some (ErrNew "invalid numberOfTuples")
  else if negb (bool_decide (l7_Padding l = padLeft)) && negb (bool_decide (l7_Padding l = padRight))
  then Some (ErrNew "invalid padding")
  else None.

(** [make([]T, n)] for elements of [size] bytes: it panics out of range. *)
Definition make_slice (size n : Z) : res unit :=
  if (n <? 0) || (2 ^ 48 <? size * n) then Panic else Ok ().

(** The loop that cuts the digest, from tuple [i] on. *)
Fixpoint tuples_of (hID : string) (tupSize : Z) (k : nat) (i : Z) : res (list string) :=
  match k with
  | O => Ok []
  | S k =>
      t ← slice hID (wrap64 (i * tupSize)) (wrap64 ((i + 1) * tupSize));
      ts ← tuples_of hID tupSize k (i + 1);
      Ok (t :: ts)
  end.

(** [tuples], its last element included: an index of -1 panics. *)
Definition fill_tuples (hID : string) (tupSize tupNum : Z) (last : res string) : res (list string) :=
  _ ← make_slice 16 (wrap64 (tupNum + 1));
  ts ← tuples_of hID tupSize (Z.to_nat tupNum) 0;
  l ← last;
  if tupNum <? 0 then Panic else Ok (ts ++ [l]).

(** [src/extension/0003_layout_hash_id_tuple.go:76-81] shouldEscape *)
Definition shouldEscape (c : ascii) : bool :=
  negb (is_lower_ascii c || is_upper_ascii c || is_digit c
        || bool_decide (c = "-"%char) || bool_decide (c = "_"%char)).

Fixpoint count_escape (s : string) : Z :=
  match s with "" => 0 | String c s => (if shouldEscape c then 1 else 0) + count_escape s end.

(** The bytes of [out], in the order the loop writes them. *)
Fixpoint escape (s : string) : string :=
  match s with
  | "" => ""
  | String c s =>
      if shouldEscape c
      then String "%" (String (hex_digit (N.shiftr (byte c) 4)) (String (hex_digit (N.land (byte c) 15)) (escape s)))
      else String c (escape s)
  end.

(** [src/extension/0003_layout_hash_id_tuple.go:75-105] percentEncode *)
Definition percentEncode (s : string) : string :=
  if count_escape s =? 0 then s else escape s.

(** [src/extension/0003_layout_hash_id_tuple.go:55-73] LayoutHashIDTuple.Resolve *)
Definition l3_Resolve (l : LayoutHashIDTuple) (id : string) : res string :=
  match l3_Valid l with
  | Some err => Err err
  | None =>
      match getHash (l3_DigestAlgorithm l) with
      | None => Panic
      | Some (_, sum) =>
          let hID := hex_encode (sum id) in
          let encID := percentEncode id in
          tuples ← fill_tuples hID (l3_TupleSize l) (l3_TupleNum l)
            (if 100 <? len encID then e ← slice encID 0 100; Ok (e +:+ "-" +:+ hID) else Ok encID);
          Ok (join_with "/" tuples)
      end
  end.

(** [src/extension/0004_layout_hashtuple.go:54-72] LayoutHashTuple.Resolve *)
Definition l4_Resolve (l : LayoutHashTuple) (id : string) : res string :=
  match l4_Valid l with
  | Some err => Err err
  | None =>
      match getHash (l4_DigestAlgorithm l) with
      | None => Panic
      | Some (_, sum) =>
          let hID := hex_encode (sum id) in
          tuples ← fill_tuples hID (l4_TupleSize l) (l4_TupleNum l)
            (if l4_Short l then slice hID (wrap64 (l4_TupleNum l * l4_TupleSize l)) (len hID) else Ok hID);
          Ok (join_with "/" tuples)
      end
  end.
End constructors.

Section layouts.
Context `{GoEnv, Hashes}.

(** [src/extension/0006_layout_flat_omit_prefix.go:35-50] LayoutFlatOmitPrefix.Resolve *)
Definition l6_Resolve (l : LayoutFlatOmitPrefix) (id : string) : res string :=
  match l6_Valid l with
  | Some err => Err err
  | None =>
      let lowerID := ToLower id in
      let lowerDelim := ToLower (l6_Delimiter l) in
      let offset := LastIndex lowerID lowerDelim in
      dir ← (if -1 <? offset then slice id (offset + len (l6_Delimiter l)) (len id) else Ok id);
      if bool_decide (dir = extensions) || negb (ValidPath dir)
      then Err (ErrNew "object id is invalid for the layout")
      else Ok dir
  end.

Fixpoint string_rev (s acc : string) : string :=
  match s with "" => acc | String c s => string_rev s (String c acc) end.

(** The tuples of the padded identifier, from tuple [i] on. *)
Fixpoint join_tuples (padded : string) (tupSize : Z) (k : nat) (i : Z) (tuples : string) : res string :=
  match k with
  | O => Ok tuples
  | S k =>
      t ← slice padded (wrap64 (i * tupSize)) (wrap64 ((i + 1) * tupSize));
      join_tuples padded tupSize k (i + 1) (Join [tuples; t])
  end.

(** The identifier without its prefix. *)
Definition trim_id (delim id : string) : res string :=
  let idx := LastIndex id delim in
  if 0 <? idx then
    prefix ← slice id 0 (idx + len delim);
    if bool_decide (prefix = id) then Err (ErrNew "invalid id") else Ok (TrimPrefix id prefix)
  else Ok id.

Definition pad_id (l : LayoutTupleOmitPrefix) (trimID : string) : res string :=
  let size := wrap64 (l7_TupleNum l * l7_TupleSize l) in
  let padlen := wrap64 (size - len trimID) in
  if 0 <? padlen then
    _ ← make_slice 1 padlen;
    let pad := repeat_char "0" (Z.to_nat padlen) in
    Ok (if bool_decide (l7_Padding l = padLeft) then pad +:+ trimID else trimID +:+ pad)
  else Ok trimID.

(** [src/extension/0007_layout_tuple_omit_prefix.go:53-102] LayoutTupleOmitPrefix.Resolve:
    the runes are reversed as bytes, all of them are ASCII here *)
Definition l7_Resolve (l : LayoutTupleOmitPrefix) (id : string) : res string :=
  match l7_Valid l with
  | Some err => Err err
  | None =>
      if negb (string_forall (in_range 32 127) id)
      then Err (ErrWrap "" (ErrVar ext_ErrInvalidLayoutID))
      else
        trimID ← trim_id (l7_Delimiter l) id;
        if 0 <? IndexByte trimID "/" then Err (ErrWrap "" (ErrVar ext_ErrInvalidLayoutID))
        else
          padded ← pad_id l trimID;
          let padded := if l7_Reverse l then string_rev padded "" else padded in
          tuples ← join_tuples padded (l7_TupleSize l) (Z.to_nat (l7_TupleNum l)) 0 "";
          Ok (Join [tuples; trimID])
  end.

(** [src/extension/extension.go:63-64] Layout.Resolve: the method of the dynamic
    type; an extension that is no layout has none *)
Definition Resolve (e : Extension) (id : string) : res string :=
  match e with
  | algRegistry _ _ => Panic
  | LayoutFlatDirect _ => Ok id
  | HashIDTuple l => l3_Resolve l id
  | HashTuple l => l4_Resolve l id
  | FlatOmitPrefix l => l6_Resolve l id
  | TupleOmitPrefix l => l7_Resolve l id
  | Custom l => cl_Resolve l id
  end.

(** [src/extension/extension.go:65-66] Layout.Valid *)
Definition Layout_Valid (e : Extension) : option error :=
  match e with
  | algRegistry _ _ | LayoutFlatDirect _ => None
  | HashIDTuple l => l3_Valid l
  | HashTuple l => l4_Valid l
  | FlatOmitPrefix l => l6_Valid l
  | TupleOmitPrefix l => l7_Valid l
  | Custom l => cl_Valid l
  end.

(** ** JSON *)

(** [json.Marshal] of an extension: the fields of the struct in order, the keys
    of the map of [0007] sorted. *)
(** [src/extension/0007_layout_tuple_omit_prefix.go:104-113] LayoutTupleOmitPrefix.MarshalJSON *)
Definition l7_MarshalJSON (l : LayoutTupleOmitPrefix) : cfg :=
  [("delimiter", CStr (l7_Delimiter l)); ("extensionName", CStr ext0007);
   ("numberOfTuples", CInt (Some (l7_TupleNum l))); ("reverseObjectRoot", CBool (l7_Reverse l));
   ("tupleSize", CInt (Some (l7_TupleSize l))); ("zeroPadding", CStr (l7_Padding l))].

Definition ext_config (e : Extension) : cfg :=
  match e with
  | algRegistry name _ | LayoutFlatDirect name => [("extensionName", CStr name)]
  | HashIDTuple l =>
      [("extensionName", CStr (l3_ExtensionName l)); ("digestAlgorithm", CStr (l3_DigestAlgorithm l));
       ("tupleSize", CInt (Some (l3_TupleSize l))); ("numberOfTuples", CInt (Some (l3_TupleNum l)))]
  | HashTuple l =>
      [("extensionName", CStr (l4_ExtensionName l)); ("digestAlgorithm", CStr (l4_DigestAlgorithm l));
       ("tupleSize", CInt (Some (l4_TupleSize l))); ("numberOfTuples", CInt (Some (l4_TupleNum l)));
       ("shortObjectRoot", CBool (l4_Short l))]
  | FlatOmitPrefix l =>
      [("extensionName", CStr (l6_ExtensionName l)); ("delimiter", CStr (l6_Delimiter l))]
  | TupleOmitPrefix l => l7_MarshalJSON l
  | Custom l => cl_config l
  end.

(** [json.Unmarshal] into a new extension: the fields that the object names are
    set, the others keep their defaults. *)
Definition ext_fill (e : Extension) (o : cfg) : result Extension :=
  let str key old := dec_field as_CStr key o old in
  let int key old := dec_field as_CInt key o old in
  let bool key old := dec_field as_CBool key o old in
  let '(name, b0) := str "extensionName" (Name e) in
  let ret (bad : Datatypes.bool) e := if b0 || bad then inr err_json_type else inl e in
  match e with
  | algRegistry _ algs => ret false (algRegistry name algs)
  | LayoutFlatDirect _ => ret false (LayoutFlatDirect name)
  | HashIDTuple l =>
      let '(alg, b1) := str "digestAlgorithm" (l3_DigestAlgorithm l) in
      let '(size, b2) := int "tupleSize" (l3_TupleSize l) in
      let '(num, b3) := int "numberOfTuples" (l3_TupleNum l) in
      ret (b1 || b2 || b3) (HashIDTuple (mkHashIDTuple name alg size num))
  | HashTuple l =>
      let '(alg, b1) := str "digestAlgorithm" (l4_DigestAlgorithm l) in
      let '(size, b2) := int "tupleSize" (l4_TupleSize l) in
      let '(num, b3) := int "numberOfTuples" (l4_TupleNum l) in
      let '(short, b4) := bool "shortObjectRoot" (l4_Short l) in
      ret (b1 || b2 || b3 || b4) (HashTuple (mkHashTuple name alg size num short))
  | FlatOmitPrefix l =>
      let '(delim, b1) := str "delimiter" (l6_Delimiter l) in
      ret b1 (FlatOmitPrefix (mkFlatOmitPrefix name delim))
  | TupleOmitPrefix l =>
      let '(delim, b1) := str "delimiter" (l7_Delimiter l) in
      let '(size, b2) := int "tupleSize" (l7_TupleSize l) in
      let '(num, b3) := int "numberOfTuples" (l7_TupleNum l) in
      let '(pad, b4) := str "zeroPadding" (l7_Padding l) in
      let '(reverse, b5) := bool "reverseObjectRoot" (l7_Reverse l) in
      ret (b1 || b2 || b3 || b4 || b5) (TupleOmitPrefix (mkTupleOmitPrefix name delim size num pad reverse))
  | Custom l => inl (Custom l)
  end.
End layouts.

(** ** Registries of extensions *)

(** [src/extension/registry.go:9-12] Registry: a constructor is the value that it
    returns *)
Definition Registry : Type := gmap string Extension.

Section registry.
Context `{GoEnv, Hashes, ConfigJSON}.

Definition put_ext (r : Registry) (es : list Extension) : Registry := foldl (λ r e, <[Name e := e]> r) r es.

(** [src/extension/registry.go:14-23] Registry.New *)
Definition Registry_New (r : Registry) (name : string) : result Extension :=
  match r !! name with
  | None => inr (ErrWrap "" (ErrVar ext_ErrUnknown))
  | Some e => inl e
  end.

(** [src/extension/registry.go:25-36] Registry.NewLayout *)
Definition Registry_NewLayout (r : Registry) (name : string) : result Extension :=
  match Registry_New r name with
  | inr err => inr err
  | inl ext => if is_Layout ext then inl ext else inr (ErrWrap "" (ErrVar ext_ErrNotLayout))
  end.

(** [src/extension/registry.go:38-52] Registry.Append *)
Definition Registry_Append (r : Registry) (es : list Extension) : Registry :=
  put_ext (foldl (λ m '(n, e), <[n := e]> m) ∅ (range 70 r)) es.

(** [src/extension/registry.go:54-61] Registry.Names *)
Definition Registry_Names (r : Registry) : list string := (range 71 r).*1.

(** [src/extension/registry.go:63-83] Registry.Unmarshal *)
Definition Registry_Unmarshal (r : Registry) (jsonBytes : string) : result Extension :=
  match cfg_parse jsonBytes with
  | inr err => inr err
  | inl o =>
      let '(name, bad) := dec_field as_CStr "extensionName" o "" in
      if bad then inr err_json_type
      else if bool_decide (name = "") then inr (ErrNew "missing required field in extension config")
      else match Registry_New r name with
           | inr err => inr err
           | inl config => ext_fill config o
           end
  end.

(** [src/extension/registry.go:85-95] NewRegistry *)
Definition NewRegistry (es : list Extension) : Registry := put_ext ∅ es.

(** [src/extension/registry.go:97-101] DefaultRegistry *)
Definition DefaultExtensions : Registry := NewRegistry baseExtensions.

(** [src/extension/registry.go:103-107] Get *)
Definition ext_Get (name : string) : result Extension := Registry_New DefaultExtensions name.

(** [json.Marshal(config)]. *)
Definition ext_Marshal (e : Extension) : result string := cfg_encode (ext_config e).

(** [src/extension/extension.go:49-57] Base.Doc *)
Definition Doc (ExtensionName : string) : string :=
  match docs_ReadFile ("docs/" +:+ ExtensionName +:+ ".md") with inl byts => byts | inr _ => "" end.
End registry.
