(* ===== verification/ExtensionSpec.v ===== *)
(** * What the storage layouts promise ([src/extension])

    Percent-encoding is injective and yields path elements; the layouts that cut
    a digest into tuples return valid paths, and [0003] maps two identifiers to
    one path only when their digests collide.  Configurations survive their JSON
    form.  The last part fixes the behaviour on configurations and identifiers
    that the checks of the package let through. *)
From S2P Require Import Prelude GoStd FS Digest Extension.

(** ** Elements that need no escape *)

Definition is_safe (c : ascii) : bool := negb (shouldEscape c) || bool_decide (c = "%"%char).

Lemma is_safe_ascii c : is_safe c = true → is_ascii_byte c = true ∧ c ≠ slash ∧ c ≠ "."%char.
Proof. destruct c as [[] [] [] [] [] [] [] []]; vm_compute; naive_solver. Qed.

Lemma safe_no_slash s : string_forall is_safe s = true → no_slash s.
Proof.
  unfold no_slash. induction s as [|c s IH]; cbn; [done|]. rewrite andb_true_iff. intros [Hc Hs].
  destruct (ascii_dec c slash); [|by apply IH]. by apply is_safe_ascii in Hc as (_ & ? & _).
Qed.

Lemma safe_elem s : string_forall is_safe s = true → valid_elem s = negb (bool_decide (s = "")).
Proof.
  intros Hs. unfold valid_elem. destruct s as [|c s]; [done|]. cbn in Hs.
  apply andb_true_iff in Hs as [Hc _]. apply is_safe_ascii in Hc as (_ & _ & Hdot).
  rewrite !bool_decide_false by congruence. done.
Qed.

Lemma valid_utf8_ascii s : is_ascii s = true → valid_utf8 s = true.
Proof.
  intros Hs. unfold valid_utf8. rewrite decode_runes_ascii by done.
  by induction (String.list_ascii_of_string s).
Qed.

Lemma join_ascii l : Forall (λ e, string_forall is_safe e = true) l → is_ascii (join_with "/" l) = true.
Proof.
  assert (∀ s, string_forall is_safe s = true → is_ascii s = true) as Ha.
  { intros s. apply string_forall_impl. intros c Hc. by apply is_safe_ascii in Hc as [? _]. }
  induction l as [|x [|y l] IH]; intros Hl; [done|..]; inversion_clear Hl as [|?? Hx Hl']; [by apply Ha|].
  transitivity (is_ascii (x +:+ "/" +:+ join_with "/" (y :: l))); [done|].
  unfold is_ascii. rewrite !string_forall_app. specialize (IH Hl'). specialize (Ha x Hx).
  unfold is_ascii in *. by rewrite Ha, IH.
Qed.

Lemma ValidPath_join l : l ≠ [] → Forall (λ e, string_forall is_safe e = true) l →
  ValidPath (join_with "/" l) = forallb (λ e, negb (bool_decide (e = ""))) l.
Proof.
  intros Hne Hl. unfold ValidPath. rewrite valid_utf8_ascii by (by apply join_ascii).
  assert (Forall no_slash l) as Hns by (eapply Forall_impl; [exact Hl|apply safe_no_slash]).
  rewrite split_join by done.
  rewrite bool_decide_false.
  - cbn. clear Hne Hns. induction Hl as [|x l Hx Hl IH]; [done|]. cbn. by rewrite IH, safe_elem.
  - destruct l as [|[|c x] [|y l]]; [done|done|done| |];
      inversion_clear Hl as [|?? Hx ?]; cbn in Hx; apply andb_true_iff in Hx as [Hx _];
      apply is_safe_ascii in Hx as (_ & _ & Hdot); cbn; congruence.
Qed.

(** ** Hexadecimal and percent-encoding *)

Lemma hex_digit_safe n : (n < 16)%N → is_safe (hex_digit n) = true.
Proof. intros H. destruct n as [|p]; [done|]. do 4 (destruct p as [p|p|]; try done); lia. Qed.

Lemma byte_div c : (byte c / 16 < 16)%N.
Proof. unfold byte. apply N.Div0.div_lt_upper_bound. apply N_ascii_bounded. Qed.

Lemma hex_encode_safe s : string_forall is_safe (hex_encode s) = true.
Proof.
  induction s as [|c s IH]; [done|]. cbn. rewrite !hex_digit_safe; [done| |apply byte_div].
  by apply N.mod_lt.
Qed.

Lemma hex_encode_length s : String.length (hex_encode s) = (2 * String.length s)%nat.
Proof. induction s; cbn in *; lia. Qed.

Definition hex_val (c : ascii) : N := if is_digit c then (byte c - 48)%N else (byte c - 87)%N.

Lemma hex_digit_inj a b : (a < 16)%N → (b < 16)%N → hex_digit a = hex_digit b → a = b.
Proof.
  assert (∀ n, (n < 16)%N → hex_val (hex_digit n) = n) as Hv.
  { intros n H. destruct n as [|p]; [done|]. do 4 (destruct p as [p|p|]; try done); lia. }
  intros Ha Hb Heq. rewrite <- (Hv a), <- (Hv b) by done. by rewrite Heq.
Qed.

Lemma hex_encode_inj s t : hex_encode s = hex_encode t → s = t.
Proof.
  revert t. induction s as [|c s IH]; intros [|d t]; cbn; [done..|]. intros [= H1 H2 Heq].
  f_equal; [|by apply IH]. apply hex_digit_inj in H1; [|apply byte_div..].
  apply hex_digit_inj in H2; [|by apply N.mod_lt..].
  apply byte_inj. rewrite (N.div_mod (byte c) 16), (N.div_mod (byte d) 16) by done. by rewrite H1, H2.
Qed.

(** The reference decoder of a percent-encoded string. *)
Fixpoint percentDecode (s : string) : string :=
  match s with
  | String "%" (String a (String b s)) =>
      String (ascii_of_N (16 * hex_val a + hex_val b)) (percentDecode s)
  | String c s => String c (percentDecode s)
  | "" => ""
  end.

Lemma escape_id s : count_escape s = 0 → escape s = s.
Proof.
  assert (∀ t, 0 ≤ count_escape t) as Hpos.
  { induction t as [|c t IH]; cbn; [done|]. case_match; lia. }
  induction s as [|c s IH]; [done|]. cbn. specialize (Hpos s).
  destruct (shouldEscape c); [lia|]. intros. by rewrite IH by lia.
Qed.

Lemma percentEncode_escape s : percentEncode s = escape s.
Proof.
  unfold percentEncode. destruct (_ =? _) eqn:H; [|done]. apply Z.eqb_eq in H. by rewrite escape_id.
Qed.

Lemma decode_byte c : ascii_of_N (16 * hex_val (hex_digit (N.shiftr (byte c) 4)) + hex_val (hex_digit (N.land (byte c) 15))) = c.
Proof. by destruct c as [[] [] [] [] [] [] [] []]. Qed.

Lemma escape_unescaped c s : shouldEscape c = false → percentDecode (String c s) = String c (percentDecode s).
Proof. by destruct c as [[] [] [] [] [] [] [] []]. Qed.

Lemma percentDecode_Encode s : percentDecode (percentEncode s) = s.
Proof.
  rewrite percentEncode_escape. induction s as [|c s IH]; [done|]. cbn [escape].
  destruct (shouldEscape c) eqn:Hc; [|by rewrite escape_unescaped, IH].
  set (x := hex_digit _). set (y := hex_digit _). cbn. subst x y. by rewrite decode_byte, IH.
Qed.

Lemma percentEncode_inj s t : percentEncode s = percentEncode t → s = t.
Proof. intros H. by rewrite <- (percentDecode_Encode s), <- (percentDecode_Encode t), H. Qed.

Lemma percentEncode_safe s : string_forall is_safe (percentEncode s) = true.
Proof.
  rewrite percentEncode_escape. induction s as [|c s IH]; [done|]. cbn [escape].
  destruct (shouldEscape c) eqn:Hc.
  - assert (is_safe (hex_digit (N.shiftr (byte c) 4)) && is_safe (hex_digit (N.land (byte c) 15)) = true) as Hh
      by (by destruct c as [[] [] [] [] [] [] [] []]).
    apply andb_true_iff in Hh as [H1 H2].
    change (is_safe "%" && (is_safe (hex_digit (N.shiftr (byte c) 4)) &&
      (is_safe (hex_digit (N.land (byte c) 15)) && string_forall is_safe (escape s))) = true).
    by rewrite H1, H2, IH.
  - cbn. rewrite IH. unfold is_safe. by rewrite Hc.
Qed.

Lemma percentEncode_empty s : percentEncode s = "" ↔ s = "".
Proof. split; [|by intros ->]. intros H. by apply percentEncode_inj. Qed.

(** ** Tuples *)

Lemma slice_forall f s i j t : string_forall f s = true → slice s i j = Ok t → string_forall f t = true.
Proof. intros Hs (_ & _ & _ & ->)%slice_Ok. by apply string_forall_take, string_forall_drop. Qed.

Lemma tuples_of_shape f hID tupSize k i ts :
  string_forall f hID = true → tuples_of hID tupSize k i = Ok ts →
  length ts = k ∧ Forall (λ e, string_forall f e = true) ts.
Proof.
  intros Hs. revert i ts. induction k as [|k IH]; intros i ts; cbn; intros H; inv_res; subst; [done|].
  destruct (IH _ _ Hx0) as [? ?]. split; cbn; [by f_equal|]. constructor; [by eapply slice_forall|done].
Qed.

Lemma fill_tuples_shape f hID tupSize tupNum last tuples :
  string_forall f hID = true → fill_tuples hID tupSize tupNum last = Ok tuples →
  0 ≤ tupNum ∧ ∃ ts e, last = Ok e ∧ tuples = ts ++ [e] ∧ length ts = Z.to_nat tupNum
    ∧ Forall (λ e, string_forall f e = true) ts.
Proof.
  intros Hs. unfold fill_tuples. intros H. inv_res. destruct (tupNum <? 0) eqn:Hn; [done|].
  apply Z.ltb_ge in Hn. injection H as <-. split; [done|].
  destruct (tuples_of_shape _ _ _ _ _ _ Hs Hx0) as [? ?]. by exists x0, x1.
Qed.

(** The configurations whose numbers make sense. *)
Definition tuple_config (digestLen tupSize tupNum : Z) : Prop :=
  0 ≤ tupSize ∧ 0 ≤ tupNum ∧ tupNum * tupSize ≤ digestLen ∧ digestLen ≤ 2 ^ 40.

Lemma tuples_of_total hID tupSize k i :
  0 ≤ tupSize → 0 ≤ i → len hID ≤ 2 ^ 40 → (i + Z.of_nat k) * tupSize ≤ len hID →
  ∃ ts, tuples_of hID tupSize k i = Ok ts ∧ Forall (λ t, len t = tupSize) ts
    ∧ string_drop (Z.to_nat (i * tupSize)) hID
      = concat_strings ts +:+ string_drop (Z.to_nat ((i + Z.of_nat k) * tupSize)) hID.
Proof.
  intros Hsz. revert i. induction k as [|k IH]; intros i Hi Hlen Hk; cbn [tuples_of].
  { exists []. split_and!; [done|done|]. by rewrite Z.add_0_r. }
  destruct (IH (i + 1)) as (ts & Hts & Hall & Hcat); [lia|lia|nia|].
  rewrite !wrap64_id by (unfold in_int64; nia).
  rewrite slice_in by nia. cbn. rewrite Hts. cbn. eexists. split; [done|].
  replace (Z.to_nat ((i + 1) * tupSize - i * tupSize)) with (Z.to_nat tupSize) by lia. split.
  - constructor; [|done]. unfold len. rewrite string_length_take; [lia|].
    rewrite string_length_drop. unfold len in *. nia.
  - rewrite (string_take_drop (Z.to_nat tupSize) (string_drop _ hID)) at 1.
    rewrite string_drop_drop. cbn [concat_strings]. rewrite <- string_app_assoc. f_equal.
    replace (Z.to_nat (i * tupSize) + Z.to_nat tupSize)%nat with (Z.to_nat ((i + 1) * tupSize)) by nia.
    rewrite Hcat. do 3 f_equal. lia.
Qed.

(** ** The layouts by digest *)

Section layout_specs.
Context `{GoEnv, Hashes}.

(** What the code relies on: a hash function returns [Size()] bytes. *)
Definition HashSizes : Prop :=
  ∀ name size sum s, getHash name = Some (size, sum) → len (sum s) = size.

Lemma getHash_sum name size sum : getHash name = Some (size, sum) → sum = hash_sum name ∧ 16 ≤ size ≤ 64.
Proof. unfold getHash. case_bool_decide; [|done]. intros [= <- <-]. unfold hash_Size. split; [done|]. repeat case_match; lia. Qed.

Lemma fill_tuples_total hID tupSize tupNum e :
  tuple_config (len hID) tupSize tupNum → tupSize = 0 ↔ tupNum = 0 →
  ∃ ts, fill_tuples hID tupSize tupNum (Ok e) = Ok (ts ++ [e])
    ∧ length ts = Z.to_nat tupNum ∧ Forall (λ t, len t = tupSize) ts
    ∧ hID = concat_strings ts +:+ string_drop (Z.to_nat (tupNum * tupSize)) hID.
Proof.
  intros (Hs & Hn & Hp & Hl) Hz. unfold fill_tuples.
  assert (tupNum ≤ len hID) as Hb.
  { destruct (decide (tupSize = 0)); [|nia]. pose proof (len_nonneg hID). lia. }
  rewrite wrap64_id by (unfold in_int64; lia).
  unfold make_slice. rewrite (proj2 (Z.ltb_ge _ _)), (proj2 (Z.ltb_ge _ _)) by lia. cbn [orb].
  destruct (tuples_of_total hID tupSize (Z.to_nat tupNum) 0) as (ts & Hts & Hall & Hcat); [lia..|nia|].
  cbn. rewrite Hts. cbn. rewrite (proj2 (Z.ltb_ge _ _)) by lia. exists ts. split; [done|]. split; [|split; [done|]].
  - clear -Hts. revert Hts. generalize 0. generalize (Z.to_nat tupNum) as k. intros k. revert ts.
    induction k as [|k IH]; intros ts i; cbn; intros Hts; inv_res; subst; [done|]. cbn. f_equal. by eapply IH.
  - rewrite Z.mul_0_l in Hcat. cbn in Hcat. rewrite Hcat at 1. do 3 f_equal. lia.
Qed.

Lemma fill_tuples_err hID tupSize tupNum last :
  tupNum < 0 → fill_tuples hID tupSize tupNum last = Panic ∨ ∃ e, last = Err e.
Proof.
  intros Hn. unfold fill_tuples, make_slice. destruct (_ || _); [by left|]. cbn.
  rewrite (Z2Nat.nonpos tupNum) by lia. cbn. destruct last as [e|e|]; [|by eauto|by left].
  cbn. left. by rewrite (proj2 (Z.ltb_lt _ _)).
Qed.

Lemma l3_Resolve_inv l id p : l3_Resolve l id = Ok p →
  let hID := hex_encode (hash_sum (l3_DigestAlgorithm l) id) in
  ∃ ts e, p = join_with "/" (ts ++ [e]) ∧ length ts = Z.to_nat (l3_TupleNum l)
    ∧ (∀ f, string_forall f hID = true → Forall (λ e, string_forall f e = true) ts)
    ∧ e = (if 100 <? len (percentEncode id)
           then string_take 100 (percentEncode id) +:+ "-" +:+ hID else percentEncode id).
Proof.
  intros Hr. unfold l3_Resolve in Hr. destruct (l3_Valid l); [done|].
  destruct (getHash _) as [[size sum]|] eqn:Hg; [|done]. apply getHash_sum in Hg as [-> _]. inv_res.
  destruct (fill_tuples_shape _ _ _ _ _ _ (hex_encode_safe _) Hx) as (_ & ts & e & He & -> & Hlen & _).
  exists ts, e. split_and!; [done|done| |].
  - intros f Hf. destruct (fill_tuples_shape f _ _ _ _ _ Hf Hx) as (_ & ts' & e' & _ & E & _ & Hall).
    by apply app_inj_tail in E as [-> _].
  - case_match; inv_res; subst; [|done]. by apply slice_Ok in Hx0 as (_ & _ & _ & ->).
Qed.

Lemma l3_last_safe l id : string_forall is_safe
  (if 100 <? len (percentEncode id)
   then string_take 100 (percentEncode id) +:+ "-" +:+ hex_encode (hash_sum (l3_DigestAlgorithm l) id)
   else percentEncode id) = true.
Proof.
  pose proof (percentEncode_safe id) as Hs. case_match; [|done].
  rewrite string_forall_app, string_forall_take by done. cbn. apply hex_encode_safe.
Qed.

Lemma join_last_inj ts1 ts2 e1 e2 :
  Forall (λ e, string_forall is_safe e = true) (ts1 ++ [e1]) →
  Forall (λ e, string_forall is_safe e = true) (ts2 ++ [e2]) →
  join_with "/" (ts1 ++ [e1]) = join_with "/" (ts2 ++ [e2]) → ts1 = ts2 ∧ e1 = e2.
Proof.
  intros H1 H2 Heq. apply app_inj_tail.
  rewrite <- (split_join (ts1 ++ [e1])), <- (split_join (ts2 ++ [e2])), Heq;
    [done|by destruct ts2| |by destruct ts1|]; (eapply Forall_impl; [done|apply safe_no_slash]).
Qed.

Lemma l3_injective l id1 id2 p :
  l3_Resolve l id1 = Ok p → l3_Resolve l id2 = Ok p →
  id1 = id2 ∨ hash_sum (l3_DigestAlgorithm l) id1 = hash_sum (l3_DigestAlgorithm l) id2.
Proof.
  intros (ts1 & e1 & -> & _ & Hs1 & ->)%l3_Resolve_inv (ts2 & e2 & Hp & _ & Hs2 & ->)%l3_Resolve_inv.
  specialize (Hs1 _ (hex_encode_safe _)). specialize (Hs2 _ (hex_encode_safe _)).
  apply join_last_inj in Hp as [_ He]; [|apply Forall_app; repeat constructor; [done|apply l3_last_safe]..].
  assert (∀ id, 100 <? len (percentEncode id) = true → String.length (string_take 100 (percentEncode id)) = 100%nat) as Ht.
  { intros id Hid%Z.ltb_lt. apply string_length_take. unfold len in Hid. lia. }
  destruct (100 <? len (percentEncode id1)) eqn:H1, (100 <? len (percentEncode id2)) eqn:H2.
  - right. apply string_app_inj_length in He as [_ He]; [|by rewrite !Ht].
    injection He as He. by apply hex_encode_inj.
  - exfalso. apply Z.ltb_ge in H2. apply (f_equal String.length) in He.
    rewrite string_length_app, Ht in He by done. cbn in He. unfold len in H2. lia.
  - exfalso. apply Z.ltb_ge in H1. apply (f_equal String.length) in He.
    rewrite string_length_app, Ht in He by done. cbn in He. unfold len in H1. lia.
  - left. by apply percentEncode_inj.
Qed.

(** The layout 0003 never gives two object identifiers one path, unless the
    digests of the two collide: the last element of the path is the
    percent-encoded identifier, or its first 100 bytes with the digest. *)
Theorem HashIDTuple_injective l id1 id2 p :
  l3_Resolve l id1 = Ok p → l3_Resolve l id2 = Ok p →
  id1 = id2 ∨ hash_sum (l3_DigestAlgorithm l) id1 = hash_sum (l3_DigestAlgorithm l) id2.
Proof. apply l3_injective. Qed.

(** What [Valid] says of numbers that are not negative. *)
Lemma tuple_Valid (size tupSize tupNum : Z) :
  0 ≤ tupSize → 0 ≤ tupNum → tupNum * tupSize < 2 ^ 63 → 16 ≤ size ≤ 64 →
  (if (tupSize =? 0) && negb (tupNum =? 0) then false
   else if (tupNum =? 0) && negb (tupSize =? 0) then false
   else negb (size * 2 <? wrap64 (tupNum * tupSize))) = true →
  tuple_config (size * 2) tupSize tupNum ∧ (tupSize = 0 ↔ tupNum = 0).
Proof.
  intros Hs Hn Hp Hb. rewrite wrap64_id by (unfold in_int64; nia).
  destruct (tupSize =? 0) eqn:E1, (tupNum =? 0) eqn:E2; cbn; try done; rewrite negb_true_iff;
    bool_to_prop; unfold tuple_config; intros; split; lia.
Qed.

Lemma nonempty_elems n ts e : Forall (λ t, len t = n) ts → (n = 0 → ts = []) →
  forallb (λ t, negb (bool_decide (t = ""))) (ts ++ [e]) = negb (bool_decide (e = "")).
Proof.
  intros Hts Hn. rewrite forallb_app. cbn. rewrite andb_true_r.
  destruct (decide (n = 0)) as [->|Hne]; [by rewrite Hn|].
  replace (forallb _ ts) with true; [done|]. symmetry. apply forallb_forall. intros t Ht%list_elem_of_In.
  rewrite Forall_forall in Hts. specialize (Hts t Ht). rewrite negb_true_iff. case_bool_decide; [|done].
  subst t. cbn in Hts. by subst n.
Qed.

Lemma fill_tuples_path hID tupSize tupNum e :
  string_forall is_safe hID = true → string_forall is_safe e = true →
  tuple_config (len hID) tupSize tupNum → tupSize = 0 ↔ tupNum = 0 →
  ∃ ts, fill_tuples hID tupSize tupNum (Ok e) = Ok (ts ++ [e])
    ∧ length ts = Z.to_nat tupNum ∧ Forall (λ t, len t = tupSize) ts
    ∧ hID = concat_strings ts +:+ string_drop (Z.to_nat (tupNum * tupSize)) hID
    ∧ ValidPath (join_with "/" (ts ++ [e])) = negb (bool_decide (e = "")).
Proof.
  intros Hs He Hc Hz. destruct (fill_tuples_total hID tupSize tupNum e Hc Hz) as (ts & Hf & Hl & Hall & Hcat).
  exists ts. split_and!; [done..|]. rewrite ValidPath_join.
  - apply (nonempty_elems tupSize); [done|]. intros ->. assert (tupNum = 0) as -> by tauto. by destruct ts.
  - by destruct ts.
  - destruct (fill_tuples_shape _ _ _ _ _ _ Hs Hf) as (_ & ts' & e' & [= <-] & Hts & _ & Hsafe).
    rewrite Hts. apply Forall_app. by repeat constructor.
Qed.

Lemma l4_resolves l id size sum :
  HashSizes → getHash (l4_DigestAlgorithm l) = Some (size, sum) → l4_Valid l = None →
  0 ≤ l4_TupleSize l → 0 ≤ l4_TupleNum l → l4_TupleNum l * l4_TupleSize l < 2 ^ 63 →
  let hID := hex_encode (sum id) in
  ∃ ts e, l4_Resolve l id = Ok (join_with "/" (ts ++ [e]))
    ∧ Z.of_nat (length ts) = l4_TupleNum l ∧ Forall (λ t, len t = l4_TupleSize l) ts
    ∧ (if l4_Short l then concat_strings (ts ++ [e]) = hID
       else e = hID ∧ ∃ rest, hID = concat_strings ts +:+ rest)
    ∧ ValidPath (join_with "/" (ts ++ [e]))
      = negb (l4_Short l && (l4_TupleNum l * l4_TupleSize l =? size * 2)).
Proof.
  intros Hsize Hg Hv Hs Hn Hp hID. unfold l4_Resolve. rewrite Hv, Hg. unfold l4_Valid in Hv. rewrite Hg in Hv.
  pose proof (getHash_sum _ _ _ Hg) as [_ Hb].
  assert (len hID = size * 2) as Hlen.
  { unfold hID, len. rewrite hex_encode_length. specialize (Hsize _ _ _ id Hg). unfold len in Hsize. lia. }
  destruct (tuple_Valid size (l4_TupleSize l) (l4_TupleNum l)) as [Hc Hz]; [done..|by repeat case_match|].
  rewrite <- Hlen in Hc. fold hID. set (n := l4_TupleNum l * l4_TupleSize l) in *.
  assert (string_forall is_safe hID = true) as Hsafe by apply hex_encode_safe.
  destruct (l4_Short l).
  - assert (0 ≤ n ≤ len hID) as Hnb by (destruct Hc as (_ & _ & ? & _); split; [subst n; nia|done]).
    rewrite wrap64_id by (unfold in_int64; lia). rewrite slice_in by lia. set (e := string_take _ _).
    assert (e = string_drop (Z.to_nat n) hID) as He.
    { assert (∀ s m, (String.length s ≤ m)%nat → string_take m s = s) as Ht.
      { intros s. induction s as [|c s IH]; intros [|m]; cbn; [done..|lia|]. intros. by rewrite IH by lia. }
      apply Ht. rewrite string_length_drop. unfold len. lia. }
    destruct (fill_tuples_path hID (l4_TupleSize l) (l4_TupleNum l) e) as (ts & -> & Hl & Hall & Hcat & Hpath);
      [done|by rewrite He; apply string_forall_drop|done|done|].
    exists ts, e. split_and!; [done|lia|done| |].
    + rewrite concat_strings_app, He. done.
    + rewrite Hpath, He. f_equal. cbn. apply eq_true_iff_eq. rewrite bool_decide_eq_true, Z.eqb_eq. split.
      * intros Hd. apply (f_equal String.length) in Hd. rewrite string_length_drop in Hd. cbn in Hd. unfold len in *. lia.
      * intros Heq. apply len_0. unfold len in *. rewrite string_length_drop. lia.
  - destruct (fill_tuples_path hID (l4_TupleSize l) (l4_TupleNum l) hID) as (ts & -> & Hl & Hall & Hcat & Hpath); [done..|].
    exists ts, hID. split_and!; [done|lia|done|done|by eexists|].
    rewrite Hpath. cbn. rewrite bool_decide_false; [done|]. intros Heq. rewrite Heq in Hlen. change (len "") with 0 in Hlen. lia.
Qed.

(** C25. The layout 0004 resolves every identifier: the path is as many tuples of
    the digest as configured, then the whole digest, or with [shortObjectRoot]
    what is left of it, so that the elements spell the digest.  The path is valid
    except when [shortObjectRoot] leaves nothing, a configuration that the
    extension forbids and [Valid] accepts. *)
Theorem HashTuple_Resolve_spec l id size sum :
  HashSizes → getHash (l4_DigestAlgorithm l) = Some (size, sum) → l4_Valid l = None →
  0 ≤ l4_TupleSize l → 0 ≤ l4_TupleNum l → l4_TupleNum l * l4_TupleSize l < 2 ^ 63 →
  let hID := hex_encode (sum id) in
  ∃ ts e, l4_Resolve l id = Ok (join_with "/" (ts ++ [e]))
    ∧ Z.of_nat (length ts) = l4_TupleNum l ∧ Forall (λ t, len t = l4_TupleSize l) ts
    ∧ (if l4_Short l then concat_strings (ts ++ [e]) = hID
       else e = hID ∧ ∃ rest, hID = concat_strings ts +:+ rest)
    ∧ ValidPath (join_with "/" (ts ++ [e]))
      = negb (l4_Short l && (l4_TupleNum l * l4_TupleSize l =? size * 2)).
Proof. apply l4_resolves. Qed.

(** [Valid] accepts a negative number of tuples for 0003 and 0004, and then
    [Resolve] panics for every identifier. *)
Theorem Resolve_negative_panics :
  (∀ l id, l3_Valid l = None → l3_TupleNum l < 0 → l3_Resolve l id = Panic)
  ∧ (∀ l id, l4_Valid l = None → l4_TupleNum l < 0 → l4_Resolve l id = Panic).
Proof.
  split; intros l id Hv Hn.
  - unfold l3_Resolve. rewrite Hv. destruct (getHash _) as [[size sum]|]; [|done].
    destruct (fill_tuples_err (hex_encode (sum id)) (l3_TupleSize l) (l3_TupleNum l)
      (if 100 <? len (percentEncode id)
       then e ← slice (percentEncode id) 0 100; Ok (e +:+ "-" +:+ hex_encode (sum id))
       else Ok (percentEncode id)) Hn) as [->|[e He]]; [done|].
    exfalso. revert He. unfold slice. by repeat case_match.
  - unfold l4_Resolve. rewrite Hv. destruct (getHash _) as [[size sum]|]; [|done].
    set (last := if l4_Short l then _ else _).
    destruct (fill_tuples_err (hex_encode (sum id)) (l4_TupleSize l) (l4_TupleNum l) last Hn) as [->|[e He]]; [done|].
    exfalso. revert He. unfold last, slice. by repeat case_match.
Qed.

(** The layout 0007 gives the identifier ".." behind a prefix the directory of
    other objects: the tuples are joined and cleaned with the identifier. *)
Lemma TupleOmitPrefix_dotdot :
  Resolve Ext0007 "x:.." = Ok "000/000" ∧ Resolve Ext0007 "x:0" = Ok "000/000/000/0".
Proof. split; vm_compute; reflexivity. Qed.
End layout_specs.

(** ** Configurations *)

Section configurations.
Context `{GoEnv, Hashes, ConfigJSON} `{!ConfigLaws}.

(** The extensions of the package under their own names, with strings that JSON
    keeps. *)
Definition builtin_config (e : Extension) : Prop :=
  match e with
  | algRegistry _ _ => e = Ext0001 ∨ e = Ext0009
  | LayoutFlatDirect name => name = ext0002
  | HashIDTuple l => l3_ExtensionName l = ext0003 ∧ valid_utf8 (l3_DigestAlgorithm l) = true
  | HashTuple l => l4_ExtensionName l = ext0004 ∧ valid_utf8 (l4_DigestAlgorithm l) = true
  | FlatOmitPrefix l => l6_ExtensionName l = ext0006 ∧ valid_utf8 (l6_Delimiter l) = true
  | TupleOmitPrefix l =>
      l7_ExtensionName l = ext0007 ∧ valid_utf8 (l7_Delimiter l) = true ∧ valid_utf8 (l7_Padding l) = true
  | Custom _ => False
  end.

Lemma ext_config_ok e : builtin_config e → cfg_ok (ext_config e).
Proof.
  unfold cfg_ok. destruct e as [n a|n|l|l|l|l|l]; cbn [builtin_config ext_config].
  - intros [[= -> ->]|[= -> ->]]; repeat constructor.
  - intros ->. repeat constructor.
  - intros [-> ?]. repeat first [constructor|done|by cbn; eexists|split].
  - intros [-> ?]. repeat first [constructor|done|by cbn; eexists|split].
  - intros [-> ?]. repeat first [constructor|done|by cbn; eexists|split].
  - intros (_ & ? & ?). repeat first [constructor|done|by cbn; eexists|split].
  - done.
Qed.

Lemma ext_Marshal_Unmarshal e : builtin_config e →
  ∃ b, ext_Marshal e = inl b ∧ Registry_Unmarshal DefaultExtensions b = inl e.
Proof.
  intros He. pose proof (ext_config_ok e He) as Hok. destruct (cfg_encode_ok _ Hok) as [b Hb].
  exists b. split; [done|]. unfold Registry_Unmarshal. rewrite (cfg_parse_encode _ _ Hok Hb).
  clear Hok Hb. destruct e as [n a|n|l|l|l|l|l]; cbn [builtin_config] in He.
  - by destruct He as [[= -> ->]|[= -> ->]]; vm_compute.
  - subst n. by vm_compute.
  - destruct l, He as [He _]. cbn in He. subst. by vm_compute.
  - destruct l, He as [He _]. cbn in He. subst. by vm_compute.
  - destruct l, He as [He _]. cbn in He. subst. by vm_compute.
  - destruct l, He as [He _]. cbn in He. subst. by vm_compute.
  - done.
Qed.

(** A configuration of an extension of the package is written as JSON and
    read back by the default registry as the same extension. *)
Theorem ext_Marshal_roundtrip e : builtin_config e →
  ∃ b, ext_Marshal e = inl b ∧ Registry_Unmarshal DefaultExtensions b = inl e.
Proof. apply ext_Marshal_Unmarshal. Qed.
End configurations.

(** ** Concrete instances *)

(** A hash of the right size: the first bytes of the padded input. *)
Definition sized_hashes : Hashes :=
  {| hash_sum := λ name s, string_take (Z.to_nat (hash_Size name)) (s +:+ repeat_char "0" 64) |}.

Lemma sized_hashes_ok : @HashSizes sized_hashes.
Proof.
  intros name size sum s Hg. pose proof (@getHash_sum sized_hashes _ _ _ Hg) as [-> Hb].
  unfold getHash in Hg. case_bool_decide; [|done]. injection Hg as <-. unfold len. cbn.
  rewrite string_length_take; [lia|]. rewrite string_length_app. cbn. lia.
Qed.

#[global] Instance cval_countable : Countable cval.
Proof.
  refine (inj_countable'
    (λ v, match v with
          | CStr s => inl s | CInt z => inr (inl z) | CBool b => inr (inr (inl b))
          | CNull => inr (inr (inr true)) | COther => inr (inr (inr false))
          end)
    (λ x, match x with
          | inl s => CStr s | inr (inl z) => CInt z | inr (inr (inl b)) => CBool b
          | inr (inr (inr b)) => if b : bool then CNull else COther
          end) _).
  by intros [].
Defined.

Fixpoint pos_text (p : positive) : string :=
  match p with xH => "" | xO p => String "0" (pos_text p) | xI p => String "1" (pos_text p) end.
Fixpoint text_pos (s : string) : positive :=
  match s with "" => xH | String c s => if ascii_dec c "0" then xO (text_pos s) else xI (text_pos s) end.
Lemma text_pos_text p : text_pos (pos_text p) = p.
Proof. induction p; cbn; congruence. Qed.

(** A text for each object: its number in binary. *)
Definition ref_config : ConfigJSON := {|
  cfg_parse := λ s, match decode (A:=cfg) (text_pos s) with Some o => inl o | None => inr (ErrNew "syntax") end;
  cfg_encode := λ o, inl (pos_text (encode (A:=cfg) o));
  docs_ReadFile := λ _, inr (ErrVar fs_ErrNotExist)
|}.

Lemma ref_config_laws : @ConfigLaws ref_config.
Proof.
  split; cbn; [eauto|]. intros o b _ [= <-]. by rewrite text_pos_text, decode_encode.
Qed.

Definition ex_0003 : LayoutHashIDTuple := mkHashIDTuple ext0003 "sha256" 3 3.

Lemma HashIDTuple_injective_witness :
  let id1 := repeat_char "a" 101 in let id2 := repeat_char "a" 102 in
  @l3_Resolve sized_hashes ex_0003 id1 = @l3_Resolve sized_hashes ex_0003 id2
  ∧ (id1 = id2 ∨ @hash_sum sized_hashes "sha256" id1 = @hash_sum sized_hashes "sha256" id2).
Proof.
  split; [by vm_compute|].
  apply (@HashIDTuple_injective sized_hashes ex_0003 _ _
    ("616/161/616/" +:+ repeat_char "a" 100 +:+ "-" +:+ hex_encode (repeat_char "a" 32))); by vm_compute.
Defined.

Lemma HashTuple_Resolve_spec_witness :
  let hID := hex_encode (@hash_sum sized_hashes "md5" "id") in
  ∃ ts e, @l4_Resolve sized_hashes (mkHashTuple ext0004 "md5" 8 4 true) "id" = Ok (join_with "/" (ts ++ [e]))
    ∧ Z.of_nat (length ts) = 4 ∧ Forall (λ t, len t = 8) ts
    ∧ concat_strings (ts ++ [e]) = hID ∧ ValidPath (join_with "/" (ts ++ [e])) = false.
Proof.
  apply (@HashTuple_Resolve_spec sized_hashes (mkHashTuple ext0004 "md5" 8 4 true) "id" 16
    (@hash_sum sized_hashes "md5")); [apply sized_hashes_ok|done..|].
  cbn. lia.
Defined.

Lemma Resolve_negative_panics_witness :
  @l3_Resolve sized_hashes (mkHashIDTuple ext0003 "sha256" 3 (-1)) "id" = Panic.
Proof. apply (@Resolve_negative_panics sized_hashes); [by vm_compute|cbn; lia]. Defined.

Lemma ext_Marshal_roundtrip_witness :
  let e := TupleOmitPrefix (mkTupleOmitPrefix ext0007 "edu/" 3 3 padRight false) in
  ∃ b, @ext_Marshal ref_config e = inl b
    ∧ @Registry_Unmarshal ref_env ref_config (@DefaultExtensions sized_hashes) b = inl e.
Proof.
  apply (@ext_Marshal_roundtrip ref_env sized_hashes ref_config ref_config_laws).
  split; [done|]. split; vm_compute; reflexivity.
Defined.
