(* ===== verification/Codes.v ===== *)
(** * Validation codes ([src/validation/code/codes_gen.go])

    The codes of the specification, by the version of the specification that
    defines them: [None] is the nil pointer of a version without the code. *)
From S2P Require Import Prelude GoStd.

Definition dquote : string := String "034" "".

(** [src/validation/code/codes_gen.go:7-27] E001 *)
Definition E001 (spec : string) : option ValidationCode :=
  if bool_decide (spec = "1.0") then Some {|
    vc_Spec := spec;
    vc_Code := "E001";
    vc_Description := "The OCFL Object Root must not contain files or directories other than those specified in the following sections.";
    vc_URL := "https://ocfl.io/1.0/spec/#E001"
  |}
  else if bool_decide (spec = "1.1") then Some {|
    vc_Spec := spec;
    vc_Code := "E001";
    vc_Description := "The OCFL Object Root must not contain files or directories other than those specified in the following sections.";
    vc_URL := "https://ocfl.io/1.1/spec/#E001"
  |}
  else None.

(** [src/validation/code/codes_gen.go:29-49] E002 *)
Definition E002 (spec : string) : option ValidationCode :=
  if bool_decide (spec = "1.0") then Some {|
    vc_Spec := spec;
    vc_Code := "E002";
    vc_Description := "The version declaration must be formatted according to the NAMASTE specification.";
    vc_URL := "https://ocfl.io/1.0/spec/#E002"
  |}
  else if bool_decide (spec = "1.1") then Some {|
    vc_Spec := spec;
    vc_Code := "E002";
    vc_Description := "The version declaration must be formatted according to the NAMASTE specification.";
    vc_URL := "https://ocfl.io/1.1/spec/#E002"
  |}
  else None.

(** [src/validation/code/codes_gen.go:51-71] E003 *)
Definition E003 (spec : string) : option ValidationCode :=
  if bool_decide (spec = "1.0") then Some {|
    vc_Spec := spec;
    vc_Code := "E003";
    vc_Description := "[The version declaration] must be a file in the base directory of the OCFL Object Root giving the OCFL version in the filename.";
    vc_URL := "https://ocfl.io/1.0/spec/#E003"
  |}
  else if bool_decide (spec = "1.1") then Some {|
    vc_Spec := spec;
    vc_Code := "E003";
    vc_Description := "There must be exactly one version declaration file in the base directory of the OCFL Object Root giving the OCFL version in the filename.";
    vc_URL := "https://ocfl.io/1.1/spec/#E003"
  |}
  else None.

(** [src/validation/code/codes_gen.go:73-93] E004 *)
Definition E004 (spec : string) : option ValidationCode :=
  if bool_decide (spec = "1.0") then Some {|
    vc_Spec := spec;
    vc_Code := "E004";
    vc_Description := "The [version declaration] filename MUST conform to the pattern T=dvalue, where T must be 0, and dvalue must be ocfl_object_, followed by the OCFL specification ocfl.Number.";
    vc_URL := "https://ocfl.io/1.0/spec/#E004"
  |}
  else if bool_decide (spec = "1.1") then Some {|
    vc_Spec := spec;
    vc_Code := "E004";
    vc_Description := "The [version declaration] filename MUST conform to the pattern T=dvalue, where T must be 0, and dvalue must be ocfl_object_, followed by the OCFL specification version number.";
    vc_URL := "https://ocfl.io/1.1/spec/#E004"
  |}
  else None.

(** [src/validation/code/codes_gen.go:95-115] E005 *)
Definition E005 (spec : string) : option ValidationCode :=
  if bool_decide (spec = "1.0") then Some {|
    vc_Spec := spec;
    vc_Code := "E005";
    vc_Description := "The [version declaration] filename must conform to the pattern T=dvalue, where T MUST be 0, and dvalue must be ocfl_object_, followed by the OCFL specification ocfl.Number.";
    vc_URL := "https://ocfl.io/1.0/spec/#E005"
  |}
  else if bool_decide (spec = "1.1") then Some {|
    vc_Spec := spec;
    vc_Code := "E005";
    vc_Description := "The [version declaration] filename must conform to the pattern T=dvalue, where T MUST be 0, and dvalue must be ocfl_object_, followed by the OCFL specification version number.";
    vc_URL := "https://ocfl.io/1.1/spec/#E005"
  |}
  else None.

(** [src/validation/code/codes_gen.go:117-137] E006 *)
Definition E006 (spec : string) : option ValidationCode :=
  if bool_decide (spec = "1.0") then Some {|
    vc_Spec := spec;
    vc_Code := "E006";
    vc_Description := "The [version declaration] filename must conform to the pattern T=dvalue, where T must be 0, and dvalue MUST be ocfl_object_, followed by the OCFL specification ocfl.Number.";
    vc_URL := "https://ocfl.io/1.0/spec/#E006"
  |}
  else if bool_decide (spec = "1.1") then Some {|
    vc_Spec := spec;
    vc_Code := "E006";
    vc_Description := "The [version declaration] filename must conform to the pattern T=dvalue, where T must be 0, and dvalue MUST be ocfl_object_, followed by the OCFL specification version number.";
    vc_URL := "https://ocfl.io/1.1/spec/#E006"
  |}
  else None.

(** [src/validation/code/codes_gen.go:139-159] E007 *)
Definition E007 (spec : string) : option ValidationCode :=
  if bool_decide (spec = "1.0") then Some {|
    vc_Spec := spec;
    vc_Code := "E007";
    vc_Description := ("The text contents of the [version declaration] file must be the same as dvalue, followed by a newline (" +:+ newline +:+ ").");
    vc_URL := "https://ocfl.io/1.0/spec/#E007"
  |}
  else if bool_decide (spec = "1.1") then Some {|
    vc_Spec := spec;
    vc_Code := "E007";
    vc_Description := ("The text contents of the [version declaration] file must be the same as dvalue, followed by a newline (" +:+ newline +:+ ").");
    vc_URL := "https://ocfl.io/1.1/spec/#E007"
  |}
  else None.

(** [src/validation/code/codes_gen.go:161-181] E008 *)
Definition E008 (spec : string) : option ValidationCode :=
  if bool_decide (spec = "1.0") then Some {|
    vc_Spec := spec;
    vc_Code := "E008";
    vc_Description := "OCFL Object content must be stored as a sequence of one or more versions.";
    vc_URL := "https://ocfl.io/1.0/spec/#E008"
  |}
  else if bool_decide (spec = "1.1") then Some {|
    vc_Spec := spec;
    vc_Code := "E008";
    vc_Description := "OCFL Object content must be stored as a sequence of one or more versions.";
    vc_URL := "https://ocfl.io/1.1/spec/#E008"
  |}
  else None.

(** [src/validation/code/codes_gen.go:183-203] E009 *)
Definition E009 (spec : string) : option ValidationCode :=
  if bool_decide (spec = "1.0") then Some {|
    vc_Spec := spec;
    vc_Code := "E009";
    vc_Description := "The ocfl.Number sequence MUST start at 1 and must be continuous without missing integers.";
    vc_URL := "https://ocfl.io/1.0/spec/#E009"
  |}
  else if bool_decide (spec = "1.1") then Some {|
    vc_Spec := spec;
    vc_Code := "E009";
    vc_Description := "The version number sequence MUST start at 1 and must be continuous without missing integers.";
    vc_URL := "https://ocfl.io/1.1/spec/#E009"
  |}
  else None.

(** [src/validation/code/codes_gen.go:205-225] E010 *)
Definition E010 (spec : string) : option ValidationCode :=
  if bool_decide (spec = "1.0") then Some {|
    vc_Spec := spec;
    vc_Code := "E010";
    vc_Description := "The ocfl.Number sequence must start at 1 and MUST be continuous without missing integers.";
    vc_URL := "https://ocfl.io/1.0/spec/#E010"
  |}
  else if bool_decide (spec = "1.1") then Some {|
    vc_Spec := spec;
    vc_Code := "E010";
    vc_Description := "The version number sequence must start at 1 and MUST be continuous without missing integers.";
    vc_URL := "https://ocfl.io/1.1/spec/#E010"
  |}
  else None.

(** [src/validation/code/codes_gen.go:227-247] E011 *)
Definition E011 (spec : string) : option ValidationCode :=
  if bool_decide (spec = "1.0") then Some {|
    vc_Spec := spec;
    vc_Code := "E011";
    vc_Description := "If zero-padded version directory numbers are used then they must start with the prefix v and then a zero.";
    vc_URL := "https://ocfl.io/1.0/spec/#E011"
  |}
  else if bool_decide (spec = "1.1") then Some {|
    vc_Spec := spec;
    vc_Code := "E011";
    vc_Description := "If zero-padded version directory numbers are used then they must start with the prefix v and then a zero.";
    vc_URL := "https://ocfl.io/1.1/spec/#E011"
  |}
  else None.

(** [src/validation/code/codes_gen.go:249-269] E012 *)
Definition E012 (spec : string) : option ValidationCode :=
  if bool_decide (spec = "1.0") then Some {|
    vc_Spec := spec;
    vc_Code := "E012";
    vc_Description := "All version directories of an object must use the same naming convention: either a non-padded version directory number, or a zero-padded version directory number of consistent length.";
    vc_URL := "https://ocfl.io/1.0/spec/#E012"
  |}
  else if bool_decide (spec = "1.1") then Some {|
    vc_Spec := spec;
    vc_Code := "E012";
    vc_Description := "All version directories of an object must use the same naming convention: either a non-padded version directory number, or a zero-padded version directory number of consistent length.";
    vc_URL := "https://ocfl.io/1.1/spec/#E012"
  |}
  else None.

(** [src/validation/code/codes_gen.go:271-291] E013 *)
Definition E013 (spec : string) : option ValidationCode :=
  if bool_decide (spec = "1.0") then Some {|
    vc_Spec := spec;
    vc_Code := "E013";
    vc_Description := "Operations that add a new version to an object must follow the version directory naming convention established by earlier versions.";
    vc_URL := "https://ocfl.io/1.0/spec/#E013"
  |}
  else if bool_decide (spec = "1.1") then Some {|
    vc_Spec := spec;
    vc_Code := "E013";
    vc_Description := "Operations that add a new version to an object must follow the version directory naming convention established by earlier versions.";
    vc_URL := "https://ocfl.io/1.1/spec/#E013"
  |}
  else None.

(** [src/validation/code/codes_gen.go:293-313] E014 *)
Definition E014 (spec : string) : option ValidationCode :=
  if bool_decide (spec = "1.0") then Some {|
    vc_Spec := spec;
    vc_Code := "E014";
    vc_Description := "In all cases, references to files inside version directories from inventory files must use the actual version directory names.";
    vc_URL := "https://ocfl.io/1.0/spec/#E014"
  |}
  else if bool_decide (spec = "1.1") then Some {|
    vc_Spec := spec;
    vc_Code := "E014";
    vc_Description := "In all cases, references to files inside version directories from inventory files must use the actual version directory names.";
    vc_URL := "https://ocfl.io/1.1/spec/#E014"
  |}
  else None.

(** [src/validation/code/codes_gen.go:315-335] E015 *)
Definition E015 (spec : string) : option ValidationCode :=
  if bool_decide (spec = "1.0") then Some {|
    vc_Spec := spec;
    vc_Code := "E015";
    vc_Description := "There must be no other files as children of a version directory, other than an inventory file and a inventory digest.";
    vc_URL := "https://ocfl.io/1.0/spec/#E015"
  |}
  else if bool_decide (spec = "1.1") then Some {|
    vc_Spec := spec;
    vc_Code := "E015";
    vc_Description := "There must be no other files as children of a version directory, other than an inventory file and a inventory digest.";
    vc_URL := "https://ocfl.io/1.1/spec/#E015"
  |}
  else None.

(** [src/validation/code/codes_gen.go:337-357] E016 *)
Definition E016 (spec : string) : option ValidationCode :=
  if bool_decide (spec = "1.0") then Some {|
    vc_Spec := spec;
    vc_Code := "E016";
    vc_Description := "Version directories must contain a designated content sub-directory if the version contains files to be preserved, and should not contain this sub-directory otherwise.";
    vc_URL := "https://ocfl.io/1.0/spec/#E016"
  |}
  else if bool_decide (spec = "1.1") then Some {|
    vc_Spec := spec;
    vc_Code := "E016";
    vc_Description := "Version directories must contain a designated content sub-directory if the version contains files to be preserved, and should not contain this sub-directory otherwise.";
    vc_URL := "https://ocfl.io/1.1/spec/#E016"
  |}
  else None.

(** [src/validation/code/codes_gen.go:359-379] E017 *)
Definition E017 (spec : string) : option ValidationCode :=
  if bool_decide (spec = "1.0") then Some {|
    vc_Spec := spec;
    vc_Code := "E017";
    vc_Description := "The contentDirectory value MUST NOT contain the forward slash (/) path separator and must not be either one or two periods (. or ..).";
    vc_URL := "https://ocfl.io/1.0/spec/#E017"
  |}
  else if bool_decide (spec = "1.1") then Some {|
    vc_Spec := spec;
    vc_Code := "E017";
    vc_Description := "The contentDirectory value MUST NOT contain the forward slash (/) path separator and must not be either one or two periods (. or ..).";
    vc_URL := "https://ocfl.io/1.1/spec/#E017"
  |}
  else None.

(** [src/validation/code/codes_gen.go:381-401] E018 *)
Definition E018 (spec : string) : option ValidationCode :=
  if bool_decide (spec = "1.0") then Some {|
    vc_Spec := spec;
    vc_Code := "E018";
    vc_Description := "The contentDirectory value must not contain the forward slash (/) path separator and MUST NOT be either one or two periods (. or ..).";
    vc_URL := "https://ocfl.io/1.0/spec/#E018"
  |}
  else if bool_decide (spec = "1.1") then Some {|
    vc_Spec := spec;
    vc_Code := "E018";
    vc_Description := "The contentDirectory value must not contain the forward slash (/) path separator and MUST NOT be either one or two periods (. or ..).";
    vc_URL := "https://ocfl.io/1.1/spec/#E018"
  |}
  else None.

(** [src/validation/code/codes_gen.go:403-423] E019 *)
Definition E019 (spec : string) : option ValidationCode :=
  if bool_decide (spec = "1.0") then Some {|
    vc_Spec := spec;
    vc_Code := "E019";
    vc_Description := "If the key contentDirectory is set, it MUST be set in the first version of the object and must not change between versions of the same object.";
    vc_URL := "https://ocfl.io/1.0/spec/#E019"
  |}
  else if bool_decide (spec = "1.1") then Some {|
    vc_Spec := spec;
    vc_Code := "E019";
    vc_Description := "If the key contentDirectory is set, it MUST be set in the first version of the object and must not change between versions of the same object.";
    vc_URL := "https://ocfl.io/1.1/spec/#E019"
  |}
  else None.

(** [src/validation/code/codes_gen.go:425-445] E020 *)
Definition E020 (spec : string) : option ValidationCode :=
  if bool_decide (spec = "1.0") then Some {|
    vc_Spec := spec;
    vc_Code := "E020";
    vc_Description := "If the key contentDirectory is set, it must be set in the first version of the object and MUST NOT change between versions of the same object.";
    vc_URL := "https://ocfl.io/1.0/spec/#E020"
  |}
  else if bool_decide (spec = "1.1") then Some {|
    vc_Spec := spec;
    vc_Code := "E020";
    vc_Description := "If the key contentDirectory is set, it must be set in the first version of the object and MUST NOT change between versions of the same object.";
    vc_URL := "https://ocfl.io/1.1/spec/#E020"
  |}
  else None.

(** [src/validation/code/codes_gen.go:447-467] E021 *)
Definition E021 (spec : string) : option ValidationCode :=
  if bool_decide (spec = "1.0") then Some {|
    vc_Spec := spec;
    vc_Code := "E021";
    vc_Description := "If the key contentDirectory is not present in the inventory file then the name of the designated content sub-directory must be content.";
    vc_URL := "https://ocfl.io/1.0/spec/#E021"
  |}
  else if bool_decide (spec = "1.1") then Some {|
    vc_Spec := spec;
    vc_Code := "E021";
    vc_Description := "If the key contentDirectory is not present in the inventory file then the name of the designated content sub-directory must be content.";
    vc_URL := "https://ocfl.io/1.1/spec/#E021"
  |}
  else None.

(** [src/validation/code/codes_gen.go:469-489] E022 *)
Definition E022 (spec : string) : option ValidationCode :=
  if bool_decide (spec = "1.0") then Some {|
    vc_Spec := spec;
    vc_Code := "E022";
    vc_Description := "OCFL-compliant tools (including any validators) must ignore all directories in the object version directory except for the designated content directory.";
    vc_URL := "https://ocfl.io/1.0/spec/#E022"
  |}
  else if bool_decide (spec = "1.1") then Some {|
    vc_Spec := spec;
    vc_Code := "E022";
    vc_Description := "OCFL-compliant tools (including any validators) must ignore all directories in the object version directory except for the designated content directory.";
    vc_URL := "https://ocfl.io/1.1/spec/#E022"
  |}
  else None.

(** [src/validation/code/codes_gen.go:491-511] E023 *)
Definition E023 (spec : string) : option ValidationCode :=
  if bool_decide (spec = "1.0") then Some {|
    vc_Spec := spec;
    vc_Code := "E023";
    vc_Description := "Every file within a version's content directory must be referenced in the manifest section of the inventory.";
    vc_URL := "https://ocfl.io/1.0/spec/#E023"
  |}
  else if bool_decide (spec = "1.1") then Some {|
    vc_Spec := spec;
    vc_Code := "E023";
    vc_Description := "Every file within a version's content directory must be referenced in the manifest section of the inventory.";
    vc_URL := "https://ocfl.io/1.1/spec/#E023"
  |}
  else None.

(** [src/validation/code/codes_gen.go:513-533] E024 *)
Definition E024 (spec : string) : option ValidationCode :=
  if bool_decide (spec = "1.0") then Some {|
    vc_Spec := spec;
    vc_Code := "E024";
    vc_Description := "There must not be empty directories within a version's content directory.";
    vc_URL := "https://ocfl.io/1.0/spec/#E024"
  |}
  else if bool_decide (spec = "1.1") then Some {|
    vc_Spec := spec;
    vc_Code := "E024";
    vc_Description := "There must not be empty directories within a version's content directory.";
    vc_URL := "https://ocfl.io/1.1/spec/#E024"
  |}
  else None.

(** [src/validation/code/codes_gen.go:535-555] E025 *)
Definition E025 (spec : string) : option ValidationCode :=
  if bool_decide (spec = "1.0") then Some {|
    vc_Spec := spec;
    vc_Code := "E025";
    vc_Description := "For content-addressing, OCFL Objects must use either sha512 or sha256, and should use sha512.";
    vc_URL := "https://ocfl.io/1.0/spec/#E025"
  |}
  else if bool_decide (spec = "1.1") then Some {|
    vc_Spec := spec;
    vc_Code := "E025";
    vc_Description := "For content-addressing, OCFL Objects must use either sha512 or sha256, and should use sha512.";
    vc_URL := "https://ocfl.io/1.1/spec/#E025"
  |}
  else None.

(** [src/validation/code/codes_gen.go:557-577] E026 *)
Definition E026 (spec : string) : option ValidationCode :=
  if bool_decide (spec = "1.0") then Some {|
    vc_Spec := spec;
    vc_Code := "E026";
    vc_Description := "For storage of additional fixity values, or to support legacy content migration, implementers must choose from the following controlled vocabulary of digest algorithms, or from a list of additional algorithms given in the [Digest-Algorithms-Extension].";
    vc_URL := "https://ocfl.io/1.0/spec/#E026"
  |}
  else if bool_decide (spec = "1.1") then Some {|
    vc_Spec := spec;
    vc_Code := "E026";
    vc_Description := "For storage of additional fixity values, or to support legacy content migration, implementers must choose from the following controlled vocabulary of digest algorithms, or from a list of additional algorithms given in the [Digest-Algorithms-Extension].";
    vc_URL := "https://ocfl.io/1.1/spec/#E026"
  |}
  else None.

(** [src/validation/code/codes_gen.go:579-599] E027 *)
Definition E027 (spec : string) : option ValidationCode :=
  if bool_decide (spec = "1.0") then Some {|
    vc_Spec := spec;
    vc_Code := "E027";
    vc_Description := "OCFL clients must support all fixity algorithms given in the table below, and may support additional algorithms from the extensions.";
    vc_URL := "https://ocfl.io/1.0/spec/#E027"
  |}
  else if bool_decide (spec = "1.1") then Some {|
    vc_Spec := spec;
    vc_Code := "E027";
    vc_Description := "OCFL clients must support all fixity algorithms given in the table below, and may support additional algorithms from the extensions.";
    vc_URL := "https://ocfl.io/1.1/spec/#E027"
  |}
  else None.

(** [src/validation/code/codes_gen.go:601-621] E028 *)
Definition E028 (spec : string) : option ValidationCode :=
  if bool_decide (spec = "1.0") then Some {|
    vc_Spec := spec;
    vc_Code := "E028";
    vc_Description := "Optional fixity algorithms that are not supported by a client must be ignored by that client.";
    vc_URL := "https://ocfl.io/1.0/spec/#E028"
  |}
  else if bool_decide (spec = "1.1") then Some {|
    vc_Spec := spec;
    vc_Code := "E028";
    vc_Description := "Optional fixity algorithms that are not supported by a client must be ignored by that client.";
    vc_URL := "https://ocfl.io/1.1/spec/#E028"
  |}
  else None.

(** [src/validation/code/codes_gen.go:623-643] E029 *)
Definition E029 (spec : string) : option ValidationCode :=
  if bool_decide (spec = "1.0") then Some {|
    vc_Spec := spec;
    vc_Code := "E029";
    vc_Description := "SHA-1 algorithm defined by [FIPS-180-4] and must be encoded using hex (base16) encoding [RFC4648].";
    vc_URL := "https://ocfl.io/1.0/spec/#E029"
  |}
  else if bool_decide (spec = "1.1") then Some {|
    vc_Spec := spec;
    vc_Code := "E029";
    vc_Description := "SHA-1 algorithm defined by [FIPS-180-4] and must be encoded using hex (base16) encoding [RFC4648].";
    vc_URL := "https://ocfl.io/1.1/spec/#E029"
  |}
  else None.

(** [src/validation/code/codes_gen.go:645-665] E030 *)
Definition E030 (spec : string) : option ValidationCode :=
  if bool_decide (spec = "1.0") then Some {|
    vc_Spec := spec;
    vc_Code := "E030";
    vc_Description := "SHA-256 algorithm defined by [FIPS-180-4] and must be encoded using hex (base16) encoding [RFC4648].";
    vc_URL := "https://ocfl.io/1.0/spec/#E030"
  |}
  else if bool_decide (spec = "1.1") then Some {|
    vc_Spec := spec;
    vc_Code := "E030";
    vc_Description := "SHA-256 algorithm defined by [FIPS-180-4] and must be encoded using hex (base16) encoding [RFC4648].";
    vc_URL := "https://ocfl.io/1.1/spec/#E030"
  |}
  else None.

(** [src/validation/code/codes_gen.go:667-687] E031 *)
Definition E031 (spec : string) : option ValidationCode :=
  if bool_decide (spec = "1.0") then Some {|
    vc_Spec := spec;
    vc_Code := "E031";
    vc_Description := "SHA-512 algorithm defined by [FIPS-180-4] and must be encoded using hex (base16) encoding [RFC4648].";
    vc_URL := "https://ocfl.io/1.0/spec/#E031"
  |}
  else if bool_decide (spec = "1.1") then Some {|
    vc_Spec := spec;
    vc_Code := "E031";
    vc_Description := "SHA-512 algorithm defined by [FIPS-180-4] and must be encoded using hex (base16) encoding [RFC4648].";
    vc_URL := "https://ocfl.io/1.1/spec/#E031"
  |}
  else None.

(** [src/validation/code/codes_gen.go:689-709] E032 *)
Definition E032 (spec : string) : option ValidationCode :=
  if bool_decide (spec = "1.0") then Some {|
    vc_Spec := spec;
    vc_Code := "E032";
    vc_Description := "[blake2b-512] must be encoded using hex (base16) encoding [RFC4648].";
    vc_URL := "https://ocfl.io/1.0/spec/#E032"
  |}
  else if bool_decide (spec = "1.1") then Some {|
    vc_Spec := spec;
    vc_Code := "E032";
    vc_Description := "[blake2b-512] must be encoded using hex (base16) encoding [RFC4648].";
    vc_URL := "https://ocfl.io/1.1/spec/#E032"
  |}
  else None.

(** [src/validation/code/codes_gen.go:711-731] E033 *)
Definition E033 (spec : string) : option ValidationCode :=
  if bool_decide (spec = "1.0") then Some {|
    vc_Spec := spec;
    vc_Code := "E033";
    vc_Description := "An OCFL Object Inventory MUST follow the [JSON] structure described in this section and must be named inventory.json.";
    vc_URL := "https://ocfl.io/1.0/spec/#E033"
  |}
  else if bool_decide (spec = "1.1") then Some {|
    vc_Spec := spec;
    vc_Code := "E033";
    vc_Description := "An OCFL Object Inventory MUST follow the [JSON] structure described in this section and must be named inventory.json.";
    vc_URL := "https://ocfl.io/1.1/spec/#E033"
  |}
  else None.

(** [src/validation/code/codes_gen.go:733-753] E034 *)
Definition E034 (spec : string) : option ValidationCode :=
  if bool_decide (spec = "1.0") then Some {|
    vc_Spec := spec;
    vc_Code := "E034";
    vc_Description := "An OCFL Object Inventory must follow the [JSON] structure described in this section and MUST be named inventory.json.";
    vc_URL := "https://ocfl.io/1.0/spec/#E034"
  |}
  else if bool_decide (spec = "1.1") then Some {|
    vc_Spec := spec;
    vc_Code := "E034";
    vc_Description := "An OCFL Object Inventory must follow the [JSON] structure described in this section and MUST be named inventory.json.";
    vc_URL := "https://ocfl.io/1.1/spec/#E034"
  |}
  else None.

(** [src/validation/code/codes_gen.go:755-775] E035 *)
Definition E035 (spec : string) : option ValidationCode :=
  if bool_decide (spec = "1.0") then Some {|
    vc_Spec := spec;
    vc_Code := "E035";
    vc_Description := "The forward slash (/) path separator must be used in content paths in the manifest and fixity blocks within the inventory.";
    vc_URL := "https://ocfl.io/1.0/spec/#E035"
  |}
  else if bool_decide (spec = "1.1") then Some {|
    vc_Spec := spec;
    vc_Code := "E035";
    vc_Description := "The forward slash (/) path separator must be used in content paths in the manifest and fixity blocks within the inventory.";
    vc_URL := "https://ocfl.io/1.1/spec/#E035"
  |}
  else None.

(** [src/validation/code/codes_gen.go:777-797] E036 *)
Definition E036 (spec : string) : option ValidationCode :=
  if bool_decide (spec = "1.0") then Some {|
    vc_Spec := spec;
    vc_Code := "E036";
    vc_Description := "An OCFL Object Inventory must include the following keys: [id, type, digestAlgorithm, head]";
    vc_URL := "https://ocfl.io/1.0/spec/#E036"
  |}
  else if bool_decide (spec = "1.1") then Some {|
    vc_Spec := spec;
    vc_Code := "E036";
    vc_Description := "An OCFL Object Inventory must include the following keys: [id, type, digestAlgorithm, head]";
    vc_URL := "https://ocfl.io/1.1/spec/#E036"
  |}
  else None.

(** [src/validation/code/codes_gen.go:799-819] E037 *)
Definition E037 (spec : string) : option ValidationCode :=
  if bool_decide (spec = "1.0") then Some {|
    vc_Spec := spec;
    vc_Code := "E037";
    vc_Description := "[id] must be unique in the local context, and should be a URI [RFC3986].";
    vc_URL := "https://ocfl.io/1.0/spec/#E037"
  |}
  else if bool_decide (spec = "1.1") then Some {|
    vc_Spec := spec;
    vc_Code := "E037";
    vc_Description := "[id] must be unique in the local context, and should be a URI [RFC3986].";
    vc_URL := "https://ocfl.io/1.1/spec/#E037"
  |}
  else None.

(** [src/validation/code/codes_gen.go:821-841] E038 *)
Definition E038 (spec : string) : option ValidationCode :=
  if bool_decide (spec = "1.0") then Some {|
    vc_Spec := spec;
    vc_Code := "E038";
    vc_Description := "In the object root inventory [the type value] must be the URI of the inventory section of the specification version matching the object conformance declaration.";
    vc_URL := "https://ocfl.io/1.0/spec/#E038"
  |}
  else if bool_decide (spec = "1.1") then Some {|
    vc_Spec := spec;
    vc_Code := "E038";
    vc_Description := "In the object root inventory [the type value] must be the URI of the inventory section of the specification version matching the object conformance declaration.";
    vc_URL := "https://ocfl.io/1.1/spec/#E038"
  |}
  else None.

(** [src/validation/code/codes_gen.go:843-863] E039 *)
Definition E039 (spec : string) : option ValidationCode :=
  if bool_decide (spec = "1.0") then Some {|
    vc_Spec := spec;
    vc_Code := "E039";
    vc_Description := "[digestAlgorithm] must be the algorithm used in the manifest and state blocks.";
    vc_URL := "https://ocfl.io/1.0/spec/#E039"
  |}
  else if bool_decide (spec = "1.1") then Some {|
    vc_Spec := spec;
    vc_Code := "E039";
    vc_Description := "[digestAlgorithm] must be the algorithm used in the manifest and state blocks.";
    vc_URL := "https://ocfl.io/1.1/spec/#E039"
  |}
  else None.

(** [src/validation/code/codes_gen.go:865-885] E040 *)
Definition E040 (spec : string) : option ValidationCode :=
  if bool_decide (spec = "1.0") then Some {|
    vc_Spec := spec;
    vc_Code := "E040";
    vc_Description := "[head] must be the version directory name with the highest ocfl.Number.";
    vc_URL := "https://ocfl.io/1.0/spec/#E040"
  |}
  else if bool_decide (spec = "1.1") then Some {|
    vc_Spec := spec;
    vc_Code := "E040";
    vc_Description := "[head] must be the version directory name with the highest version number.";
    vc_URL := "https://ocfl.io/1.1/spec/#E040"
  |}
  else None.

(** [src/validation/code/codes_gen.go:887-907] E041 *)
Definition E041 (spec : string) : option ValidationCode :=
  if bool_decide (spec = "1.0") then Some {|
    vc_Spec := spec;
    vc_Code := "E041";
    vc_Description := "In addition to these keys, there must be two other blocks present, manifest and versions, which are discussed in the next two sections.";
    vc_URL := "https://ocfl.io/1.0/spec/#E041"
  |}
  else if bool_decide (spec = "1.1") then Some {|
    vc_Spec := spec;
    vc_Code := "E041";
    vc_Description := "In addition to these keys, there must be two other blocks present, manifest and versions, which are discussed in the next two sections.";
    vc_URL := "https://ocfl.io/1.1/spec/#E041"
  |}
  else None.

(** [src/validation/code/codes_gen.go:909-929] E042 *)
Definition E042 (spec : string) : option ValidationCode :=
  if bool_decide (spec = "1.0") then Some {|
    vc_Spec := spec;
    vc_Code := "E042";
    vc_Description := "Content paths within a manifest block must be relative to the OCFL Object Root.";
    vc_URL := "https://ocfl.io/1.0/spec/#E042"
  |}
  else if bool_decide (spec = "1.1") then Some {|
    vc_Spec := spec;
    vc_Code := "E042";
    vc_Description := "Content paths within a manifest block must be relative to the OCFL Object Root.";
    vc_URL := "https://ocfl.io/1.1/spec/#E042"
  |}
  else None.

(** [src/validation/code/codes_gen.go:931-951] E043 *)
Definition E043 (spec : string) : option ValidationCode :=
  if bool_decide (spec = "1.0") then Some {|
    vc_Spec := spec;
    vc_Code := "E043";
    vc_Description := "An OCFL Object Inventory must include a block for storing versions.";
    vc_URL := "https://ocfl.io/1.0/spec/#E043"
  |}
  else if bool_decide (spec = "1.1") then Some {|
    vc_Spec := spec;
    vc_Code := "E043";
    vc_Description := "An OCFL Object Inventory must include a block for storing versions.";
    vc_URL := "https://ocfl.io/1.1/spec/#E043"
  |}
  else None.

(** [src/validation/code/codes_gen.go:953-973] E044 *)
Definition E044 (spec : string) : option ValidationCode :=
  if bool_decide (spec = "1.0") then Some {|
    vc_Spec := spec;
    vc_Code := "E044";
    vc_Description := "This block MUST have the key of versions within the inventory, and it must be a JSON object.";
    vc_URL := "https://ocfl.io/1.0/spec/#E044"
  |}
  else if bool_decide (spec = "1.1") then Some {|
    vc_Spec := spec;
    vc_Code := "E044";
    vc_Description := "This block MUST have the key of versions within the inventory, and it must be a JSON object.";
    vc_URL := "https://ocfl.io/1.1/spec/#E044"
  |}
  else None.

(** [src/validation/code/codes_gen.go:975-995] E045 *)
Definition E045 (spec : string) : option ValidationCode :=
  if bool_decide (spec = "1.0") then Some {|
    vc_Spec := spec;
    vc_Code := "E045";
    vc_Description := "This block must have the key of versions within the inventory, and it MUST be a JSON object.";
    vc_URL := "https://ocfl.io/1.0/spec/#E045"
  |}
  else if bool_decide (spec = "1.1") then Some {|
    vc_Spec := spec;
    vc_Code := "E045";
    vc_Description := "This block must have the key of versions within the inventory, and it MUST be a JSON object.";
    vc_URL := "https://ocfl.io/1.1/spec/#E045"
  |}
  else None.

(** [src/validation/code/codes_gen.go:997-1017] E046 *)
Definition E046 (spec : string) : option ValidationCode :=
  if bool_decide (spec = "1.0") then Some {|
    vc_Spec := spec;
    vc_Code := "E046";
    vc_Description := "The keys of [the versions object] must correspond to the names of the version directories used.";
    vc_URL := "https://ocfl.io/1.0/spec/#E046"
  |}
  else if bool_decide (spec = "1.1") then Some {|
    vc_Spec := spec;
    vc_Code := "E046";
    vc_Description := "The keys of [the versions object] must correspond to the names of the version directories used.";
    vc_URL := "https://ocfl.io/1.1/spec/#E046"
  |}
  else None.

(** [src/validation/code/codes_gen.go:1019-1039] E047 *)
Definition E047 (spec : string) : option ValidationCode :=
  if bool_decide (spec = "1.0") then Some {|
    vc_Spec := spec;
    vc_Code := "E047";
    vc_Description := "Each value [of the versions object] must be another JSON object that characterizes the version, as described in the 3.5.3.1 Version section.";
    vc_URL := "https://ocfl.io/1.0/spec/#E047"
  |}
  else if bool_decide (spec = "1.1") then Some {|
    vc_Spec := spec;
    vc_Code := "E047";
    vc_Description := "Each value [of the versions object] must be another JSON object that characterizes the version, as described in the 3.5.3.1 Version section.";
    vc_URL := "https://ocfl.io/1.1/spec/#E047"
  |}
  else None.

(** [src/validation/code/codes_gen.go:1041-1061] E048 *)
Definition E048 (spec : string) : option ValidationCode :=
  if bool_decide (spec = "1.0") then Some {|
    vc_Spec := spec;
    vc_Code := "E048";
    vc_Description := "A JSON object to describe one OCFL Version, which must include the following keys: [created, state]";
    vc_URL := "https://ocfl.io/1.0/spec/#E048"
  |}
  else if bool_decide (spec = "1.1") then Some {|
    vc_Spec := spec;
    vc_Code := "E048";
    vc_Description := "A JSON object to describe one OCFL Version, which must include the following keys: [created, state]";
    vc_URL := "https://ocfl.io/1.1/spec/#E048"
  |}
  else None.

(** [src/validation/code/codes_gen.go:1063-1083] E049 *)
Definition E049 (spec : string) : option ValidationCode :=
  if bool_decide (spec = "1.0") then Some {|
    vc_Spec := spec;
    vc_Code := "E049";
    vc_Description := ("[the value of the " +:+ dquote +:+ "created" +:+ dquote +:+ " key] must be expressed in the Internet Date/Time Format defined by [RFC3339].");
    vc_URL := "https://ocfl.io/1.0/spec/#E049"
  |}
  else if bool_decide (spec = "1.1") then Some {|
    vc_Spec := spec;
    vc_Code := "E049";
    vc_Description := "[the value of the “created” key] must be expressed in the Internet Date/Time Format defined by [RFC3339].";
    vc_URL := "https://ocfl.io/1.1/spec/#E049"
  |}
  else None.

(** [src/validation/code/codes_gen.go:1085-1105] E050 *)
Definition E050 (spec : string) : option ValidationCode :=
  if bool_decide (spec = "1.0") then Some {|
    vc_Spec := spec;
    vc_Code := "E050";
    vc_Description := ("The keys of [the " +:+ dquote +:+ "state" +:+ dquote +:+ " JSON object] are digest values, each of which must correspond to an entry in the manifest of the inventory.");
    vc_URL := "https://ocfl.io/1.0/spec/#E050"
  |}
  else if bool_decide (spec = "1.1") then Some {|
    vc_Spec := spec;
    vc_Code := "E050";
    vc_Description := "The keys of [the “state” JSON object] are digest values, each of which must correspond to an entry in the manifest of the inventory.";
    vc_URL := "https://ocfl.io/1.1/spec/#E050"
  |}
  else None.

(** [src/validation/code/codes_gen.go:1107-1127] E051 *)
Definition E051 (spec : string) : option ValidationCode :=
  if bool_decide (spec = "1.0") then Some {|
    vc_Spec := spec;
    vc_Code := "E051";
    vc_Description := ("The logical path [value of a " +:+ dquote +:+ "state" +:+ dquote +:+ " digest key] must be interpreted as a set of one or more path elements joined by a / path separator.");
    vc_URL := "https://ocfl.io/1.0/spec/#E051"
  |}
  else if bool_decide (spec = "1.1") then Some {|
    vc_Spec := spec;
    vc_Code := "E051";
    vc_Description := "The logical path [value of a “state” digest key] must be interpreted as a set of one or more path elements joined by a / path separator.";
    vc_URL := "https://ocfl.io/1.1/spec/#E051"
  |}
  else None.

(** [src/validation/code/codes_gen.go:1129-1149] E052 *)
Definition E052 (spec : string) : option ValidationCode :=
  if bool_decide (spec = "1.0") then Some {|
    vc_Spec := spec;
    vc_Code := "E052";
    vc_Description := "[logical] Path elements must not be ., .., or empty (//).";
    vc_URL := "https://ocfl.io/1.0/spec/#E052"
  |}
  else if bool_decide (spec = "1.1") then Some {|
    vc_Spec := spec;
    vc_Code := "E052";
    vc_Description := "[logical] Path elements must not be ., .., or empty (//).";
    vc_URL := "https://ocfl.io/1.1/spec/#E052"
  |}
  else None.

(** [src/validation/code/codes_gen.go:1151-1171] E053 *)
Definition E053 (spec : string) : option ValidationCode :=
  if bool_decide (spec = "1.0") then Some {|
    vc_Spec := spec;
    vc_Code := "E053";
    vc_Description := "Additionally, a logical path must not begin or end with a forward slash (/).";
    vc_URL := "https://ocfl.io/1.0/spec/#E053"
  |}
  else if bool_decide (spec = "1.1") then Some {|
    vc_Spec := spec;
    vc_Code := "E053";
    vc_Description := "Additionally, a logical path must not begin or end with a forward slash (/).";
    vc_URL := "https://ocfl.io/1.1/spec/#E053"
  |}
  else None.

(** [src/validation/code/codes_gen.go:1173-1193] E054 *)
Definition E054 (spec : string) : option ValidationCode :=
  if bool_decide (spec = "1.0") then Some {|
    vc_Spec := spec;
    vc_Code := "E054";
    vc_Description := ("The value of the user key must contain a user name key, " +:+ dquote +:+ "name" +:+ dquote +:+ " and should contain an address key, " +:+ dquote +:+ "address" +:+ dquote +:+ ".");
    vc_URL := "https://ocfl.io/1.0/spec/#E054"
  |}
  else if bool_decide (spec = "1.1") then Some {|
    vc_Spec := spec;
    vc_Code := "E054";
    vc_Description := "The value of the user key must contain a user name key, “name” and should contain an address key, “address”.";
    vc_URL := "https://ocfl.io/1.1/spec/#E054"
  |}
  else None.

(** [src/validation/code/codes_gen.go:1195-1215] E055 *)
Definition E055 (spec : string) : option ValidationCode :=
  if bool_decide (spec = "1.0") then Some {|
    vc_Spec := spec;
    vc_Code := "E055";
    vc_Description := "This block must have the key of fixity within the inventory.";
    vc_URL := "https://ocfl.io/1.0/spec/#E055"
  |}
  else if bool_decide (spec = "1.1") then Some {|
    vc_Spec := spec;
    vc_Code := "E055";
    vc_Description := "If present, [the fixity] block must have the key of fixity within the inventory.";
    vc_URL := "https://ocfl.io/1.1/spec/#E055"
  |}
  else None.

(** [src/validation/code/codes_gen.go:1217-1237] E056 *)
Definition E056 (spec : string) : option ValidationCode :=
  if bool_decide (spec = "1.0") then Some {|
    vc_Spec := spec;
    vc_Code := "E056";
    vc_Description := "The fixity block must contain keys corresponding to the controlled vocabulary given in the digest algorithms listed in the Digests section, or in a table given in an Extension.";
    vc_URL := "https://ocfl.io/1.0/spec/#E056"
  |}
  else if bool_decide (spec = "1.1") then Some {|
    vc_Spec := spec;
    vc_Code := "E056";
    vc_Description := "The fixity block must contain keys corresponding to the controlled vocabulary given in the digest algorithms listed in the Digests section, or in a table given in an Extension.";
    vc_URL := "https://ocfl.io/1.1/spec/#E056"
  |}
  else None.

(** [src/validation/code/codes_gen.go:1239-1259] E057 *)
Definition E057 (spec : string) : option ValidationCode :=
  if bool_decide (spec = "1.0") then Some {|
    vc_Spec := spec;
    vc_Code := "E057";
    vc_Description := "The value of the fixity block for a particular digest algorithm must follow the structure of the manifest block; that is, a key corresponding to the digest value, and an array of content paths that match that digest.";
    vc_URL := "https://ocfl.io/1.0/spec/#E057"
  |}
  else if bool_decide (spec = "1.1") then Some {|
    vc_Spec := spec;
    vc_Code := "E057";
    vc_Description := "The value of the fixity block for a particular digest algorithm must follow the structure of the manifest block; that is, a key corresponding to the digest value, and an array of content paths that match that digest.";
    vc_URL := "https://ocfl.io/1.1/spec/#E057"
  |}
  else None.

(** [src/validation/code/codes_gen.go:1261-1281] E058 *)
Definition E058 (spec : string) : option ValidationCode :=
  if bool_decide (spec = "1.0") then Some {|
    vc_Spec := spec;
    vc_Code := "E058";
    vc_Description := "Every occurrence of an inventory file must have an accompanying sidecar file stating its digest.";
    vc_URL := "https://ocfl.io/1.0/spec/#E058"
  |}
  else if bool_decide (spec = "1.1") then Some {|
    vc_Spec := spec;
    vc_Code := "E058";
    vc_Description := "Every occurrence of an inventory file must have an accompanying sidecar file stating its digest.";
    vc_URL := "https://ocfl.io/1.1/spec/#E058"
  |}
  else None.

(** [src/validation/code/codes_gen.go:1283-1303] E059 *)
Definition E059 (spec : string) : option ValidationCode :=
  if bool_decide (spec = "1.0") then Some {|
    vc_Spec := spec;
    vc_Code := "E059";
    vc_Description := "This value must match the value given for the digestAlgorithm key in the inventory.";
    vc_URL := "https://ocfl.io/1.0/spec/#E059"
  |}
  else if bool_decide (spec = "1.1") then Some {|
    vc_Spec := spec;
    vc_Code := "E059";
    vc_Description := "This value must match the value given for the digestAlgorithm key in the inventory.";
    vc_URL := "https://ocfl.io/1.1/spec/#E059"
  |}
  else None.

(** [src/validation/code/codes_gen.go:1305-1325] E060 *)
Definition E060 (spec : string) : option ValidationCode :=
  if bool_decide (spec = "1.0") then Some {|
    vc_Spec := spec;
    vc_Code := "E060";
    vc_Description := "The digest sidecar file must contain the digest of the inventory file.";
    vc_URL := "https://ocfl.io/1.0/spec/#E060"
  |}
  else if bool_decide (spec = "1.1") then Some {|
    vc_Spec := spec;
    vc_Code := "E060";
    vc_Description := "The digest sidecar file must contain the digest of the inventory file.";
    vc_URL := "https://ocfl.io/1.1/spec/#E060"
  |}
  else None.

(** [src/validation/code/codes_gen.go:1327-1347] E061 *)
Definition E061 (spec : string) : option ValidationCode :=
  if bool_decide (spec = "1.0") then Some {|
    vc_Spec := spec;
    vc_Code := "E061";
    vc_Description := "[The digest sidecar file] must follow the format: DIGEST inventory.json";
    vc_URL := "https://ocfl.io/1.0/spec/#E061"
  |}
  else if bool_decide (spec = "1.1") then Some {|
    vc_Spec := spec;
    vc_Code := "E061";
    vc_Description := "[The digest sidecar file] must follow the format: DIGEST inventory.json";
    vc_URL := "https://ocfl.io/1.1/spec/#E061"
  |}
  else None.

(** [src/validation/code/codes_gen.go:1349-1369] E062 *)
Definition E062 (spec : string) : option ValidationCode :=
  if bool_decide (spec = "1.0") then Some {|
    vc_Spec := spec;
    vc_Code := "E062";
    vc_Description := "The digest of the inventory must be computed only after all changes to the inventory have been made, and thus writing the digest sidecar file is the last step in the versioning process.";
    vc_URL := "https://ocfl.io/1.0/spec/#E062"
  |}
  else if bool_decide (spec = "1.1") then Some {|
    vc_Spec := spec;
    vc_Code := "E062";
    vc_Description := "The digest of the inventory must be computed only after all changes to the inventory have been made, and thus writing the digest sidecar file is the last step in the versioning process.";
    vc_URL := "https://ocfl.io/1.1/spec/#E062"
  |}
  else None.

(** [src/validation/code/codes_gen.go:1371-1391] E063 *)
Definition E063 (spec : string) : option ValidationCode :=
  if bool_decide (spec = "1.0") then Some {|
    vc_Spec := spec;
    vc_Code := "E063";
    vc_Description := "Every OCFL Object must have an inventory file within the OCFL Object Root, corresponding to the state of the OCFL Object at the current version.";
    vc_URL := "https://ocfl.io/1.0/spec/#E063"
  |}
  else if bool_decide (spec = "1.1") then Some {|
    vc_Spec := spec;
    vc_Code := "E063";
    vc_Description := "Every OCFL Object must have an inventory file within the OCFL Object Root, corresponding to the state of the OCFL Object at the current version.";
    vc_URL := "https://ocfl.io/1.1/spec/#E063"
  |}
  else None.

(** [src/validation/code/codes_gen.go:1393-1413] E064 *)
Definition E064 (spec : string) : option ValidationCode :=
  if bool_decide (spec = "1.0") then Some {|
    vc_Spec := spec;
    vc_Code := "E064";
    vc_Description := "Where an OCFL Object contains inventory.json in version directories, the inventory file in the OCFL Object Root must be the same as the file in the most recent version.";
    vc_URL := "https://ocfl.io/1.0/spec/#E064"
  |}
  else if bool_decide (spec = "1.1") then Some {|
    vc_Spec := spec;
    vc_Code := "E064";
    vc_Description := "Where an OCFL Object contains inventory.json in version directories, the inventory file in the OCFL Object Root must be the same as the file in the most recent version.";
    vc_URL := "https://ocfl.io/1.1/spec/#E064"
  |}
  else None.

(** [src/validation/code/codes_gen.go:1415-1435] E066 *)
Definition E066 (spec : string) : option ValidationCode :=
  if bool_decide (spec = "1.0") then Some {|
    vc_Spec := spec;
    vc_Code := "E066";
    vc_Description := "Each version block in each prior inventory file must represent the same object state as the corresponding version block in the current inventory file.";
    vc_URL := "https://ocfl.io/1.0/spec/#E066"
  |}
  else if bool_decide (spec = "1.1") then Some {|
    vc_Spec := spec;
    vc_Code := "E066";
    vc_Description := "Each version block in each prior inventory file must represent the same object state as the corresponding version block in the current inventory file.";
    vc_URL := "https://ocfl.io/1.1/spec/#E066"
  |}
  else None.

(** [src/validation/code/codes_gen.go:1437-1457] E067 *)
Definition E067 (spec : string) : option ValidationCode :=
  if bool_decide (spec = "1.0") then Some {|
    vc_Spec := spec;
    vc_Code := "E067";
    vc_Description := "The extensions directory must not contain any files, and no sub-directories other than extension sub-directories.";
    vc_URL := "https://ocfl.io/1.0/spec/#E067"
  |}
  else if bool_decide (spec = "1.1") then Some {|
    vc_Spec := spec;
    vc_Code := "E067";
    vc_Description := "The extensions directory must not contain any files or sub-directories other than extension sub-directories.";
    vc_URL := "https://ocfl.io/1.1/spec/#E067"
  |}
  else None.

(** [src/validation/code/codes_gen.go:1459-1472] E068 *)
Definition E068 (spec : string) : option ValidationCode :=
  if bool_decide (spec = "1.0") then Some {|
    vc_Spec := spec;
    vc_Code := "E068";
    vc_Description := "The specific structure and function of the extension, as well as a declaration of the registered extension name must be defined in one of the following locations: The OCFL Extensions repository OR The Storage Root, as a plain text document directly in the Storage Root.";
    vc_URL := "https://ocfl.io/1.0/spec/#E068"
  |}
  else None.

(** [src/validation/code/codes_gen.go:1474-1494] E069 *)
Definition E069 (spec : string) : option ValidationCode :=
  if bool_decide (spec = "1.0") then Some {|
    vc_Spec := spec;
    vc_Code := "E069";
    vc_Description := "An OCFL Storage Root MUST contain a Root Conformance Declaration identifying it as such.";
    vc_URL := "https://ocfl.io/1.0/spec/#E069"
  |}
  else if bool_decide (spec = "1.1") then Some {|
    vc_Spec := spec;
    vc_Code := "E069";
    vc_Description := "An OCFL Storage Root MUST contain a Root Conformance Declaration identifying it as such.";
    vc_URL := "https://ocfl.io/1.1/spec/#E069"
  |}
  else None.

(** [src/validation/code/codes_gen.go:1496-1516] E070 *)
Definition E070 (spec : string) : option ValidationCode :=
  if bool_decide (spec = "1.0") then Some {|
    vc_Spec := spec;
    vc_Code := "E070";
    vc_Description := "If present, [the ocfl_layout.json document] MUST include the following two keys in the root JSON object: [key, description]";
    vc_URL := "https://ocfl.io/1.0/spec/#E070"
  |}
  else if bool_decide (spec = "1.1") then Some {|
    vc_Spec := spec;
    vc_Code := "E070";
    vc_Description := "If present, [the ocfl_layout.json document] MUST include the following two keys in the root JSON object: [extension, description]";
    vc_URL := "https://ocfl.io/1.1/spec/#E070"
  |}
  else None.

(** [src/validation/code/codes_gen.go:1518-1538] E071 *)
Definition E071 (spec : string) : option ValidationCode :=
  if bool_decide (spec = "1.0") then Some {|
    vc_Spec := spec;
    vc_Code := "E071";
    vc_Description := "The value of the [ocfl_layout.json] extension key must be the registered extension name for the extension defining the arrangement under the storage root.";
    vc_URL := "https://ocfl.io/1.0/spec/#E071"
  |}
  else if bool_decide (spec = "1.1") then Some {|
    vc_Spec := spec;
    vc_Code := "E071";
    vc_Description := "The value of the [ocfl_layout.json] extension key must be the registered extension name for the extension defining the arrangement under the storage root.";
    vc_URL := "https://ocfl.io/1.1/spec/#E071"
  |}
  else None.

(** [src/validation/code/codes_gen.go:1540-1560] E072 *)
Definition E072 (spec : string) : option ValidationCode :=
  if bool_decide (spec = "1.0") then Some {|
    vc_Spec := spec;
    vc_Code := "E072";
    vc_Description := "The directory hierarchy used to store OCFL Objects MUST NOT contain files that are not part of an OCFL Object.";
    vc_URL := "https://ocfl.io/1.0/spec/#E072"
  |}
  else if bool_decide (spec = "1.1") then Some {|
    vc_Spec := spec;
    vc_Code := "E072";
    vc_Description := "The directory hierarchy used to store OCFL Objects MUST NOT contain files that are not part of an OCFL Object.";
    vc_URL := "https://ocfl.io/1.1/spec/#E072"
  |}
  else None.

(** [src/validation/code/codes_gen.go:1562-1582] E073 *)
Definition E073 (spec : string) : option ValidationCode :=
  if bool_decide (spec = "1.0") then Some {|
    vc_Spec := spec;
    vc_Code := "E073";
    vc_Description := "Empty directories MUST NOT appear under a storage root.";
    vc_URL := "https://ocfl.io/1.0/spec/#E073"
  |}
  else if bool_decide (spec = "1.1") then Some {|
    vc_Spec := spec;
    vc_Code := "E073";
    vc_Description := "Empty directories MUST NOT appear under a storage root.";
    vc_URL := "https://ocfl.io/1.1/spec/#E073"
  |}
  else None.

(** [src/validation/code/codes_gen.go:1584-1604] E074 *)
Definition E074 (spec : string) : option ValidationCode :=
  if bool_decide (spec = "1.0") then Some {|
    vc_Spec := spec;
    vc_Code := "E074";
    vc_Description := ("Although implementations may require multiple OCFL Storage Roots - that is, several logical or physical volumes, or multiple " +:+ dquote +:+ "buckets" +:+ dquote +:+ " in an object store - each OCFL Storage Root MUST be independent.");
    vc_URL := "https://ocfl.io/1.0/spec/#E074"
  |}
  else if bool_decide (spec = "1.1") then Some {|
    vc_Spec := spec;
    vc_Code := "E074";
    vc_Description := "Although implementations may require multiple OCFL Storage Roots - that is, several logical or physical volumes, or multiple “buckets” in an object store - each OCFL Storage Root MUST be independent.";
    vc_URL := "https://ocfl.io/1.1/spec/#E074"
  |}
  else None.

(** [src/validation/code/codes_gen.go:1606-1626] E075 *)
Definition E075 (spec : string) : option ValidationCode :=
  if bool_decide (spec = "1.0") then Some {|
    vc_Spec := spec;
    vc_Code := "E075";
    vc_Description := "The OCFL version declaration MUST be formatted according to the NAMASTE specification.";
    vc_URL := "https://ocfl.io/1.0/spec/#E075"
  |}
  else if bool_decide (spec = "1.1") then Some {|
    vc_Spec := spec;
    vc_Code := "E075";
    vc_Description := "The OCFL version declaration MUST be formatted according to the NAMASTE specification.";
    vc_URL := "https://ocfl.io/1.1/spec/#E075"
  |}
  else None.

(** [src/validation/code/codes_gen.go:1628-1648] E076 *)
Definition E076 (spec : string) : option ValidationCode :=
  if bool_decide (spec = "1.0") then Some {|
    vc_Spec := spec;
    vc_Code := "E076";
    vc_Description := "[The OCFL version declaration] MUST be a file in the base directory of the OCFL Storage Root giving the OCFL version in the filename.";
    vc_URL := "https://ocfl.io/1.0/spec/#E076"
  |}
  else if bool_decide (spec = "1.1") then Some {|
    vc_Spec := spec;
    vc_Code := "E076";
    vc_Description := "There must be exactly one version declaration file in the base directory of the OCFL Storage Root giving the OCFL version in the filename.";
    vc_URL := "https://ocfl.io/1.1/spec/#E076"
  |}
  else None.

(** [src/validation/code/codes_gen.go:1650-1670] E077 *)
Definition E077 (spec : string) : option ValidationCode :=
  if bool_decide (spec = "1.0") then Some {|
    vc_Spec := spec;
    vc_Code := "E077";
    vc_Description := "[The OCFL version declaration filename] MUST conform to the pattern T=dvalue, where T must be 0, and dvalue must be ocfl_, followed by the OCFL specification ocfl.Number.";
    vc_URL := "https://ocfl.io/1.0/spec/#E077"
  |}
  else if bool_decide (spec = "1.1") then Some {|
    vc_Spec := spec;
    vc_Code := "E077";
    vc_Description := "[The OCFL version declaration filename] MUST conform to the pattern T=dvalue, where T must be 0, and dvalue must be ocfl_, followed by the OCFL specification version number.";
    vc_URL := "https://ocfl.io/1.1/spec/#E077"
  |}
  else None.

(** [src/validation/code/codes_gen.go:1672-1692] E078 *)
Definition E078 (spec : string) : option ValidationCode :=
  if bool_decide (spec = "1.0") then Some {|
    vc_Spec := spec;
    vc_Code := "E078";
    vc_Description := "[The OCFL version declaration filename] must conform to the pattern T=dvalue, where T MUST be 0, and dvalue must be ocfl_, followed by the OCFL specification ocfl.Number.";
    vc_URL := "https://ocfl.io/1.0/spec/#E078"
  |}
  else if bool_decide (spec = "1.1") then Some {|
    vc_Spec := spec;
    vc_Code := "E078";
    vc_Description := "[The OCFL version declaration filename] must conform to the pattern T=dvalue, where T MUST be 0, and dvalue must be ocfl_, followed by the OCFL specification version number.";
    vc_URL := "https://ocfl.io/1.1/spec/#E078"
  |}
  else None.

(** [src/validation/code/codes_gen.go:1694-1714] E079 *)
Definition E079 (spec : string) : option ValidationCode :=
  if bool_decide (spec = "1.0") then Some {|
    vc_Spec := spec;
    vc_Code := "E079";
    vc_Description := "[The OCFL version declaration filename] must conform to the pattern T=dvalue, where T must be 0, and dvalue MUST be ocfl_, followed by the OCFL specification ocfl.Number.";
    vc_URL := "https://ocfl.io/1.0/spec/#E079"
  |}
  else if bool_decide (spec = "1.1") then Some {|
    vc_Spec := spec;
    vc_Code := "E079";
    vc_Description := "[The OCFL version declaration filename] must conform to the pattern T=dvalue, where T must be 0, and dvalue MUST be ocfl_, followed by the OCFL specification version number.";
    vc_URL := "https://ocfl.io/1.1/spec/#E079"
  |}
  else None.

(** [src/validation/code/codes_gen.go:1716-1736] E080 *)
Definition E080 (spec : string) : option ValidationCode :=
  if bool_decide (spec = "1.0") then Some {|
    vc_Spec := spec;
    vc_Code := "E080";
    vc_Description := ("The text contents of [the OCFL version declaration file] MUST be the same as dvalue, followed by a newline (" +:+ newline +:+ ").");
    vc_URL := "https://ocfl.io/1.0/spec/#E080"
  |}
  else if bool_decide (spec = "1.1") then Some {|
    vc_Spec := spec;
    vc_Code := "E080";
    vc_Description := ("The text contents of [the OCFL version declaration file] MUST be the same as dvalue, followed by a newline (" +:+ newline +:+ ").");
    vc_URL := "https://ocfl.io/1.1/spec/#E080"
  |}
  else None.

(** [src/validation/code/codes_gen.go:1738-1758] E081 *)
Definition E081 (spec : string) : option ValidationCode :=
  if bool_decide (spec = "1.0") then Some {|
    vc_Spec := spec;
    vc_Code := "E081";
    vc_Description := "OCFL Objects within the OCFL Storage Root also include a conformance declaration which MUST indicate OCFL Object conformance to the same or earlier version of the specification.";
    vc_URL := "https://ocfl.io/1.0/spec/#E081"
  |}
  else if bool_decide (spec = "1.1") then Some {|
    vc_Spec := spec;
    vc_Code := "E081";
    vc_Description := "OCFL Objects within the OCFL Storage Root also include a conformance declaration which MUST indicate OCFL Object conformance to the same or earlier version of the specification.";
    vc_URL := "https://ocfl.io/1.1/spec/#E081"
  |}
  else None.

(** [src/validation/code/codes_gen.go:1760-1780] E082 *)
Definition E082 (spec : string) : option ValidationCode :=
  if bool_decide (spec = "1.0") then Some {|
    vc_Spec := spec;
    vc_Code := "E082";
    vc_Description := "OCFL Object Roots MUST be stored either as the terminal resource at the end of a directory storage hierarchy or as direct children of a containing OCFL Storage Root.";
    vc_URL := "https://ocfl.io/1.0/spec/#E082"
  |}
  else if bool_decide (spec = "1.1") then Some {|
    vc_Spec := spec;
    vc_Code := "E082";
    vc_Description := "OCFL Object Roots MUST be stored either as the terminal resource at the end of a directory storage hierarchy or as direct children of a containing OCFL Storage Root.";
    vc_URL := "https://ocfl.io/1.1/spec/#E082"
  |}
  else None.

(** [src/validation/code/codes_gen.go:1782-1802] E083 *)
Definition E083 (spec : string) : option ValidationCode :=
  if bool_decide (spec = "1.0") then Some {|
    vc_Spec := spec;
    vc_Code := "E083";
    vc_Description := "There MUST be a deterministic mapping from an object identifier to a unique storage path.";
    vc_URL := "https://ocfl.io/1.0/spec/#E083"
  |}
  else if bool_decide (spec = "1.1") then Some {|
    vc_Spec := spec;
    vc_Code := "E083";
    vc_Description := "There MUST be a deterministic mapping from an object identifier to a unique storage path.";
    vc_URL := "https://ocfl.io/1.1/spec/#E083"
  |}
  else None.

(** [src/validation/code/codes_gen.go:1804-1824] E084 *)
Definition E084 (spec : string) : option ValidationCode :=
  if bool_decide (spec = "1.0") then Some {|
    vc_Spec := spec;
    vc_Code := "E084";
    vc_Description := "Storage hierarchies MUST NOT include files within intermediate directories.";
    vc_URL := "https://ocfl.io/1.0/spec/#E084"
  |}
  else if bool_decide (spec = "1.1") then Some {|
    vc_Spec := spec;
    vc_Code := "E084";
    vc_Description := "Storage hierarchies MUST NOT include files within intermediate directories.";
    vc_URL := "https://ocfl.io/1.1/spec/#E084"
  |}
  else None.

(** [src/validation/code/codes_gen.go:1826-1846] E085 *)
Definition E085 (spec : string) : option ValidationCode :=
  if bool_decide (spec = "1.0") then Some {|
    vc_Spec := spec;
    vc_Code := "E085";
    vc_Description := "Storage hierarchies MUST be terminated by OCFL Object Roots.";
    vc_URL := "https://ocfl.io/1.0/spec/#E085"
  |}
  else if bool_decide (spec = "1.1") then Some {|
    vc_Spec := spec;
    vc_Code := "E085";
    vc_Description := "Storage hierarchies MUST be terminated by OCFL Object Roots.";
    vc_URL := "https://ocfl.io/1.1/spec/#E085"
  |}
  else None.

(** [src/validation/code/codes_gen.go:1848-1861] E086 *)
Definition E086 (spec : string) : option ValidationCode :=
  if bool_decide (spec = "1.0") then Some {|
    vc_Spec := spec;
    vc_Code := "E086";
    vc_Description := "The storage root extensions directory MUST conform to the same guidelines and limitations as those defined for object extensions.";
    vc_URL := "https://ocfl.io/1.0/spec/#E086"
  |}
  else None.

(** [src/validation/code/codes_gen.go:1863-1883] E087 *)
Definition E087 (spec : string) : option ValidationCode :=
  if bool_decide (spec = "1.0") then Some {|
    vc_Spec := spec;
    vc_Code := "E087";
    vc_Description := "An OCFL validator MUST ignore any files in the storage root it does not understand.";
    vc_URL := "https://ocfl.io/1.0/spec/#E087"
  |}
  else if bool_decide (spec = "1.1") then Some {|
    vc_Spec := spec;
    vc_Code := "E087";
    vc_Description := "An OCFL validator MUST ignore any files in the storage root it does not understand.";
    vc_URL := "https://ocfl.io/1.1/spec/#E087"
  |}
  else None.

(** [src/validation/code/codes_gen.go:1885-1905] E088 *)
Definition E088 (spec : string) : option ValidationCode :=
  if bool_decide (spec = "1.0") then Some {|
    vc_Spec := spec;
    vc_Code := "E088";
    vc_Description := "An OCFL Storage Root MUST NOT contain directories or sub-directories other than as a directory hierarchy used to store OCFL Objects or for storage root extensions.";
    vc_URL := "https://ocfl.io/1.0/spec/#E088"
  |}
  else if bool_decide (spec = "1.1") then Some {|
    vc_Spec := spec;
    vc_Code := "E088";
    vc_Description := "An OCFL Storage Root MUST NOT contain directories or sub-directories other than as a directory hierarchy used to store OCFL Objects or for storage root extensions.";
    vc_URL := "https://ocfl.io/1.1/spec/#E088"
  |}
  else None.

(** [src/validation/code/codes_gen.go:1907-1927] E089 *)
Definition E089 (spec : string) : option ValidationCode :=
  if bool_decide (spec = "1.0") then Some {|
    vc_Spec := spec;
    vc_Code := "E089";
    vc_Description := "If the preservation of non-OCFL-compliant features is required then the content MUST be wrapped in a suitable disk or filesystem image format which OCFL can treat as a regular file.";
    vc_URL := "https://ocfl.io/1.0/spec/#E089"
  |}
  else if bool_decide (spec = "1.1") then Some {|
    vc_Spec := spec;
    vc_Code := "E089";
    vc_Description := "If the preservation of non-OCFL-compliant features is required then the content MUST be wrapped in a suitable disk or filesystem image format which OCFL can treat as a regular file.";
    vc_URL := "https://ocfl.io/1.1/spec/#E089"
  |}
  else None.

(** [src/validation/code/codes_gen.go:1929-1949] E090 *)
Definition E090 (spec : string) : option ValidationCode :=
  if bool_decide (spec = "1.0") then Some {|
    vc_Spec := spec;
    vc_Code := "E090";
    vc_Description := "Hard and soft (symbolic) links are not portable and MUST NOT be used within OCFL Storage hierarchies.";
    vc_URL := "https://ocfl.io/1.0/spec/#E090"
  |}
  else if bool_decide (spec = "1.1") then Some {|
    vc_Spec := spec;
    vc_Code := "E090";
    vc_Description := "Hard and soft (symbolic) links are not portable and MUST NOT be used within OCFL Storage hierarchies.";
    vc_URL := "https://ocfl.io/1.1/spec/#E090"
  |}
  else None.

(** [src/validation/code/codes_gen.go:1951-1971] E091 *)
Definition E091 (spec : string) : option ValidationCode :=
  if bool_decide (spec = "1.0") then Some {|
    vc_Spec := spec;
    vc_Code := "E091";
    vc_Description := "Filesystems MUST preserve the case of OCFL filepaths and filenames.";
    vc_URL := "https://ocfl.io/1.0/spec/#E091"
  |}
  else if bool_decide (spec = "1.1") then Some {|
    vc_Spec := spec;
    vc_Code := "E091";
    vc_Description := "Filesystems MUST preserve the case of OCFL filepaths and filenames.";
    vc_URL := "https://ocfl.io/1.1/spec/#E091"
  |}
  else None.

(** [src/validation/code/codes_gen.go:1973-1993] E092 *)
Definition E092 (spec : string) : option ValidationCode :=
  if bool_decide (spec = "1.0") then Some {|
    vc_Spec := spec;
    vc_Code := "E092";
    vc_Description := "The value for each key in the manifest must be an array containing the content paths of files in the OCFL Object that have content with the given digest.";
    vc_URL := "https://ocfl.io/1.0/spec/#E092"
  |}
  else if bool_decide (spec = "1.1") then Some {|
    vc_Spec := spec;
    vc_Code := "E092";
    vc_Description := "The value for each key in the manifest must be an array containing the content paths of files in the OCFL Object that have content with the given digest.";
    vc_URL := "https://ocfl.io/1.1/spec/#E092"
  |}
  else None.

(** [src/validation/code/codes_gen.go:1995-2015] E093 *)
Definition E093 (spec : string) : option ValidationCode :=
  if bool_decide (spec = "1.0") then Some {|
    vc_Spec := spec;
    vc_Code := "E093";
    vc_Description := "Where included in the fixity block, the digest values given must match the digests of the files at the corresponding content paths.";
    vc_URL := "https://ocfl.io/1.0/spec/#E093"
  |}
  else if bool_decide (spec = "1.1") then Some {|
    vc_Spec := spec;
    vc_Code := "E093";
    vc_Description := "Where included in the fixity block, the digest values given must match the digests of the files at the corresponding content paths.";
    vc_URL := "https://ocfl.io/1.1/spec/#E093"
  |}
  else None.

(** [src/validation/code/codes_gen.go:2017-2037] E094 *)
Definition E094 (spec : string) : option ValidationCode :=
  if bool_decide (spec = "1.0") then Some {|
    vc_Spec := spec;
    vc_Code := "E094";
    vc_Description := "The value of [the message] key is freeform text, used to record the rationale for creating this version. It must be a JSON string.";
    vc_URL := "https://ocfl.io/1.0/spec/#E094"
  |}
  else if bool_decide (spec = "1.1") then Some {|
    vc_Spec := spec;
    vc_Code := "E094";
    vc_Description := "The value of [the message] key is freeform text, used to record the rationale for creating this version. It must be a JSON string.";
    vc_URL := "https://ocfl.io/1.1/spec/#E094"
  |}
  else None.

(** [src/validation/code/codes_gen.go:2039-2059] E095 *)
Definition E095 (spec : string) : option ValidationCode :=
  if bool_decide (spec = "1.0") then Some {|
    vc_Spec := spec;
    vc_Code := "E095";
    vc_Description := "Within a version, logical paths must be unique and non-conflicting, so the logical path for a file cannot appear as the initial part of another logical path.";
    vc_URL := "https://ocfl.io/1.0/spec/#E095"
  |}
  else if bool_decide (spec = "1.1") then Some {|
    vc_Spec := spec;
    vc_Code := "E095";
    vc_Description := "Within a version, logical paths must be unique and non-conflicting, so the logical path for a file cannot appear as the initial part of another logical path.";
    vc_URL := "https://ocfl.io/1.1/spec/#E095"
  |}
  else None.

(** [src/validation/code/codes_gen.go:2061-2081] E096 *)
Definition E096 (spec : string) : option ValidationCode :=
  if bool_decide (spec = "1.0") then Some {|
    vc_Spec := spec;
    vc_Code := "E096";
    vc_Description := "As JSON keys are case sensitive, while digests may not be, there is an additional requirement that each digest value must occur only once in the manifest regardless of case.";
    vc_URL := "https://ocfl.io/1.0/spec/#E096"
  |}
  else if bool_decide (spec = "1.1") then Some {|
    vc_Spec := spec;
    vc_Code := "E096";
    vc_Description := "As JSON keys are case sensitive, while digests may not be, there is an additional requirement that each digest value must occur only once in the manifest regardless of case.";
    vc_URL := "https://ocfl.io/1.1/spec/#E096"
  |}
  else None.

(** [src/validation/code/codes_gen.go:2083-2103] E097 *)
Definition E097 (spec : string) : option ValidationCode :=
  if bool_decide (spec = "1.0") then Some {|
    vc_Spec := spec;
    vc_Code := "E097";
    vc_Description := "As JSON keys are case sensitive, while digests may not be, there is an additional requirement that each digest value must occur only once in the fixity block for any digest algorithm, regardless of case.";
    vc_URL := "https://ocfl.io/1.0/spec/#E097"
  |}
  else if bool_decide (spec = "1.1") then Some {|
    vc_Spec := spec;
    vc_Code := "E097";
    vc_Description := "As JSON keys are case sensitive, while digests may not be, there is an additional requirement that each digest value must occur only once in the fixity block for any digest algorithm, regardless of case.";
    vc_URL := "https://ocfl.io/1.1/spec/#E097"
  |}
  else None.

(** [src/validation/code/codes_gen.go:2105-2125] E098 *)
Definition E098 (spec : string) : option ValidationCode :=
  if bool_decide (spec = "1.0") then Some {|
    vc_Spec := spec;
    vc_Code := "E098";
    vc_Description := "The content path must be interpreted as a set of one or more path elements joined by a / path separator.";
    vc_URL := "https://ocfl.io/1.0/spec/#E098"
  |}
  else if bool_decide (spec = "1.1") then Some {|
    vc_Spec := spec;
    vc_Code := "E098";
    vc_Description := "The content path must be interpreted as a set of one or more path elements joined by a / path separator.";
    vc_URL := "https://ocfl.io/1.1/spec/#E098"
  |}
  else None.

(** [src/validation/code/codes_gen.go:2127-2147] E099 *)
Definition E099 (spec : string) : option ValidationCode :=
  if bool_decide (spec = "1.0") then Some {|
    vc_Spec := spec;
    vc_Code := "E099";
    vc_Description := "[content] path elements must not be ., .., or empty (//).";
    vc_URL := "https://ocfl.io/1.0/spec/#E099"
  |}
  else if bool_decide (spec = "1.1") then Some {|
    vc_Spec := spec;
    vc_Code := "E099";
    vc_Description := "[content] path elements must not be ., .., or empty (//).";
    vc_URL := "https://ocfl.io/1.1/spec/#E099"
  |}
  else None.

(** [src/validation/code/codes_gen.go:2149-2169] E100 *)
Definition E100 (spec : string) : option ValidationCode :=
  if bool_decide (spec = "1.0") then Some {|
    vc_Spec := spec;
    vc_Code := "E100";
    vc_Description := "A content path must not begin or end with a forward slash (/).";
    vc_URL := "https://ocfl.io/1.0/spec/#E100"
  |}
  else if bool_decide (spec = "1.1") then Some {|
    vc_Spec := spec;
    vc_Code := "E100";
    vc_Description := "A content path must not begin or end with a forward slash (/).";
    vc_URL := "https://ocfl.io/1.1/spec/#E100"
  |}
  else None.

(** [src/validation/code/codes_gen.go:2171-2191] E101 *)
Definition E101 (spec : string) : option ValidationCode :=
  if bool_decide (spec = "1.0") then Some {|
    vc_Spec := spec;
    vc_Code := "E101";
    vc_Description := "Within an inventory, content paths must be unique and non-conflicting, so the content path for a file cannot appear as the initial part of another content path.";
    vc_URL := "https://ocfl.io/1.0/spec/#E101"
  |}
  else if bool_decide (spec = "1.1") then Some {|
    vc_Spec := spec;
    vc_Code := "E101";
    vc_Description := "Within an inventory, content paths must be unique and non-conflicting, so the content path for a file cannot appear as the initial part of another content path.";
    vc_URL := "https://ocfl.io/1.1/spec/#E101"
  |}
  else None.

(** [src/validation/code/codes_gen.go:2193-2213] E102 *)
Definition E102 (spec : string) : option ValidationCode :=
  if bool_decide (spec = "1.0") then Some {|
    vc_Spec := spec;
    vc_Code := "E102";
    vc_Description := "An inventory file must not contain keys that are not specified.";
    vc_URL := "https://ocfl.io/1.0/spec/#E102"
  |}
  else if bool_decide (spec = "1.1") then Some {|
    vc_Spec := spec;
    vc_Code := "E102";
    vc_Description := "An inventory file must not contain keys that are not specified.";
    vc_URL := "https://ocfl.io/1.1/spec/#E102"
  |}
  else None.

(** [src/validation/code/codes_gen.go:2215-2228] E103 *)
Definition E103 (spec : string) : option ValidationCode :=
  if bool_decide (spec = "1.1") then Some {|
    vc_Spec := spec;
    vc_Code := "E103";
    vc_Description := "Each version directory within an OCFL Object MUST conform to either the same or a later OCFL specification version as the preceding version directory.";
    vc_URL := "https://ocfl.io/1.1/spec/#E103"
  |}
  else None.

(** [src/validation/code/codes_gen.go:2230-2243] E104 *)
Definition E104 (spec : string) : option ValidationCode :=
  if bool_decide (spec = "1.1") then Some {|
    vc_Spec := spec;
    vc_Code := "E104";
    vc_Description := "Version directory names MUST be constructed by prepending v to the version number.";
    vc_URL := "https://ocfl.io/1.1/spec/#E104"
  |}
  else None.

(** [src/validation/code/codes_gen.go:2245-2258] E105 *)
Definition E105 (spec : string) : option ValidationCode :=
  if bool_decide (spec = "1.1") then Some {|
    vc_Spec := spec;
    vc_Code := "E105";
    vc_Description := "The version number MUST be taken from the sequence of positive, base-ten integers: 1, 2, 3, etc.";
    vc_URL := "https://ocfl.io/1.1/spec/#E105"
  |}
  else None.

(** [src/validation/code/codes_gen.go:2260-2273] E106 *)
Definition E106 (spec : string) : option ValidationCode :=
  if bool_decide (spec = "1.1") then Some {|
    vc_Spec := spec;
    vc_Code := "E106";
    vc_Description := "The value of the manifest key MUST be a JSON object.";
    vc_URL := "https://ocfl.io/1.1/spec/#E106"
  |}
  else None.

(** [src/validation/code/codes_gen.go:2275-2288] E107 *)
Definition E107 (spec : string) : option ValidationCode :=
  if bool_decide (spec = "1.1") then Some {|
    vc_Spec := spec;
    vc_Code := "E107";
    vc_Description := "The value of the manifest key must be a JSON object, and each key MUST correspond to a digest value key found in one or more state blocks of the current and/or previous version blocks of the OCFL Object.";
    vc_URL := "https://ocfl.io/1.1/spec/#E107"
  |}
  else None.

(** [src/validation/code/codes_gen.go:2290-2303] E108 *)
Definition E108 (spec : string) : option ValidationCode :=
  if bool_decide (spec = "1.1") then Some {|
    vc_Spec := spec;
    vc_Code := "E108";
    vc_Description := "The contentDirectory value MUST represent a direct child directory of the version directory in which it is found.";
    vc_URL := "https://ocfl.io/1.1/spec/#E108"
  |}
  else None.

(** [src/validation/code/codes_gen.go:2305-2318] E110 *)
Definition E110 (spec : string) : option ValidationCode :=
  if bool_decide (spec = "1.1") then Some {|
    vc_Spec := spec;
    vc_Code := "E110";
    vc_Description := "A unique identifier for the OCFL Object MUST NOT change between versions of the same object.";
    vc_URL := "https://ocfl.io/1.1/spec/#E110"
  |}
  else None.

(** [src/validation/code/codes_gen.go:2320-2333] E111 *)
Definition E111 (spec : string) : option ValidationCode :=
  if bool_decide (spec = "1.1") then Some {|
    vc_Spec := spec;
    vc_Code := "E111";
    vc_Description := "If present, [the value of the fixity key] MUST be a JSON object, which may be empty.";
    vc_URL := "https://ocfl.io/1.1/spec/#E111"
  |}
  else None.

(** [src/validation/code/codes_gen.go:2335-2348] E112 *)
Definition E112 (spec : string) : option ValidationCode :=
  if bool_decide (spec = "1.1") then Some {|
    vc_Spec := spec;
    vc_Code := "E112";
    vc_Description := "The extensions directory must not contain any files or sub-directories other than extension sub-directories.";
    vc_URL := "https://ocfl.io/1.1/spec/#E112"
  |}
  else None.

(** [src/validation/code/codes_gen.go:2350-2370] W001 *)
Definition W001 (spec : string) : option ValidationCode :=
  if bool_decide (spec = "1.0") then Some {|
    vc_Spec := spec;
    vc_Code := "W001";
    vc_Description := "Implementations SHOULD use version directory names constructed without zero-padding the ocfl.Number, ie. v1, v2, v3, etc.";
    vc_URL := "https://ocfl.io/1.0/spec/#W001"
  |}
  else if bool_decide (spec = "1.1") then Some {|
    vc_Spec := spec;
    vc_Code := "W001";
    vc_Description := "Implementations SHOULD use version directory names constructed without zero-padding the version number, ie. v1, v2, v3, etc.";
    vc_URL := "https://ocfl.io/1.1/spec/#W001"
  |}
  else None.

(** [src/validation/code/codes_gen.go:2372-2392] W002 *)
Definition W002 (spec : string) : option ValidationCode :=
  if bool_decide (spec = "1.0") then Some {|
    vc_Spec := spec;
    vc_Code := "W002";
    vc_Description := "The version directory SHOULD NOT contain any directories other than the designated content sub-directory. Once created, the contents of a version directory are expected to be immutable.";
    vc_URL := "https://ocfl.io/1.0/spec/#W002"
  |}
  else if bool_decide (spec = "1.1") then Some {|
    vc_Spec := spec;
    vc_Code := "W002";
    vc_Description := "The version directory SHOULD NOT contain any directories other than the designated content sub-directory. Once created, the contents of a version directory are expected to be immutable.";
    vc_URL := "https://ocfl.io/1.1/spec/#W002"
  |}
  else None.

(** [src/validation/code/codes_gen.go:2394-2414] W003 *)
Definition W003 (spec : string) : option ValidationCode :=
  if bool_decide (spec = "1.0") then Some {|
    vc_Spec := spec;
    vc_Code := "W003";
    vc_Description := "Version directories must contain a designated content sub-directory if the version contains files to be preserved, and SHOULD NOT contain this sub-directory otherwise.";
    vc_URL := "https://ocfl.io/1.0/spec/#W003"
  |}
  else if bool_decide (spec = "1.1") then Some {|
    vc_Spec := spec;
    vc_Code := "W003";
    vc_Description := "Version directories must contain a designated content sub-directory if the version contains files to be preserved, and SHOULD NOT contain this sub-directory otherwise.";
    vc_URL := "https://ocfl.io/1.1/spec/#W003"
  |}
  else None.

(** [src/validation/code/codes_gen.go:2416-2436] W004 *)
Definition W004 (spec : string) : option ValidationCode :=
  if bool_decide (spec = "1.0") then Some {|
    vc_Spec := spec;
    vc_Code := "W004";
    vc_Description := "For content-addressing, OCFL Objects SHOULD use sha512.";
    vc_URL := "https://ocfl.io/1.0/spec/#W004"
  |}
  else if bool_decide (spec = "1.1") then Some {|
    vc_Spec := spec;
    vc_Code := "W004";
    vc_Description := "For content-addressing, OCFL Objects SHOULD use sha512.";
    vc_URL := "https://ocfl.io/1.1/spec/#W004"
  |}
  else None.

(** [src/validation/code/codes_gen.go:2438-2458] W005 *)
Definition W005 (spec : string) : option ValidationCode :=
  if bool_decide (spec = "1.0") then Some {|
    vc_Spec := spec;
    vc_Code := "W005";
    vc_Description := "The OCFL Object Inventory id SHOULD be a URI.";
    vc_URL := "https://ocfl.io/1.0/spec/#W005"
  |}
  else if bool_decide (spec = "1.1") then Some {|
    vc_Spec := spec;
    vc_Code := "W005";
    vc_Description := "The OCFL Object Inventory id SHOULD be a URI.";
    vc_URL := "https://ocfl.io/1.1/spec/#W005"
  |}
  else None.

(** [src/validation/code/codes_gen.go:2460-2480] W007 *)
Definition W007 (spec : string) : option ValidationCode :=
  if bool_decide (spec = "1.0") then Some {|
    vc_Spec := spec;
    vc_Code := "W007";
    vc_Description := "In the OCFL Object Inventory, the JSON object describing an OCFL Version, SHOULD include the message and user keys.";
    vc_URL := "https://ocfl.io/1.0/spec/#W007"
  |}
  else if bool_decide (spec = "1.1") then Some {|
    vc_Spec := spec;
    vc_Code := "W007";
    vc_Description := "In the OCFL Object Inventory, the JSON object describing an OCFL Version, SHOULD include the message and user keys.";
    vc_URL := "https://ocfl.io/1.1/spec/#W007"
  |}
  else None.

(** [src/validation/code/codes_gen.go:2482-2502] W008 *)
Definition W008 (spec : string) : option ValidationCode :=
  if bool_decide (spec = "1.0") then Some {|
    vc_Spec := spec;
    vc_Code := "W008";
    vc_Description := "In the OCFL Object Inventory, in the version block, the value of the user key SHOULD contain an address key, address.";
    vc_URL := "https://ocfl.io/1.0/spec/#W008"
  |}
  else if bool_decide (spec = "1.1") then Some {|
    vc_Spec := spec;
    vc_Code := "W008";
    vc_Description := "In the OCFL Object Inventory, in the version block, the value of the user key SHOULD contain an address key, address.";
    vc_URL := "https://ocfl.io/1.1/spec/#W008"
  |}
  else None.

(** [src/validation/code/codes_gen.go:2504-2524] W009 *)
Definition W009 (spec : string) : option ValidationCode :=
  if bool_decide (spec = "1.0") then Some {|
    vc_Spec := spec;
    vc_Code := "W009";
    vc_Description := "In the OCFL Object Inventory, in the version block, the address value SHOULD be a URI: either a mailto URI [RFC6068] with the e-mail address of the user or a URL to a personal identifier, e.g., an ORCID iD.";
    vc_URL := "https://ocfl.io/1.0/spec/#W009"
  |}
  else if bool_decide (spec = "1.1") then Some {|
    vc_Spec := spec;
    vc_Code := "W009";
    vc_Description := "In the OCFL Object Inventory, in the version block, the address value SHOULD be a URI: either a mailto URI [RFC6068] with the e-mail address of the user or a URL to a personal identifier, e.g., an ORCID iD.";
    vc_URL := "https://ocfl.io/1.1/spec/#W009"
  |}
  else None.

(** [src/validation/code/codes_gen.go:2526-2546] W010 *)
Definition W010 (spec : string) : option ValidationCode :=
  if bool_decide (spec = "1.0") then Some {|
    vc_Spec := spec;
    vc_Code := "W010";
    vc_Description := "In addition to the inventory in the OCFL Object Root, every version directory SHOULD include an inventory file that is an Inventory of all content for versions up to and including that particular version.";
    vc_URL := "https://ocfl.io/1.0/spec/#W010"
  |}
  else if bool_decide (spec = "1.1") then Some {|
    vc_Spec := spec;
    vc_Code := "W010";
    vc_Description := "In addition to the inventory in the OCFL Object Root, every version directory SHOULD include an inventory file that is an Inventory of all content for versions up to and including that particular version.";
    vc_URL := "https://ocfl.io/1.1/spec/#W010"
  |}
  else None.

(** [src/validation/code/codes_gen.go:2548-2568] W011 *)
Definition W011 (spec : string) : option ValidationCode :=
  if bool_decide (spec = "1.0") then Some {|
    vc_Spec := spec;
    vc_Code := "W011";
    vc_Description := "In the case that prior version directories include an inventory file, the values of the created, message and user keys in each version block in each prior inventory file SHOULD have the same values as the corresponding keys in the corresponding version block in the current inventory file.";
    vc_URL := "https://ocfl.io/1.0/spec/#W011"
  |}
  else if bool_decide (spec = "1.1") then Some {|
    vc_Spec := spec;
    vc_Code := "W011";
    vc_Description := "In the case that prior version directories include an inventory file, the values of the created, message and user keys in each version block in each prior inventory file SHOULD have the same values as the corresponding keys in the corresponding version block in the current inventory file.";
    vc_URL := "https://ocfl.io/1.1/spec/#W011"
  |}
  else None.

(** [src/validation/code/codes_gen.go:2570-2590] W012 *)
Definition W012 (spec : string) : option ValidationCode :=
  if bool_decide (spec = "1.0") then Some {|
    vc_Spec := spec;
    vc_Code := "W012";
    vc_Description := "Implementers SHOULD use the logs directory, if present, for storing files that contain a record of actions taken on the object.";
    vc_URL := "https://ocfl.io/1.0/spec/#W012"
  |}
  else if bool_decide (spec = "1.1") then Some {|
    vc_Spec := spec;
    vc_Code := "W012";
    vc_Description := "Implementers SHOULD use the logs directory, if present, for storing files that contain a record of actions taken on the object.";
    vc_URL := "https://ocfl.io/1.1/spec/#W012"
  |}
  else None.

(** [src/validation/code/codes_gen.go:2592-2612] W013 *)
Definition W013 (spec : string) : option ValidationCode :=
  if bool_decide (spec = "1.0") then Some {|
    vc_Spec := spec;
    vc_Code := "W013";
    vc_Description := "In an OCFL Object, extension sub-directories SHOULD be named according to a registered extension name.";
    vc_URL := "https://ocfl.io/1.0/spec/#W013"
  |}
  else if bool_decide (spec = "1.1") then Some {|
    vc_Spec := spec;
    vc_Code := "W013";
    vc_Description := "In an OCFL Object, extension sub-directories SHOULD be named according to a registered extension name.";
    vc_URL := "https://ocfl.io/1.1/spec/#W013"
  |}
  else None.

(** [src/validation/code/codes_gen.go:2614-2634] W014 *)
Definition W014 (spec : string) : option ValidationCode :=
  if bool_decide (spec = "1.0") then Some {|
    vc_Spec := spec;
    vc_Code := "W014";
    vc_Description := "Storage hierarchies within the same OCFL Storage Root SHOULD use just one layout pattern.";
    vc_URL := "https://ocfl.io/1.0/spec/#W014"
  |}
  else if bool_decide (spec = "1.1") then Some {|
    vc_Spec := spec;
    vc_Code := "W014";
    vc_Description := "Storage hierarchies within the same OCFL Storage Root SHOULD use just one layout pattern.";
    vc_URL := "https://ocfl.io/1.1/spec/#W014"
  |}
  else None.

(** [src/validation/code/codes_gen.go:2636-2656] W015 *)
Definition W015 (spec : string) : option ValidationCode :=
  if bool_decide (spec = "1.0") then Some {|
    vc_Spec := spec;
    vc_Code := "W015";
    vc_Description := "Storage hierarchies within the same OCFL Storage Root SHOULD consistently use either a directory hierarchy of OCFL Objects or top-level OCFL Objects.";
    vc_URL := "https://ocfl.io/1.0/spec/#W015"
  |}
  else if bool_decide (spec = "1.1") then Some {|
    vc_Spec := spec;
    vc_Code := "W015";
    vc_Description := "Storage hierarchies within the same OCFL Storage Root SHOULD consistently use either a directory hierarchy of OCFL Objects or top-level OCFL Objects.";
    vc_URL := "https://ocfl.io/1.1/spec/#W015"
  |}
  else None.

(** [src/validation/code/codes_gen.go:2658-2671] W016 *)
Definition W016 (spec : string) : option ValidationCode :=
  if bool_decide (spec = "1.1") then Some {|
    vc_Spec := spec;
    vc_Code := "W016";
    vc_Description := "In the Storage Root, extension sub-directories SHOULD be named according to a registered extension name.";
    vc_URL := "https://ocfl.io/1.1/spec/#W016"
  |}
  else None.
