(* ===== verification/Validation.v ===== *)
(** * Results of a validation ([src/validation.go], first part)

    A [Validation] accumulates fatal errors and warnings.  The accumulator is the
    type of the go-multierror package, known by its documented behaviour. *)
From S2P Require Import Prelude GoStd.

(** The package github.com/hashicorp/go-multierror: [Append] to a nil or a
    non-nil [*multierror.Error], and the errors it holds. *)
Class MultiError := {
  multierror : Type;
  me_Append : option multierror → list error → multierror;
  me_Errors : multierror → list error
}.

(** An appended [*multierror.Error] is flattened. *)
Definition me_flat (e : error) : list error :=
  match e with ErrMulti es => es | e => [e] end.

Class MultiErrorLaws `{MultiError} : Prop := {
  me_Append_nil : ∀ errs, me_Errors (me_Append None errs) = mjoin (me_flat <$> errs);
  me_Append_some : ∀ m errs,
    me_Errors (me_Append (Some m) errs) = me_Errors m ++ mjoin (me_flat <$> errs)
}.

Section validation.
Context `{MultiError}.

(** [ErrorOrNil] *)
Definition me_ErrorOrNil (m : multierror) : option error :=
  match me_Errors m with [] => None | es => Some (ErrMulti es) end.

(** [src/validation.go:16-20] Validation *)
Record Validation := mkValidation {
  v_fatal : option multierror;
  v_warn : option multierror
}.
Definition new_Validation : Validation := mkValidation None None.

(** [src/validation.go:31-34] Validation.AddFatal *)
Definition v_AddFatal (v : Validation) (errs : list error) : Validation :=
  mkValidation (Some (me_Append (v_fatal v) errs)) (v_warn v).

(** [src/validation.go:36-39] Validation.AddWarn *)
Definition v_AddWarn (v : Validation) (errs : list error) : Validation :=
  mkValidation (v_fatal v) (Some (me_Append (v_warn v) errs)).

(** [src/validation.go:41-48] Validation.Err *)
Definition v_Err (v : Validation) : option error :=
  match v_fatal v with None => None | Some m => me_ErrorOrNil m end.

(** [src/validation.go:50-56] Validation.Errors *)
Definition v_Errors (v : Validation) : list error :=
  match v_fatal v with None => [] | Some m => me_Errors m end.

(** [src/validation.go:58-65] Validation.WarnErr *)
Definition v_WarnErr (v : Validation) : option error :=
  match v_warn v with None => None | Some m => me_ErrorOrNil m end.

(** [src/validation.go:67-73] Validation.WarnErrors *)
Definition v_WarnErrors (v : Validation) : list error :=
  match v_warn v with None => [] | Some m => me_Errors m end.

(** [src/validation.go:22-29] Validation.Add: [None] is the nil pointer *)
Definition v_Add (v : Validation) (v2 : option Validation) : Validation :=
  match v2 with
  | None => v
  | Some v2 => v_AddWarn (v_AddFatal v (v_Errors v2)) (v_WarnErrors v2)
  end.

(** [src/validation.go:359-368] verr *)
Definition verr (err : error) (code : option ValidationCode) : error :=
  match code with
  | None => err
  | Some code => ValidationError code err
  end.

(** ** Laws *)

(** An error that [multierror.Append] adds as it is. *)
Definition single (e : error) : Prop := me_flat e = [e].

Lemma flat_single es : Forall single es → mjoin (me_flat <$> es) = es.
Proof. induction 1 as [|e es He _ IH]; [done|]. cbn. rewrite He. cbn. f_equal. exact IH. Qed.

Lemma verr_single e c : single e → single (verr e c).
Proof. intros He. by destruct c. Qed.

Context `{!MultiErrorLaws}.

Lemma v_Errors_AddFatal v errs : v_Errors (v_AddFatal v errs) = v_Errors v ++ mjoin (me_flat <$> errs).
Proof. unfold v_Errors, v_AddFatal. cbn. destruct (v_fatal v); [apply me_Append_some|apply me_Append_nil]. Qed.

Lemma v_Errors_AddWarn v errs : v_Errors (v_AddWarn v errs) = v_Errors v.
Proof. done. Qed.

Lemma v_WarnErrors_AddFatal v errs : v_WarnErrors (v_AddFatal v errs) = v_WarnErrors v.
Proof. done. Qed.

Lemma v_WarnErrors_AddWarn v errs :
  v_WarnErrors (v_AddWarn v errs) = v_WarnErrors v ++ mjoin (me_flat <$> errs).
Proof. unfold v_WarnErrors, v_AddWarn. cbn. destruct (v_warn v); [apply me_Append_some|apply me_Append_nil]. Qed.

Lemma v_Err_None v : v_Err v = None ↔ v_Errors v = [].
Proof.
  unfold v_Err, v_Errors, me_ErrorOrNil. destruct (v_fatal v) as [m|]; [|done].
  by destruct (me_Errors m).
Qed.
End validation.

#[export] Hint Rewrite @v_Errors_AddFatal @v_Errors_AddWarn @v_WarnErrors_AddFatal
  @v_WarnErrors_AddWarn using (apply _) : validation.

(** The accumulator as a list of errors. *)
Definition ref_multierror : MultiError := {|
  multierror := list error;
  me_Append := λ m errs, default [] m ++ mjoin (me_flat <$> errs);
  me_Errors := λ m, m
|}.

Lemma ref_multierror_laws : @MultiErrorLaws ref_multierror.
Proof. split; done. Qed.
