(* ===== verification/Inventory.v ===== *)
(** * Inventories ([src/inventory.go], first part)

    The contents of an inventory.json file, what it says about versions and
    content, and its sidecar file.  A Go map or pointer that the code compares with
    nil is an [option].  Validation is in OcflInventory.v and the construction of
    new inventories in Builder.v. *)
From S2P Require Import Prelude GoStd VNum DigestMap Spec FS Digest.

(** [time.Time]: nanoseconds since the zero time, and what else [==] compares (the
    location and the monotonic clock reading). *)
Record Time := mkTime { tm_ns : Z; tm_rest : Z }.
#[global] Instance Time_eq_dec : EqDecision Time.
Proof. solve_decision. Defined.
Definition Time_zero : Time := mkTime 0 0.
Definition Time_IsZero (t : Time) : bool := tm_ns t =? 0.
(** [Truncate(time.Second)] also drops the monotonic reading; [strip] is the rest
    without it. *)
Definition Time_Truncate (strip : Z → Z) (t : Time) : Time :=
  mkTime (tm_ns t - tm_ns t `mod` 10 ^ 9) (strip (tm_rest t)).

(** [src/inventory.go:133-137] User *)
Record User := mkUser { user_Name : string; user_Address : string }.
#[global] Instance User_eq_dec : EqDecision User.
Proof. solve_decision. Defined.

(** [src/inventory.go:125-131] InventoryVersion *)
Record InventoryVersion := mkInventoryVersion {
  iv_Created : Time;
  iv_State : option DigestMap;
  iv_Message : string;
  iv_User : option User
}.

(** [src/inventory.go:29-39] Inventory *)
Record Inventory := mkInventory {
  inv_ID : string;
  inv_Type : InventoryType;
  inv_DigestAlgorithm : string;
  inv_Head : VNum;
  inv_ContentDirectory : string;
  inv_Manifest : option DigestMap;
  inv_Versions : option (gmap VNum (option InventoryVersion));
  inv_Fixity : gmap string DigestMap
}.

(** [src/inventory.go:139-145] StoredInventory *)
Record StoredInventory := mkStoredInventory {
  si_Inventory : Inventory;
  si_bytes : string;
  si_digest : string
}.

(** A nil map reads as the empty map. *)
Definition manifest (inv : Inventory) : DigestMap := default ∅ (inv_Manifest inv).
Definition versions (inv : Inventory) : gmap VNum (option InventoryVersion) :=
  default ∅ (inv_Versions inv).
Definition state_of (ver : InventoryVersion) : DigestMap := default ∅ (iv_State ver).

Section inventory.
Context `{GoEnv}.

(** The inner loop of [GetFixity]: the first pair whose path is listed. *)
Definition fixity_digest (paths : list string) (pairs : list (string * string)) : option string :=
  find_some (λ '(p, fixDigest), if bool_decide (p ∈ paths) then Some fixDigest else None) pairs.

(** [src/inventory.go:41-58] Inventory.GetFixity *)
Definition Inventory_GetFixity (inv : Inventory) (dig : string) : Set_ :=
  let paths := paths_of (manifest inv) dig in
  match paths with
  | [] => None
  | _ =>
      Some (foldl (λ set '(fixAlg, fixMap),
              match fixity_digest paths (Paths fixMap) with
              | Some fixDigest => <[fixAlg := fixDigest]> set
              | None => set
              end) ∅ (range 30 (inv_Fixity inv)))
  end.

(** [src/inventory.go:89-97] Inventory.version *)
Definition Inventory_version (inv : Inventory) (v : Z) : option InventoryVersion :=
  match inv_Versions inv with
  | None => None
  | Some vs =>
      if v <? 1 then mjoin (vs !! inv_Head inv)
      else mjoin (vs !! V [v; padding (inv_Head inv)])
  end.

(** [src/inventory.go:99-110] Inventory.vnums *)
Definition vnums (inv : Inventory) : list VNum :=
  sort_slice VNum_Less ((range 31 (versions inv)).*1).

(** [src/inventory.go:112-123] Inventory.versionContent *)
Definition versionContent (inv : Inventory) (vnum : VNum) : PathMap :=
  let prefix := VNum_String vnum +:+ "/" in
  foldl (λ pm '(pth, dig), if HasPrefix pth prefix then <[pth := dig]> pm else pm)
    ∅ (Paths (manifest inv)).

(** [src/inventory.go:185-187] StoredInventory.Digest *)
Definition si_Digest (inv : StoredInventory) : string := si_digest inv.

(** ** Digest and sidecar *)

Context `{Hashes}.

(** The digest of the bytes of an inventory with its own algorithm. *)
Definition digest_bytes (alg b : string) : result string :=
  match reg_Get DefaultRegistry alg with
  | inr err => inr err
  | inl a => inl (alg_sum a b)
  end.

(** [src/inventory.go:230-242] StoredInventory.setRaw *)
Definition setRaw (inv : Inventory) (raw : string) : result StoredInventory :=
  match digest_bytes (inv_DigestAlgorithm inv) raw with
  | inr err => inr err
  | inl d => inl (mkStoredInventory inv raw d)
  end.

(** [src/inventory.go:72-87] Inventory.marshal: [json.Marshal] is an argument *)
Definition Inventory_marshal (json_Marshal : Inventory → result string) (inv : Inventory)
    : result (string * string) :=
  match json_Marshal inv with
  | inr err => inr err
  | inl buff =>
      match digest_bytes (inv_DigestAlgorithm inv) buff with
      | inr err => inr err
      | inl d => inl (buff, d)
      end
  end.

Definition is_hex (c : ascii) : bool := is_digit c || in_range 97 102 c || in_range 65 70 c.
Definition is_space (c : ascii) : bool :=
  in_range 9 10 c || in_range 12 13 c || bool_decide (c = " "%char).

(** [src/inventory.go:26-26] invSidecarContentsRexp: the submatch; a byte is not
    both a digit and a space, so that the runs are the longest ones *)
Definition sidecar_match (s : string) : option string :=
  let '(sum, r) := span is_hex s in
  let '(sp, r) := span is_space r in
  if bool_decide (sum = "") || bool_decide (sp = "") then None
  else match CutPrefix r inventoryBase with
       | Some rest => if bool_decide (rest = "") || bool_decide (rest = newline) then Some sum else None
       | None => None
       end.

(** The contents [writeInventorySidecar] writes. *)
Definition sidecar_content (invDigest : string) : string :=
  invDigest +:+ " " +:+ inventoryBase +:+ newline.

Context {W FS : Type} `{!FileSystems W FS}.

(** [src/inventory.go:244-258] ReadInventorySidecar *)
Definition ReadInventorySidecar (fsys : FS) (dir alg : string) (w : W) : res string :=
  let sideCar := Join [dir; inventoryBase +:+ "." +:+ alg] in
  byts ← fs_ReadAll fsys sideCar w;
  match sidecar_match byts with
  | None => Err (ErrWrap ("reading " +:+ sideCar) (ErrVar ErrInventorySidecarContents))
  | Some sum => Ok sum
  end.

(** [src/inventory.go:209-228] StoredInventory.ValidateSidecar *)
Definition ValidateSidecar (inv : StoredInventory) (fsys : FS) (dir : string) (w : W) : option error :=
  let alg := inv_DigestAlgorithm (si_Inventory inv) in
  let sideCar := Join [dir; inventoryBase +:+ "." +:+ alg] in
  match ReadInventorySidecar fsys dir alg w with
  | Err err => Some err
  | Panic => None
  | Ok expSum =>
      if negb (EqualFold expSum (si_digest inv))
      then Some (DigestError sideCar alg (si_digest inv) expSum false)
      else None
  end.

(** [src/inventory.go:271-278] writeInventorySidecar *)
Definition writeInventorySidecar (fsys : FS) (dir invDigest alg : string) : IO W (option error) :=
  let sideFile := Join [dir; inventoryBase +:+ "." +:+ alg] in
  '(_, err) ← fs_Write fsys sideFile (bytes_reader (sidecar_content invDigest));
  mret (ErrWrap "writing inventory sidecar file" <$> err).

(** ** The sidecar round trip *)

Lemma hex_digit_hex n : (n < 16)%N → is_hex (hex_digit n) = true.
Proof.
  intros Hn. destruct n as [|p]; [done|].
  do 4 (destruct p as [p|p|]; try done; try lia).
Qed.

Lemma hex_encode_hex s : string_forall is_hex (hex_encode s) = true.
Proof.
  induction s as [|c s IH]; [done|]. cbn [hex_encode string_forall].
  assert (byte c < 256)%N by apply N_ascii_bounded.
  rewrite !hex_digit_hex, IH; [done|apply N.mod_lt; lia|apply N.Div0.div_lt_upper_bound; lia].
Qed.

Lemma is_hex_ascii s : string_forall is_hex s = true → is_ascii s = true.
Proof.
  apply string_forall_impl. intros c Hc. unfold is_hex, is_digit in Hc. bool_to_prop.
  unfold is_ascii_byte. apply N.ltb_lt. destruct Hc as [[Hc|Hc]|Hc]; apply in_range_spec in Hc; lia.
Qed.

Lemma sidecar_match_content d :
  d ≠ "" → string_forall is_hex d = true → sidecar_match (sidecar_content d) = Some d.
Proof.
  intros Hne Hd. unfold sidecar_match, sidecar_content.
  rewrite span_app by done. cbn [String.append].
  change (span is_space (String " " (inventoryBase +:+ newline))) with (" ", inventoryBase +:+ newline).
  rewrite bool_decide_false by done. cbn [orb]. rewrite CutPrefix_app. done.
Qed.

Lemma EqualFold_refl_ascii s : is_ascii s = true → EqualFold s s = true.
Proof. intros Hs. unfold EqualFold. rewrite Hs. cbn. by apply bool_decide_eq_true. Qed.

(** The algorithms whose digests are in hexadecimal. *)
Lemma digest_bytes_hex alg b d :
  digest_bytes alg b = inl d → d = hex_encode (hash_sum alg b).
Proof.
  unfold digest_bytes, reg_Get. destruct (DefaultRegistry !! alg) as [a|] eqn:Ha; [|done].
  intros [= <-]. unfold DefaultRegistry, NewAlgorithmRegistry, register in Ha. cbn in Ha.
  repeat (rewrite lookup_insert in Ha; case_decide; [by simplify_eq|]). done.
Qed.

Lemma hex_encode_nonempty s : s ≠ "" → hex_encode s ≠ "".
Proof. by destruct s. Qed.

(** The sidecar written for a stored inventory is the one [ValidateSidecar]
    accepts: its contents match the pattern of a sidecar, and the digest read
    back is the digest of the inventory. *)
Theorem sidecar_roundtrip (fsys : FS) ops files inv raw si dir w w' f :
  WriteLaws fsys ops files → ReadLaws fsys files →
  setRaw inv raw = inl si → hash_sum (inv_DigestAlgorithm inv) raw ≠ "" →
  writeInventorySidecar fsys dir (si_digest si) (inv_DigestAlgorithm inv) w = (w', None) →
  OpenFile fsys (Join [dir; inventoryBase +:+ "." +:+ inv_DigestAlgorithm inv]) w' = inl f →
  rd_err (f_reader f) = None →
  ValidateSidecar si fsys dir w' = None.
Proof.
  intros Hw Hr Hsi Hne. unfold writeInventorySidecar, fs_Write. rewrite (law_as _ _ _ Hw).
  intros Hrun Ho He. inv_io. destruct o as [err|]; [done|].
  apply (law_write_ok _ _ _ Hw) in Ha as [_ Hf]. cbn in Hf.
  destruct (law_open_ok _ _ Hr _ _ _ Ho) as (data & Hd & Hdata).
  rewrite Hf, lookup_insert_eq in Hd. injection Hd as <-.
  unfold setRaw in Hsi. destruct (digest_bytes _ _) as [d|] eqn:Hdig; [|done]. injection Hsi as <-.
  apply digest_bytes_hex in Hdig as ->. cbn [si_digest] in *.
  pose proof (hex_encode_hex (hash_sum (inv_DigestAlgorithm inv) raw)) as Hhex.
  unfold ValidateSidecar, ReadInventorySidecar, fs_ReadAll. cbn [si_Inventory si_digest].
  rewrite Ho. unfold io_ReadAll. rewrite He, Hdata by done. cbn [mbind res_bind].
  rewrite sidecar_match_content by (done || by apply hex_encode_nonempty).
  rewrite EqualFold_refl_ascii; [done|]. by apply is_hex_ascii.
Qed.
End inventory.

(** ** Concrete instances *)

Definition ex_inventory : Inventory :=
  mkInventory "http://example.org/1" (mkInventoryType Spec1_1) SHA512 (mkVNum 1 0) ""
    (Some {["ab" := ["v1/content/f"]]})
    (Some {[mkVNum 1 0 := Some (mkInventoryVersion (mkTime 1 0) (Some {["ab" := ["f"]]}) "msg"
              (Some (mkUser "me" "mailto:me@example.org")))]}) ∅.

Lemma sidecar_roundtrip_witness :
  @ValidateSidecar ref_env _ _ mem_fs (mkStoredInventory ex_inventory "A" "41") () "d"
    {["d/inventory.json.sha512" := sidecar_content "41"]} = None.
Proof.
  apply (@sidecar_roundtrip ref_env ref_hashes _ _ mem_fs () mem_ops (λ m, m) ex_inventory "A"
    (mkStoredInventory ex_inventory "A" "41") "d" ∅ {["d/inventory.json.sha512" := sidecar_content "41"]}
    (mem_file ∅ "d/inventory.json.sha512" (sidecar_content "41")));
    [apply mem_write_laws|apply mem_read_laws|by vm_compute..].
Defined.
