(* ===== verification/OcflInventory.v ===== *)
(** * Validation of inventory values ([src/ocflv1.go], [ValidateInventory])

    [ValidateInventory] checks an inventory value against a version of the
    specification and reports each violation with its code.  The theorem says
    that it reports no fatal error exactly on the inventories that are well
    formed by a definition that does not mention the checks. *)
From S2P Require Import Prelude GoStd VNum DigestMap Spec FS Digest Codes Validation Inventory.

(** [url.ParseRequestURI]: the scheme of the URI, [None] if it does not parse. *)
Class URLs := { url_scheme : string → option string }.

(** Selectors for [errors.As]. *)
Definition is_digest_conflict (e : error) : option string :=
  match e with MapDigestConflictErr d => Some d | _ => None end.
Definition is_path_conflict (e : error) : option string :=
  match e with MapPathConflictErr p => Some p | _ => None end.
Definition is_path_invalid (e : error) : option string :=
  match e with MapPathInvalidErr p => Some p | _ => None end.
Definition As {A} (sel : error → option A) (e : error) : bool :=
  match errors_As sel e with Some _ => true | None => false end.

(** [strings.Contains] with a one-byte argument is [ContainsByte]. *)

Section validate.
Context `{GoEnv, URLs, MultiError}.

Definition fatal_if (b : bool) (e : error) (v : Validation) : Validation :=
  if b then v_AddFatal v [e] else v.
Definition warn_if (b : bool) (e : error) (v : Validation) : Validation :=
  if b then v_AddWarn v [e] else v.
Definition fatal_opt (e : option error) (v : Validation) : Validation :=
  match e with Some e => v_AddFatal v [e] | None => v end.

(** [u, err := url.ParseRequestURI(s); err != nil || u.Scheme == ""] *)
Definition not_URI (s : string) : bool :=
  match url_scheme s with None => true | Some sch => bool_decide (sch = "") end.

(** [src/ocflv1.go:86-100] the code of an error of the manifest *)
Definition manifest_error (spec : string) (err : error) : error :=
  if As is_digest_conflict err then verr err (E096 spec)
  else if As is_path_conflict err then verr err (E101 spec)
  else if As is_path_invalid err then verr err (E099 spec)
  else err.

(** [src/ocflv1.go:194-207] the code of an error of a version state *)
Definition state_error (spec : string) (err : error) : error :=
  if As is_digest_conflict err then verr err (E050 spec)
  else if As is_path_conflict err then verr err (E095 spec)
  else if As is_path_invalid err then verr err (E052 spec)
  else err.

(** [src/ocflv1.go:217-232] the code of an error of a fixity block *)
Definition fixity_error (spec : string) (err : error) : error :=
  if As is_digest_conflict err then verr err (E097 spec)
  else if As is_path_invalid err then verr err (E099 spec)
  else if As is_path_conflict err then verr err (E101 spec)
  else err.

(** [src/ocflv1.go:104-112] some version state uses the digest *)
Definition digest_used (inv : Inventory) (digest : string) : bool :=
  existsb (λ '(_, version),
    match version with
    | None => false
    | Some ver => negb (bool_decide (paths_of (state_of ver) digest = []))
    end) (range 33 (versions inv)).

(** [src/ocflv1.go:101-117] loop over the manifest *)
Definition check_manifest_used (spec : string) (inv : Inventory) (v : Validation) : Validation :=
  foldl (λ v digest,
    fatal_if (negb (digest_used inv digest))
      (verr (ErrNew ("digest in manifest not used in version state: " +:+ digest)) (E107 spec)) v)
    v (range 32 (manifest inv)).*1.

(** [src/ocflv1.go:127-138] the loop over zero-padded and plain numbers *)
Fixpoint mixed_padding (vs : list VNum) (hasZeroPadded hasNonZeroPrefixed : bool) : bool * bool :=
  match vs with
  | [] => (hasZeroPadded, hasNonZeroPrefixed)
  | vn :: vs =>
      if 0 <? padding vn then mixed_padding vs true hasNonZeroPrefixed
      else if (10 <=? num vn) && hasZeroPadded then mixed_padding vs hasZeroPadded true
      else mixed_padding vs hasZeroPadded hasNonZeroPrefixed
  end.

(** [src/ocflv1.go:119-155] version names and head *)
Definition check_version_names (imp : ocflV1) (inv : Inventory) (v : Validation) : Validation :=
  let spec := v1Spec imp in
  let '(versionNums, err) := VNums_Valid (vnums inv) in
  let v := match err with
    | None => v
    | Some err =>
        if errors_Is err ErrVerEmpty then v_AddFatal v [verr err (E008 spec)]
        else if errors_Is err ErrVNumMissing then v_AddFatal v [verr err (E010 spec)]
        else if errors_Is err ErrVNumPadding then
          let '(hasZeroPadded, hasNonZeroPrefixed) := mixed_padding versionNums false false in
          let v := fatal_if (hasZeroPadded && hasNonZeroPrefixed)
                     (verr (ErrWrap "zero-padded version directories must start with v0" err) (E011 spec)) v in
          let paddingCode := if bool_decide (spec = Spec1_1) then E013 spec else E012 spec in
          v_AddFatal v [verr err paddingCode]
        else v_AddFatal v [err]
    end in
  fatal_if (negb (bool_decide (VNums_Head versionNums = inv_Head inv)))
    (verr (ErrNew "version head not most recent version") (E040 spec)) v.

(** [src/ocflv1.go:171-188] the user of a version *)
Definition check_user (spec vname : string) (ver : InventoryVersion) (v : Validation) : Validation :=
  match iv_User ver with
  | None => v_AddWarn v [verr (ErrNew ("missing recommended field: user in " +:+ vname)) (W007 spec)]
  | Some user =>
      let v := fatal_if (bool_decide (user_Name user = ""))
                 (verr (ErrNew ("user missing required field: name in " +:+ vname)) (E054 spec)) v in
      let v := warn_if (bool_decide (user_Address user = ""))
                 (verr (ErrNew ("user missing recommended field: address in " +:+ vname)) (W008 spec)) v in
      warn_if (not_URI (user_Address user))
        (verr (ErrNew ("user address is not a URI in " +:+ vname)) (W009 spec)) v
  end.

(** [src/ocflv1.go:157-215] body of the loop over the versions *)
Definition check_version (spec : string) (inv : Inventory) (v : Validation)
    (e : VNum * option InventoryVersion) : Validation :=
  let vname := VNum_String e.1 in
  match e.2 with
  | None => v_AddFatal v [verr (ErrNew ("missing required version block for " +:+ vname)) (E048 spec)]
  | Some ver =>
      let v := fatal_if (Time_IsZero (iv_Created ver))
                 (verr (ErrNew ("missing required field: created in " +:+ vname)) (E048 spec)) v in
      let v := warn_if (bool_decide (iv_Message ver = ""))
                 (verr (ErrNew ("missing recommended field: message in " +:+ vname)) (W007 spec)) v in
      let v := check_user spec vname ver v in
      match iv_State ver with
      | None => v_AddFatal v [verr (ErrNew ("missing required field: state in " +:+ vname)) (E048 spec)]
      | Some state =>
          let v := fatal_opt (state_error spec <$> DM_Valid state) v in
          foldl (λ v digest,
            fatal_if (bool_decide (paths_of (manifest inv) digest = []))
              (verr (ErrNew ("digest in state not in manifest: " +:+ digest)) (E050 spec)) v)
            v (range 35 state).*1
      end
  end.

(** [src/ocflv1.go:33-234] ocflV1.ValidateInventory *)
Definition ValidateInventory (imp : ocflV1) (inv : Inventory) : Validation :=
  let spec := v1Spec imp in
  let v := new_Validation in
  let v := fatal_if (Spec_Empty (it_Spec (inv_Type inv))) (ErrNew "missing required field: 'type'") v in
  let v := fatal_if (negb (bool_decide (it_Spec (inv_Type inv) = spec)))
             (ErrNew "inventory declares another version") v in
  let v := fatal_if (bool_decide (inv_ID inv = ""))
             (verr (ErrNew "missing required field: 'id'") (E036 spec)) v in
  let v := fatal_if (IsZero (inv_Head inv))
             (verr (ErrNew "missing required field: 'head'") (E036 spec)) v in
  let v := fatal_if (match inv_Manifest inv with None => true | Some _ => false end)
             (verr (ErrNew "missing required field 'manifest'") (E041 spec)) v in
  let v := fatal_if (match inv_Versions inv with None => true | Some _ => false end)
             (verr (ErrNew "missing required field: 'versions'") (E041 spec)) v in
  let v := warn_if (not_URI (inv_ID inv)) (verr (ErrNew "object ID is not a URI") (W005 spec)) v in
  let v := if bool_decide (inv_DigestAlgorithm inv = SHA512) then v
           else if bool_decide (inv_DigestAlgorithm inv = SHA256)
           then v_AddWarn v [verr (ErrNew "'digestAlgorithm' is sha256") (W004 spec)]
           else v_AddFatal v [verr (ErrNew "'digestAlgorithm' is not sha512 or sha256") (E025 spec)] in
  let v := fatal_opt ((λ err, verr (ErrWrap "head is invalid" err) (E011 spec)) <$> VNum_Valid (inv_Head inv)) v in
  let v := fatal_if (ContainsByte (inv_ContentDirectory inv) slash)
             (verr (ErrNew "contentDirectory contains '/'") (E017 spec)) v in
  let v := fatal_if (bool_decide (inv_ContentDirectory inv = ".") || bool_decide (inv_ContentDirectory inv = ".."))
             (verr (ErrNew "contentDirectory is '.' or '..'") (E017 spec)) v in
  let v := match inv_Manifest inv with
           | None => v
           | Some m =>
               let v := fatal_opt (manifest_error spec <$> DM_Valid m) v in
               check_manifest_used spec inv v
           end in
  let v := check_version_names imp inv v in
  let v := foldl (check_version spec inv) v (range 34 (versions inv)) in
  foldl (λ v fixity, fatal_opt (fixity_error spec <$> DM_Valid fixity) v) v (range 36 (inv_Fixity inv)).*2.

(** [src/inventory.go:60-70] Inventory.Validate *)
Definition Inventory_Validate (inv : Inventory) : Validation :=
  match getOCFL (it_Spec (inv_Type inv)) with
  | Ok imp => ValidateInventory imp inv
  | Err err => v_AddFatal new_Validation [ErrWrap "inventory has invalid 'type'" err]
  | Panic => new_Validation
  end.
End validate.

(** ** Errors that are appended as they are *)

Section single.
Context `{GoEnv}.

Lemma path_conflict_single l e : path_conflict l = Some e → single e.
Proof.
  induction l as [|p [|q l] IH]; cbn [path_conflict]; [done..|].
  destruct (_ || _); [by intros [= <-]|exact IH].
Qed.

Lemma validPaths_single l e : validPaths l = Some e → single e.
Proof.
  unfold validPaths. destruct (find_some _ l) as [e'|] eqn:Hf; [|apply path_conflict_single].
  intros [= <-]. apply find_some_Some in Hf as (p & _ & He). destruct (validPath p); by simplify_eq.
Qed.

Lemma digest_conflict_single l s e : digest_conflict l s = Some e → single e.
Proof.
  revert s. induction l as [|d l IH]; intros s; cbn; [done|].
  case_bool_decide; [by intros [= <-]|apply IH].
Qed.

Lemma DM_Valid_single m e : DM_Valid m = Some e → single e.
Proof.
  unfold DM_Valid, validDigests. destruct (hasDigestCase m) as [l u].
  destruct (if negb l || negb u then None else _) as [e'|] eqn:Hd.
  { intros [= <-]. destruct (negb l || negb u); [done|]. by eapply digest_conflict_single. }
  destruct (find_some _ _) as [e'|] eqn:Hf; [|apply validPaths_single].
  intros [= <-]. apply find_some_Some in Hf as ([d ps] & _ & He). by case_bool_decide; simplify_eq.
Qed.

Lemma VNum_Valid_single v e : VNum_Valid v = Some e → single e.
Proof. unfold VNum_Valid, err_vnum_invalid. repeat case_match; try done; by intros [= <-]. Qed.

Lemma VNums_check_single i p vs e : VNums_check i p vs = Some e → single e.
Proof.
  revert i. induction vs as [|v vs IH]; intros i; cbn; [done|].
  destruct (negb _); [by intros [= <-]|]. destruct (negb _); [by intros [= <-]|apply IH].
Qed.

Lemma VNums_Valid_single vs e : (VNums_Valid vs).2 = Some e → single e.
Proof.
  unfold VNums_Valid. destruct vs as [|v vs]; [by intros [= <-]|]. cbn [snd].
  destruct (VNums_check _ _ _) as [e'|] eqn:Hc; [|apply VNum_Valid_single].
  intros [= <-]. by eapply VNums_check_single.
Qed.
End single.

(** ** When no fatal error is added *)

Section no_fatal.
Context `{GoEnv, URLs, MultiError} `{!MultiErrorLaws}.
Implicit Types (v : Validation).

Definition no_fatal (v : Validation) : Prop := v_Errors v = [].

Lemma no_fatal_AddFatal v e : single e → no_fatal (v_AddFatal v [e]) ↔ False.
Proof.
  intros He. unfold no_fatal. rewrite v_Errors_AddFatal. cbn. rewrite He, app_nil_r.
  split; [|done]. by intros [_ ?]%app_eq_nil.
Qed.

Lemma no_fatal_AddWarn v es : no_fatal (v_AddWarn v es) ↔ no_fatal v.
Proof. done. Qed.

Lemma no_fatal_if b e v : single e → no_fatal (fatal_if b e v) ↔ no_fatal v ∧ b = false.
Proof. intros He. unfold fatal_if. destruct b; [rewrite no_fatal_AddFatal by done|]; naive_solver. Qed.

Lemma no_fatal_warn_if b e v : no_fatal (warn_if b e v) ↔ no_fatal v.
Proof. unfold warn_if. by destruct b. Qed.

Lemma no_fatal_opt o v : (∀ e, o = Some e → single e) → no_fatal (fatal_opt o v) ↔ no_fatal v ∧ o = None.
Proof. intros He. unfold fatal_opt. destruct o; [rewrite no_fatal_AddFatal by auto|]; naive_solver. Qed.

Lemma no_fatal_foldl {A} (f : Validation → A → Validation) (P : A → Prop) l v :
  (∀ v x, x ∈ l → no_fatal (f v x) ↔ no_fatal v ∧ P x) →
  no_fatal (foldl f v l) ↔ no_fatal v ∧ Forall P l.
Proof.
  revert v. induction l as [|x l IH]; intros v Hf; cbn.
  - rewrite Forall_nil. tauto.
  - rewrite IH; [|intros; apply Hf; by right]. rewrite (Hf v x ltac:(left)), Forall_cons. tauto.
Qed.

Lemma coded_single e c1 c2 c3 (b1 b2 b3 : bool) :
  single e → single (if b1 then verr e c1 else if b2 then verr e c2 else if b3 then verr e c3 else e).
Proof. intros He. destruct b1, b2, b3; by try apply verr_single. Qed.
End no_fatal.

Ltac solve_single := repeat first [done | apply verr_single | apply coded_single].

(** ** Every error is appended as it is *)

Section all_single.
Context `{GoEnv, URLs, MultiError} `{!MultiErrorLaws}.
Implicit Types (v : Validation).

Definition all_single (v : Validation) : Prop := Forall single (v_Errors v).

Lemma all_single_AddFatal v e : all_single v → single e → all_single (v_AddFatal v [e]).
Proof.
  intros Hv He. unfold all_single. rewrite v_Errors_AddFatal. cbn. rewrite He.
  apply Forall_app. split; [done|]. by constructor.
Qed.

Lemma all_single_AddWarn v es : all_single v → all_single (v_AddWarn v es).
Proof. done. Qed.

Lemma all_single_if b e v : all_single v → single e → all_single (fatal_if b e v).
Proof. destruct b; [apply all_single_AddFatal|done]. Qed.

Lemma all_single_warn_if b e v : all_single v → all_single (warn_if b e v).
Proof. by destruct b. Qed.

Lemma all_single_opt o v : all_single v → (∀ e, o = Some e → single e) → all_single (fatal_opt o v).
Proof. intros Hv Ho. destruct o; [apply all_single_AddFatal; auto|done]. Qed.

Lemma all_single_foldl {A} (f : Validation → A → Validation) l v :
  (∀ v x, all_single v → all_single (f v x)) → all_single v → all_single (foldl f v l).
Proof. intros Hf. revert v. induction l as [|x l IH]; intros v Hv; cbn; auto. Qed.

Lemma verr_new_single msg c : single (verr (ErrNew msg) c).
Proof. by apply verr_single. Qed.

Lemma fmap_single {A} (f : A → error) (o : option A) e :
  (∀ a, o = Some a → single (f a)) → f <$> o = Some e → single e.
Proof. destruct o; [|done]. intros Hf [= <-]. auto. Qed.
End all_single.

Create HintDb single.
#[export] Hint Resolve all_single_AddFatal all_single_AddWarn all_single_if all_single_warn_if
  all_single_opt all_single_foldl verr_new_single verr_single coded_single : single.

Section validate_single.
Context `{GoEnv, URLs, MultiError} `{!MultiErrorLaws}.

Lemma DM_Valid_coded (f : error → error) m e :
  (∀ e, single e → single (f e)) → f <$> DM_Valid m = Some e → single e.
Proof. intros Hf. apply fmap_single. intros a Ha. apply Hf. by eapply DM_Valid_single. Qed.

Lemma check_version_names_single imp inv v :
  all_single v → all_single (check_version_names imp inv v).
Proof.
  intros Hv. unfold check_version_names. pose proof (VNums_Valid_single (vnums inv)) as Hs.
  destruct (VNums_Valid (vnums inv)) as [vs err]. cbn in Hs.
  apply all_single_if; [|apply verr_new_single]. destruct err as [err|]; [|done].
  specialize (Hs err eq_refl).
  repeat case_match; auto with single.
  all: apply all_single_AddFatal; auto with single.
  all: apply all_single_if; [done|by apply verr_single].
Qed.

Lemma check_version_single spec inv v e : all_single v → all_single (check_version spec inv v e).
Proof.
  intros Hv. unfold check_version. destruct e as [vn [ver|]]; cbn; [|auto with single].
  assert (∀ v', all_single v' → all_single (check_user spec (VNum_String vn) ver v')) as Hu.
  { intros v' Hv'. unfold check_user. destruct (iv_User ver); auto 6 with single. }
  destruct (iv_State ver) as [st|]; [|auto 6 with single].
  apply all_single_foldl; [auto with single|].
  apply all_single_opt; [auto 6 with single|].
  intros e. apply DM_Valid_coded. intros. by apply coded_single.
Qed.

Lemma ValidateInventory_single imp inv : all_single (ValidateInventory imp inv).
Proof.
  unfold ValidateInventory. apply all_single_foldl.
  { intros v m Hv. apply all_single_opt; [done|]. intros e. apply DM_Valid_coded. intros. by apply coded_single. }
  apply all_single_foldl; [apply check_version_single|]. apply check_version_names_single.
  match goal with |- all_single match _ with Some m => check_manifest_used _ _ (_ _ ?v) | None => _ end =>
    assert (all_single v) as Hv end.
  { apply all_single_if; [|auto with single]. apply all_single_if; [|auto with single]. apply all_single_opt.
    2: { intros e. apply fmap_single. intros. by apply verr_single. }
    destruct (bool_decide (_ = SHA512)); [|destruct (bool_decide (_ = SHA256));
      [apply all_single_AddWarn|apply all_single_AddFatal; [|auto with single]]];
      apply all_single_warn_if; repeat (apply all_single_if; [|auto with single]); constructor. }
  destruct (inv_Manifest inv) as [m|]; [|done]. unfold check_manifest_used.
  apply all_single_foldl; [auto with single|]. apply all_single_opt; [done|].
  intros e. apply DM_Valid_coded. intros. by apply coded_single.
Qed.

Lemma Inventory_Validate_single inv : all_single (Inventory_Validate inv).
Proof.
  unfold Inventory_Validate. destruct (getOCFL _); [apply ValidateInventory_single| |constructor].
  apply all_single_AddFatal; [constructor|done].
Qed.

(** Adding a validation adds its errors. *)
Lemma no_fatal_Add v v2 : all_single v2 → no_fatal (v_Add v (Some v2)) ↔ no_fatal v ∧ no_fatal v2.
Proof.
  intros Hs. unfold no_fatal, v_Add. rewrite v_Errors_AddWarn, v_Errors_AddFatal, flat_single by done.
  split; [apply app_eq_nil|]. by intros [-> ->].
Qed.
End validate_single.

(** ** Well-formed inventories *)

Section well_formed.
Context `{GoEnv}.

(** A version block: its metadata, and a state whose digests have content. *)
Record version_ok (m : DigestMap) (ver : InventoryVersion) : Prop := {
  vok_created : Time_IsZero (iv_Created ver) = false;
  vok_user : ∀ user, iv_User ver = Some user → user_Name user ≠ "";
  vok_state : ∃ st, iv_State ver = Some st ∧ DM_ok st
    ∧ ∀ d, is_Some (st !! d) → paths_of m d ≠ []
}.

Record inventory_ok (spec : Spec) (inv : Inventory) : Prop := {
  iok_type : it_Spec (inv_Type inv) = spec ∧ spec ≠ "";
  iok_id : inv_ID inv ≠ "";
  iok_alg : inv_DigestAlgorithm inv = SHA512 ∨ inv_DigestAlgorithm inv = SHA256;
  iok_contdir : no_slash (inv_ContentDirectory inv)
    ∧ inv_ContentDirectory inv ≠ "." ∧ inv_ContentDirectory inv ≠ "..";
  (* the manifest is valid and each of its digests is used by a version *)
  iok_manifest : ∃ m, inv_Manifest inv = Some m ∧ DM_ok m
    ∧ ∀ d, is_Some (m !! d) → ∃ vn ver, versions inv !! vn = Some (Some ver)
                                ∧ paths_of (state_of ver) d ≠ [];
  (* the versions are v1..head *)
  iok_head : VNum_Valid (inv_Head inv) = None;
  iok_versions : inv_Versions inv ≠ None
    ∧ ∀ vn, is_Some (versions inv !! vn) ↔
        0 < num vn ≤ num (inv_Head inv) ∧ padding vn = padding (inv_Head inv);
  iok_states : ∀ vn ver, versions inv !! vn = Some ver →
    ∃ ver', ver = Some ver' ∧ version_ok (manifest inv) ver';
  iok_fixity : ∀ alg m, inv_Fixity inv !! alg = Some m → DM_ok m
}.

(** All digests of the inventory are ASCII strings. *)
Definition inv_ascii (inv : Inventory) : Prop :=
  ascii_keys (manifest inv)
  ∧ (∀ vn ver, versions inv !! vn = Some (Some ver) → ascii_keys (state_of ver))
  ∧ (∀ alg m, inv_Fixity inv !! alg = Some m → ascii_keys m).
End well_formed.

Section validate_spec.
Context `{GoEnv, URLs, MultiError} `{!MultiErrorLaws}.

Lemma Forall_range_keys {K} `{Countable K} {V} site (m : gmap K V) (P : K → Prop) :
  Forall P (range site m).*1 ↔ ∀ k, is_Some (m !! k) → P k.
Proof.
  rewrite Forall_fmap, Forall_range. unfold is_Some, compose. cbn. naive_solver.
Qed.

Lemma Forall_range_values {K} `{Countable K} {V} site (m : gmap K V) (P : V → Prop) :
  Forall P (range site m).*2 ↔ ∀ k v, m !! k = Some v → P v.
Proof. rewrite Forall_fmap, Forall_range. done. Qed.

Lemma digest_used_true inv d :
  digest_used inv d = true ↔
  ∃ vn ver, versions inv !! vn = Some (Some ver) ∧ paths_of (state_of ver) d ≠ [].
Proof.
  unfold digest_used. rewrite existsb_exists. split.
  - intros ([vn [ver|]] & Hin%list_elem_of_In & Hv); [|done]. apply range_elem in Hin.
    bool_to_prop. eauto.
  - intros (vn & ver & Hin & Hv). exists (vn, Some ver). split.
    + by apply list_elem_of_In, range_elem.
    + by bool_to_prop.
Qed.

Lemma check_manifest_used_ok spec inv v :
  no_fatal (check_manifest_used spec inv v) ↔
  no_fatal v ∧ ∀ d, is_Some (manifest inv !! d) →
    ∃ vn ver, versions inv !! vn = Some (Some ver) ∧ paths_of (state_of ver) d ≠ [].
Proof.
  unfold check_manifest_used.
  rewrite (no_fatal_foldl _ (λ d, digest_used inv d = true)), Forall_range_keys.
  - by setoid_rewrite digest_used_true.
  - intros v' d _. rewrite no_fatal_if by solve_single. by rewrite negb_false_iff.
Qed.

Lemma vnums_keys inv : vnums inv ≡ₚ (map_to_list (versions inv)).*1.
Proof. unfold vnums. by rewrite sort_slice_perm, range_perm. Qed.

(** The version names are those up to the head. *)
Lemma vnums_lineage inv n p :
  0 ≤ n → vnums inv ≡ₚ lineage n p ↔
  ∀ vn, is_Some (versions inv !! vn) ↔ 0 < num vn ≤ n ∧ padding vn = p.
Proof.
  intros Hn. rewrite vnums_keys. split.
  - intros Hp vn. rewrite <- lineage_elem, <- Hp, list_elem_of_fmap. split.
    + intros [ver Hv]. exists (vn, ver). by rewrite elem_of_map_to_list.
    + intros ([vn' ver] & -> & Hin). exists ver. by apply elem_of_map_to_list in Hin.
  - intros Hv. apply NoDup_Permutation; [apply NoDup_fst_map_to_list|apply lineage_NoDup|].
    intros vn. rewrite lineage_elem, <- Hv, list_elem_of_fmap. split.
    + intros ([vn' ver] & -> & Hin). exists ver. by apply elem_of_map_to_list in Hin.
    + intros [ver Hver]. exists (vn, ver). by rewrite elem_of_map_to_list.
Qed.

Lemma check_version_names_ok imp inv v :
  no_fatal (check_version_names imp inv v) ↔
  no_fatal v ∧ VNum_Valid (inv_Head inv) = None
  ∧ ∀ vn, is_Some (versions inv !! vn) ↔
      0 < num vn ≤ num (inv_Head inv) ∧ padding vn = padding (inv_Head inv).
Proof.
  unfold check_version_names. pose proof (VNums_Valid_None (vnums inv)) as Hvalid.
  pose proof (VNums_Valid_single (vnums inv)) as Hsingle.
  pose proof (VNums_Valid_lineage (vnums inv) (num (inv_Head inv)) (padding (inv_Head inv))) as Hlin.
  assert (mkVNum (num (inv_Head inv)) (padding (inv_Head inv)) = inv_Head inv) as Heta
    by (by destruct (inv_Head inv)). rewrite Heta in Hlin.
  destruct (VNums_Valid (vnums inv)) as [vs err]. cbn [fst snd] in *.
  rewrite no_fatal_if by solve_single. rewrite negb_false_iff, bool_decide_eq_true. split.
  - intros [Hf Hhead]. destruct err as [err|].
    + exfalso. specialize (Hsingle err eq_refl). revert Hf.
      destruct (errors_Is err _); [by apply no_fatal_AddFatal, verr_single|].
      destruct (errors_Is err _); [by apply no_fatal_AddFatal, verr_single|].
      destruct (errors_Is err _); [|by apply no_fatal_AddFatal].
      destruct (mixed_padding _ _ _). by apply no_fatal_AddFatal, verr_single.
    + destruct (proj1 Hvalid eq_refl) as (n & p & Hv & Hp & Hvs & Hh). rewrite Hhead in Hh.
      rewrite Hh in *. cbn [num padding]. split_and!; [done..|].
      apply vnums_lineage; [|done]. apply VNum_Valid_None in Hv as [Hn _]. cbn in Hn. lia.
  - intros (Hf & Hh & Hk). pose proof Hh as [Hn _]%VNum_Valid_None.
    apply vnums_lineage in Hk; [|lia]. injection (Hlin Hh Hk) as -> ->. split; [done|].
    unfold VNums_Head. by rewrite last_lineage, Heta.
Qed.

Lemma check_user_ok spec vname ver v :
  no_fatal (check_user spec vname ver v) ↔
  no_fatal v ∧ ∀ user, iv_User ver = Some user → user_Name user ≠ "".
Proof.
  unfold check_user. destruct (iv_User ver) as [user|].
  - rewrite !no_fatal_warn_if, no_fatal_if, bool_decide_eq_false by solve_single. naive_solver.
  - rewrite no_fatal_AddWarn. naive_solver.
Qed.

Lemma check_version_ok spec inv v vn ver :
  (∀ ver', ver = Some ver' → ascii_keys (state_of ver')) →
  no_fatal (check_version spec inv v (vn, ver)) ↔
  no_fatal v ∧ ∃ ver', ver = Some ver' ∧ version_ok (manifest inv) ver'.
Proof.
  intros Ha. unfold check_version. cbn [fst snd]. destruct ver as [ver|].
  2: { rewrite no_fatal_AddFatal by solve_single. naive_solver. }
  specialize (Ha ver eq_refl).
  destruct (iv_State ver) as [st|] eqn:Hst.
  - unfold state_of in Ha. rewrite Hst in Ha. cbn in Ha.
    rewrite (no_fatal_foldl _ (λ d, paths_of (manifest inv) d ≠ [])), Forall_range_keys.
    2: { intros v' d _. by rewrite no_fatal_if, bool_decide_eq_false by solve_single. }
    rewrite no_fatal_opt. 2: { intros e. destruct (DM_Valid st) eqn:Hd; [|done]. intros [= <-].
      apply coded_single. by eapply DM_Valid_single. }
    rewrite check_user_ok, no_fatal_warn_if, no_fatal_if by solve_single.
    rewrite fmap_None, DM_Valid_None by done. split.
    + intros [[[[Hv Hc] Hu] Hd] Hp]. split; [done|]. exists ver. split; [done|].
      split; [done..|]. by exists st.
    + intros (Hv & ver' & [= <-] & [Hc Hu (st' & Hst' & Hd & Hp)]). simplify_eq. done.
  - rewrite no_fatal_AddFatal by solve_single. split; [done|].
    intros (_ & ver' & [= <-] & [_ _ (st' & ? & _)]). congruence.
Qed.

Lemma check_alg_ok spec alg v :
  no_fatal (if bool_decide (alg = SHA512) then v
            else if bool_decide (alg = SHA256)
            then v_AddWarn v [verr (ErrNew "'digestAlgorithm' is sha256") (W004 spec)]
            else v_AddFatal v [verr (ErrNew "'digestAlgorithm' is not sha512 or sha256") (E025 spec)])
  ↔ no_fatal v ∧ (alg = SHA512 ∨ alg = SHA256).
Proof.
  case_bool_decide; [tauto|]. case_bool_decide; [rewrite no_fatal_AddWarn; tauto|].
  rewrite no_fatal_AddFatal by solve_single. tauto.
Qed.

Lemma check_manifest_ok spec inv v :
  no_fatal (match inv_Manifest inv with
            | None => v
            | Some m => check_manifest_used spec inv (fatal_opt (manifest_error spec <$> DM_Valid m) v)
            end)
  ↔ no_fatal v ∧ (∀ m, inv_Manifest inv = Some m → DM_Valid m = None)
    ∧ ∀ d, is_Some (manifest inv !! d) →
        ∃ vn ver, versions inv !! vn = Some (Some ver) ∧ paths_of (state_of ver) d ≠ [].
Proof.
  destruct (inv_Manifest inv) as [m|] eqn:Hm.
  - rewrite check_manifest_used_ok, no_fatal_opt, fmap_None; [naive_solver|].
    intros e. destruct (DM_Valid m) eqn:Hd; [|done]. intros [= <-].
    apply coded_single. by eapply DM_Valid_single.
  - unfold manifest. rewrite Hm. cbn. split; [|tauto]. intros Hv. split; [done|]. split; [done|].
    intros d [ps Hd]. by rewrite lookup_empty in Hd.
Qed.

Lemma ValidateInventory_ok imp inv :
  inv_ascii inv →
  v_Err (ValidateInventory imp inv) = None ↔ inventory_ok (v1Spec imp) inv.
Proof.
  intros (Hm & Hs & Hf). rewrite v_Err_None. fold (no_fatal (ValidateInventory imp inv)).
  unfold ValidateInventory. set (spec := v1Spec imp).
  rewrite (no_fatal_foldl _ (λ m, DM_Valid m = None)), Forall_range_values.
  2: { intros v m _. rewrite no_fatal_opt, fmap_None; [done|]. intros e.
    destruct (DM_Valid m) eqn:Hd; [|done]. intros [= <-]. apply coded_single. by eapply DM_Valid_single. }
  rewrite (no_fatal_foldl _ (λ e, ∃ ver', e.2 = Some ver' ∧ version_ok (manifest inv) ver')), Forall_range.
  2: { intros v [vn ver] Hin%range_elem. apply check_version_ok. intros ver'. cbn. intros ->. by eapply Hs. }
  rewrite check_version_names_ok, check_manifest_ok, no_fatal_if by solve_single.
  rewrite no_fatal_if by solve_single.
  rewrite no_fatal_opt by (intros e; destruct (VNum_Valid _); [intros [= <-]; solve_single|done]).
  rewrite check_alg_ok, no_fatal_warn_if.
  rewrite !no_fatal_if by solve_single.
  unfold Spec_Empty. rewrite fmap_None, orb_false_iff, negb_false_iff, !bool_decide_eq_false, bool_decide_eq_true.
  split.
  - intros Hall. destruct_and! Hall.
    assert (∃ m, inv_Manifest inv = Some m) as [m Em] by (destruct (inv_Manifest inv); [eauto|done]).
    assert (∃ vs, inv_Versions inv = Some vs) as [vs Ev] by (destruct (inv_Versions inv); [eauto|done]).
    assert (manifest inv = m) as Emm by (unfold manifest; by rewrite Em). rewrite Emm in *.
    split; try done.
    + split; congruence.
    + exists m. split_and!; [done|apply DM_Valid_None; auto|done].
    + by rewrite Ev.
    + by rewrite Emm.
    + intros alg m' Hm'. apply DM_Valid_None; eauto.
  - intros [[Ht Hne] Hid Halg (Hsl & Hcd1 & Hcd2) (m & Em & Hd & Hu) Hh [Ev Hv] Hst Hfix].
    assert (manifest inv = m) as Emm by (unfold manifest; by rewrite Em). rewrite Emm in *.
    pose proof Hh as [Hn _]%VNum_Valid_None.
    split_and!; try done; try congruence.
    + unfold IsZero. apply andb_false_iff. left. apply Z.eqb_neq. lia.
    + by rewrite Em.
    + by destruct (inv_Versions inv).
    + intros m' Hm'. simplify_eq. by apply DM_Valid_None.
    + intros alg m' Hm'. apply DM_Valid_None; eauto.
Qed.
Lemma getOCFL_spec spec imp : getOCFL spec = Ok imp → v1Spec imp = spec.
Proof. unfold getOCFL. repeat case_match; intros; by simplify_eq. Qed.

Lemma Inventory_Validate_ok inv :
  inv_ascii inv → v_Err (Inventory_Validate inv) = None → inventory_ok (it_Spec (inv_Type inv)) inv.
Proof.
  intros Ha. unfold Inventory_Validate. destruct (getOCFL _) as [imp|err|] eqn:Himp.
  - apply getOCFL_spec in Himp as <-. by apply ValidateInventory_ok.
  - rewrite v_Err_None, v_Errors_AddFatal. intros [_ Hf]%app_eq_nil.
    by rewrite flat_single in Hf by (by repeat constructor).
  - unfold getOCFL in Himp. by repeat case_match.
Qed.

(** C10. [ValidateInventory] reports no fatal error exactly on the well-formed
    inventories: the required fields, a supported algorithm, a valid manifest
    whose digests are all used, the versions v1 to the head without gaps, valid
    version states whose digests all have content, and valid fixity blocks.
    Warnings never make an inventory invalid. *)
Theorem ValidateInventory_iff imp inv :
  inv_ascii inv →
  v_Err (ValidateInventory imp inv) = None ↔ inventory_ok (v1Spec imp) inv.
Proof. apply ValidateInventory_ok. Qed.
End validate_spec.

(** ** Concrete instances *)

Definition ref_urls : URLs := {| url_scheme := λ s, if HasPrefix s "http" then Some "http" else None |}.

Lemma single_digest_ascii d ps : is_ascii d = true → ascii_keys {[d := ps]}.
Proof. intros Hd d' [ps' [-> _]%lookup_singleton_Some]. done. Qed.

Lemma ValidateInventory_iff_witness : @inventory_ok ref_env Spec1_1 ex_inventory.
Proof.
  apply (@ValidateInventory_iff ref_env ref_urls ref_multierror ref_multierror_laws (mkOcflV1 Spec1_1)).
  - split_and!.
    + by apply single_digest_ascii.
    + intros vn ver. unfold versions, ex_inventory. cbn. intros [_ [= <-]]%lookup_singleton_Some.
      by apply single_digest_ascii.
    + intros alg m Hm. cbn in Hm. by rewrite lookup_empty in Hm.
  - by vm_compute.
Defined.
