(* ===== verification/InventoryBytes.v ===== *)
(** * Reading inventories ([src/ocflv1.go] [ValidateInventoryBytes],
    [src/inventory.go] readers)

    The full validation of the bytes of an inventory.json file against the JSON
    values it decodes to, and the readers that return an inventory only if it is
    valid.  The decoders of [encoding/json] and [time] are arguments. *)
From S2P Require Import Prelude GoStd VNum DigestMap Spec FS Digest Codes Validation.
From S2P Require Import Inventory OcflInventory.

(** A value decoded by [encoding/json] into [any]. *)
Inductive json : Type :=
  | JNull
  | JBool (b : bool)
  | JNumber (repr : string)
  | JString (s : string)
  | JArray (l : list json)
  | JObject (m : gmap string json).

(** The decoders: to a map, to an inventory without unknown fields, to the "type"
    field, and the text format of times. *)
Class Decoders := {
  json_Unmarshal : string → result (gmap string json);
  json_Decode : string → result Inventory;
  json_DecodeType : string → result InventoryType;
  time_UnmarshalText : string → result Time
}.

Definition as_string (j : json) : option string := match j with JString s => Some s | _ => None end.
Definition as_object (j : json) : option (gmap string json) :=
  match j with JObject m => Some m | _ => None end.
Definition as_array (j : json) : option (list json) := match j with JArray l => Some l | _ => None end.

Record got (T : Type) := mkGot { got_val : T; got_exists : bool; got_typeOK : bool }.
Arguments mkGot {T} got_val got_exists got_typeOK.
Arguments got_val {T} g.
Arguments got_exists {T} g.
Arguments got_typeOK {T} g.

(** [src/ocflv1.go:667-673] jsonMapGet: the value, whether it exists and has the
    type, and the map without the key *)
Definition jsonMapGet {T} (as_T : json → option T) (zero : T) (m : gmap string json) (key : string)
    : got T * gmap string json :=
  let anyVal := m !! key in
  let val := anyVal ≫= as_T in
  (mkGot (default zero val)
         (match anyVal with Some _ => true | None => false end)
         (match val with Some _ => true | None => false end),
   delete key m).

Section bytes.
Context `{GoEnv, URLs, MultiError, Hashes, Decoders}.

Definition err_string_array : error := ErrNew "invalid json type: expected array of strings".

Fixpoint convert_entries (l : list (string * json)) (m : DigestMap) : result DigestMap :=
  match l with
  | [] => inl m
  | (key, mapVal) :: l =>
      match as_array mapVal with
      | None => inr err_string_array
      | Some slice =>
          match mapM as_string slice with
          | None => inr err_string_array
          | Some strs => convert_entries l (<[key := strs]> m)
          end
      end
  end.

(** [src/ocflv1.go:675-693] convertJSONDigestMap *)
Definition convertJSONDigestMap (jsonMap : gmap string json) : result DigestMap :=
  convert_entries (range 40 jsonMap) ∅.

Definition required_missing {T} (g : got T) : bool := negb (got_exists g) || negb (got_typeOK g).
Definition optional_bad {T} (g : got T) : bool := got_exists g && negb (got_typeOK g).

Definition required_err (field : string) : error :=
  ErrNew ("required field is missing or has unexpected json value: " +:+ field).
Definition optional_err (field : string) : error :=
  ErrNew ("optional field has unexpected json value: " +:+ field).

(** [src/ocflv1.go:369-389] the user of a version block *)
Definition read_user (spec : string) (versionVals : gmap string json) (v : Validation)
    : Validation * option User * gmap string json :=
  let '(userVals, versionVals) := jsonMapGet as_object ∅ versionVals "user" in
  if got_exists userVals && negb (got_typeOK userVals)
  then (v_AddFatal v [verr (optional_err "user") (E054 spec)], None, versionVals)
  else if got_exists userVals then
    let '(userName, uv) := jsonMapGet as_string "" (got_val userVals) "name" in
    let v := fatal_if (required_missing userName) (verr (required_err "name") (E054 spec)) v in
    let '(userAddress, _) := jsonMapGet as_string "" uv "address" in
    let v := fatal_if (optional_bad userAddress) (verr (optional_err "address") (E054 spec)) v in
    (v, Some (mkUser (got_val userName) (got_val userAddress)), versionVals)
  else (v, None, versionVals).

(** [src/ocflv1.go:352-357] the time of a version block; [UnmarshalText] leaves the
    zero time when it fails *)
Definition read_created (spec createdStr : string) (v : Validation) : Validation * Time :=
  if bool_decide (createdStr = "") then (v, Time_zero)
  else match time_UnmarshalText createdStr with
       | inl t => (v, t)
       | inr err => (v_AddFatal v [verr (ErrWrap "created" err) (E049 spec)], Time_zero)
       end.

(** A call that adds its error to the validation and yields nil. *)
Definition convert_or (wrap : error → error) (m : gmap string json) (v : Validation)
    : Validation * option DigestMap :=
  match convertJSONDigestMap m with
  | inl d => (v, Some d)
  | inr err => (v_AddFatal v [wrap err], None)
  end.

Definition unexpected_fields (site : nat) (m : gmap string json) (v : Validation) : Validation :=
  foldl (λ v extra, v_AddFatal v [ErrNew ("unexpected field: " +:+ extra)]) v (range site m).*1.

(** [src/ocflv1.go:323-406] body of the loop over the version blocks *)
Definition read_version (spec : string) (acc : Validation * gmap VNum (option InventoryVersion))
    (e : string * json) : Validation * gmap VNum (option InventoryVersion) :=
  let '(v, vers) := acc in
  let '(vnumStr, val) := e in
  match ParseVNum vnumStr with
  | Ok vnum =>
      let '(v, versionVals) :=
        match as_object val with
        | Some m => (v, m)
        | None => (v_AddFatal v [verr (ErrNew (vnumStr +:+ ": value is not a json object")) (E045 spec)], ∅)
        end in
      let '(createdStr, versionVals) := jsonMapGet as_string "" versionVals "created" in
      let v := fatal_if (required_missing createdStr) (verr (required_err "created") (E048 spec)) v in
      let '(v, created) := read_created spec (got_val createdStr) v in
      let '(stateVals, versionVals) := jsonMapGet as_object ∅ versionVals "state" in
      let v := fatal_if (required_missing stateVals) (verr (required_err "state") (E048 spec)) v in
      let '(message, versionVals) := jsonMapGet as_string "" versionVals "message" in
      let v := fatal_if (optional_bad message) (verr (optional_err "message") (E094 spec)) v in
      let '(v, user, versionVals) := read_user spec versionVals v in
      let v := unexpected_fields 42 versionVals v in
      let '(v, state) := convert_or (λ err, ErrWrap (vnumStr +:+ ": state") err) (got_val stateVals) v in
      (v, <[vnum := Some (mkInventoryVersion created state (got_val message) user)]> vers)
  | Err err => (v_AddFatal v [verr (ErrWrap ("invalid key in versions block: " +:+ vnumStr) err) (E046 spec)], vers)
  | Panic => (v, vers)
  end.

(** [src/ocflv1.go:407-424] body of the loop over the fixity blocks *)
Definition read_fixity (spec : string) (acc : Validation * gmap string DigestMap)
    (e : string * json) : Validation * gmap string DigestMap :=
  let '(v, fixity) := acc in
  let '(algStr, val) := e in
  match as_object val with
  | None => (v_AddFatal v [verr (ErrNew (algStr +:+ ": value is not a json object")) (E057 spec)], fixity)
  | Some digestVals =>
      match convertJSONDigestMap digestVals with
      | inr err => (v_AddFatal v [verr (ErrWrap algStr err) (E057 spec)], fixity)
      | inl digests => (v, <[algStr := digests]> fixity)
      end
  end.

(** What the top-level fields of the JSON object give. *)
Definition read_inventory (imp : ocflV1) (invMap : gmap string json) (v : Validation)
    : Validation * Inventory :=
  let spec := v1Spec imp in
  let '(id, invMap) := jsonMapGet as_string "" invMap "id" in
  let v := fatal_if (required_missing id) (verr (required_err "id") (E036 spec)) v in
  let '(typeStr, invMap) := jsonMapGet as_string "" invMap "type" in
  let v := fatal_if (required_missing typeStr) (verr (required_err "type") (E036 spec)) v in
  let v := fatal_if (negb (bool_decide (got_val typeStr = ""))
                     && negb (bool_decide (got_val typeStr = InventoryType_String (mkInventoryType spec))))
             (verr (ErrNew ("invalid inventory type value: " +:+ got_val typeStr)) (E038 spec)) v in
  let '(digestAlg, invMap) := jsonMapGet as_string "" invMap "digestAlgorithm" in
  let v := fatal_if (required_missing digestAlg) (verr (required_err "digestAlgorithm") (E036 spec)) v in
  let v := fatal_if (negb (bool_decide (got_val digestAlg = ""))
                     && negb (bool_decide (got_val digestAlg = SHA512))
                     && negb (bool_decide (got_val digestAlg = SHA256)))
             (verr (ErrNew ("invalid digest algorithm: " +:+ got_val digestAlg)) (E025 spec)) v in
  let '(head, invMap) := jsonMapGet as_string "" invMap "head" in
  let v := fatal_if (required_missing head) (verr (required_err "head") (E036 spec)) v in
  let '(manifestVals, invMap) := jsonMapGet as_object ∅ invMap "manifest" in
  let v := fatal_if (required_missing manifestVals) (verr (required_err "manifest") (E041 spec)) v in
  let '(versionsVals, invMap) := jsonMapGet as_object ∅ invMap "versions" in
  let v := fatal_if (required_missing versionsVals) (verr (required_err "versions") (E043 spec)) v in
  let '(contentDirectory, invMap) := jsonMapGet as_string "" invMap "contentDirectory" in
  let v := fatal_if (optional_bad contentDirectory) (optional_err "contentDirectory") v in
  let '(fixityVals, invMap) := jsonMapGet as_object ∅ invMap "fixity" in
  let v := fatal_if (optional_bad fixityVals) (verr (optional_err "fixity") (E111 spec)) v in
  let v := unexpected_fields 41 invMap v in
  let '(v, type) := match InventoryType_UnmarshalText (got_val typeStr) with
    | Ok t => (v, t)
    | Err err => (v_AddFatal v [verr err (E038 spec)], mkInventoryType "")
    | Panic => (v, mkInventoryType "")
    end in
  let '(v, head) := match VNum_UnmarshalText (got_val head) with
    | Ok h => (v, h)
    | Err err => (v_AddFatal v [verr err (E040 spec)], mkVNum 0 0)
    | Panic => (v, mkVNum 0 0)
    end in
  let '(v, man) := convert_or (λ err, verr (ErrWrap "invalid manifest" err) (E092 spec)) (got_val manifestVals) v in
  let '(v, vers) := foldl (read_version spec) (v, ∅) (range 43 (got_val versionsVals)) in
  let '(v, fixity) := foldl (read_fixity spec) (v, ∅) (range 44 (got_val fixityVals)) in
  (v, mkInventory (got_val id) type (got_val digestAlg) head (got_val contentDirectory) man (Some vers) fixity).

(** [src/ocflv1.go:236-433] ocflV1.ValidateInventoryBytes *)
Definition ValidateInventoryBytes_v1 (imp : ocflV1) (raw : string) : option StoredInventory * Validation :=
  let spec := v1Spec imp in
  match json_Unmarshal raw with
  | inr err => (None, v_AddFatal new_Validation [verr (ErrWrap "decoding inventory json" err) (E033 spec)])
  | inl invMap =>
      let '(v, inv) := read_inventory imp invMap new_Validation in
      let '(v, si) := match setRaw inv raw with
        | inl si => (v, si)
        | inr err => (v_AddFatal v [err], mkStoredInventory inv "" "")
        end in
      let v := v_Add v (Some (Inventory_Validate (si_Inventory si))) in
      match v_Err v with
      | Some _ => (None, v)
      | None => (Some si, v)
      end
  end.

(** [src/inventory.go:280-289] getInventoryOCFL *)
Definition getInventoryOCFL (byts : string) : res ocflV1 :=
  match json_DecodeType byts with
  | inr err => Err err
  | inl t => getOCFL (it_Spec t)
  end.

(** [src/inventory.go:260-269] ValidateInventoryBytes *)
Definition ValidateInventoryBytes (byts : string) : option StoredInventory * Validation :=
  let imp := match getInventoryOCFL byts with Ok imp => imp | _ => defaultOCFL end in
  ValidateInventoryBytes_v1 imp byts.

(** [src/inventory.go:169-183] newStoredInventory *)
Definition newStoredInventory (raw : string) : result StoredInventory :=
  match json_Decode raw with
  | inr err => inr err
  | inl inv =>
      match setRaw inv raw with
      | inr err => inr err
      | inl si =>
          match v_Err (Inventory_Validate (si_Inventory si)) with
          | Some err => inr err
          | None => inl si
          end
      end
  end.

(** [src/inventory.go:147-156] NewStoredInventory *)
Definition NewStoredInventory (r : reader) : result StoredInventory :=
  match rd_err r with
  | Some err => inr (ErrWrap "reading inventory contents" err)
  | None => newStoredInventory (rd_data r)
  end.

(** [src/inventory.go:195-207] StoredInventory.UnmarshalBinary *)
Definition si_UnmarshalBinary (data : string) : result StoredInventory := newStoredInventory data.

(** [src/inventory.go:189-193] StoredInventory.MarshalBinary *)
Definition si_MarshalBinary (inv : StoredInventory) : string := si_bytes inv.

Context {W FS : Type} `{!FileSystems W FS}.

(** [src/inventory.go:158-167] ReadInventory *)
Definition ReadInventory (fsys : FS) (dir : string) (w : W) : result StoredInventory :=
  match OpenFile fsys (Join [dir; inventoryBase]) w with
  | inr err => inr err
  | inl f => NewStoredInventory (f_reader f)
  end.
End bytes.

(** ** Accepted bytes give well-formed inventories *)

Section sound.
Context `{GoEnv, URLs, MultiError, Hashes, Decoders} `{!MultiErrorLaws}.
Implicit Types (v : Validation).

Lemma AddFatal_mono v es : no_fatal (v_AddFatal v es) → no_fatal v.
Proof. unfold no_fatal. rewrite v_Errors_AddFatal. by intros [? _]%app_eq_nil. Qed.

Lemma fatal_if_mono b e v : no_fatal (fatal_if b e v) → no_fatal v.
Proof. destruct b; [apply AddFatal_mono|done]. Qed.

Lemma foldl_mono {A} (f : Validation → A → Validation) l v :
  (∀ v x, no_fatal (f v x) → no_fatal v) → no_fatal (foldl f v l) → no_fatal v.
Proof. intros Hf. revert v. induction l as [|x l IH]; intros v; cbn; [done|]. intros Hv. by eapply Hf, IH. Qed.

Lemma foldl_fst_mono {A B} (f : Validation * B → A → Validation * B) l acc :
  (∀ acc x, no_fatal (f acc x).1 → no_fatal acc.1) → no_fatal (foldl f acc l).1 → no_fatal acc.1.
Proof. intros Hf. revert acc. induction l as [|x l IH]; intros acc; cbn; [done|]. intros Hv. by eapply Hf, IH. Qed.

Lemma convert_or_mono wrap m v : no_fatal (convert_or wrap m v).1 → no_fatal v.
Proof. unfold convert_or. destruct (convertJSONDigestMap m); [done|apply AddFatal_mono]. Qed.

Lemma unexpected_fields_mono site m v : no_fatal (unexpected_fields site m v) → no_fatal v.
Proof. apply foldl_mono. intros v' x. apply AddFatal_mono. Qed.

Lemma read_created_mono spec s v : no_fatal (read_created spec s v).1 → no_fatal v.
Proof. unfold read_created. repeat case_match; try done. apply AddFatal_mono. Qed.

Lemma read_user_mono spec m v : no_fatal (read_user spec m v).1.1 → no_fatal v.
Proof.
  unfold read_user. repeat case_match; simplify_eq; cbn; try done; try apply AddFatal_mono.
  intros Hv. by eapply fatal_if_mono, fatal_if_mono.
Qed.

(** Forward through the steps of a reader. *)
Ltac peel :=
  repeat match goal with
  | Hv : no_fatal (fatal_if _ _ _) |- _ => apply fatal_if_mono in Hv
  | Hv : no_fatal (unexpected_fields _ _ _) |- _ => apply unexpected_fields_mono in Hv
  | Hv : no_fatal ?v, Hc : convert_or ?w ?m ?v' = (?v, _) |- _ =>
      apply (f_equal fst) in Hc; cbn in Hc; rewrite <- Hc in Hv; clear Hc; apply convert_or_mono in Hv
  | Hv : no_fatal ?v, Hc : read_created ?sp ?s ?v' = (?v, _) |- _ =>
      apply (f_equal fst) in Hc; cbn in Hc; rewrite <- Hc in Hv; clear Hc; apply read_created_mono in Hv
  | Hv : no_fatal ?v, Hc : read_user ?sp ?m ?v' = (?v, _, _) |- _ =>
      apply (f_equal (λ p, p.1.1)) in Hc; cbn in Hc; rewrite <- Hc in Hv; clear Hc; apply read_user_mono in Hv
  end.

Lemma read_version_mono spec acc e : no_fatal (read_version spec acc e).1 → no_fatal acc.1.
Proof.
  unfold read_version. destruct acc as [v vers], e as [s val].
  destruct (ParseVNum s) as [vn|err|]; cbn [fst]; [|apply AddFatal_mono|done].
  destruct (match as_object val with Some m => _ | None => _ end) as [v1 m1] eqn:E1.
  destruct (jsonMapGet as_string "" m1 "created") as [g1 m2].
  destruct (read_created _ _ _) as [v2 created] eqn:E2.
  destruct (jsonMapGet as_object ∅ m2 "state") as [g2 m3].
  destruct (jsonMapGet as_string "" m3 "message") as [g3 m4].
  destruct (read_user _ _ _) as [[v3 user] m5] eqn:E3.
  destruct (convert_or _ _ _) as [v4 st] eqn:E4. cbn [fst]. intros Hv. peel.
  destruct (as_object val); injection E1 as <- _; [done|]. by apply AddFatal_mono in Hv.
Qed.

Lemma read_fixity_mono spec acc e : no_fatal (read_fixity spec acc e).1 → no_fatal acc.1.
Proof.
  unfold read_fixity. destruct acc as [v fx], e as [s val].
  destruct (as_object val); [|apply AddFatal_mono].
  destruct (convertJSONDigestMap _); [done|apply AddFatal_mono].
Qed.

Lemma UnmarshalText_single t e : InventoryType_UnmarshalText t = Err e → single e.
Proof.
  unfold InventoryType_UnmarshalText, Spec_Valid. repeat case_match; intros; simplify_eq; done.
Qed.

Lemma declared_type spec ty t v e :
  single e → InventoryType_UnmarshalText ty = Ok t →
  no_fatal (fatal_if (negb (bool_decide (ty = ""))
                      && negb (bool_decide (ty = InventoryType_String (mkInventoryType spec)))) e v) →
  it_Spec t = spec.
Proof.
  intros He Ht. rewrite no_fatal_if by done. intros [_ Hty].
  rewrite andb_false_iff, !negb_false_iff, !bool_decide_eq_true in Hty.
  destruct Hty as [Hty|Hty]; rewrite Hty in Ht; [discriminate Ht|].
  unfold InventoryType_UnmarshalText, InventoryType_String in Ht.
  cbn [it_Spec] in Ht. rewrite TrimPrefix_app, TrimSuffix_app in Ht.
  destruct (Spec_Valid _); [done|]. by injection Ht as <-.
Qed.

Lemma setRaw_inl inv raw si : setRaw inv raw = inl si →
  si_Inventory si = inv ∧ si_bytes si = raw ∧ digest_bytes (inv_DigestAlgorithm inv) raw = inl (si_digest si).
Proof. unfold setRaw. destruct (digest_bytes _ _); [|done]. by intros [= <-]. Qed.

Lemma setRaw_flat inv raw e : setRaw inv raw = inr e → me_flat e = [e].
Proof.
  unfold setRaw, digest_bytes, reg_Get. repeat case_match; intros; simplify_eq; done.
Qed.

(** The inventory declares the version of the implementation that read it. *)
Lemma read_inventory_type imp m v :
  no_fatal (read_inventory imp m v).1 →
  it_Spec (inv_Type (read_inventory imp m v).2) = v1Spec imp.
Proof.
  unfold read_inventory.
  destruct (jsonMapGet as_string "" m "id") as [gid m1].
  destruct (jsonMapGet as_string "" m1 "type") as [gtype m2].
  destruct (jsonMapGet as_string "" m2 "digestAlgorithm") as [galg m3].
  destruct (jsonMapGet as_string "" m3 "head") as [ghead m4].
  destruct (jsonMapGet as_object ∅ m4 "manifest") as [gman m5].
  destruct (jsonMapGet as_object ∅ m5 "versions") as [gvers m6].
  destruct (jsonMapGet as_string "" m6 "contentDirectory") as [gcd m7].
  destruct (jsonMapGet as_object ∅ m7 "fixity") as [gfix m8].
  set (vt := fatal_if (negb (bool_decide (got_val gtype = "")) && _) _ _).
  match goal with |- context [unexpected_fields 41 m8 ?u] => set (v0 := unexpected_fields 41 m8 u) end.
  destruct (match InventoryType_UnmarshalText _ with Ok t => _ | Err _ => _ | Panic => _ end)
    as [vy t] eqn:Ey.
  destruct (match VNum_UnmarshalText _ with Ok h => _ | Err _ => _ | Panic => _ end) as [v1 h] eqn:E1.
  destruct (convert_or _ _ v1) as [v2 man] eqn:E2.
  destruct (foldl (read_version _) _ _) as [v3 vers] eqn:E3.
  destruct (foldl (read_fixity _) _ _) as [v4 fx] eqn:E4. cbn [fst snd inv_Type]. intros Hv.
  assert (no_fatal (v3, (∅ : gmap string DigestMap)).1) as Hv3.
  { eapply foldl_fst_mono; [apply read_fixity_mono|]. by erewrite E4. }
  cbn in Hv3.
  assert (no_fatal (v2, (∅ : gmap VNum (option InventoryVersion))).1) as Hv2.
  { eapply foldl_fst_mono; [apply read_version_mono|]. by erewrite E3. }
  cbn in Hv2. peel.
  assert (no_fatal vy) as Hvy.
  { destruct (VNum_UnmarshalText _); injection E1 as <- _; try done. by apply AddFatal_mono in Hv2. }
  destruct (InventoryType_UnmarshalText (got_val gtype)) as [t'|err|] eqn:Ht; injection Ey as <- <-.
  - unfold v0 in Hvy. peel. unfold vt in Hvy.
    eapply declared_type; [|exact Ht|exact Hvy]. solve_single.
  - exfalso. revert Hvy. unfold no_fatal. rewrite v_Errors_AddFatal, flat_single.
    + by intros [_ ?]%app_eq_nil.
    + constructor; [|done]. apply verr_single. by eapply UnmarshalText_single.
  - unfold InventoryType_UnmarshalText in Ht. by destruct (Spec_Valid _).
Qed.

Lemma ValidateInventoryBytes_ok imp raw :
  getOCFL (v1Spec imp) = Ok imp →
  match ValidateInventoryBytes_v1 imp raw with
  | (None, v) => v_Err v ≠ None
  | (Some si, v) => v_Err v = None ∧ si_bytes si = raw
      ∧ digest_bytes (inv_DigestAlgorithm (si_Inventory si)) raw = inl (si_digest si)
      ∧ (inv_ascii (si_Inventory si) → inventory_ok (v1Spec imp) (si_Inventory si))
  end.
Proof.
  intros Himp. unfold ValidateInventoryBytes_v1. destruct (json_Unmarshal raw) as [m|err].
  2: { rewrite v_Err_None, v_Errors_AddFatal. intros [_ He]%app_eq_nil.
    destruct (E033 _); [done|]. by rewrite flat_single in He by (by repeat constructor). }
  destruct (read_inventory imp m new_Validation) as [v1 inv] eqn:Er.
  pose proof (read_inventory_type imp m new_Validation) as Hty. rewrite Er in Hty. cbn [fst snd] in Hty.
  destruct (setRaw inv raw) as [si|err] eqn:Hraw.
  - destruct (v_Err (v_Add v1 _)) eqn:He; [by rewrite He|].
    apply setRaw_inl in Hraw as (Hinv & Hb & Hd). rewrite Hinv in He |- *.
    split_and!; [done..|]. intros Ha. apply v_Err_None in He.
    apply no_fatal_Add in He as [Hn1 Hn2]; [|apply Inventory_Validate_single].
    specialize (Hty Hn1). unfold Inventory_Validate in Hn2. rewrite Hty, Himp in Hn2.
    by apply ValidateInventory_ok, v_Err_None.
  - assert (v_Err (v_Add (v_AddFatal v1 [err]) (Some (Inventory_Validate (si_Inventory
      (mkStoredInventory inv "" ""))))) ≠ None) as He.
    { rewrite v_Err_None. unfold v_Add. rewrite v_Errors_AddWarn, !v_Errors_AddFatal.
      intros [[_ He]%app_eq_nil _]%app_eq_nil. cbn in He. by rewrite (setRaw_flat _ _ _ Hraw) in He. }
    destruct (v_Err _) eqn:Hv; [|done]. by rewrite Hv.
Qed.

(** C13. [ValidateInventoryBytes] returns an inventory exactly when it reports no
    fatal error, and then the inventory is well formed for the version of the
    specification that it declares, it keeps the bytes it was read from, and its
    digest is the digest of these bytes with its own algorithm. *)
Theorem ValidateInventoryBytes_sound imp raw :
  getOCFL (v1Spec imp) = Ok imp →
  match ValidateInventoryBytes_v1 imp raw with
  | (None, v) => v_Err v ≠ None
  | (Some si, v) => v_Err v = None ∧ si_bytes si = raw
      ∧ digest_bytes (inv_DigestAlgorithm (si_Inventory si)) raw = inl (si_digest si)
      ∧ (inv_ascii (si_Inventory si) → inventory_ok (v1Spec imp) (si_Inventory si))
  end.
Proof. apply ValidateInventoryBytes_ok. Qed.
End sound.

(** ** Concrete instances *)

(** Decoders that know the JSON text of one inventory. *)
Definition ex_raw : string := "the inventory".
Definition ex_json : gmap string json :=
  {[ "id" := JString "http://example.org/1"; "type" := JString (InventoryType_String (mkInventoryType Spec1_1));
     "digestAlgorithm" := JString SHA512; "head" := JString "v1";
     "manifest" := JObject {["ab" := JArray [JString "v1/content/f"]]};
     "versions" := JObject {["v1" := JObject {[ "created" := JString "2020";
       "state" := JObject {["ab" := JArray [JString "f"]]} ]}]} ]}.

Definition ref_decoders : Decoders := {|
  json_Unmarshal := λ raw, if bool_decide (raw = ex_raw) then inl ex_json else inr (ErrNew "syntax");
  json_Decode := λ raw, if bool_decide (raw = ex_raw) then inl ex_inventory else inr (ErrNew "syntax");
  json_DecodeType := λ raw, if bool_decide (raw = ex_raw) then inl (mkInventoryType Spec1_1)
                            else inr (ErrNew "syntax");
  time_UnmarshalText := λ s, inl (mkTime 1 0)
|}.

Lemma ValidateInventoryBytes_sound_witness :
  match @ValidateInventoryBytes_v1 ref_env ref_urls ref_multierror ref_hashes ref_decoders
          (mkOcflV1 Spec1_1) ex_raw with
  | (Some si, v) => si_bytes si = ex_raw
  | (None, _) => False
  end.
Proof.
  pose proof (@ValidateInventoryBytes_sound ref_env ref_urls ref_multierror ref_hashes ref_decoders
    ref_multierror_laws (mkOcflV1 Spec1_1) ex_raw eq_refl) as Hs.
  assert (is_Some (@ValidateInventoryBytes_v1 ref_env ref_urls ref_multierror ref_hashes ref_decoders
          (mkOcflV1 Spec1_1) ex_raw).1) as [si Hsi] by (vm_compute; eauto).
  destruct (ValidateInventoryBytes_v1 _ _) as [[si'|] v]; [apply Hs|discriminate Hsi].
Defined.
