(* ===== verification/InventoryJson.v ===== *)
(** * The JSON of an inventory ([src/inventory.go], the struct tags)

    What [json.Marshal] makes of an inventory, read off the tags of its fields,
    and the theorem that the validating reader of inventory.json gives the same
    inventory back without an error.  The text of a time is an argument. *)
From S2P Require Import Prelude GoStd VNum DigestMap Spec FS Digest Codes Validation.
From S2P Require Import Inventory OcflInventory InventoryBytes.

(** ** Values *)

Section encoding.
Context (time_text : Time → string).

(** A field with the option [omitempty]. *)
Definition omitempty (empty : bool) (key : string) (j : json) (m : gmap string json) : gmap string json :=
  if empty then m else <[key := j]> m.

Definition strings_json (l : list string) : json := JArray (JString <$> l).
Definition digests_json (m : DigestMap) : gmap string json := strings_json <$> m.
(** A nil map is null. *)
Definition map_json {A} (enc : A → gmap string json) (o : option A) : json :=
  match o with Some m => JObject (enc m) | None => JNull end.

(** [src/inventory.go:133-137] the tags of User *)
Definition user_json (u : User) : gmap string json :=
  <["name" := JString (user_Name u)]>
    (omitempty (bool_decide (user_Address u = "")) "address" (JString (user_Address u)) ∅).

(** [src/inventory.go:125-131] the tags of InventoryVersion *)
Definition version_fields (v : InventoryVersion) : gmap string json :=
  <["created" := JString (time_text (iv_Created v))]> (<["state" := map_json digests_json (iv_State v)]>
    (omitempty (bool_decide (iv_Message v = "")) "message" (JString (iv_Message v))
      (match iv_User v with Some u => <["user" := JObject (user_json u)]> ∅ | None => ∅ end))).

Definition version_json (v : option InventoryVersion) : json := map_json version_fields v.

(** The keys are the version numbers as text. *)
Definition versions_json (m : gmap VNum (option InventoryVersion)) : gmap string json :=
  list_to_map ((λ e, (VNum_String e.1, version_json e.2)) <$> map_to_list m).

(** [src/inventory.go:29-39] the tags of Inventory *)
Definition inventory_json (inv : Inventory) : gmap string json :=
  <["id" := JString (inv_ID inv)]> (<["type" := JString (InventoryType_String (inv_Type inv))]>
  (<["digestAlgorithm" := JString (inv_DigestAlgorithm inv)]> (<["head" := JString (VNum_String (inv_Head inv))]>
  (<["manifest" := map_json digests_json (inv_Manifest inv)]>
  (<["versions" := map_json versions_json (inv_Versions inv)]>
  (omitempty (bool_decide (inv_ContentDirectory inv = "")) "contentDirectory" (JString (inv_ContentDirectory inv))
  (omitempty (bool_decide (inv_Fixity inv = ∅)) "fixity" (JObject ((λ m, JObject (digests_json m)) <$> inv_Fixity inv)) ∅))))))).
End encoding.

(** ** Reading it *)

Section reading.
Context `{GoEnv, URLs, MultiError, Hashes, Decoders} `{!MultiErrorLaws}.
Context (time_text : Time → string).
Implicit Types (inv : Inventory) (v : Validation).

(** The text of a time is read back, and is not empty. *)
Definition time_ok (t : Time) : Prop := time_text t ≠ "" ∧ time_UnmarshalText (time_text t) = inl t.

Lemma get_first {T} (as_T : json → option T) zero m key j x : as_T j = Some x → m !! key = None →
  jsonMapGet as_T zero (<[key := j]> m) key = (mkGot x true true, m).
Proof.
  intros Hj Hm. unfold jsonMapGet. rewrite lookup_insert_eq. cbn. rewrite Hj. cbn.
  by rewrite delete_insert_eq, delete_id.
Qed.

Lemma get_absent {T} (as_T : json → option T) zero m key : m !! key = None →
  jsonMapGet as_T zero m key = (mkGot zero false false, m).
Proof. intros Hm. unfold jsonMapGet. rewrite Hm. cbn. by rewrite delete_id. Qed.

Lemma omitempty_other empty key j m k : k ≠ key → m !! k = None → omitempty empty key j m !! k = None.
Proof. intros Hk Hm. unfold omitempty. destruct empty; [done|]. by rewrite lookup_insert_ne. Qed.

Lemma get_omit {T} (as_T : json → option T) (zero x : T) (empty : bool) m key j :
  as_T j = Some x → m !! key = None → (empty = true → x = zero) →
  jsonMapGet as_T zero (omitempty empty key j m) key = (mkGot x (negb empty) (negb empty), m).
Proof.
  intros Hj Hm He. unfold omitempty. destruct empty; cbn [negb].
  - rewrite get_absent by done. by rewrite He.
  - by rewrite (get_first as_T zero m key j x).
Qed.

Lemma as_strings l : as_array (strings_json l) = Some (JString <$> l) ∧ mapM as_string (JString <$> l) = Some l.
Proof. split; [done|]. induction l as [|s l IH]; [done|]. cbn [fmap list_fmap mapM]. cbn. by rewrite IH. Qed.

(** A loop over the entries of a map that was encoded entry by entry. *)
Lemma convert_digests m : convertJSONDigestMap (digests_json m) = inl m.
Proof.
  unfold convertJSONDigestMap. pose proof (range_perm 40 string _ _ json (digests_json m)) as Hp.
  assert (∀ l (acc : DigestMap), (∀ k j, (k, j) ∈ l → ∃ ps, j = strings_json ps ∧ m !! k = Some ps) →
    ∃ r : DigestMap, convert_entries l acc = inl r
      ∧ ∀ k, r !! k = if bool_decide (k ∈ l.*1) then m !! k else acc !! k) as Hl.
  { induction l as [|[k j] l IH]; intros acc Hall.
    - exists acc. split; [done|]. intros k. by rewrite bool_decide_false by apply not_elem_of_nil.
    - destruct (Hall k j ltac:(left)) as (ps & -> & Hk). destruct (as_strings ps) as [E1 E2].
      cbn [convert_entries]. rewrite E1, E2. destruct (IH (<[k := ps]> acc)) as (r & Hr & Hlk).
      { intros k' j' Hin. apply Hall. by right. }
      exists r. split; [done|]. intros k'. rewrite Hlk, fmap_cons. cbn [fst].
      destruct (decide (k' ∈ l.*1)); [rewrite !bool_decide_true by (done || by right); done|].
      rewrite (bool_decide_false (k' ∈ l.*1)) by done. destruct (decide (k' = k)) as [->|Hne].
      + rewrite lookup_insert_eq, bool_decide_true by left. done.
      + rewrite lookup_insert_ne by done. rewrite bool_decide_false; [done|]. by intros [?|?]%elem_of_cons. }
  destruct (Hl (range 40 (digests_json m)) ∅) as (r & -> & Hr).
  { intros k j Hin. rewrite Hp, elem_of_map_to_list in Hin. unfold digests_json in Hin.
    rewrite lookup_fmap in Hin. apply fmap_Some in Hin as (ps & Hk & ->). eauto. }
  f_equal. apply map_eq. intros k. rewrite Hr, lookup_empty.
  destruct (m !! k) as [ps|] eqn:Hk; [|by case_bool_decide].
  rewrite bool_decide_true; [done|]. rewrite Hp. apply list_elem_of_fmap. exists (k, strings_json ps).
  split; [done|]. apply elem_of_map_to_list. unfold digests_json. by rewrite lookup_fmap, Hk.
Qed.

Lemma unexpected_none site v : unexpected_fields site ∅ v = v.
Proof.
  unfold unexpected_fields. pose proof (range_perm site string _ _ json ∅) as Hp.
  rewrite map_to_list_empty in Hp. apply Permutation_nil_r in Hp. by rewrite Hp.
Qed.

Lemma read_user_json spec m v u : m !! "user" = None →
  read_user spec (<["user" := JObject (user_json u)]> m) v = (v, Some u, m).
Proof.
  intros Hm. unfold read_user. rewrite (get_first as_object ∅ m "user" _ (user_json u)) by done.
  cbn [got_exists got_typeOK negb andb got_val]. unfold user_json.
  rewrite (get_first as_string "" _ "name" _ (user_Name u)) by (done || by apply omitempty_other).
  rewrite (get_omit as_string "" (user_Address u)) by (done || apply bool_decide_eq_true).
  unfold required_missing, optional_bad. cbn [got_exists got_typeOK got_val negb orb].
  rewrite andb_negb_r. by destruct u.
Qed.

(** A version block that is complete. *)
Definition block_ok (ver : InventoryVersion) : Prop := is_Some (iv_State ver) ∧ time_ok (iv_Created ver).

Lemma read_version_json spec v vers vn ver : ParseVNum (VNum_String vn) = Ok vn → block_ok ver →
  read_version spec (v, vers) (VNum_String vn, version_json time_text (Some ver)) = (v, <[vn := Some ver]> vers).
Proof.
  intros Hvn [[st Hst] [Ht1 Ht2]]. unfold read_version. rewrite Hvn. cbn [version_json map_json as_object].
  unfold version_fields. destruct ver as [t s msg u]. cbn [iv_Created iv_State iv_Message iv_User] in *. subst s.
  rewrite (get_first as_string "" _ "created" _ (time_text t)).
  2: done.
  2: { rewrite lookup_insert_ne by done. apply omitempty_other; [done|]. destruct u; [|apply lookup_empty].
       by rewrite lookup_insert_ne. }
  unfold required_missing at 1. cbn [got_exists got_typeOK got_val negb orb fatal_if].
  unfold read_created. rewrite bool_decide_false, Ht2 by done.
  rewrite (get_first as_object ∅ _ "state" _ (digests_json st)).
  2: done.
  2: { apply omitempty_other; [done|]. destruct u; [|apply lookup_empty]. by rewrite lookup_insert_ne. }
  unfold required_missing at 1. cbn [got_exists got_typeOK got_val negb orb fatal_if].
  rewrite (get_omit as_string "" msg); [|done| |apply bool_decide_eq_true].
  2: { destruct u; [|apply lookup_empty]. by rewrite lookup_insert_ne. }
  unfold optional_bad at 1. cbn [got_exists got_typeOK got_val].
  rewrite andb_negb_r. unfold fatal_if.
  destruct u as [u|].
  - rewrite read_user_json by done. rewrite unexpected_none. unfold convert_or. by rewrite convert_digests.
  - unfold read_user. rewrite get_absent by done. cbn [got_exists got_typeOK negb andb].
    rewrite unexpected_none. unfold convert_or. by rewrite convert_digests.
Qed.
(** A loop that puts back the entries of a map. *)
Lemma foldl_rebuild {K} `{Countable K} {X S A} (f : S * gmap K X → A → S * gmap K X) (key : A → K)
    (m : gmap K X) (s : S) l :
  (∀ e acc, e ∈ l → ∃ x, m !! key e = Some x ∧ f (s, acc) e = (s, <[key e := x]> acc)) →
  (∀ k, is_Some (m !! k) → k ∈ key <$> l) → foldl f (s, ∅) l = (s, m).
Proof.
  intros Hf Hm.
  assert (∀ l' acc, l' ⊆ l → ∃ r, foldl f (s, acc) l' = (s, r)
    ∧ ∀ k, r !! k = if bool_decide (k ∈ key <$> l') then m !! k else acc !! k) as Hl.
  { induction l' as [|e l' IH]; intros acc Hsub; cbn [foldl fmap list_fmap].
    - exists acc. split; [done|]. intros k. by rewrite bool_decide_false by apply not_elem_of_nil.
    - destruct (Hf e acc) as (x & Hx & ->); [apply Hsub; left|].
      destruct (IH (<[key e := x]> acc)) as (r & Hr & Hlk); [intros y Hy; apply Hsub; by right|].
      exists r. split; [done|]. intros k. rewrite Hlk.
      destruct (decide (k ∈ key <$> l')); [rewrite !bool_decide_true by (done || by right); done|].
      rewrite (bool_decide_false (k ∈ key <$> l')) by done. destruct (decide (k = key e)) as [->|Hne].
      + rewrite lookup_insert_eq, bool_decide_true by left. done.
      + rewrite lookup_insert_ne by done. rewrite bool_decide_false; [done|]. by intros [?|?]%elem_of_cons. }
  destruct (Hl l ∅ ltac:(done)) as (r & -> & Hr). f_equal. apply map_eq. intros k. rewrite Hr, lookup_empty.
  destruct (m !! k) eqn:Hk; [|by case_bool_decide]. rewrite bool_decide_true; [done|]. apply Hm. by eexists.
Qed.

(** The numbers of the versions are read back. *)
Definition numbers_ok (m : gmap VNum (option InventoryVersion)) : Prop :=
  ∀ vn o, m !! vn = Some o → ParseVNum (VNum_String vn) = Ok vn ∧ ∃ ver, o = Some ver ∧ block_ok ver.

Lemma versions_json_elem m k j : numbers_ok m →
  versions_json time_text m !! k = Some j ↔ ∃ vn o, m !! vn = Some o ∧ k = VNum_String vn ∧ j = version_json time_text o.
Proof.
  intros Hm. unfold versions_json. rewrite <- elem_of_list_to_map.
  - rewrite list_elem_of_fmap. split.
    + intros ([vn o] & [= -> ->] & Hin%elem_of_map_to_list). eauto.
    + intros (vn & o & Hin & -> & ->). exists (vn, o). by rewrite elem_of_map_to_list.
  - rewrite <- list_fmap_compose. apply NoDup_fmap_2_strong; [|apply NoDup_map_to_list].
    intros [v1 o1] [v2 o2] Hi1%elem_of_map_to_list Hi2%elem_of_map_to_list He. cbn [fst compose] in He.
    destruct (Hm _ _ Hi1) as [P1 _], (Hm _ _ Hi2) as [P2 _]. rewrite He in P1. assert (v1 = v2) as -> by congruence.
    congruence.
Qed.

Lemma read_versions_json spec v m : numbers_ok m →
  foldl (read_version spec) (v, ∅) (range 43 (versions_json time_text m)) = (v, m).
Proof.
  intros Hm. apply (foldl_rebuild _ (λ e, match ParseVNum e.1 with Ok vn => vn | _ => mkVNum 0 0 end)).
  - intros [k j] acc Hin%range_elem. apply (versions_json_elem m k j Hm) in Hin as (vn & o & Hvn & -> & ->).
    destruct (Hm _ _ Hvn) as (Hp & ver & -> & Hb). exists (Some ver). cbn [fst]. rewrite Hp. split; [done|].
    by apply read_version_json.
  - intros vn [o Ho]. destruct (Hm _ _ Ho) as (Hp & _). apply list_elem_of_fmap.
    exists (VNum_String vn, version_json time_text o). cbn [fst]. rewrite Hp. split; [done|].
    apply range_elem, versions_json_elem; eauto.
Qed.

Lemma read_fixity_json spec v (m : gmap string DigestMap) :
  foldl (read_fixity spec) (v, ∅) (range 44 ((λ f, JObject (digests_json f)) <$> m)) = (v, m).
Proof.
  apply (foldl_rebuild _ fst).
  - intros [k j] acc Hin%range_elem. rewrite lookup_fmap in Hin. apply fmap_Some in Hin as (f & Hf & ->).
    exists f. split; [done|]. unfold read_fixity. cbn [as_object]. by rewrite convert_digests.
  - intros k [f Hf]. apply list_elem_of_fmap. exists (k, JObject (digests_json f)). split; [done|].
    apply range_elem. by rewrite lookup_fmap, Hf.
Qed.

(** What a valid inventory has, as far as its JSON goes. *)
Record json_ok imp inv : Prop := {
  jo_type : it_Spec (inv_Type inv) = v1Spec imp;
  jo_spec : getOCFL (v1Spec imp) = Ok imp;
  jo_alg : inv_DigestAlgorithm inv = SHA512 ∨ inv_DigestAlgorithm inv = SHA256;
  jo_head : ParseVNum (VNum_String (inv_Head inv)) = Ok (inv_Head inv);
  jo_manifest : is_Some (inv_Manifest inv);
  jo_versions : is_Some (inv_Versions inv) ∧ numbers_ok (versions inv)
}.

Lemma read_inventory_json imp inv v : json_ok imp inv →
  read_inventory imp (inventory_json time_text inv) v = (v, inv).
Proof.
  intros [Hty Hsp Halg Hhd [man Hman] [[vers Hvers] Hnum]].
  assert (inv_Type inv = mkInventoryType (v1Spec imp)) as Hty' by (rewrite <- Hty; by destruct (inv_Type inv)).
  unfold versions in Hnum. rewrite Hvers in Hnum. cbn in Hnum. clear Hty.
  unfold read_inventory, inventory_json. rewrite Hman, Hvers, Hty'. unfold map_json.
  set (cd := inv_ContentDirectory inv). set (fx := inv_Fixity inv).
  assert (∀ k, k ≠ "contentDirectory" → k ≠ "fixity" → omitempty (bool_decide (cd = "")) "contentDirectory" (JString cd)
    (omitempty (bool_decide (fx = ∅)) "fixity" (JObject ((λ f, JObject (digests_json f)) <$> fx)) ∅) !! k = None) as Ho.
  { intros k Hk1 Hk2. by do 2 (apply omitempty_other; [done|]). }
  rewrite (get_first as_string "" _ "id" _ (inv_ID inv)); [|done|by rewrite !lookup_insert_ne by done; apply Ho].
  rewrite (get_first as_string "" _ "type" _ (InventoryType_String (mkInventoryType (v1Spec imp))));
    [|done|by rewrite !lookup_insert_ne by done; apply Ho].
  rewrite (get_first as_string "" _ "digestAlgorithm" _ (inv_DigestAlgorithm inv)); [|done|by rewrite !lookup_insert_ne by done; apply Ho].
  rewrite (get_first as_string "" _ "head" _ (VNum_String (inv_Head inv))); [|done|by rewrite !lookup_insert_ne by done; apply Ho].
  rewrite (get_first as_object ∅ _ "manifest" _ (digests_json man)); [|done|by rewrite !lookup_insert_ne by done; apply Ho].
  rewrite (get_first as_object ∅ _ "versions" _ (versions_json time_text vers)); [|done|by apply Ho].
  rewrite (get_omit as_string "" cd); [|done|by apply omitempty_other|apply bool_decide_eq_true].
  rewrite (get_omit as_object ∅ ((λ f, JObject (digests_json f)) <$> fx)); [|done..|].
  2: { intros ->%bool_decide_eq_true. apply fmap_empty. }
  unfold required_missing, optional_bad. cbn [got_exists got_typeOK got_val negb orb fatal_if].
  rewrite !andb_negb_r. rewrite (bool_decide_true (InventoryType_String _ = InventoryType_String _)) by done.
  rewrite andb_false_r. unfold fatal_if.
  assert (negb (bool_decide (inv_DigestAlgorithm inv = "")) && negb (bool_decide (inv_DigestAlgorithm inv = SHA512))
    && negb (bool_decide (inv_DigestAlgorithm inv = SHA256)) = false) as -> by (by destruct Halg as [-> | ->]).
  rewrite unexpected_none.
  assert (InventoryType_UnmarshalText (InventoryType_String (mkInventoryType (v1Spec imp)))
    = Ok (mkInventoryType (v1Spec imp))) as ->.
  { assert (v1Spec imp = Spec1_0 ∨ v1Spec imp = Spec1_1) as [-> | ->]; [|by vm_compute..].
    clear -Hsp. revert Hsp. unfold getOCFL. repeat case_bool_decide; auto; done. }
  unfold VNum_UnmarshalText. rewrite Hhd. unfold convert_or at 1. rewrite convert_digests.
  rewrite read_versions_json, read_fixity_json by done. rewrite <- Hman, <- Hvers, <- Hty'. by destruct inv.
Qed.

(** The bytes that are written for an inventory. *)
Lemma marshal_setRaw json_Marshal inv raw d : Inventory_marshal json_Marshal inv = inl (raw, d) →
  setRaw inv raw = inl (mkStoredInventory inv raw d) ∧ json_Marshal inv = inl raw.
Proof.
  unfold Inventory_marshal, setRaw. destruct (json_Marshal inv) as [b|]; [|done].
  destruct (digest_bytes _ b) eqn:Hd; [|done]. intros [= -> ->]. by rewrite Hd.
Qed.

Lemma ValidateInventoryBytes_json imp inv raw d :
  json_ok imp inv → setRaw inv raw = inl (mkStoredInventory inv raw d) →
  json_Unmarshal raw = inl (inventory_json time_text inv) → v_Err (Inventory_Validate inv) = None →
  ∃ v, ValidateInventoryBytes_v1 imp raw = (Some (mkStoredInventory inv raw d), v) ∧ v_Err v = None.
Proof.
  intros Hok Hraw Hj Hv. unfold ValidateInventoryBytes_v1. rewrite Hj, read_inventory_json, Hraw by done.
  cbn [si_Inventory]. set (v := v_Add _ _). assert (v_Err v = None) as He.
  { apply v_Err_None. apply no_fatal_Add; [apply Inventory_Validate_single|]. split; [done|]. by apply v_Err_None. }
  rewrite He. by exists v.
Qed.

(** The times of an inventory are written and read back. *)
Definition times_ok inv : Prop :=
  ∀ vn ver, versions inv !! vn = Some (Some ver) → time_ok (iv_Created ver).

Lemma valid_json_ok imp inv : getOCFL (v1Spec imp) = Ok imp → inventory_ok (v1Spec imp) inv →
  0 ≤ padding (inv_Head inv) → num (inv_Head inv) ≤ max_int64 → times_ok inv → json_ok imp inv.
Proof.
  intros Himp [[Ht _] _ Ha _ (m & Hm & _) Hh [Hv Hvs] Hst _] Hp Hn Htm.
  assert (∀ vn, 0 < num vn ≤ num (inv_Head inv) → padding vn = padding (inv_Head inv) →
    ParseVNum (VNum_String vn) = Ok vn) as Hparse.
  { intros vn Hle Heq. apply VNum_String_parse; [|unfold max_int64 in Hn; lia|lia].
    apply VNum_Valid_None. apply VNum_Valid_None in Hh as [_ Hh]. split; [lia|]. rewrite Heq. intros Hpos.
    specialize (Hh Hpos). lia. }
  split; [done..| |by rewrite Hm|].
  - apply VNum_Valid_None in Hh as Hh'. apply Hparse; lia || done.
  - split; [by destruct (inv_Versions inv); [eexists|]|]. intros vn o Ho.
    destruct (proj1 (Hvs vn)) as [Hle Heq]; [by eexists|]. split; [by apply Hparse|].
    destruct (Hst _ _ Ho) as (ver & -> & Hver). exists ver. split; [done|]. split; [|by eapply Htm].
    destruct Hver as [_ _ (st & -> & _)]. by eexists.
Qed.

(** C14. What [Marshal] writes for a valid inventory, [ValidateInventoryBytes] reads
    back: the keys and values that the struct tags give are the ones the checks
    expect, no field is reported as missing, ill-typed or unexpected, and the
    result is the inventory with these bytes and their digest. *)
Theorem ValidateInventoryBytes_marshal json_Marshal imp inv raw d :
  getOCFL (v1Spec imp) = Ok imp → it_Spec (inv_Type inv) = v1Spec imp →
  inv_ascii inv → 0 ≤ padding (inv_Head inv) → num (inv_Head inv) ≤ max_int64 → times_ok inv →
  v_Err (Inventory_Validate inv) = None →
  Inventory_marshal json_Marshal inv = inl (raw, d) →
  json_Unmarshal raw = inl (inventory_json time_text inv) →
  ∃ v, ValidateInventoryBytes_v1 imp raw = (Some (mkStoredInventory inv raw d), v) ∧ v_Err v = None.
Proof.
  intros Himp Hty Ha Hp Hn Ht Hv Hm Hj. pose proof (Inventory_Validate_ok inv Ha Hv) as Hok. rewrite Hty in Hok.
  apply (ValidateInventoryBytes_json imp); [by apply valid_json_ok|by eapply marshal_setRaw|done..].
Qed.
End reading.

(** ** A concrete instance *)

Definition ex_text (t : Time) : string := "2020-01-01T00:00:00Z".
Definition json_decoders : Decoders := {|
  json_Unmarshal := λ raw, if bool_decide (raw = ex_raw) then inl (inventory_json ex_text ex_inventory) else inr (ErrNew "syntax");
  json_Decode := @json_Decode ref_decoders;
  json_DecodeType := @json_DecodeType ref_decoders;
  time_UnmarshalText := @time_UnmarshalText ref_decoders
|}.

Lemma ValidateInventoryBytes_marshal_witness : ∃ si v,
  @ValidateInventoryBytes_v1 ref_env ref_urls ref_multierror ref_hashes json_decoders (mkOcflV1 Spec1_1) ex_raw = (Some si, v)
  ∧ si_Inventory si = ex_inventory ∧ v_Err v = None.
Proof.
  destruct (@ValidateInventoryBytes_marshal ref_env ref_urls ref_multierror ref_hashes json_decoders ref_multierror_laws
    ex_text (λ _, inl ex_raw) (mkOcflV1 Spec1_1) ex_inventory ex_raw (hex_encode ex_raw)) as (v & Hv & He);
    [done|done| |by vm_compute..| |by vm_compute|by vm_compute|by vm_compute|].
  - split_and!.
    + by apply single_digest_ascii.
    + intros vn ver. unfold versions, ex_inventory. cbn. intros [_ [= <-]]%lookup_singleton_Some.
      by apply single_digest_ascii.
    + intros alg m Hm. cbn in Hm. by rewrite lookup_empty in Hm.
  - intros vn ver. unfold versions, ex_inventory. cbn. intros [_ [= <-]]%lookup_singleton_Some. done.
  - exists (mkStoredInventory ex_inventory ex_raw (hex_encode ex_raw)), v. split; [exact Hv|]. split; [reflexivity|exact He].
Defined.
