(* ===== verification/Builder.v ===== *)
(** * Building the inventory of a new version ([src/inventory.go] [InventoryBuilder])

    [InventoryBuilder] copies the previous inventory, adds versions, extends the
    manifest with the content that is not there yet, adds fixity entries and
    validates the result.  The clock and the part of a time that [Truncate] drops
    are arguments; the user's content path function and fixity source are
    functions of the builder. *)
From S2P Require Import Prelude GoStd VNum DigestMap Spec FS Digest Codes Validation.
From S2P Require Import Inventory OcflInventory.

(** [src/inventory.go:299-305] InventoryBuilder.addedVersions *)
Record AddedVersion := mkAddedVersion {
  av_state : DigestMap;
  av_alg : Algorithm;
  av_created : Time;
  av_message : string;
  av_user : option User
}.

(** [src/inventory.go:291-308] InventoryBuilder *)
Record InventoryBuilder := mkInventoryBuilder {
  ib_prev : option Inventory;
  ib_id : string;
  ib_contDir : string;
  ib_head : VNum;
  ib_spec : Spec;
  ib_addedVersions : list AddedVersion;
  ib_contentPath : option PathMutation;
  ib_fixitySource : option (string → Set_)
}.

(** [src/inventory.go:310-324] NewInventoryBuilder *)
Definition NewInventoryBuilder (prev : option Inventory) : InventoryBuilder :=
  match prev with
  | None => mkInventoryBuilder None "" "" (mkVNum 0 0) (v1Spec defaultOCFL) [] None None
  | Some p => mkInventoryBuilder (Some p) (inv_ID p) (inv_ContentDirectory p) (inv_Head p)
                (it_Spec (inv_Type p)) [] None None
  end.

(** [src/inventory.go:326-344] InventoryBuilder.AddVersion *)
Definition ib_AddVersion (b : InventoryBuilder) (a : AddedVersion) : InventoryBuilder :=
  mkInventoryBuilder (ib_prev b) (ib_id b) (ib_contDir b) (ib_head b) (ib_spec b)
    (ib_addedVersions b ++ [a]) (ib_contentPath b) (ib_fixitySource b).

(** [src/inventory.go:346-353] InventoryBuilder.ContentDirectory *)
Definition ib_ContentDirectory (b : InventoryBuilder) (name : string) : InventoryBuilder :=
  match ib_prev b with
  | Some _ => b
  | None => mkInventoryBuilder (ib_prev b) (ib_id b) name (ib_head b) (ib_spec b)
              (ib_addedVersions b) (ib_contentPath b) (ib_fixitySource b)
  end.

(** [src/inventory.go:355-360] InventoryBuilder.ContentPathFunc *)
Definition ib_ContentPathFunc (b : InventoryBuilder) (mutate : option PathMutation) : InventoryBuilder :=
  mkInventoryBuilder (ib_prev b) (ib_id b) (ib_contDir b) (ib_head b) (ib_spec b)
    (ib_addedVersions b) mutate (ib_fixitySource b).

(** [src/inventory.go:378-381] InventoryBuilder.FixitySource *)
Definition ib_FixitySource (b : InventoryBuilder) (source : option (string → Set_)) : InventoryBuilder :=
  mkInventoryBuilder (ib_prev b) (ib_id b) (ib_contDir b) (ib_head b) (ib_spec b)
    (ib_addedVersions b) (ib_contentPath b) source.

(** [src/inventory.go:383-387] InventoryBuilder.ID *)
Definition ib_ID (b : InventoryBuilder) (id : string) : InventoryBuilder :=
  mkInventoryBuilder (ib_prev b) id (ib_contDir b) (ib_head b) (ib_spec b)
    (ib_addedVersions b) (ib_contentPath b) (ib_fixitySource b).

(** [src/inventory.go:389-396] InventoryBuilder.Padding *)
Definition ib_Padding (b : InventoryBuilder) (p : Z) : InventoryBuilder :=
  match ib_prev b with
  | Some _ => b
  | None => mkInventoryBuilder (ib_prev b) (ib_id b) (ib_contDir b) (V [0; p]) (ib_spec b)
              (ib_addedVersions b) (ib_contentPath b) (ib_fixitySource b)
  end.

(** [src/inventory.go:398-405] InventoryBuilder.Spec *)
Definition ib_Spec (b : InventoryBuilder) (spec : Spec) : InventoryBuilder :=
  if Spec_Empty spec then b
  else mkInventoryBuilder (ib_prev b) (ib_id b) (ib_contDir b) (ib_head b) spec
         (ib_addedVersions b) (ib_contentPath b) (ib_fixitySource b).

Section builder.
Context `{GoEnv, URLs, MultiError}.
(** [time.Now()] for the n-th added version, and what [Truncate] keeps of the
    representation of a time. *)
Context (now : nat → Time) (strip : Z → Z).

(** [src/inventory.go:426-443] copy the versions: a nil version block is
    dereferenced *)
Fixpoint copy_versions (l : list (VNum * option InventoryVersion))
    (m : gmap VNum (option InventoryVersion)) : res (gmap VNum (option InventoryVersion)) :=
  match l with
  | [] => Ok m
  | (_, None) :: _ => Panic
  | (vnum, Some prevVer) :: l =>
      st ← wrap_err ("in existing inventory " +:+ VNum_String vnum +:+ " state") (Normalize (state_of prevVer));
      copy_versions l (<[vnum := Some (mkInventoryVersion (iv_Created prevVer) (Some st)
                                         (iv_Message prevVer) (iv_User prevVer))]> m)
  end.

(** [src/inventory.go:444-451] copy the fixity block *)
Fixpoint copy_fixity (l : list (string * DigestMap)) (m : gmap string DigestMap)
    : res (gmap string DigestMap) :=
  match l with
  | [] => Ok m
  | (alg, f) :: l =>
      f' ← wrap_err ("in existing inventory " +:+ alg +:+ " fixity") (Normalize f);
      copy_fixity l (<[alg := f']> m)
  end.

(** [src/inventory.go:407-454] InventoryBuilder.initialInventory *)
Definition initialInventory (b : InventoryBuilder) : res Inventory :=
  let new alg man vers fix_ := mkInventory (ib_id b) (mkInventoryType (ib_spec b)) alg (ib_head b)
    (ib_contDir b) (Some man) (Some vers) fix_ in
  match ib_prev b with
  | None => Ok (new "" ∅ ∅ ∅)
  | Some p =>
      man ← wrap_err "in existing inventory manifest" (Normalize (manifest p));
      _ ← Lineage (inv_Head p);
      vers ← copy_versions (range 50 (versions p)) ∅;
      fix_ ← copy_fixity (range 51 (inv_Fixity p)) ∅;
      Ok (new (inv_DigestAlgorithm p) man vers fix_)
  end.

(** [src/inventory.go:493-504] contentPathFunc: the content paths of logical paths *)
Definition content_paths (contentPath : option PathMutation) (newHead : VNum) (contentDirectory : string)
    (paths : list string) : list string :=
  let paths := match contentPath with Some f => f paths | None => paths end in
  (λ p, Join [VNum_String newHead; contentDirectory; p]) <$> paths.

(** The content paths of a digest, unless its content is in the manifest already. *)
Definition add_entry (cpf : list string → list string) (man : DigestMap) (e : string * list string)
    : DigestMap :=
  let '(digest, logicPaths) := e in
  if bool_decide (paths_of man digest = []) then <[digest := cpf logicPaths]> man else man.

(** [src/inventory.go:505-510] add the new content to the manifest *)
Definition add_content (cpf : list string → list string) (newState man : DigestMap) : DigestMap :=
  foldl (add_entry cpf) man (range 52 newState).

(** The content directory of new paths. *)
Definition contentDirectory_or_default (dir : string) : string :=
  if bool_decide (dir = "") then contentDir else dir.

(** [src/inventory.go:457-511] one added version *)
Definition build_version (b : InventoryBuilder) (i : nat) (a : AddedVersion) (inv : Inventory) : res Inventory :=
  newHead ← wrap_err "existing inventory's version scheme doesn't support additional versions"
              (Next (inv_Head inv));
  newState ← wrap_err (VNum_String newHead +:+ " version state") (Normalize (av_state a));
  let alg := if bool_decide (inv_DigestAlgorithm inv = "") then alg_ID (av_alg a)
             else inv_DigestAlgorithm inv in
  if negb (bool_decide (alg = alg_ID (av_alg a)))
  then Err (ErrNew "cannot change inventory's digest algorithm from previous value")
  else
    let created := if Time_IsZero (av_created a) then now i else av_created a in
    let newVersion := mkInventoryVersion (Time_Truncate strip created) (Some newState)
                        (av_message a) (av_user a) in
    let contentDirectory := contentDirectory_or_default (inv_ContentDirectory inv) in
    Ok (mkInventory (inv_ID inv) (inv_Type inv) alg newHead (inv_ContentDirectory inv)
          (Some (add_content (content_paths (ib_contentPath b) newHead contentDirectory)
                   newState (manifest inv)))
          (Some (<[newHead := Some newVersion]> (versions inv)))
          (inv_Fixity inv)).

Fixpoint build_versions (b : InventoryBuilder) (i : nat) (l : list AddedVersion) (inv : Inventory)
    : res Inventory :=
  match l with
  | [] => Ok inv
  | a :: l => inv ← build_version b i a inv; build_versions b (S i) l inv
  end.

(** [src/inventory.go:456-513] InventoryBuilder.buildVersions *)
Definition buildVersions (b : InventoryBuilder) (inv : Inventory) : res Inventory :=
  build_versions b 0 (ib_addedVersions b) inv.

(** [src/inventory.go:530-535] the paths of one fixity digest *)
Definition add_fix_paths (contentPaths : list string) (fixPaths : list string) : list string :=
  foldl (λ fixPaths cp, if bool_decide (cp ∈ fixPaths) then fixPaths else fixPaths ++ [cp])
    fixPaths contentPaths.

(** [src/inventory.go:526-536] the entries of a fixity set: a digest without
    content paths gets no entry *)
Definition add_fix_set (contentPaths : list string) (fixity : gmap string DigestMap) (e : string * string)
    : gmap string DigestMap :=
  let '(fixAlg, fixDigest) := e in
  let m := default ∅ (fixity !! fixAlg) in
  <[fixAlg := match contentPaths with
              | [] => m
              | _ => <[fixDigest := add_fix_paths contentPaths (paths_of m fixDigest)]> m
              end]> fixity.

(** [src/inventory.go:515-538] InventoryBuilder.fillFixity *)
Definition fillFixity (b : InventoryBuilder) (inv : Inventory) : Inventory :=
  match ib_fixitySource b with
  | None => inv
  | Some source =>
      let fixity := foldl (λ fixity '(digest, contentPaths),
        foldl (add_fix_set contentPaths) fixity (range 54 (set_map (source digest))))
        (inv_Fixity inv) (range 53 (manifest inv)) in
      mkInventory (inv_ID inv) (inv_Type inv) (inv_DigestAlgorithm inv) (inv_Head inv)
        (inv_ContentDirectory inv) (inv_Manifest inv) (inv_Versions inv) fixity
  end.

(** [src/inventory.go:362-376] InventoryBuilder.Finalize *)
Definition Finalize (b : InventoryBuilder) : res Inventory :=
  newInv ← initialInventory b;
  newInv ← buildVersions b newInv;
  let newInv := fillFixity b newInv in
  match v_Err (Inventory_Validate newInv) with
  | Some err => Err (ErrWrap "generated inventory is not valid" err)
  | None => Ok newInv
  end.
End builder.

(** ** What a built inventory keeps and adds *)

Section built.
Context `{GoEnv, URLs, MultiError} `{!MultiErrorLaws}.
Context (now : nat → Time) (strip : Z → Z).
Implicit Types (b : InventoryBuilder) (inv p : Inventory) (a : AddedVersion).

(** The copy of a version block, its state normalised. *)
Definition copied_version (ver : InventoryVersion) (st : DigestMap) : InventoryVersion :=
  mkInventoryVersion (iv_Created ver) (Some st) (iv_Message ver) (iv_User ver).

(** The block of the i-th added version. *)
Definition added_version (i : nat) a (st : DigestMap) : InventoryVersion :=
  mkInventoryVersion (Time_Truncate strip (if Time_IsZero (av_created a) then now i else av_created a))
    (Some st) (av_message a) (av_user a).

(** The number of the version [j] after the head. *)
Definition version_after (v : VNum) (j : nat) : VNum := mkVNum (num v + 1 + Z.of_nat j) (padding v).

Lemma copy_versions_Ok l m m' :
  NoDup l.*1 → copy_versions l m = Ok m' →
  (∀ vn, vn ∉ l.*1 → m' !! vn = m !! vn)
  ∧ ∀ vn o, (vn, o) ∈ l → ∃ ver st, o = Some ver ∧ Normalize (state_of ver) = Ok st
      ∧ m' !! vn = Some (Some (copied_version ver st)).
Proof.
  revert m. induction l as [|[vn [ver|]] l IH]; intros m; cbn [copy_versions fmap list_fmap fst].
  - intros _ [= <-]. split; [done|]. by intros ?? ?%elem_of_nil.
  - intros [Hni Hnd]%NoDup_cons Hc. inv_res. destruct (IH _ Hnd Hc) as [IH1 IH2]. split.
    + intros vn' [Hne Hni']%not_elem_of_cons. by rewrite IH1, lookup_insert_ne by done.
    + intros vn' o [[= -> ->]|Hin]%elem_of_cons; [|by apply IH2].
      exists ver, x. rewrite IH1 by done. by rewrite lookup_insert_eq.
  - done.
Qed.

Lemma add_entry_ne cpf man d d' lps : d ≠ d' → add_entry cpf man (d', lps) !! d = man !! d.
Proof. intros Hne. unfold add_entry. case_bool_decide; [by rewrite lookup_insert_ne|done]. Qed.

Lemma add_entries_notin cpf l man d : d ∉ l.*1 → foldl (add_entry cpf) man l !! d = man !! d.
Proof.
  revert man. induction l as [|[d' lps'] l IH]; intros man; cbn [fmap list_fmap fst foldl]; [done|].
  intros [Hne Hni]%not_elem_of_cons. rewrite IH by done. by apply add_entry_ne.
Qed.

Lemma add_entries_in cpf l man d lps : NoDup l.*1 → (d, lps) ∈ l →
  foldl (add_entry cpf) man l !! d = if bool_decide (paths_of man d = []) then Some (cpf lps) else man !! d.
Proof.
  revert man. induction l as [|[d' lps'] l IH]; intros man; cbn [fmap list_fmap fst foldl].
  - by intros _ ?%elem_of_nil.
  - intros [Hni Hnd]%NoDup_cons [[= -> ->]|Hin]%elem_of_cons.
    + rewrite add_entries_notin by done. unfold add_entry.
      case_bool_decide; [by rewrite lookup_insert_eq|done].
    + assert (d ≠ d') as Hne.
      { intros ->. apply Hni. apply list_elem_of_fmap. by exists (d', lps). }
      rewrite IH by done. unfold paths_of. by rewrite !add_entry_ne by done.
Qed.

Lemma add_content_lookup cpf ns man d :
  add_content cpf ns man !! d =
  match ns !! d with
  | Some lps => if bool_decide (paths_of man d = []) then Some (cpf lps) else man !! d
  | None => man !! d
  end.
Proof.
  unfold add_content. destruct (ns !! d) as [lps|] eqn:Hd.
  - apply add_entries_in; [apply range_keys_NoDup|by apply range_elem].
  - apply add_entries_notin. rewrite range_keys_elem, Hd. by intros [? ?].
Qed.

Lemma add_content_Some cpf ns man d ps : add_content cpf ns man !! d = Some ps →
  man !! d = Some ps ∨ ∃ lps, ns !! d = Some lps ∧ ps = cpf lps.
Proof. rewrite add_content_lookup. repeat case_match; intros; simplify_eq; eauto. Qed.

Lemma add_content_keeps cpf ns man d : paths_of man d ≠ [] → add_content cpf ns man !! d = man !! d.
Proof. intros Hd. rewrite add_content_lookup. destruct (ns !! d); [|done]. by rewrite bool_decide_false. Qed.

(** One added version. *)
Lemma build_version_Ok b i a inv inv' :
  build_version now strip b i a inv = Ok inv' → in_int64 (num (inv_Head inv) + 1) →
  ∃ st, Normalize (av_state a) = Ok st
  ∧ inv_Head inv' = version_after (inv_Head inv) 0
  ∧ inv_ID inv' = inv_ID inv ∧ inv_ContentDirectory inv' = inv_ContentDirectory inv
  ∧ inv_Type inv' = inv_Type inv ∧ inv_Fixity inv' = inv_Fixity inv
  ∧ inv_DigestAlgorithm inv' = alg_ID (av_alg a)
  ∧ (inv_DigestAlgorithm inv ≠ "" → inv_DigestAlgorithm inv' = inv_DigestAlgorithm inv)
  ∧ versions inv' = <[inv_Head inv' := Some (added_version i a st)]> (versions inv)
  ∧ manifest inv' = add_content (content_paths (ib_contentPath b) (inv_Head inv')
      (contentDirectory_or_default (inv_ContentDirectory inv))) st (manifest inv).
Proof.
  intros Hb Hn. unfold build_version in Hb. inv_res.
  assert (x = version_after (inv_Head inv) 0) as ->.
  { unfold Next in Hx. destruct (paddingOverflow _); [done|]. injection Hx as <-.
    unfold version_after. f_equal. rewrite wrap64_id by done. lia. }
  destruct (negb _) eqn:Halg; [done|]. inv_res. subst inv'. bool_to_prop.
  exists x0. cbn. split_and!; try done. intros Hne. by rewrite bool_decide_false.
Qed.

Lemma version_after_S v j : version_after (version_after v 0) j = version_after v (S j).
Proof. unfold version_after. cbn. f_equal. lia. Qed.

(** What a sequence of added versions keeps and adds. *)
Record extended b (i : nat) (l : list AddedVersion) inv inv' : Prop := {
  ext_id : inv_ID inv' = inv_ID inv;
  ext_type : inv_Type inv' = inv_Type inv;
  ext_cd : inv_ContentDirectory inv' = inv_ContentDirectory inv;
  ext_fixity : inv_Fixity inv' = inv_Fixity inv;
  ext_head : inv_Head inv' = mkVNum (num (inv_Head inv) + Z.of_nat (length l)) (padding (inv_Head inv));
  ext_alg : inv_DigestAlgorithm inv ≠ "" → inv_DigestAlgorithm inv' = inv_DigestAlgorithm inv;
  ext_versions : ∀ vn, num vn ≤ num (inv_Head inv) → versions inv' !! vn = versions inv !! vn;
  ext_manifest : ∀ d, paths_of (manifest inv) d ≠ [] → manifest inv' !! d = manifest inv !! d;
  ext_added : ∀ j a, l !! j = Some a → ∃ st, Normalize (av_state a) = Ok st
    ∧ versions inv' !! version_after (inv_Head inv) j = Some (Some (added_version (i + j) a st));
  ext_content : ∀ d ps, manifest inv' !! d = Some ps → manifest inv !! d = Some ps ∨
    ∃ j a st lps, l !! j = Some a ∧ Normalize (av_state a) = Ok st ∧ st !! d = Some lps
      ∧ ps = content_paths (ib_contentPath b) (version_after (inv_Head inv) j)
               (contentDirectory_or_default (inv_ContentDirectory inv)) lps
}.

Lemma build_versions_extended b i l inv inv' :
  0 ≤ num (inv_Head inv) → num (inv_Head inv) + Z.of_nat (length l) ≤ max_int64 →
  build_versions now strip b i l inv = Ok inv' → extended b i l inv inv'.
Proof.
  revert i inv. induction l as [|a l IH]; intros i inv Hlo Hhi; cbn [build_versions length] in *.
  - intros [= <-]. split; auto; [|done].
    destruct (inv_Head inv). cbn. f_equal. lia.
  - intros Hb. inv_res. apply build_version_Ok in Hx as
      (st & Hst & Hh & Hid & Hcd & Hty & Hfix & _ & Hal & Hv & Hm); [|unfold in_int64, max_int64 in *; lia].
    assert (num (inv_Head x) = num (inv_Head inv) + 1) as Hn by (rewrite Hh; cbn; lia).
    assert (padding (inv_Head x) = padding (inv_Head inv)) as Hp by (by rewrite Hh).
    destruct (IH (S i) x) as [E1 E2 E3 E4 E5 E6 E7 E8 E9 E10]; [lia..|done|]. split.
    + congruence.
    + congruence.
    + congruence.
    + congruence.
    + rewrite E5, Hn, Hp. cbn [length]. f_equal. lia.
    + intros Hne. rewrite E6; rewrite Hal; done.
    + intros vn Hvn. rewrite E7, Hv, lookup_insert_ne by (lia || intros <-; lia). done.
    + intros d Hd. rewrite E8; [by rewrite Hm, add_content_keeps|].
      unfold paths_of in *. by rewrite Hm, add_content_keeps.
    + intros [|j] a' Hj; cbn in Hj.
      * injection Hj as <-. exists st. split; [done|]. rewrite Nat.add_0_r, <- Hh.
        rewrite E7 by lia. rewrite Hv. by rewrite lookup_insert_eq.
      * destruct (E9 j a' Hj) as (st' & Hst' & Hv'). exists st'. split; [done|].
        rewrite Hh, version_after_S in Hv'. by replace (i + S j)%nat with (S i + j)%nat by lia.
    + intros d ps Hd. apply E10 in Hd as [Hd|(j & a' & st' & lps & Hj & Hst' & Hl & ->)].
      * rewrite Hm in Hd. apply add_content_Some in Hd as [Hd|(lps & Hl & ->)]; [by left|]. right.
        exists 0%nat, a, st, lps. rewrite Hh. done.
      * right. exists (S j), a', st', lps. rewrite Hh, version_after_S, Hcd. done.
Qed.

Lemma fillFixity_fields b inv :
  inv_ID (fillFixity b inv) = inv_ID inv ∧ inv_Type (fillFixity b inv) = inv_Type inv
  ∧ inv_DigestAlgorithm (fillFixity b inv) = inv_DigestAlgorithm inv
  ∧ inv_Head (fillFixity b inv) = inv_Head inv
  ∧ versions (fillFixity b inv) = versions inv ∧ manifest (fillFixity b inv) = manifest inv.
Proof. unfold fillFixity. by destruct (ib_fixitySource b). Qed.

Lemma initialInventory_prev b p inv :
  ib_prev b = Some p → initialInventory b = Ok inv →
  inv_Head inv = ib_head b ∧ inv_ID inv = ib_id b ∧ inv_ContentDirectory inv = ib_contDir b
  ∧ inv_DigestAlgorithm inv = inv_DigestAlgorithm p
  ∧ Normalize (manifest p) = Ok (manifest inv)
  ∧ ∀ vn o, versions p !! vn = Some o → ∃ ver st, o = Some ver ∧ Normalize (state_of ver) = Ok st
      ∧ versions inv !! vn = Some (Some (copied_version ver st)).
Proof.
  intros Hp Hi. unfold initialInventory in Hi. rewrite Hp in Hi. inv_res. subst inv. cbn.
  split_and!; try done. intros vn o Ho. apply (copy_versions_Ok (range 50 (versions p)) ∅).
  - apply range_keys_NoDup.
  - done.
  - by apply range_elem.
Qed.

Lemma initialInventory_type b inv : initialInventory b = Ok inv → it_Spec (inv_Type inv) = ib_spec b.
Proof. unfold initialInventory. destruct (ib_prev b); intros Hi; inv_res; by subst. Qed.

(** C11. [Finalize] on top of an existing inventory never loses anything: the
    head advances by the number of added versions, the digest algorithm and each
    earlier version block stay the same up to the normal form of its state, the
    digests of the manifest keep their content paths, each added version has the
    next number and its state, and each other digest of the manifest is in the state of an
    added version, with the content paths of that version.  The result is a
    well-formed inventory of the requested version of the specification. *)
Theorem Finalize_extends b p inv :
  ib_prev b = Some p → ib_head b = inv_Head p → 0 ≤ num (inv_Head p) →
  num (inv_Head p) + Z.of_nat (length (ib_addedVersions b)) ≤ max_int64 →
  inv_DigestAlgorithm p ≠ "" →
  Finalize now strip b = Ok inv → inv_ascii inv →
  inventory_ok (ib_spec b) inv
  ∧ inv_Head inv = mkVNum (num (inv_Head p) + Z.of_nat (length (ib_addedVersions b))) (padding (inv_Head p))
  ∧ inv_DigestAlgorithm inv = inv_DigestAlgorithm p
  ∧ (∀ vn o, versions p !! vn = Some o → num vn ≤ num (inv_Head p) →
       ∃ ver st, o = Some ver ∧ Normalize (state_of ver) = Ok st
         ∧ versions inv !! vn = Some (Some (copied_version ver st)))
  ∧ (∃ n, Normalize (manifest p) = Ok n
      ∧ (∀ d ps, n !! d = Some ps → manifest inv !! d = Some ps)
      ∧ (∀ d ps, manifest inv !! d = Some ps → n !! d = Some ps ∨
           ∃ j a st lps, ib_addedVersions b !! j = Some a ∧ Normalize (av_state a) = Ok st
             ∧ st !! d = Some lps
             ∧ ps = content_paths (ib_contentPath b) (version_after (inv_Head p) j)
                      (contentDirectory_or_default (ib_contDir b)) lps))
  ∧ (∀ j a, ib_addedVersions b !! j = Some a → ∃ st, Normalize (av_state a) = Ok st
       ∧ versions inv !! version_after (inv_Head p) j = Some (Some (added_version j a st))).
Proof.
  intros Hp Hh Hlo Hhi Halg Hf Ha. unfold Finalize in Hf. inv_res.
  destruct (v_Err _) eqn:Hv; [done|]. inv_res. subst inv.
  destruct (initialInventory_prev b p x Hp Hx) as (I1 & I2 & I3 & I4 & I5 & I6).
  rewrite Hh in I1. rewrite <- I3. clear Hh.
  destruct (build_versions_extended b 0 (ib_addedVersions b) x x0) as [E1 E2 E3 E4 E5 E6 E7 E8 E9 E10];
    [by rewrite I1|by rewrite I1|done|].
  rewrite I1 in *.
  destruct (fillFixity_fields b x0) as (F1 & F2 & F3 & F4 & F5 & F6).
  rewrite F3, F4, F5, F6. split_and!.
  - apply Inventory_Validate_ok in Hv; [|done].
    rewrite F2, E2, (initialInventory_type b x Hx) in Hv. exact Hv.
  - done.
  - rewrite E6; congruence.
  - intros vn o Ho Hle. destruct (I6 vn o Ho) as (ver & st & -> & Hst & Hvn).
    exists ver, st. by rewrite E7.
  - exists (manifest x). split; [done|]. split; [|exact E10].
    intros d ps Hd. rewrite E8; [done|]. unfold paths_of. rewrite Hd. cbn. intros ->.
    by apply Normalize_nonempty in I5; apply I5 in Hd.
  - exact E9.
Qed.
End built.

(** ** Concrete instances *)

Definition ex_now (n : nat) : Time := mkTime (10 ^ 18) 0.

Definition ex_builder : InventoryBuilder :=
  ib_AddVersion (NewInventoryBuilder (Some ex_inventory))
    (mkAddedVersion (<["ab" := ["f"]]> {["cd" := ["d/g"]]}) (@builtin_alg ref_hashes SHA512) Time_zero "second" (Some (mkUser "me" ""))).

(** A decision procedure for [inv_ascii]. *)
Definition inv_ascii_b (inv : Inventory) : bool :=
  let ok (m : DigestMap) := forallb (λ e : string * list string, is_ascii e.1) (map_to_list m) in
  ok (manifest inv)
  && forallb (λ e : VNum * option InventoryVersion, match e.2 with Some ver => ok (state_of ver) | None => true end)
       (map_to_list (versions inv))
  && forallb (λ e : string * DigestMap, ok e.2) (map_to_list (inv_Fixity inv)).

Lemma inv_ascii_check inv : inv_ascii_b inv = true → inv_ascii inv.
Proof.
  unfold inv_ascii_b. rewrite !andb_true_iff. intros [[Hm Hv] Hf].
  rewrite forallb_forall in Hv, Hf. split_and!; [by apply ascii_keys_check| |].
  - intros vn ver Hver. apply ascii_keys_check. apply (Hv (vn, Some ver)), list_elem_of_In. by apply elem_of_map_to_list.
  - intros alg m Ha. apply ascii_keys_check. apply (Hf (alg, m)), list_elem_of_In. by apply elem_of_map_to_list.
Qed.

Definition ex_built : Inventory :=
  match @Finalize ref_env ref_urls ref_multierror ex_now id ex_builder with
  | Ok inv => inv
  | _ => ex_inventory
  end.

Lemma Finalize_extends_witness :
  inv_Head ex_built = mkVNum 2 0 ∧ manifest ex_built !! "cd" = Some ["v2/content/d/g"]
  ∧ @inventory_ok ref_env Spec1_1 ex_built.
Proof.
  split; [by vm_compute|]. split; [by vm_compute|].
  apply (@Finalize_extends ref_env ref_urls ref_multierror ref_multierror_laws ex_now id ex_builder
    ex_inventory ex_built); [done..|by vm_compute|by vm_compute|by apply inv_ascii_check; vm_compute].
Defined.
