(* ===== verification/UpdatePlan.v ===== *)
(** * Update plans ([src/update-plan.go])

    The steps that create a new object version, the functions that run and revert
    them, and the plan that records what has been done.  A step's functions are
    computations on the storage; the concurrent steps of a group run in the order
    [interleave] gives, and all of them run even if one fails.  The text of an
    error and the binary encoding of plans are arguments; logging is left out. *)
From S2P Require Import Prelude GoStd VNum DigestMap Spec FS Namaste Digest Codes Validation.
From S2P Require Import Inventory OcflInventory InventoryBytes.

(** [src/update-plan.go:728-738] planStepState *)
Record planStepState := mkPlanStepState {
  ps_Name : string;
  ps_ContentDigest : string;
  ps_Err : string;
  ps_RevertErr : string;
  ps_Completed : bool;
  ps_Size : Z
}.

Definition new_state (name dig : string) : planStepState := mkPlanStepState name dig "" "" false 0.

(** [src/update-plan.go:722-726] updatePlanState *)
Record updatePlanState := mkUpdatePlanState {
  ups_NewInventoryBytes : string;
  ups_OldInventoryBytes : string;
  ups_Steps : list planStepState
}.

(** The encoding of [encoding/gob], and the text of an error. *)
Class PlanCodec := {
  gob_Encode : updatePlanState → result string;
  gob_Decode : string → result updatePlanState;
  gob_EncodeStep : planStepState → result string;
  gob_DecodeStep : string → result planStepState;
  error_Error : error → string
}.

Section plan.
Context `{GoEnv, URLs, MultiError, Hashes, Decoders, PlanCodec}.
Context {W FS : Type} `{!FileSystems W FS}.

(** [src/stage.go:204-210] ContentSource: [None] is the nil [FS] *)
Definition ContentSource : Type := string → option (FS * string).

(** [src/update-plan.go:361-372] PlanStep: [None] is a nil function *)
Record PlanStep := mkPlanStep {
  step_state : planStepState;
  step_async : bool;
  step_run : option (FS → string → option ContentSource → IO W (res Z));
  step_revert : option (FS → string → option ContentSource → IO W (option error))
}.

Definition set_state (step : PlanStep) (st : planStepState) : PlanStep :=
  mkPlanStep st (step_async step) (step_run step) (step_revert step).

(** [src/update-plan.go:31-39] UpdatePlan *)
Record UpdatePlan := mkUpdatePlan {
  up_steps : list PlanStep;
  up_newInv : StoredInventory;
  up_oldInv : option StoredInventory;
  up_goLimit : Z
}.

Definition with_steps (u : UpdatePlan) (steps : list PlanStep) : UpdatePlan :=
  mkUpdatePlan steps (up_newInv u) (up_oldInv u) (up_goLimit u).

(** ** Steps *)

Definition message (err : error) : string :=
  let msg := error_Error err in if bool_decide (msg = "") then "unspecified error" else msg.

(** [src/update-plan.go:396-419] PlanStep.Run *)
Definition PlanStep_Run (step : PlanStep) (objFS : FS) (objDir : string) (src : option ContentSource)
    : IO W (PlanStep * res unit) :=
  let st := step_state step in
  match step_run step with
  | None => mret (step, Ok ())
  | Some run =>
      if ps_Completed st then mret (step, Ok ())
      else
        r ← run objFS objDir src;
        match r with
        | Err err =>
            mret (set_state step (mkPlanStepState (ps_Name st) (ps_ContentDigest st) (message err)
                    (ps_RevertErr st) (ps_Completed st) (ps_Size st)), Err err)
        | Ok size =>
            mret (set_state step (mkPlanStepState (ps_Name st) (ps_ContentDigest st) ""
                    (ps_RevertErr st) true size), Ok ())
        | Panic => mret (step, Panic)
        end
  end.

(** [src/update-plan.go:421-444] PlanStep.Revert *)
Definition PlanStep_Revert (step : PlanStep) (objFS : FS) (objDir : string) (src : option ContentSource)
    : IO W (PlanStep * res unit) :=
  let st := step_state step in
  match step_revert step with
  | None => mret (step, Ok ())
  | Some revert =>
      if negb (ps_Completed st) then mret (step, Ok ())
      else
        r ← revert objFS objDir src;
        match r with
        | Some err =>
            mret (set_state step (mkPlanStepState (ps_Name st) (ps_ContentDigest st) (ps_Err st)
                    (message err) (ps_Completed st) (ps_Size st)), Err err)
        | None =>
            mret (set_state step (mkPlanStepState (ps_Name st) (ps_ContentDigest st) (ps_Err st)
                    "" false (ps_Size st)), Ok ())
        end
  end.

(** [src/update-plan.go:374-380] PlanStep.MarshalBinary *)
Definition PlanStep_MarshalBinary (step : PlanStep) : result string := gob_EncodeStep (step_state step).

(** [src/update-plan.go:452-459] PlanStep.UnmarshalBinary *)
Definition PlanStep_UnmarshalBinary (step : PlanStep) (b : string) : result PlanStep :=
  match gob_DecodeStep b with
  | inr err => inr err
  | inl st => inl (set_state step st)
  end.

(** [src/update-plan.go:382-383] PlanStep.ErrMsg *)
Definition PlanStep_ErrMsg (step : PlanStep) : string := ps_Err (step_state step).
(** [src/update-plan.go:385-387] PlanStep.Completed *)
Definition PlanStep_Completed (step : PlanStep) : bool := ps_Completed (step_state step).
(** [src/update-plan.go:389-391] PlanStep.ContentDigest *)
Definition PlanStep_ContentDigest (step : PlanStep) : string := ps_ContentDigest (step_state step).
(** [src/update-plan.go:393-394] PlanStep.Name *)
Definition PlanStep_Name (step : PlanStep) : string := ps_Name (step_state step).
(** [src/update-plan.go:446-450] PlanStep.Size *)
Definition PlanStep_Size (step : PlanStep) : Z := ps_Size (step_state step).

(** [src/update-plan.go:343-359] PlanSteps.Eq *)
Fixpoint PlanSteps_Eq (s s2 : list PlanStep) : bool :=
  match s, s2 with
  | [], [] => true
  | this :: s, that :: s2 =>
      bool_decide (PlanStep_Name this = PlanStep_Name that)
      && bool_decide (PlanStep_ContentDigest this = PlanStep_ContentDigest that)
      && PlanSteps_Eq s s2
  | _, _ => false
  end.

(** ** The steps of an update *)

(** [Remove], a file that is not there being no error. *)
Definition remove_existing (fsys : FS) (name : string) : IO W (option error) :=
  err ← fs_Remove fsys name;
  match err with
  | Some err => if errors_Is err fs_ErrNotExist then mret None else mret (Some err)
  | None => mret None
  end.

(** The result of a run that returns [0, err]. *)
Definition no_size (err : option error) : res Z := match err with Some err => Err err | None => Ok 0 end.
Definition with_size (p : Z * option error) : res Z :=
  match p.2 with Some err => Err err | None => Ok p.1 end.

Definition noop_run : FS → string → option ContentSource → IO W (res Z) := λ _ _ _, mret (Ok 0).

(** [src/update-plan.go:291-309] the step of the object root *)
Definition root_step (newHead : VNum) : PlanStep :=
  mkPlanStep (new_state "object root " "") false (Some noop_run)
    (Some (λ objFS objDir _,
       if num newHead =? 1 then fs_RemoveAll objFS objDir else mret None)).

(** [src/update-plan.go:316-326] the step of the version directory *)
Definition version_step (newHead : VNum) : PlanStep :=
  mkPlanStep (new_state ("version directory " +:+ VNum_String newHead) "") false (Some noop_run)
    (Some (λ objFS objDir _, fs_RemoveAll objFS (Join [objDir; VNum_String newHead]))).

Definition object_declaration (spec : Spec) : Namaste := mkNamaste NamasteTypeObject spec.

(** [src/update-plan.go:468-481] *)
Definition write_declaration_step (newSpec : Spec) : PlanStep :=
  let newDecl := object_declaration newSpec in
  mkPlanStep (new_state ("write " +:+ Namaste_Name newDecl) "") false
    (Some (λ objFS objDir _, err ← WriteDeclaration objFS objDir newDecl; mret (no_size err)))
    (Some (λ objFS objDir _, remove_existing objFS (Join [objDir; Namaste_Name newDecl]))).

(** [src/update-plan.go:483-498] *)
Definition remove_declaration_step (oldSpec : Spec) : PlanStep :=
  let oldDecl := object_declaration oldSpec in
  mkPlanStep (new_state ("remove " +:+ Namaste_Name oldDecl) "") false
    (Some (λ objFS objDir _,
       err ← remove_existing objFS (Join [objDir; Namaste_Name oldDecl]); mret (no_size err)))
    (Some (λ objFS objDir _, WriteDeclaration objFS objDir oldDecl)).

(** [src/update-plan.go:461-500] updateDeclarationSteps *)
Definition updateDeclarationSteps (newSpec oldSpec : Spec) : list PlanStep :=
  if bool_decide (newSpec = oldSpec) then []
  else write_declaration_step newSpec ::
    (if Spec_Empty oldSpec then [] else [remove_declaration_step oldSpec]).

(** [src/update-plan.go:506-528] the step that copies one file: a nil content
    source is dereferenced *)
Definition copy_step (dstName dig : string) : PlanStep :=
  mkPlanStep (new_state ("copy " +:+ dstName) dig) true
    (Some (λ objFS objDir src,
       let dstPath := Join [objDir; dstName] in
       match src with
       | None => mret Panic
       | Some GetContent =>
           match GetContent dig with
           | None => mret (Err (ErrNew ("content source doesn't provide " +:+ dig)))
           | Some (srcFS, srcPath) => p ← fs_Copy objFS dstPath srcFS srcPath; mret (with_size p)
           end
       end))
    (Some (λ objFS objDir _, remove_existing objFS (Join [objDir; dstName]))).

(** [src/update-plan.go:502-531] updateVersionContentsSteps *)
Definition updateVersionContentsSteps (newContent : PathMap) : list PlanStep :=
  (λ '(dstName, dig), copy_step dstName dig) <$> SortedPaths newContent.

Definition write_bytes (objFS : FS) (name b : string) : IO W (res Z) :=
  p ← fs_Write objFS name (bytes_reader b); mret (with_size p).

(** [src/update-plan.go:545-560] write the version directory's inventory *)
Definition version_inventory_step (newInvBytes : string) (newHead : VNum) : PlanStep :=
  let verDirInv := Join [VNum_String newHead; inventoryBase] in
  mkPlanStep (new_state ("write " +:+ verDirInv) "") false
    (Some (λ objFS objDir _, write_bytes objFS (Join [objDir; verDirInv]) newInvBytes))
    (Some (λ objFS objDir _, remove_existing objFS (Join [objDir; verDirInv]))).

(** [src/update-plan.go:561-576] write the version directory's sidecar *)
Definition version_sidecar_step (newInvDigest : string) (newHead : VNum) (newAlg : string) : PlanStep :=
  let verDir := VNum_String newHead in
  let verDirInvSidecar := Join [verDir; inventoryBase] +:+ "." +:+ newAlg in
  mkPlanStep (new_state ("write " +:+ verDirInvSidecar) "") false
    (Some (λ objFS objDir _,
       err ← writeInventorySidecar objFS (Join [objDir; verDir]) newInvDigest newAlg; mret (no_size err)))
    (Some (λ objFS objDir _, remove_existing objFS (Join [objDir; verDirInvSidecar]))).

(** [src/update-plan.go:577-596] write the root inventory *)
Definition root_inventory_step (newInvBytes oldInvBytes : string) (newHead : VNum) : PlanStep :=
  mkPlanStep (new_state ("write " +:+ inventoryBase) "") false
    (Some (λ objFS objDir _, write_bytes objFS (Join [objDir; inventoryBase]) newInvBytes))
    (Some (λ objFS objDir _,
       let objInv := Join [objDir; inventoryBase] in
       if num newHead =? 1 then remove_existing objFS objInv
       else '(_, err) ← fs_Write objFS objInv (bytes_reader oldInvBytes); mret err)).

(** [src/update-plan.go:597-639] write the root sidecar, and remove the one of
    another algorithm *)
Definition root_sidecar_step (newInvDigest oldInvDigest : string) (newHead : VNum) (newAlg oldAlg : string)
    : PlanStep :=
  let invSidecar := inventoryBase +:+ "." +:+ newAlg in
  let same_alg := bool_decide (oldAlg = "") || bool_decide (oldAlg = newAlg) in
  mkPlanStep (new_state ("write " +:+ invSidecar) "") false
    (Some (λ objFS objDir _,
       err ← writeInventorySidecar objFS objDir newInvDigest newAlg;
       match err with
       | Some err => mret (Err err)
       | None =>
           if same_alg then mret (Ok 0)
           else
             err ← remove_existing objFS (Join [objDir; inventoryBase] +:+ "." +:+ oldAlg);
             mret (no_size err)
       end))
    (Some (λ objFS objDir _,
       let objInvSidecar := Join [objDir; invSidecar] in
       if num newHead =? 1 then remove_existing objFS objInvSidecar
       else
         err ← writeInventorySidecar objFS objDir oldInvDigest oldAlg;
         match err with
         | Some err => mret (Some err)
         | None => if same_alg then mret None else remove_existing objFS objInvSidecar
         end)).

(** [src/update-plan.go:533-641] updateInventorySteps *)
Definition updateInventorySteps (newInvBytes oldInvBytes newInvDigest oldInvDigest : string)
    (newHead : VNum) (newAlg oldAlg : string) : list PlanStep :=
  [ version_inventory_step newInvBytes newHead;
    version_sidecar_step newInvDigest newHead newAlg;
    root_inventory_step newInvBytes oldInvBytes newHead;
    root_sidecar_step newInvDigest oldInvDigest newHead newAlg oldAlg ].

(** What an update reads of the previous inventory, if any. *)
Definition old_field {A} (oldInv : option StoredInventory) (f : StoredInventory → A) (zero : A) : A :=
  match oldInv with Some inv => f inv | None => zero end.

(** [src/update-plan.go:261-337] newPlanSteps *)
Definition newPlanSteps (newInv : StoredInventory) (oldInv : option StoredInventory)
    : res (list PlanStep) :=
  let inv := si_Inventory newInv in
  let newFiles := versionContent inv (inv_Head inv) in
  let newSpec := it_Spec (inv_Type inv) in
  let oldAlg := old_field oldInv (λ o, inv_DigestAlgorithm (si_Inventory o)) "" in
  let oldHead := old_field oldInv (λ o, inv_Head (si_Inventory o)) (mkVNum 0 0) in
  let oldSpec := old_field oldInv (λ o, it_Spec (inv_Type (si_Inventory o))) "" in
  if match oldInv with
     | Some o => negb (bool_decide (inv_ID (si_Inventory o) = inv_ID inv))
     | None => false
     end
  then Err (ErrNew "new inventory ID does not match previous inventory's")
  else
    c ← Spec_Cmp newSpec oldSpec;
    if c <? 0 then Err (ErrNew "new version's OCFL spec cannot be lower than the previous version's")
    else if negb (num (inv_Head inv) =? wrap64 (num oldHead + 1))
    then Err (ErrNew "new inventory 'head' is not incremented by 1")
    else Ok (root_step (inv_Head inv) ::
             updateDeclarationSteps newSpec oldSpec ++
             version_step (inv_Head inv) ::
             updateVersionContentsSteps newFiles ++
             updateInventorySteps (si_bytes newInv) (old_field oldInv si_bytes "")
               (si_digest newInv) (old_field oldInv si_digest "")
               (inv_Head inv) (inv_DigestAlgorithm inv) oldAlg).

(** ** Running steps *)

(** Run or revert one step of the plan. *)
Definition do_step (backward : bool) (objFS : FS) (objDir : string) (src : option ContentSource)
    (i : nat) (steps : list PlanStep) : IO W (list PlanStep * res unit) :=
  match steps !! i with
  | None => mret (steps, Ok ())
  | Some step =>
      '(step, r) ← (if backward then PlanStep_Revert step else PlanStep_Run step) objFS objDir src;
      mret (<[i := step]> steps, r)
  end.

(** The goroutines of a group in the order they run: all of them run, and the
    first error is the result; a panic ends the program. *)
Fixpoint run_group (backward : bool) (objFS : FS) (objDir : string) (src : option ContentSource)
    (group : list nat) (first : res unit) (steps : list PlanStep) : IO W (list PlanStep * res unit) :=
  match group with
  | [] => mret (steps, first)
  | i :: group =>
      '(steps, r) ← do_step backward objFS objDir src i steps;
      match r with
      | Panic => mret (steps, Panic)
      | Err _ => run_group backward objFS objDir src group (if is_ok first then r else first) steps
      | Ok _ => run_group backward objFS objDir src group first steps
      end
  end.

Definition group_Wait (backward : bool) (objFS : FS) (objDir : string) (src : option ContentSource)
    (group : list nat) : list PlanStep → IO W (list PlanStep * res unit) :=
  run_group backward objFS objDir src (interleave 60 group) (Ok ()).

Fixpoint steps_loop (backward : bool) (objFS : FS) (objDir : string) (src : option ContentSource)
    (todo group : list nat) (steps : list PlanStep) : IO W (list PlanStep * res unit) :=
  match todo with
  | [] => group_Wait backward objFS objDir src group steps
  | i :: todo =>
      if match steps !! i with Some step => step_async step | None => false end
      then steps_loop backward objFS objDir src todo (group ++ [i]) steps
      else
        '(steps, r) ← group_Wait backward objFS objDir src group steps;
        match r with
        | Ok _ =>
            '(steps, r) ← do_step backward objFS objDir src i steps;
            match r with
            | Ok _ => steps_loop backward objFS objDir src todo [] steps
            | r => mret (steps, r)
            end
        | r => mret (steps, r)
        end
  end.

(** [src/update-plan.go:643-720] runSteps: the steps are given by their positions
    in the plan *)
Definition runSteps (backward : bool) (objFS : FS) (objDir : string) (src : option ContentSource)
    (todo : list nat) (steps : list PlanStep) : IO W (list PlanStep * res unit) :=
  steps_loop backward objFS objDir src todo [] steps.

(** ** Plans *)

(** The positions of the steps that are completed, or are not. *)
Definition positions (completed : bool) (steps : list PlanStep) : list nat :=
  List.filter (λ i, match steps !! i with
                    | Some s => Bool.eqb (PlanStep_Completed s) completed
                    | None => false
                    end) (seq 0 (length steps)).

(** [src/update-plan.go:131-145] UpdatePlan.IncompleteSteps: positions *)
Definition IncompleteSteps (steps : list PlanStep) : list nat :=
  positions false steps.

(** [src/update-plan.go:89-103] UpdatePlan.CompletedSteps: positions, last first *)
Definition CompletedSteps (steps : list PlanStep) : list nat :=
  reverse (positions true steps).

(** [src/update-plan.go:198-208] UpdatePlan.Steps *)
Definition Steps (u : UpdatePlan) : list PlanStep := up_steps u.

(** [src/update-plan.go:81-87] UpdatePlan.Completed *)
Definition UpdatePlan_Completed (u : UpdatePlan) : bool :=
  match IncompleteSteps (up_steps u) with [] => true | _ => false end.

(** [src/update-plan.go:105-114] UpdatePlan.Err: the messages that are joined *)
Definition UpdatePlan_Err (u : UpdatePlan) : list string :=
  filter (λ msg, msg ≠ "") (PlanStep_ErrMsg <$> up_steps u).

(** [src/update-plan.go:59-70] UpdatePlan.Apply *)
Definition Apply (u : UpdatePlan) (objFS : FS) (objDir : string) (src : option ContentSource)
    : IO W (UpdatePlan * res StoredInventory) :=
  '(steps, r) ← runSteps false objFS objDir src (IncompleteSteps (up_steps u)) (up_steps u);
  mret (with_steps u steps, match r with Ok _ => Ok (up_newInv u) | Err err => Err err | Panic => Panic end).

(** [src/update-plan.go:181-189] UpdatePlan.Revert *)
Definition Revert (u : UpdatePlan) (objFS : FS) (objDir : string) (src : option ContentSource)
    : IO W (UpdatePlan * res unit) :=
  if UpdatePlan_Completed u then mret (u, Err (ErrVar ErrRevertUpdate))
  else
    '(steps, r) ← runSteps true objFS objDir src (CompletedSteps (up_steps u)) (up_steps u);
    mret (with_steps u steps, r).

(** [src/update-plan.go:72-79] UpdatePlan.BaseInventoryDigest *)
Definition BaseInventoryDigest (u : UpdatePlan) : string := old_field (up_oldInv u) si_digest "".

(** [src/update-plan.go:163-167] UpdatePlan.NextHead *)
Definition NextHead (u : UpdatePlan) : VNum := inv_Head (si_Inventory (up_newInv u)).

(** [src/update-plan.go:169-173] UpdatePlan.NextInventoryDigest *)
Definition NextInventoryDigest (u : UpdatePlan) : string := si_digest (up_newInv u).

(** [src/update-plan.go:175-179] UpdatePlan.ObjectID *)
Definition UpdatePlan_ObjectID (u : UpdatePlan) : string := inv_ID (si_Inventory (up_newInv u)).

(** [src/update-plan.go:116-129] UpdatePlan.Eq *)
Definition UpdatePlan_Eq (u other : UpdatePlan) : bool :=
  if negb (bool_decide (si_bytes (up_newInv u) = si_bytes (up_newInv other))) then false
  else match up_oldInv u, up_oldInv other with
       | Some o, Some o' =>
           if negb (bool_decide (si_bytes o = si_bytes o')) then false
           else PlanSteps_Eq (up_steps u) (up_steps other)
       | None, None => PlanSteps_Eq (up_steps u) (up_steps other)
       | _, _ => false
       end.

(** The functions of a new step in a step with its state. *)
Definition import_step (old new : PlanStep) : PlanStep :=
  mkPlanStep (step_state old) (step_async old) (step_run new) (step_revert new).

(** [src/update-plan.go:238-259] UpdatePlan.prepareSteps: an empty slice is nil *)
Definition prepareSteps (u : UpdatePlan) : res UpdatePlan :=
  newSteps ← newPlanSteps (up_newInv u) (up_oldInv u);
  match up_steps u with
  | [] => Ok (with_steps u newSteps)
  | steps =>
      if negb (PlanSteps_Eq newSteps steps)
      then Err (ErrNew "previous update log doesn't reflect current update plan")
      else Ok (with_steps u (zip_with import_step steps newSteps))
  end.

(** [src/update-plan.go:41-57] newUpdatePlan *)
Definition newUpdatePlan (json_Marshal : Inventory → result string) (newInv : Inventory)
    (oldInv : option StoredInventory) : res UpdatePlan :=
  match Inventory_marshal json_Marshal newInv with
  | inr err => Err (ErrWrap "building new inventory" err)
  | inl (newInvBytes, invDigest) =>
      prepareSteps (mkUpdatePlan [] (mkStoredInventory newInv newInvBytes invDigest) oldInv 0)
  end.

(** [src/update-plan.go:147-161] UpdatePlan.MarshalBinary *)
Definition UpdatePlan_MarshalBinary (u : UpdatePlan) : result string :=
  gob_Encode (mkUpdatePlanState (si_bytes (up_newInv u)) (old_field (up_oldInv u) si_bytes "")
    (step_state <$> up_steps u)).

(** A decoded step has no functions and is not concurrent. *)
Definition decoded_step (st : planStepState) : PlanStep := mkPlanStep st false None None.

(** [src/update-plan.go:210-236] UpdatePlan.UnmarshalBinary *)
Definition UpdatePlan_UnmarshalBinary (u : UpdatePlan) (b : string) : res UpdatePlan :=
  match gob_Decode b with
  | inr err => Err err
  | inl decoded =>
      match newStoredInventory (ups_NewInventoryBytes decoded) with
      | inr err => Err err
      | inl newInv =>
          let oldInv := if bool_decide (ups_OldInventoryBytes decoded = "") then inl None
                        else match newStoredInventory (ups_OldInventoryBytes decoded) with
                             | inr err => inr err
                             | inl o => inl (Some o)
                             end in
          match oldInv with
          | inr err => Err err
          | inl oldInv =>
              prepareSteps (mkUpdatePlan (decoded_step <$> ups_Steps decoded) newInv oldInv (up_goLimit u))
          end
      end
  end.

(** [src/update-plan.go:191-193] UpdatePlan.setGoLimit *)
Definition setGoLimit (u : UpdatePlan) (gos : Z) : UpdatePlan :=
  mkUpdatePlan (up_steps u) (up_newInv u) (up_oldInv u) gos.
End plan.
Arguments PlanStep : clear implicits.
Arguments UpdatePlan : clear implicits.
Arguments ContentSource : clear implicits.
