(* ===== verification/PlanRuns.v ===== *)
(** * Runs of plan steps

    What [runSteps] guarantees for any sequence of steps, concurrent groups
    included: an invariant that each step preserves holds when it returns, whether
    it succeeds or not, and on success every step of the list is done.  Two
    contracts of a step instantiate it: the effect its run has on the files, and
    the files its revert restores. *)
From S2P Require Import Prelude GoStd VNum DigestMap Spec FS Namaste Digest Codes Validation.
From S2P Require Import Inventory OcflInventory InventoryBytes UpdatePlan.

Section loop.
Context `{GoEnv, PlanCodec} {W FS : Type} `{!FileSystems W FS}.
Context (backward : bool) (objFS : FS) (objDir : string) (src : option (ContentSource FS)).
Implicit Types (steps : list (PlanStep W FS)) (w : W) (r : res unit).

(** [fl] are the [async] flags; the steps that are not concurrent and come
    [before] a step are done when it runs. *)
Context (fl : list bool) (I : list (PlanStep W FS) → W → Prop)
  (complete : list (PlanStep W FS) → nat → Prop) (before : nat → nat → Prop).

Definition sync (j : nat) : Prop := fl !! j ≠ Some true.
Definition ready steps (i : nat) : Prop := ∀ j, before j i → sync j → complete steps j.

Context (I_flags : ∀ steps w, I steps w → step_async <$> steps = fl).
Context (I_step : ∀ i steps w w' steps' r, I steps w → ready steps i →
  do_step backward objFS objDir src i steps w = (w', (steps', r)) →
  I steps' w' ∧ (is_ok r = true → complete steps' i) ∧ ∀ j, complete steps j → complete steps' j).

Lemma ready_mono steps steps' i : (∀ j, complete steps j → complete steps' j) → ready steps i → ready steps' i.
Proof. intros Hd Hr j Hj Hs. by apply Hd, Hr. Qed.

Lemma run_group_spec group first steps w w' steps' r :
  I steps w → (∀ i, i ∈ group → ready steps i) →
  run_group backward objFS objDir src group first steps w = (w', (steps', r)) →
  I steps' w' ∧ (∀ j, complete steps j → complete steps' j)
  ∧ (is_ok r = true → is_ok first = true ∧ ∀ i, i ∈ group → complete steps' i).
Proof.
  revert first steps w. induction group as [|i group IH]; intros first steps w HI Hr Hrun; cbn [run_group] in Hrun.
  - inv_io. split; [done|]. split; [done|]. intros Hok. split; [done|]. by intros i ?%elem_of_nil.
  - inv_io.
    destruct (I_step i steps w _ _ _ HI (Hr i (list_elem_of_here i group)) Ha) as (HI1 & Hd1 & Hm1).
    assert (∀ i', i' ∈ group → ready l i') as Hr1.
    { intros i' Hi'. apply (ready_mono steps); [done|]. apply Hr. by right. }
    destruct r0 as [u|e|]; cbn beta iota in Hrun.
    + destruct (IH _ _ _ HI1 Hr1 Hrun) as (HI2 & Hm2 & Hd2). split; [done|]. split; [auto|].
      intros Hok. destruct (Hd2 Hok) as [Hf Hg]. split; [done|].
      intros i' [->|Hi']%elem_of_cons; auto.
    + destruct (IH _ _ _ HI1 Hr1 Hrun) as (HI2 & Hm2 & Hd2). split; [done|]. split; [auto|].
      intros Hok. destruct (Hd2 Hok) as [Hf _]. by destruct (is_ok first) eqn:Hfirst; [|rewrite Hfirst in Hf].
    + inv_io. split; [done|]. split; [done|]. done.
Qed.

Lemma group_Wait_spec group steps w w' steps' r :
  I steps w → (∀ i, i ∈ group → ready steps i) →
  group_Wait backward objFS objDir src group steps w = (w', (steps', r)) →
  I steps' w' ∧ (∀ j, complete steps j → complete steps' j) ∧ (is_ok r = true → ∀ i, i ∈ group → complete steps' i).
Proof.
  intros HI Hr Hrun. unfold group_Wait in Hrun.
  apply run_group_spec in Hrun as (? & ? & Hok); [|done|].
  - split_and!; [done..|]. intros Hr' i Hi. apply Hok; [done|]. by rewrite interleave_perm.
  - intros i. rewrite interleave_perm. apply Hr.
Qed.

(** The steps that a step waits for are done, or run earlier. *)
Definition in_order (todo : list nat) steps : Prop :=
  ∀ t1 i t2, todo = t1 ++ i :: t2 → ∀ j, before j i → sync j → complete steps j ∨ j ∈ t1.

Lemma in_order_tail i todo steps steps' :
  in_order (i :: todo) steps → (∀ j, complete steps j → complete steps' j) → (sync i → complete steps' i) →
  in_order todo steps'.
Proof.
  intros Ho Hm Hi t1 i' t2 -> j Hj Hs.
  destruct (Ho (i :: t1) i' t2 eq_refl j Hj Hs) as [Hd|[->|Hin]%elem_of_cons]; auto.
Qed.

Lemma steps_loop_spec todo group steps w w' steps' r :
  I steps w → (∀ i, i ∈ group → ready steps i) → in_order todo steps →
  steps_loop backward objFS objDir src todo group steps w = (w', (steps', r)) →
  I steps' w' ∧ (∀ j, complete steps j → complete steps' j)
  ∧ (is_ok r = true → ∀ i, i ∈ group ++ todo → complete steps' i).
Proof.
  revert group steps w. induction todo as [|i todo IH]; intros group steps w HI Hr Ho Hrun; cbn [steps_loop] in Hrun.
  - rewrite app_nil_r. by apply group_Wait_spec in Hrun.
  - assert (ready steps i) as Hri.
    { intros j Hj Hs. destruct (Ho [] i todo eq_refl j Hj Hs) as [Hd|Hin]; [done|]. by apply elem_of_nil in Hin. }
    pose proof (I_flags steps w HI) as Hfl.
    destruct (match steps !! i with Some step => step_async step | None => false end) eqn:Hasync.
    + apply IH in Hrun as (HI' & Hm & Hd); [|done| |].
      * split_and!; [done..|]. intros Hok i' Hi'. apply Hd; [done|]. by rewrite <- (assoc_L (++)).
      * intros i' [Hi'|Hi']%elem_of_app; [by apply Hr|]. apply list_elem_of_singleton in Hi' as ->. exact Hri.
      * apply (in_order_tail i todo steps steps); [done..|]. intros Hs. exfalso. apply Hs.
        rewrite <- Hfl, list_lookup_fmap. destruct (steps !! i); [|done]. cbn. by rewrite Hasync.
    + inv_io. apply group_Wait_spec in Ha as (HI1 & Hm1 & Hd1); [|done..].
      destruct r0 as [u|e|]; [|by inv_io..]. inv_io.
      destruct (I_step i l w0 _ _ _ HI1 (ready_mono _ _ _ Hm1 Hri) Ha) as (HI2 & Hd2 & Hm2).
      destruct r0 as [u'|e|]; [|inv_io; split_and!; auto; done..].
      apply IH in Hrun as (HI3 & Hm3 & Hd3); [|done|by intros ? ?%elem_of_nil|].
      * split; [done|]. split; [auto|]. intros Hok i' [Hi'|[->|Hi']%elem_of_cons]%elem_of_app; auto.
      * apply (in_order_tail i todo steps l0); auto.
Qed.

Lemma runSteps_spec todo steps w w' steps' r :
  I steps w → in_order todo steps →
  runSteps backward objFS objDir src todo steps w = (w', (steps', r)) →
  I steps' w' ∧ (∀ j, complete steps j → complete steps' j)
  ∧ (is_ok r = true → ∀ i, i ∈ todo → complete steps' i).
Proof. intros HI Ho Hrun. apply steps_loop_spec in Hrun; [done|done| |done]. by intros ? ?%elem_of_nil. Qed.
End loop.

(** ** Effects *)

(** What a step leaves at a path: a file with these bytes, or no file. *)
Definition effect : Type := (string * option string)%type.

Definition apply_effect (m : gmap string string) (e : effect) : gmap string string :=
  partial_alter (λ _, e.2) e.1 m.
Definition apply_effects (effs : list effect) (m : gmap string string) : gmap string string :=
  foldl apply_effect m effs.

Lemma apply_effects_notin effs m p : p ∉ effs.*1 → apply_effects effs m !! p = m !! p.
Proof.
  unfold apply_effects. revert m. induction effs as [|[p' o] effs IH]; intros m; cbn [fmap list_fmap fst foldl]; [done|].
  intros [Hne Hni]%not_elem_of_cons. rewrite IH by done. unfold apply_effect. cbn.
  by rewrite lookup_partial_alter_ne.
Qed.

Lemma apply_effects_in effs m p o : NoDup effs.*1 → (p, o) ∈ effs → apply_effects effs m !! p = o.
Proof.
  unfold apply_effects. revert m. induction effs as [|[p' o'] effs IH]; intros m; cbn [fmap list_fmap fst foldl].
  - by intros _ ?%elem_of_nil.
  - intros [Hni Hnd]%NoDup_cons [[= -> ->]|Hin]%elem_of_cons; [|by apply IH].
    pose proof (apply_effects_notin effs (apply_effect m (p', o')) p' Hni) as He.
    unfold apply_effects in He. rewrite He. apply lookup_partial_alter_eq.
Qed.

(** A map is the result of the effects if it has them and is unchanged elsewhere. *)
Lemma apply_effects_eq effs m m' : NoDup effs.*1 →
  (∀ p o, (p, o) ∈ effs → m' !! p = o) → (∀ p, p ∉ effs.*1 → m' !! p = m !! p) →
  m' = apply_effects effs m.
Proof.
  intros Hnd Hin Hni. apply map_eq. intros p. destruct (decide (p ∈ effs.*1)) as [Hp|Hp].
  - apply list_elem_of_fmap in Hp as ([p' o] & -> & Hp). rewrite (apply_effects_in effs m _ o) by done.
    by apply Hin.
  - by rewrite apply_effects_notin, Hni.
Qed.

Lemma mjoin_NoDup_index {A} (ls : list (list A)) i j l1 l2 x :
  NoDup (mjoin ls) → ls !! i = Some l1 → ls !! j = Some l2 → x ∈ l1 → x ∈ l2 → i = j.
Proof.
  revert i j. induction ls as [|l ls IH]; intros i j; [done|]. cbn.
  intros (Hl & Hd & Hnd)%NoDup_app.
  assert (∀ k l', ls !! k = Some l' → x ∈ l' → x ∈ mjoin ls) as Hm.
  { intros k l' Hk Hx. apply list_elem_of_join. exists l'. split; [done|]. by eapply list_elem_of_lookup_2. }
  destruct i as [|i], j as [|j]; cbn; intros H1 H2 Hx1 Hx2; simplify_eq; [done| | |f_equal; by eapply IH].
  - exfalso. by eapply Hd, Hm.
  - exfalso. by eapply Hd, Hm.
Qed.

Lemma fmap_mjoin {A B} (f : A → B) (ls : list (list A)) : f <$> mjoin ls = mjoin (fmap f <$> ls).
Proof. induction ls as [|l ls IH]; cbn; [done|]. rewrite fmap_app. f_equal. exact IH. Qed.

(** ** Positions *)

Section positions.
Context {W FS : Type}.
Implicit Types (steps : list (PlanStep W FS)).

Lemma positions_elem b steps i :
  i ∈ positions b steps ↔ ∃ s, steps !! i = Some s ∧ PlanStep_Completed s = b.
Proof.
  unfold positions. rewrite list_elem_of_In, filter_In, <- list_elem_of_In, elem_of_seq. split.
  - intros [_ Hs]. destruct (steps !! i) as [s|]; [|done]. exists s. split; [done|]. by apply eqb_prop.
  - intros (s & Hs & <-). rewrite Hs. split; [|by rewrite eqb_reflx].
    apply lookup_lt_Some in Hs. lia.
Qed.

Lemma positions_nil b steps :
  positions b steps = [] ↔ ∀ i s, steps !! i = Some s → PlanStep_Completed s = negb b.
Proof.
  split.
  - intros Hn i s Hs. destruct (PlanStep_Completed s) eqn:Hc, b; try done; exfalso;
      (assert (i ∈ positions _ steps) as Hi by (apply positions_elem; eauto));
      rewrite Hn in Hi; by apply elem_of_nil in Hi.
  - intros Hall. destruct (positions b steps) as [|i l] eqn:Hp; [done|].
    assert (i ∈ positions b steps) as (s & Hs & Hc)%positions_elem by (rewrite Hp; left).
    specialize (Hall i s Hs). rewrite Hc in Hall. by destruct b.
Qed.

(** The positions are in increasing order. *)
Lemma positions_sorted b steps : StronglySorted lt (positions b steps).
Proof.
  unfold positions. generalize 0%nat as k, (length steps) as n. intros k n. revert k.
  induction n as [|n IH]; intros k; cbn [seq List.filter]; [constructor|].
  assert (∀ l, Forall (lt k) l → Forall (lt k) (List.filter
    (λ i, match steps !! i with Some s => Bool.eqb (PlanStep_Completed s) b | None => false end) l)) as Hf.
  { intros l. rewrite !Forall_forall. intros Hl x. rewrite list_elem_of_In, filter_In, <- list_elem_of_In.
    intros [Hx _]. by apply Hl. }
  destruct (match steps !! k with Some s => _ | None => _ end).
  - constructor; [apply IH|]. apply Hf, Forall_forall. intros x Hx%elem_of_seq. lia.
  - apply IH.
Qed.
End positions.

(** ** Contracts of a step *)

(** The files a step answers for as long as it is not completed, and the effect of
    its run. *)
Record step_spec := mkSpec { sp_own : string → Prop; sp_eff : list effect }.

Section contracts.
Context `{GoEnv, PlanCodec} {W FS : Type} `{!FileSystems W FS}.
Context (objFS : FS) (objDir : string) (files : W → gmap string string) (f0 : gmap string string).
Implicit Types (s : PlanStep W FS) (steps : list (PlanStep W FS)) (sp : step_spec) (w : W)
  (src : option (ContentSource FS)).

(** A run changes nothing but the files of its effect. *)
Definition run_frames s sp : Prop :=
  ∃ run, step_run s = Some run ∧
    ∀ src w w' r, run objFS objDir src w = (w', r) → ∀ p, p ∉ (sp_eff sp).*1 → files w' !! p = files w !! p.

(** A run that succeeds has its effect. *)
Definition run_effect (good : option (ContentSource FS) → W → Prop) s sp : Prop :=
  ∀ run src w w' z, step_run s = Some run → good src w → run objFS objDir src w = (w', Ok z) →
    ∀ p o, (p, o) ∈ sp_eff sp → files w' !! p = o.

(** A run that fails leaves the files it answers for. *)
Definition run_atomic s sp : Prop :=
  ∀ run src w w' r, step_run s = Some run → run objFS objDir src w = (w', r) → is_ok r = false →
    ∀ p, sp_own sp p → files w' !! p = files w !! p.

(** A revert restores the files of the step, and brings no other file away from
    its state before the update. *)
Definition revert_restores s sp : Prop :=
  ∃ rv, step_revert s = Some rv ∧ ∀ src w w' e, rv objFS objDir src w = (w', e) →
    (∀ p, sp_own sp p ∨ files w' !! p = files w !! p ∨ files w' !! p = f0 !! p)
    ∧ (e = None → ∀ p, sp_own sp p → files w' !! p = f0 !! p).

Definition same_functions s s' : Prop :=
  step_async s' = step_async s ∧ step_run s' = step_run s ∧ step_revert s' = step_revert s.

Lemma PlanStep_Run_inv s src w w' s' r run :
  step_run s = Some run → PlanStep_Run s objFS objDir src w = (w', (s', r)) →
  same_functions s s' ∧
  (PlanStep_Completed s = true ∧ s' = s ∧ w' = w ∧ r = Ok ()
   ∨ PlanStep_Completed s = false ∧ ∃ rr, run objFS objDir src w = (w', rr)
     ∧ is_ok r = is_ok rr ∧ PlanStep_Completed s' = is_ok rr).
Proof.
  intros Hrun Hr. unfold PlanStep_Run in Hr. rewrite Hrun in Hr.
  unfold PlanStep_Completed. destruct (ps_Completed (step_state s)) eqn:Hc.
  - inv_io. split; [done|]. by left.
  - inv_io. split; [by destruct a; inv_io|]. right. split; [done|]. exists a. by destruct a; inv_io.
Qed.

Lemma PlanStep_Revert_inv s src w w' s' r rv :
  step_revert s = Some rv → PlanStep_Revert s objFS objDir src w = (w', (s', r)) →
  same_functions s s' ∧
  (PlanStep_Completed s = false ∧ s' = s ∧ w' = w ∧ r = Ok ()
   ∨ PlanStep_Completed s = true ∧ ∃ e, rv objFS objDir src w = (w', e)
     ∧ is_ok r = (match e with None => true | Some _ => false end)
     ∧ PlanStep_Completed s' = negb (is_ok r)).
Proof.
  intros Hrv Hr. unfold PlanStep_Revert in Hr. rewrite Hrv in Hr.
  unfold PlanStep_Completed. destruct (ps_Completed (step_state s)) eqn:Hc; cbn [negb] in Hr.
  - inv_io. split; [by destruct a; inv_io|]. right. split; [done|]. exists a. by destruct a; inv_io.
  - inv_io. split; [done|]. by left.
Qed.

Lemma same_flags steps i s s' : steps !! i = Some s → same_functions s s' →
  step_async <$> <[i := s']> steps = step_async <$> steps.
Proof.
  intros Hs (Ha & _). rewrite list_fmap_insert, Ha. apply list_insert_id.
  by rewrite list_lookup_fmap, Hs.
Qed.

(** ** Applying: the completed steps have their effect *)

Section apply.
Context (specs : list step_spec) (good : option (ContentSource FS) → Prop).
Context (specs_disjoint : NoDup (mjoin (sp_eff <$> specs)).*1).

Definition framed w : Prop := ∀ p, p ∉ (mjoin (sp_eff <$> specs)).*1 → files w !! p = f0 !! p.

Definition applicable s sp : Prop :=
  run_frames s sp ∧ run_effect (λ src w, good src ∧ framed w) s sp.

Record applied (fl : list bool) steps w : Prop := {
  ap_flags : step_async <$> steps = fl;
  ap_steps : Forall2 applicable steps specs;
  ap_frame : framed w;
  ap_effect : ∀ i s sp p o, steps !! i = Some s → specs !! i = Some sp → PlanStep_Completed s = true →
    (p, o) ∈ sp_eff sp → files w !! p = o
}.

Definition is_completed steps (i : nat) : Prop := ∀ s, steps !! i = Some s → PlanStep_Completed s = true.

Lemma effects_disjoint i j spi spj p :
  specs !! i = Some spi → specs !! j = Some spj → p ∈ (sp_eff spi).*1 → p ∈ (sp_eff spj).*1 → i = j.
Proof.
  intros Hi Hj. eapply (mjoin_NoDup_index ((λ sp, (sp_eff sp).*1) <$> specs)).
  - assert ((λ sp, (sp_eff sp).*1) <$> specs = fmap fst <$> (sp_eff <$> specs)) as ->.
    { by rewrite <- list_fmap_compose. }
    rewrite <- (fmap_mjoin fst). exact specs_disjoint.
  - by rewrite list_lookup_fmap, Hi.
  - by rewrite list_lookup_fmap, Hj.
Qed.

Lemma applied_step fl src i steps w w' steps' r :
  good src → applied fl steps w →
  do_step false objFS objDir src i steps w = (w', (steps', r)) →
  applied fl steps' w' ∧ (is_ok r = true → is_completed steps' i)
  ∧ ∀ j, is_completed steps j → is_completed steps' j.
Proof.
  intros Hgood Hap Hdo. unfold do_step in Hdo.
  destruct (steps !! i) as [s|] eqn:Hs.
  2: { inv_io. split; [done|]. split; [|done]. intros _ s Hs'. congruence. }
  destruct Hap as [Hfl Hst Hfr Heff]. inv_io.
  destruct (Forall2_lookup_l _ _ _ _ _ Hst Hs) as (sp & Hsp & (run & Hrun & Hframe) & Heffect).
  apply (PlanStep_Run_inv _ _ _ _ _ _ run) in Ha as [Hsame Hcase]; [|done].
  assert (Forall2 applicable (<[i := p]> steps) specs) as Hst'.
  { rewrite <- (list_insert_id specs i sp) by done. apply Forall2_insert; [done|].
    destruct Hsame as (_ & Hr1 & _). split; [exists run; by rewrite Hr1|].
    intros run' src' w1 w2 z Hrun'. rewrite Hr1 in Hrun'. by apply Heffect. }
  pose proof (same_flags steps i s p Hs Hsame) as Hfl'.
  destruct Hcase as [(Hc & -> & -> & ->)|(Hc & rr & Ha & Hok & Hc')].
  { rewrite (list_insert_id steps i s Hs). split; [done|]. split; [|done].
    intros _ s' Hs'. congruence. }
  pose proof (Hframe _ _ _ _ Ha) as Hunch. split; [split|split].
  - congruence.
  - done.
  - intros q Hq. rewrite Hunch; [by apply Hfr|]. intros Hin. apply Hq.
    apply list_elem_of_fmap in Hin as (e & -> & Hin). apply list_elem_of_fmap. exists e. split; [done|].
    apply list_elem_of_join. exists (sp_eff sp). split; [done|].
    apply list_elem_of_fmap. exists sp. split; [done|]. by eapply list_elem_of_lookup_2.
  - intros j s' sp' q o Hj Hsp' Hcj Hq. apply list_lookup_insert_Some in Hj as [(<- & <- & _)|[Hne Hj]].
    + rewrite Hsp in Hsp'. injection Hsp' as <-. rewrite Hc' in Hcj. destruct rr; [|done..].
      by eapply Heffect.
    + rewrite Hunch; [by eapply Heff|]. intros Hin. apply Hne.
      apply (effects_disjoint i j sp sp' q Hsp Hsp' Hin). apply list_elem_of_fmap. by exists (q, o).
  - intros Hr s' Hs'. rewrite list_lookup_insert_eq in Hs' by (by eapply lookup_lt_Some).
    injection Hs' as <-. by rewrite Hc', <- Hok.
  - intros j Hj s' Hs'. apply list_lookup_insert_Some in Hs' as [(<- & <- & _)|[Hne Hs']]; [|by apply Hj].
    specialize (Hj s Hs). congruence.
Qed.

(** Running the incomplete steps keeps the invariant, and completes all steps if
    it succeeds. *)
Lemma applied_runSteps fl src steps w w' steps' r :
  good src → applied fl steps w →
  runSteps false objFS objDir src (IncompleteSteps steps) steps w = (w', (steps', r)) →
  applied fl steps' w' ∧ (is_ok r = true → ∀ i, is_completed steps' i).
Proof.
  intros Hgood Hap Hrun.
  apply (runSteps_spec false objFS objDir src fl (applied fl) is_completed (λ _ _, False)) in Hrun
    as (Hap' & Hm & Hd); [|by intros ?? []| |done|by intros ????? []].
  - split; [done|]. intros Hok i. destruct (decide (i ∈ IncompleteSteps steps)) as [Hi|Hi]; [by apply Hd|].
    apply Hm. intros s Hs. destruct (PlanStep_Completed s) eqn:Hc; [done|]. exfalso. apply Hi.
    apply positions_elem. eauto.
  - intros i st w1 w2 st' r' HI _ Hdo. by eapply applied_step.
Qed.

(** When all steps are completed the files are those of the effects. *)
Lemma applied_all fl steps w : applied fl steps w → (∀ i, is_completed steps i) →
  files w = apply_effects (mjoin (sp_eff <$> specs)) f0.
Proof.
  intros [_ Hst Hfr Heff] Hc. apply apply_effects_eq; [done| |done].
  intros p o (l & Hpo & (sp & -> & Hsp)%list_elem_of_fmap)%list_elem_of_join.
  apply list_elem_of_lookup in Hsp as [i Hi].
  destruct (Forall2_lookup_r _ _ _ _ _ Hst Hi) as (s & Hs & _).
  by apply (Heff i s sp p o Hs Hi (Hc i s Hs)).
Qed.
End apply.

(** ** Reverting: a file is as before the update, or a completed step answers for it *)

Section revert.
Context (specs : list step_spec) (fl : list bool).

Definition revertible s sp : Prop := run_frames s sp ∧ run_atomic s sp ∧ revert_restores s sp.

(** The files of a step's effect are its own, or those of an earlier step that is
    not concurrent. *)
Context (covered : ∀ i sp p, specs !! i = Some sp → p ∈ (sp_eff sp).*1 →
  sp_own sp p ∨ ∃ j spj, (j < i)%nat ∧ fl !! j = Some false ∧ specs !! j = Some spj ∧ sp_own spj p).

Record restorable steps w : Prop := {
  rs_flags : step_async <$> steps = fl;
  rs_steps : Forall2 revertible steps specs;
  rs_files : ∀ p, files w !! p = f0 !! p ∨ ∃ i s sp, steps !! i = Some s ∧ specs !! i = Some sp
    ∧ PlanStep_Completed s = true ∧ sp_own sp p
}.

Definition is_incomplete steps (i : nat) : Prop := ∀ s, steps !! i = Some s → PlanStep_Completed s = false.

Lemma revertible_same s s' sp : same_functions s s' → revertible s sp → revertible s' sp.
Proof.
  intros (_ & Hr & Hv) (Hf & Ha & Hrv). unfold revertible, run_frames, run_atomic, revert_restores.
  by rewrite Hr, Hv.
Qed.

Lemma revertible_insert steps i s s' : Forall2 revertible steps specs → steps !! i = Some s →
  same_functions s s' → Forall2 revertible (<[i := s']> steps) specs.
Proof.
  intros Hst Hs Hsame. destruct (Forall2_lookup_l _ _ _ _ _ Hst Hs) as (sp & Hsp & Hrev).
  rewrite <- (list_insert_id specs i sp) by done. apply Forall2_insert; [done|].
  by eapply revertible_same.
Qed.

(** The other steps answer for the same files. *)
Lemma owner_insert steps i s' j s sp p :
  steps !! j = Some s → specs !! j = Some sp → PlanStep_Completed s = true → sp_own sp p → i ≠ j →
  ∃ i' s sp, <[i := s']> steps !! i' = Some s ∧ specs !! i' = Some sp
    ∧ PlanStep_Completed s = true ∧ sp_own sp p.
Proof. intros Hs Hsp Hc Ho Hne. exists j, s, sp. by rewrite list_lookup_insert_ne. Qed.

Lemma restorable_run src i steps w w' steps' r :
  restorable steps w → ready fl is_completed lt steps i →
  do_step false objFS objDir src i steps w = (w', (steps', r)) →
  restorable steps' w' ∧ (is_ok r = true → is_completed steps' i)
  ∧ ∀ j, is_completed steps j → is_completed steps' j.
Proof.
  intros Hre Hready Hdo. unfold do_step in Hdo. destruct (steps !! i) as [s|] eqn:Hs.
  2: { inv_io. split; [done|]. split; [|done]. intros _ s Hs'. congruence. }
  destruct Hre as [Hfl Hst Hfiles]. inv_io.
  destruct (Forall2_lookup_l _ _ _ _ _ Hst Hs) as (sp & Hsp & (run & Hrun & Hframe) & Hatomic & _).
  apply (PlanStep_Run_inv _ _ _ _ _ _ run) in Ha as [Hsame Hcase]; [|done].
  destruct Hcase as [(Hc & -> & -> & ->)|(Hc & rr & Ha & Hok & Hc')].
  { rewrite (list_insert_id steps i s Hs). split; [done|]. split; [|done]. intros _ s' Hs'. congruence. }
  pose proof (lookup_lt_Some _ _ _ Hs) as Hlt. split; [split|split].
  - by rewrite (same_flags steps i s).
  - by eapply revertible_insert.
  - intros q.
    assert (files w' !! q = files w !! q → files w' !! q = f0 !! q ∨ ∃ i' s sp, <[i := p]> steps !! i' = Some s
      ∧ specs !! i' = Some sp ∧ PlanStep_Completed s = true ∧ sp_own sp q) as Hsameq.
    { intros ->. destruct (Hfiles q) as [|(j & sj & spj & Hj & Hspj & Hcj & Hoj)]; [by left|]. right.
      eapply owner_insert; [done..|]. intros ->. congruence. }
    destruct (decide (q ∈ (sp_eff sp).*1)) as [Hq|Hq]; [|by eapply Hsameq, Hframe].
    destruct (covered i sp q Hsp Hq) as [Ho|(j & spj & Hj & Hflj & Hspj & Ho)].
    + destruct (is_ok rr) eqn:Hrr; [|by eapply Hsameq, Hatomic].
      right. exists i, p, sp. by rewrite list_lookup_insert_eq.
    + right. destruct (Forall2_lookup_r _ _ _ _ _ Hst Hspj) as (sj & Hsj & _).
      eapply owner_insert; [exact Hsj|exact Hspj| |done|lia].
      apply (Hready j Hj); [by unfold sync; rewrite Hflj|done].
  - intros Hr s' Hs'. rewrite list_lookup_insert_eq in Hs' by done. injection Hs' as <-. by rewrite Hc', <- Hok.
  - intros j Hj s' Hs'. apply list_lookup_insert_Some in Hs' as [(<- & <- & _)|[Hne Hs']]; [|by apply Hj].
    specialize (Hj s Hs). congruence.
Qed.

Lemma restorable_revert src i steps w w' steps' r :
  restorable steps w →
  do_step true objFS objDir src i steps w = (w', (steps', r)) →
  restorable steps' w' ∧ (is_ok r = true → is_incomplete steps' i)
  ∧ ∀ j, is_incomplete steps j → is_incomplete steps' j.
Proof.
  intros Hre Hdo. unfold do_step in Hdo. destruct (steps !! i) as [s|] eqn:Hs.
  2: { inv_io. split; [done|]. split; [|done]. intros _ s Hs'. congruence. }
  destruct Hre as [Hfl Hst Hfiles]. inv_io.
  destruct (Forall2_lookup_l _ _ _ _ _ Hst Hs) as (sp & Hsp & _ & _ & (rv & Hrv & Hrev)).
  apply (PlanStep_Revert_inv _ _ _ _ _ _ rv) in Ha as [Hsame Hcase]; [|done].
  destruct Hcase as [(Hc & -> & -> & ->)|(Hc & e & Ha & Hok & Hc')].
  { rewrite (list_insert_id steps i s Hs). split; [done|]. split; [|done]. intros _ s' Hs'. congruence. }
  pose proof (lookup_lt_Some _ _ _ Hs) as Hlt. destruct (Hrev _ _ _ _ Ha) as [Htoward Hdone].
  assert (∀ q, sp_own sp q → files w' !! q = f0 !! q ∨ ∃ i' s sp, <[i := p]> steps !! i' = Some s
      ∧ specs !! i' = Some sp ∧ PlanStep_Completed s = true ∧ sp_own sp q) as Hown.
  { intros q Hq. destruct e as [e|]; [|left; by apply Hdone]. right. exists i, p, sp.
    rewrite list_lookup_insert_eq by done. by rewrite Hc', Hok. }
  split; [split|split].
  - by rewrite (same_flags steps i s).
  - by eapply revertible_insert.
  - intros q. destruct (Htoward q) as [Ho|[Hq|Hq]]; [by apply Hown| |by left].
    destruct (Hfiles q) as [Hf|(j & sj & spj & Hj & Hspj & Hcj & Hoj)]; [left; congruence|].
    destruct (decide (i = j)) as [<-|Hne].
    + rewrite Hsp in Hspj. injection Hspj as <-. by apply Hown.
    + right. by eapply owner_insert.
  - intros Hr s' Hs'. rewrite list_lookup_insert_eq in Hs' by done. injection Hs' as <-. by rewrite Hc', Hr.
  - intros j Hj s' Hs'. apply list_lookup_insert_Some in Hs' as [(<- & <- & _)|[Hne Hs']]; [|by apply Hj].
    specialize (Hj s Hs). congruence.
Qed.

Lemma sorted_before (l t1 t2 : list nat) i j :
  StronglySorted lt l → l = t1 ++ i :: t2 → j ∈ l → (j < i)%nat → j ∈ t1.
Proof.
  intros Hs -> Hj Hlt. apply elem_of_app in Hj as [Hj|[->|Hj]%elem_of_cons]; [done|lia|].
  exfalso. apply StronglySorted_app_1_r in Hs. inversion_clear Hs as [|?? _ Hall].
  rewrite Forall_forall in Hall. specialize (Hall j Hj). lia.
Qed.

Lemma restorable_apply src steps w w' steps' r :
  restorable steps w →
  runSteps false objFS objDir src (IncompleteSteps steps) steps w = (w', (steps', r)) →
  restorable steps' w'.
Proof.
  intros Hre Hrun. eapply (runSteps_spec false objFS objDir src fl restorable is_completed lt) in Hrun.
  - apply Hrun.
  - by intros ?? [].
  - intros. by eapply restorable_run.
  - done.
  - intros t1 i t2 Ht j Hj _. destruct (decide (j ∈ IncompleteSteps steps)) as [Hin|Hin].
    + right. apply (sorted_before (IncompleteSteps steps) t1 t2 i j); [apply positions_sorted|done..].
    + left. intros s Hs. destruct (PlanStep_Completed s) eqn:Hc; [done|]. exfalso. apply Hin.
      apply positions_elem. eauto.
Qed.

(** A successful revert restores every file. *)
Lemma restorable_reverted src steps w w' steps' r :
  restorable steps w →
  runSteps true objFS objDir src (CompletedSteps steps) steps w = (w', (steps', r)) →
  restorable steps' w' ∧ (is_ok r = true → files w' = f0 ∧ ∀ i, is_incomplete steps' i).
Proof.
  intros Hre Hrun.
  eapply (runSteps_spec true objFS objDir src fl restorable is_incomplete (λ _ _, False)) in Hrun
    as (Hre' & Hm & Hd); [|by intros ?? []| |done|by intros ????? []].
  - split; [done|]. intros Hok.
    assert (∀ i, is_incomplete steps' i) as Hall.
    { intros i. destruct (decide (i ∈ CompletedSteps steps)) as [Hi|Hi]; [by apply Hd|].
      apply Hm. intros s Hs. destruct (PlanStep_Completed s) eqn:Hc; [|done]. exfalso. apply Hi.
      unfold CompletedSteps. rewrite elem_of_reverse. apply positions_elem. eauto. }
    split; [|done]. apply map_eq. intros p. destruct Hre' as [_ _ Hf].
    destruct (Hf p) as [|(i & s & sp & Hs & _ & Hc & _)]; [done|]. specialize (Hall i s Hs). congruence.
  - intros i st w1 w2 st' r' HI _ Hdo. by eapply restorable_revert.
Qed.
End revert.
End contracts.
