(* ===== verification/PlanSpec.v ===== *)
(** * What an update does to the files of an object

    Specification of update plans on any storage that keeps the laws of FS.v:
    the files after a plan has been applied, in any number of interrupted
    attempts, are the files before with a list of effects that is read off the two
    inventories; and a plan that was not completed can be reverted, after which
    every file is as it was. *)
From S2P Require Import Prelude GoStd VNum DigestMap Spec FS Namaste Digest Codes Validation.
From S2P Require Import Inventory OcflInventory InventoryBytes UpdatePlan PlanRuns.

(** ** Paths in an object *)

Lemma VNum_String_elem v : 0 ≤ padding v → 0 ≤ num v →
  no_slash (VNum_String v) ∧ plain_elem (VNum_String v).
Proof.
  intros Hp Hn. destruct (zero_padded_spec (padding v) (num v) Hp Hn) as (Hd & _ & _). split.
  - apply (string_forall_no_slash (λ c, is_digit c || bool_decide (c = "v"%char))); [|done].
    unfold VNum_String. cbn [String.append string_forall].
    replace (is_digit "v" || _) with true by done. cbn [andb].
    eapply string_forall_impl; [|exact Hd]. by intros c ->.
  - by apply plain_elem_spec.
Qed.

Lemma string_app_cancel (a b c : string) : a +:+ b = a +:+ c → b = c.
Proof. induction a as [|x a IH]; cbn; [done|]. intros [= ?]. by apply IH. Qed.

Lemma Join_inj dir a b : ValidPath dir = true → plain_path a → plain_path b →
  Join [dir; a] = Join [dir; b] → a = b.
Proof.
  intros Hd Ha Hb. rewrite !Join_dir by done. case_bool_decide; [done|].
  intros He%string_app_cancel. by apply string_app_cancel in He.
Qed.

Lemma Join_Join dir a b : ValidPath dir = true → plain_path a → plain_path b →
  Join [Join [dir; a]; b] = Join [dir; a +:+ "/" +:+ b].
Proof.
  intros Hd Ha Hb. rewrite !(Join_dir dir) by (done || by apply plain_path_app).
  case_bool_decide; [by apply Join_plain|].
  rewrite Join_plain; [by rewrite !string_app_assoc| |done].
  apply plain_path_app; [|done]. by apply ValidPath_plain.
Qed.

Lemma Join_suffix dir a s : ValidPath dir = true → plain_path a → plain_path (a +:+ s) →
  Join [dir; a] +:+ s = Join [dir; a +:+ s].
Proof. intros Hd Ha Hs. rewrite !Join_dir by done. case_bool_decide; [done|]. by rewrite !string_app_assoc. Qed.

(** ** Writes and removals *)

Section storage.
Context `{GoEnv} {W FS : Type} `{!FileSystems W FS}.
Context (objFS : FS) (ops : WriteFS W) (files : W → gmap string string).
Context (laws : WriteLaws objFS ops files).

Lemma delete_eq_ne (m m' : gmap string string) k p : delete k m' = delete k m → p ≠ k → m' !! p = m !! p.
Proof. intros Hd Hp. apply (f_equal (lookup p)) in Hd. by rewrite !lookup_delete_ne in Hd. Qed.

Lemma fs_Write_other name r w w' n e p :
  fs_Write objFS name r w = (w', (n, e)) → p ≠ name → files w' !! p = files w !! p.
Proof.
  unfold fs_Write. rewrite (law_as _ _ _ laws). intros Hw Hp. destruct e as [e|].
  - apply (law_write_err _ _ _ laws) in Hw.
    by eapply delete_eq_ne.
  - apply (law_write_ok _ _ _ laws) in Hw as [_ ->]. by rewrite lookup_insert_ne.
Qed.

Lemma fs_Write_done name r w w' n :
  fs_Write objFS name r w = (w', (n, None)) → rd_err r = None ∧ files w' !! name = Some (rd_data r).
Proof.
  unfold fs_Write. rewrite (law_as _ _ _ laws). intros Hw.
  apply (law_write_ok _ _ _ laws) in Hw as [He ->]. by rewrite lookup_insert_eq.
Qed.

Lemma fs_Write_atomic name r w w' n e : AtomicWrites ops files →
  fs_Write objFS name r w = (w', (n, Some e)) → files w' = files w.
Proof. intros Hat. unfold fs_Write. rewrite (law_as _ _ _ laws). apply (atomic_write _ _ Hat). Qed.

Lemma WriteDeclaration_inv dir d w w' e :
  WriteDeclaration objFS dir d w = (w', e) → ∃ n e',
    fs_Write objFS (Join [dir; Namaste_Name d]) (bytes_reader (Namaste_Body d)) w = (w', (n, e'))
    ∧ (e = None ↔ e' = None).
Proof.
  unfold WriteDeclaration. intros Hw. inv_io. exists z, o. split; [done|]. by destruct o.
Qed.

Lemma writeInventorySidecar_inv dir dig alg w w' e :
  writeInventorySidecar objFS dir dig alg w = (w', e) → ∃ n e',
    fs_Write objFS (Join [dir; inventoryBase +:+ "." +:+ alg]) (bytes_reader (sidecar_content dig)) w
      = (w', (n, e')) ∧ (e = None ↔ e' = None).
Proof.
  unfold writeInventorySidecar. intros Hw. inv_io. exists z, o. split; [done|]. by destruct o.
Qed.

Lemma remove_existing_spec name w w' e :
  remove_existing objFS name w = (w', e) →
  (∀ p, p ≠ name → files w' !! p = files w !! p)
  ∧ (files w' !! name = None ∨ files w' !! name = files w !! name)
  ∧ match e with None => files w' !! name = None | Some _ => AtomicWrites ops files → files w' = files w end.
Proof.
  unfold remove_existing, fs_Remove. rewrite (law_as _ _ _ laws). intros Hr. inv_io.
  destruct a as [e'|].
  - pose proof Ha as Hat. apply (law_remove_err _ _ _ laws) in Ha as [Hf Hn].
    assert ((∀ p, p ≠ name → files w0 !! p = files w !! p) ∧ (files w0 !! name = None ∨ files w0 !! name = files w !! name)) as [Ho Hnn].
    { destruct Hf as [-> | ->]; [by auto|]. split; [intros p Hp; by rewrite lookup_delete_ne|left; apply lookup_delete_eq]. }
    destruct (errors_Is e' fs_ErrNotExist) eqn:He; inv_io; split_and!; auto.
    + destruct Hnn as [?|Hnn]; [done|]. rewrite Hnn. by apply Hn.
    + intros Hatomic. by apply (atomic_remove _ _ Hatomic) in Hat.
  - inv_io. apply (law_remove_ok _ _ _ laws) in Ha as ->. split_and!.
    + intros p Hp. by rewrite lookup_delete_ne.
    + left. apply lookup_delete_eq.
    + apply lookup_delete_eq.
Qed.

Lemma fs_RemoveAll_spec dir w w' e : dir ≠ "." → fs_RemoveAll objFS dir w = (w', e) →
  (∀ p, under dir p = false → files w' !! p = files w !! p)
  ∧ (∀ p, files w' !! p = None ∨ files w' !! p = files w !! p)
  ∧ (e = None → ∀ p, below dir p = true → files w' !! p = None).
Proof.
  unfold fs_RemoveAll. rewrite (law_as _ _ _ laws). intros Hd. rewrite bool_decide_false by done. cbn [negb].
  intros (Hs & Hout & Hin)%(law_removeAll _ _ _ laws); [|done]. split_and!; [done| |done].
  intros p. destruct (files w' !! p) as [d|] eqn:Hp; [|by left]. right. symmetry. by eapply lookup_weaken.
Qed.

(** A source that gives the content, as long as [frame] holds. *)
Lemma fs_Copy_spec dst srcFS src w w' n e : CopyLaws objFS files →
  fs_Copy objFS dst srcFS src w = (w', (n, e)) →
  (∀ p, p ≠ dst → files w' !! p = files w !! p)
  ∧ (e = None →
      (srcFS = objFS ∧ ∃ data, files w !! src = Some data ∧ files w' !! dst = Some data)
      ∨ ∃ f, OpenFile srcFS src w = inl f ∧ rd_err (f_reader f) = None
             ∧ files w' !! dst = Some (rd_data (f_reader f))).
Proof.
  intros Hcopy. unfold fs_Copy.
  assert (∀ w' n e, copy_manually objFS dst srcFS src w = (w', (n, e)) →
    (∀ p, p ≠ dst → files w' !! p = files w !! p)
    ∧ (e = None → ∃ f, OpenFile srcFS src w = inl f ∧ rd_err (f_reader f) = None
             ∧ files w' !! dst = Some (rd_data (f_reader f)))) as Hman.
  { clear w' n e. intros w' n e. unfold copy_manually. intros Hc. inv_io.
    destruct (OpenFile srcFS src w0) as [f|err] eqn:Ho; inv_io; [|done]. split.
    - intros p Hp. by eapply fs_Write_other.
    - intros Hj. destruct o as [o|]; [by destruct (f_Close f)|].
      apply fs_Write_done in Ha as [He Hd]. eauto. }
  destruct (as_CopyFS objFS) as [copy|] eqn:Has.
  - destruct (decide (objFS = srcFS)) as [<-|Hne].
    + intros Hc. inv_io. destruct o as [o|].
      * pose proof (law_copy_err _ _ Hcopy _ _ _ _ _ _ _ Has Ha) as Hd. split; [|done].
        intros p Hp. by eapply delete_eq_ne.
      * destruct (law_copy_ok _ _ Hcopy _ _ _ _ _ _ Has Ha) as (data & Hd & ->). split.
        -- intros p Hp. by rewrite lookup_insert_ne.
        -- intros _. left. split; [done|]. exists data. by rewrite lookup_insert_eq.
    + intros Hc. apply Hman in Hc as [? ?]. split; [done|]. intros ->. right. auto.
  - intros Hc. apply Hman in Hc as [? ?]. split; [done|]. intros ->. right. auto.
Qed.
End storage.

(** ** The effects of a plan *)

Section effects.
Context `{GoEnv} (objDir : string) (newInv : StoredInventory) (oldInv : option StoredInventory)
  (content : string → string).

(** What [newPlanSteps] reads of the two inventories. *)
Definition new_head : VNum := inv_Head (si_Inventory newInv).
Definition new_spec : Spec := it_Spec (inv_Type (si_Inventory newInv)).
Definition old_spec : Spec := old_field oldInv (λ o, it_Spec (inv_Type (si_Inventory o))) "".
Definition new_alg : string := inv_DigestAlgorithm (si_Inventory newInv).
Definition old_alg : string := old_field oldInv (λ o, inv_DigestAlgorithm (si_Inventory o)) "".
Definition new_files : PathMap := versionContent (si_Inventory newInv) new_head.
Definition same_alg : bool := bool_decide (old_alg = "") || bool_decide (old_alg = new_alg).
Definition first_version : bool := num new_head =? 1.

(** A path in the object, and those the update writes. *)
Definition in_object (p : string) : string := Join [objDir; p].
Definition version_dir : string := VNum_String new_head.
Definition version_inventory : string := version_dir +:+ "/" +:+ inventoryBase.
Definition sidecar_name (alg : string) : string := inventoryBase +:+ "." +:+ alg.
Definition version_sidecar : string := version_dir +:+ "/" +:+ sidecar_name new_alg.
Definition decl_name (spec : Spec) : string := Namaste_Name (object_declaration spec).

(** A step in the object root restores its own files, unless the revert of the
    first step removes the object; one in the version directory relies on the
    step of that directory. *)
Definition root_spec (eff : list effect) : step_spec :=
  mkSpec (λ p, first_version = false ∧ p ∈ eff.*1) eff.
Definition inner_spec (eff : list effect) : step_spec := mkSpec (λ _, False) eff.
Definition object_spec : step_spec := mkSpec (λ p, first_version = true ∧ below objDir p = true) [].
Definition version_spec : step_spec :=
  mkSpec (λ p, first_version = false ∧ below (in_object version_dir) p = true) [].

Definition declaration_specs : list step_spec :=
  if bool_decide (new_spec = old_spec) then []
  else root_spec [(in_object (decl_name new_spec), Some (Namaste_Body (object_declaration new_spec)))] ::
    (if Spec_Empty old_spec then [] else [root_spec [(in_object (decl_name old_spec), None)]]).

Definition content_specs : list step_spec :=
  (λ '(dst, dig), inner_spec [(in_object dst, Some (content dig))]) <$> SortedPaths new_files.

Definition inventory_specs : list step_spec :=
  [ inner_spec [(in_object version_inventory, Some (si_bytes newInv))];
    inner_spec [(in_object version_sidecar, Some (sidecar_content (si_digest newInv)))];
    root_spec [(in_object inventoryBase, Some (si_bytes newInv))];
    root_spec ((in_object (sidecar_name new_alg), Some (sidecar_content (si_digest newInv))) ::
               if same_alg then [] else [(in_object (sidecar_name old_alg), None)]) ].

Definition plan_specs : list step_spec :=
  object_spec :: declaration_specs ++ version_spec :: content_specs ++ inventory_specs.

(** The effects of the whole update: the new declaration, the new content, the
    inventory and its sidecar in the version directory and in the root; the old
    declaration and a sidecar of another algorithm go away. *)
Definition plan_effects : list effect := mjoin (sp_eff <$> plan_specs).

(** The paths of the effects in the object. *)
Definition plan_names : list string :=
  (if bool_decide (new_spec = old_spec) then []
   else decl_name new_spec :: (if Spec_Empty old_spec then [] else [decl_name old_spec]))
  ++ (SortedPaths new_files).*1
  ++ [version_inventory; version_sidecar; inventoryBase; sidecar_name new_alg]
  ++ (if same_alg then [] else [sidecar_name old_alg]).

Lemma plan_effects_names : plan_effects.*1 = in_object <$> plan_names.
Proof.
  unfold plan_effects, plan_names, plan_specs, declaration_specs, inventory_specs.
  cbn [fmap list_fmap sp_eff object_spec mjoin list_join app].
  assert (∀ l, (mjoin (sp_eff <$> ((λ '(dst, dig), inner_spec [(in_object dst, Some (content dig))]) <$> l))).*1
    = in_object <$> (l : list (string * string)).*1) as Hc.
  { induction l as [|[dst dig] l IH]; [done|]. cbn. f_equal. exact IH. }
  rewrite !fmap_app, !join_app. cbn [fmap list_fmap sp_eff version_spec mjoin list_join app].
  rewrite !fmap_app, join_app, !fmap_app. unfold content_specs. rewrite Hc.
  repeat case_bool_decide; repeat case_match; done.
Qed.

(** What the two inventories have to be for the paths of the update to be
    distinct and below the object root. *)
Record update_ok : Prop := {
  uo_dir : ValidPath objDir = true;
  uo_new : inventory_ok new_spec (si_Inventory newInv);
  uo_new_spec : is_ok (getOCFL new_spec) = true;
  uo_head : 0 ≤ padding new_head;
  uo_old : old_alg = "" ∨ old_alg = SHA512 ∨ old_alg = SHA256;
  uo_old_spec : old_spec = "" ∨ is_ok (getOCFL old_spec) = true;
  uo_files : new_files !! version_inventory = None ∧ new_files !! version_sidecar = None
}.

Lemma getOCFL_cases s : is_ok (getOCFL s) = true → s = Spec1_0 ∨ s = Spec1_1.
Proof.
  unfold getOCFL. repeat case_bool_decide; cbn; auto; done.
Qed.

Lemma decl_name_plain s : is_ok (getOCFL s) = true → plain_path (decl_name s).
Proof.
  intros [-> | ->]%getOCFL_cases; apply plain_path_elem; by vm_compute.
Qed.

(** The content of a version is in its directory, and in the manifest. *)
Lemma versionContent_Some inv v p d : versionContent inv v !! p = Some d →
  contains (manifest inv) p d ∧ ∃ r, p = VNum_String v +:+ "/" +:+ r.
Proof.
  unfold versionContent. intros Hp.
  assert (∀ l (m : PathMap), foldl (λ pm '(pth, dig),
    if HasPrefix pth (VNum_String v +:+ "/") then <[pth := dig]> pm else pm) m l !! p = Some d →
    m !! p = Some d ∨ (p, d) ∈ l ∧ HasPrefix p (VNum_String v +:+ "/") = true) as Hg.
  { clear. induction l as [|[pth dig] l IH]; intros m; cbn [foldl]; [by left|].
    intros [Hm|[Hin Hpre]]%IH; [|right; split; [by right|done]].
    destruct (HasPrefix pth _) eqn:Hpre; [|by left].
    apply lookup_insert_Some in Hm as [[-> ->]|[_ Hm]]; [right; split; [left|done]|by left]. }
  apply Hg in Hp as [Hp|[Hin Hpre]]; [by rewrite lookup_empty in Hp|]. split; [by apply Paths_elem|].
  apply HasPrefix_true in Hpre as [r ->]. exists r. by rewrite <- string_app_assoc.
Qed.

Lemma new_files_elem p : p ∈ (SortedPaths new_files).*1 ↔ is_Some (new_files !! p).
Proof.
  unfold SortedPaths. rewrite <- list_fmap_compose. unfold compose. cbn. rewrite list_fmap_id.
  rewrite sort_strings_perm. apply range_keys_elem.
Qed.

Lemma new_files_NoDup : NoDup (SortedPaths new_files).*1.
Proof.
  unfold SortedPaths. rewrite <- list_fmap_compose. unfold compose. cbn. rewrite list_fmap_id.
  rewrite sort_strings_perm. apply range_keys_NoDup.
Qed.

Context (ok : update_ok).

Lemma version_dir_elem : no_slash version_dir ∧ plain_elem version_dir.
Proof.
  apply VNum_String_elem; [apply ok|]. pose proof (iok_head _ _ (uo_new ok)) as Hh.
  apply VNum_Valid_None in Hh as [Hn _]. unfold new_head. lia.
Qed.

Lemma new_alg_cases : new_alg = SHA512 ∨ new_alg = SHA256.
Proof. apply (iok_alg _ _ (uo_new ok)). Qed.

Lemma sidecar_name_plain alg : alg = SHA512 ∨ alg = SHA256 → plain_path (sidecar_name alg).
Proof. intros [-> | ->]; apply plain_path_elem; by vm_compute. Qed.

Lemma in_version_plain b : plain_path b → plain_path (version_dir +:+ "/" +:+ b).
Proof. apply plain_path_app. apply plain_path_elem; apply version_dir_elem. Qed.

Lemma new_files_plain p : is_Some (new_files !! p) → plain_path p.
Proof.
  intros [d [Hc _]%versionContent_Some].
  destruct (iok_manifest _ _ (uo_new ok)) as (m & Hm & (_ & _ & [Hall _]) & _).
  unfold manifest in Hc. rewrite Hm in Hc. cbn in Hc. rewrite Forall_forall in Hall.
  assert (p ∈ all_paths m) as Hp by (apply all_paths_elem; eauto). specialize (Hall p Hp).
  unfold validPath in Hall. case_bool_decide; [done|]. by apply ValidPath_plain.
Qed.

Lemma inventoryBase_plain : plain_path inventoryBase.
Proof. apply plain_path_elem; by vm_compute. Qed.

Lemma old_alg_cases : same_alg = false → old_alg = SHA512 ∨ old_alg = SHA256.
Proof.
  unfold same_alg. rewrite orb_false_iff, !bool_decide_eq_false. intros [Hne _].
  by destruct (uo_old ok) as [|].
Qed.

Lemma old_spec_ok : Spec_Empty old_spec = false → is_ok (getOCFL old_spec) = true.
Proof.
  unfold Spec_Empty. rewrite bool_decide_eq_false. intros Hne. by destruct (uo_old_spec ok).
Qed.

Lemma plan_names_plain : Forall plain_path plan_names.
Proof.
  unfold plan_names. rewrite !Forall_app. split_and!.
  - case_bool_decide; [constructor|]. constructor; [apply decl_name_plain, ok|].
    destruct (Spec_Empty old_spec) eqn:He; repeat constructor. by apply decl_name_plain, old_spec_ok.
  - apply Forall_forall. intros p Hp%new_files_elem. by apply new_files_plain.
  - rewrite !Forall_cons. split_and!; [..|done].
    + apply in_version_plain, inventoryBase_plain.
    + apply in_version_plain, sidecar_name_plain, new_alg_cases.
    + apply inventoryBase_plain.
    + apply sidecar_name_plain, new_alg_cases.
  - destruct same_alg eqn:Hs; repeat constructor. by apply sidecar_name_plain, old_alg_cases.
Qed.

(** The names of the declarations, of the version directory and of the inventory
    begin differently. *)
Definition first_char (s : string) : option ascii := match s with String c _ => Some c | "" => None end.

Lemma new_files_first p : is_Some (new_files !! p) → first_char p = Some "v"%char.
Proof. intros [d [_ [r ->]]%versionContent_Some]. done. Qed.

Lemma decl_name_first s : is_ok (getOCFL s) = true → first_char (decl_name s) = Some "0"%char.
Proof. by intros [-> | ->]%getOCFL_cases. Qed.

Lemma decl_name_inj s t : is_ok (getOCFL s) = true → is_ok (getOCFL t) = true →
  decl_name s = decl_name t → s = t.
Proof. by intros [-> | ->]%getOCFL_cases [-> | ->]%getOCFL_cases. Qed.

Lemma plan_names_NoDup : NoDup plan_names.
Proof.
  unfold plan_names. pose proof new_alg_cases as Hna. destruct (uo_files ok) as [Hf1 Hf2].
  rewrite !NoDup_app. split_and!.
  - case_bool_decide as Hs; [constructor|].
    destruct (Spec_Empty old_spec) eqn:He; [apply NoDup_singleton|].
    apply NoDup_cons. split; [|apply NoDup_singleton]. rewrite list_elem_of_singleton.
    intros Hd. apply Hs. apply decl_name_inj; [apply ok|by apply old_spec_ok|done].
  - intros p Hp. assert (first_char p = Some "0"%char) as Hc.
    { case_bool_decide; [by apply elem_of_nil in Hp|].
      apply elem_of_cons in Hp as [->|Hp]; [apply decl_name_first, ok|].
      destruct (Spec_Empty old_spec) eqn:He; [by apply elem_of_nil in Hp|].
      apply list_elem_of_singleton in Hp as ->. by apply decl_name_first, old_spec_ok. }
    rewrite !not_elem_of_app, !not_elem_of_cons. split_and!; try (by intros ->; discriminate Hc).
    + intros Hin%new_files_elem%new_files_first. congruence.
    + apply not_elem_of_nil.
    + destruct same_alg; [apply not_elem_of_nil|]. rewrite list_elem_of_singleton. by intros ->.
  - apply new_files_NoDup.
  - intros p Hp%new_files_elem. pose proof (new_files_first p Hp) as Hc.
    rewrite !not_elem_of_app, !not_elem_of_cons. split_and!; try (by intros ->; discriminate Hc).
    + intros ->. rewrite Hf1 in Hp. by destruct Hp.
    + intros ->. rewrite Hf2 in Hp. by destruct Hp.
    + apply not_elem_of_nil.
    + destruct same_alg; [apply not_elem_of_nil|]. rewrite list_elem_of_singleton. by intros ->.
  - unfold version_inventory, version_sidecar. rewrite !NoDup_cons, !not_elem_of_cons.
    split_and!; try apply not_elem_of_nil; try (by apply NoDup_nil); try done.
    intros Hv%string_app_cancel. by destruct Hna as [Ha|Ha]; rewrite Ha in Hv.
  - intros p Hp. destruct same_alg eqn:Hs; [apply not_elem_of_nil|]. rewrite list_elem_of_singleton. intros ->.
    apply old_alg_cases in Hs as Hoa. unfold same_alg in Hs. apply orb_false_iff in Hs as [_ Hs].
    rewrite bool_decide_eq_false in Hs.
    rewrite !elem_of_cons in Hp. destruct Hp as [Hp|[Hp|[Hp|[Hp|Hp]]]]; try done.
    + by unfold sidecar_name in Hp; do 2 apply string_app_cancel in Hp.
    + by apply elem_of_nil in Hp.
  - destruct same_alg; [constructor|apply NoDup_singleton].
Qed.

Lemma in_object_inj a b : plain_path a → plain_path b → in_object a = in_object b → a = b.
Proof. apply Join_inj, ok. Qed.

Lemma plan_effects_NoDup : NoDup plan_effects.*1.
Proof.
  rewrite plan_effects_names. pose proof plan_names_plain as Hp. pose proof plan_names_NoDup as Hnd.
  induction Hnd as [|p l Hni Hnd IH]; [constructor|]. apply Forall_cons in Hp as [Hp Hl]. cbn.
  apply NoDup_cons. split; [|by apply IH]. intros (q & Hq & Hin)%list_elem_of_fmap. apply Hni.
  rewrite Forall_forall in Hl. apply in_object_inj in Hq; [by subst|done|by apply Hl].
Qed.
End effects.

(** ** The steps of a plan keep their contracts *)

Section contracts.
Context `{GoEnv, PlanCodec} {W FS : Type} `{!FileSystems W FS}.
Context (objFS : FS) (ops : WriteFS W) (files : W → gmap string string).
Context (laws : WriteLaws objFS ops files) (copies : CopyLaws objFS files).
Context (objDir : string) (newInv : StoredInventory) (oldInv : option StoredInventory)
  (content : string → string) (f0 : gmap string string).
Context (ok : update_ok objDir newInv oldInv).
Implicit Types (s : PlanStep W FS) (w : W) (src : option (ContentSource FS)).

Notation in_obj := (in_object objDir).
Notation specs := (plan_specs objDir newInv oldInv content).
Notation base := (framed files f0 specs).

(** A content source that gives the content of each digest, while only the paths
    of the update have changed. *)
Definition faithful src : Prop :=
  ∀ GetContent dig fs p w, src = Some GetContent → GetContent dig = Some (fs, p) → base w →
    (∀ f, OpenFile fs p w = inl f → rd_err (f_reader f) = None → rd_data (f_reader f) = content dig)
    ∧ (fs = objFS → ∀ data, files w !! p = Some data → data = content dig).

(** Runs and reverts that are a write, or a removal. *)
Definition runs_write s (name data : string) : Prop :=
  ∃ run, step_run s = Some run ∧ ∀ src w w' r, run objFS objDir src w = (w', r) →
    ∃ n e, fs_Write objFS name (bytes_reader data) w = (w', (n, e)) ∧ (is_ok r = true ↔ e = None).
Definition runs_remove s (name : string) : Prop :=
  ∃ run, step_run s = Some run ∧ ∀ src w w' r, run objFS objDir src w = (w', r) →
    ∃ e, remove_existing objFS name w = (w', e) ∧ (is_ok r = true ↔ e = None).
Definition reverts_write s (name data : string) : Prop :=
  ∃ rv, step_revert s = Some rv ∧ ∀ src w w' e, rv objFS objDir src w = (w', e) →
    ∃ n e', fs_Write objFS name (bytes_reader data) w = (w', (n, e')) ∧ (e = None ↔ e' = None).
Definition reverts_remove s (name : string) : Prop :=
  ∃ rv, step_revert s = Some rv ∧ ∀ src w w' e, rv objFS objDir src w = (w', e) →
    remove_existing objFS name w = (w', e).

Lemma no_size_ok e : is_ok (no_size e) = true ↔ e = None.
Proof. by destruct e. Qed.
Lemma with_size_ok z e : is_ok (with_size (z, e)) = true ↔ e = None.
Proof. by destruct e. Qed.

Lemma write_applicable s name data sp : runs_write s name data → sp_eff sp = [(name, Some data)] →
  applicable objFS objDir files f0 specs faithful s sp.
Proof.
  intros (run & Hrun & Hw) Hsp. split.
  - exists run. split; [done|]. intros src w w' r Hr p Hp. rewrite Hsp in Hp.
    apply Hw in Hr as (n & e & Hr & _). eapply fs_Write_other; [done|done|].
    intros ->. apply Hp. by left.
  - intros run' src w w' z Hrun' _ Hr p o Hp. rewrite Hrun in Hrun'. injection Hrun' as <-.
    apply Hw in Hr as (n & e & Hr & [He _]). rewrite (He eq_refl) in Hr.
    apply fs_Write_done with (1 := laws) in Hr as [_ Hd]. rewrite Hsp in Hp.
    apply list_elem_of_singleton in Hp. by injection Hp as -> ->.
Qed.

Lemma write_atomic s name data sp : AtomicWrites ops files → runs_write s name data → run_atomic objFS objDir files s sp.
Proof.
  intros Hat (run & Hrun & Hw) run' src w w' r Hrun' Hr Hno p _. rewrite Hrun in Hrun'. injection Hrun' as <-.
  apply Hw in Hr as (n & [e|] & Hr & He).
  - by apply (fs_Write_atomic _ _ _ laws) in Hr as ->.
  - rewrite (proj2 He eq_refl) in Hno. done.
Qed.

Lemma remove_applicable s name sp : runs_remove s name → sp_eff sp = [(name, None)] →
  applicable objFS objDir files f0 specs faithful s sp.
Proof.
  intros (run & Hrun & Hw) Hsp. split.
  - exists run. split; [done|]. intros src w w' r Hr p Hp. rewrite Hsp in Hp.
    apply Hw in Hr as (e & Hr & _). apply (remove_existing_spec _ _ _ laws) in Hr as (Hr & _).
    apply Hr. intros ->. apply Hp. by left.
  - intros run' src w w' z Hrun' _ Hr p o Hp. rewrite Hrun in Hrun'. injection Hrun' as <-.
    apply Hw in Hr as (e & Hr & [He _]). rewrite (He eq_refl) in Hr.
    apply (remove_existing_spec _ _ _ laws) in Hr as (_ & _ & Hd). rewrite Hsp in Hp.
    apply list_elem_of_singleton in Hp. by injection Hp as -> ->.
Qed.

Lemma remove_atomic s name sp : AtomicWrites ops files → runs_remove s name → run_atomic objFS objDir files s sp.
Proof.
  intros Hat (run & Hrun & Hw) run' src w w' r Hrun' Hr Hno p _. rewrite Hrun in Hrun'. injection Hrun' as <-.
  apply Hw in Hr as ([e|] & Hr & He).
  - apply (remove_existing_spec _ _ _ laws) in Hr as (_ & _ & Hsame). by rewrite (Hsame Hat).
  - rewrite (proj2 He eq_refl) in Hno. done.
Qed.

Lemma noop_applicable s sp : step_run s = Some noop_run → sp_eff sp = [] →
  applicable objFS objDir files f0 specs faithful s sp.
Proof.
  intros Hrun Hsp. split.
  - exists noop_run. split; [done|]. unfold noop_run. intros src w w' r Hr. by inv_io.
  - intros run src w w' z _ _ _ p o. rewrite Hsp. by intros ?%elem_of_nil.
Qed.

Lemma noop_atomic s sp : step_run s = Some noop_run → run_atomic objFS objDir files s sp.
Proof. intros Hrun run src w w' r Hrun' Hr Hno. rewrite Hrun in Hrun'. injection Hrun' as <-. unfold noop_run in Hr. by inv_io. Qed.

(** The steps, with their actions. *)
Lemma write_declaration_runs spec :
  runs_write (write_declaration_step spec) (in_obj (decl_name spec)) (Namaste_Body (object_declaration spec)).
Proof.
  eexists. split; [done|]. intros src w w' r Hr. cbn beta in Hr. inv_io.
  apply WriteDeclaration_inv in Ha as (n & e & Hw & He). exists n, e. split; [exact Hw|].
  by rewrite no_size_ok.
Qed.

Lemma remove_declaration_runs spec : runs_remove (remove_declaration_step spec) (in_obj (decl_name spec)).
Proof.
  eexists. split; [done|]. intros src w w' r Hr. cbn beta in Hr. inv_io. exists a. split; [exact Ha|]. apply no_size_ok.
Qed.

Lemma root_inventory_runs b ob h : runs_write (root_inventory_step b ob h) (in_obj inventoryBase) b.
Proof.
  eexists. split; [done|]. intros src w w' r Hr. cbn beta in Hr. unfold write_bytes in Hr. inv_io. destruct a as [n e].
  exists n, e. split; [exact Ha|]. apply with_size_ok.
Qed.

Lemma version_path b : no_slash b → plain_elem b →
  Join [objDir; Join [version_dir newInv; b]] = in_obj (version_dir newInv +:+ "/" +:+ b)
  ∧ Join [Join [objDir; version_dir newInv]; b] = in_obj (version_dir newInv +:+ "/" +:+ b).
Proof.
  intros Hb Hp. destruct (version_dir_elem _ _ _ ok) as [Hv1 Hv2].
  assert (plain_path (version_dir newInv)) as Hv by (by apply plain_path_elem).
  assert (plain_path b) as Hpb by (by apply plain_path_elem). split.
  - by rewrite (Join_plain (version_dir newInv)).
  - apply Join_Join; [apply ok|done..].
Qed.

Lemma version_inventory_runs b : runs_write (version_inventory_step b (new_head newInv))
  (in_obj (version_inventory newInv)) b.
Proof.
  eexists. split; [done|]. intros src w w' r Hr. cbn beta in Hr. unfold write_bytes in Hr. inv_io. destruct a as [n e].
  exists n, e. split; [|apply with_size_ok].
  destruct (version_path inventoryBase) as [Hp _]; [by vm_compute..|].
  unfold version_inventory. rewrite <- Hp. exact Ha.
Qed.

Lemma sidecar_elem alg : alg = SHA512 ∨ alg = SHA256 → no_slash (sidecar_name alg) ∧ plain_elem (sidecar_name alg).
Proof. by intros [-> | ->]. Qed.

Lemma version_sidecar_runs d : runs_write (version_sidecar_step d (new_head newInv) (new_alg newInv))
  (in_obj (version_sidecar newInv)) (sidecar_content d).
Proof.
  eexists. split; [done|]. intros src w w' r Hr. cbn beta in Hr. inv_io.
  apply writeInventorySidecar_inv in Ha as (n & e & Hw & He).
  exists n, e. split; [|by rewrite no_size_ok].
  destruct (sidecar_elem (new_alg newInv)) as [H1 H2]; [by eapply new_alg_cases|].
  destruct (version_path _ H1 H2) as [_ Hp]. unfold version_sidecar. rewrite <- Hp. exact Hw.
Qed.

Lemma copy_applicable dst dig :
  applicable objFS objDir files f0 specs faithful (copy_step dst dig)
    (inner_spec [(in_obj dst, Some (content dig))]).
Proof.
  split.
  - eexists. split; [done|]. intros src w w' r Hr p Hp. cbn beta zeta in Hr. destruct src as [gc|]; [|by inv_io].
    destruct (gc dig) as [[fs sp]|]; [|by inv_io]. inv_io. destruct a as [n e].
    apply (fs_Copy_spec _ _ _ laws) in Ha as [Ha _]; [|done]. apply Ha. intros ->. apply Hp. by left.
  - intros run src w w' z Hrun [Hgood Hframe] Hr p o Hp. injection Hrun as <-. cbn beta zeta in Hr.
    destruct src as [gc|]; [|by inv_io].
    destruct (gc dig) as [[fs sp]|] eqn:Hgc; [|by inv_io]. inv_io. destruct a as [n [e|]]; [done|].
    apply (fs_Copy_spec _ _ _ laws) in Ha as [_ Ha]; [|done].
    apply list_elem_of_singleton in Hp. injection Hp as -> ->.
    destruct (Hgood _ _ _ _ _ eq_refl Hgc Hframe) as [G1 G2].
    destruct (Ha eq_refl) as [(Hfs & data & Hd & Hw)|(f & Ho & He & Hw)].
    + unfold in_object. by rewrite Hw, (G2 Hfs data Hd).
    + unfold in_object. by rewrite Hw, (G1 f Ho He).
Qed.

(** The root sidecar: a write, then the removal of the sidecar of another
    algorithm. *)
Definition sidecar_run (src : option (ContentSource FS)) w w' (r : res Z) : Prop :=
  ∃ n e w1, fs_Write objFS (in_obj (sidecar_name (new_alg newInv)))
      (bytes_reader (sidecar_content (si_digest newInv))) w = (w1, (n, e))
  ∧ match e with
    | Some _ => w' = w1 ∧ is_ok r = false
    | None => if same_alg newInv oldInv then w' = w1 ∧ is_ok r = true
              else ∃ e', remove_existing objFS (in_obj (sidecar_name (old_alg oldInv))) w1 = (w', e')
                         ∧ (is_ok r = true ↔ e' = None)
    end.

Lemma root_sidecar_runs od :
  ∃ run, step_run (root_sidecar_step (FS:=FS) (si_digest newInv) od (new_head newInv) (new_alg newInv)
                     (old_alg oldInv)) = Some run
    ∧ ∀ src w w' r, run objFS objDir src w = (w', r) → sidecar_run src w w' r.
Proof.
  eexists. split; [done|]. intros src w w' r Hr. cbn beta in Hr. inv_io.
  apply writeInventorySidecar_inv in Ha as (n & e & Hw & He). exists n, e, w0. split; [exact Hw|].
  destruct a as [a|], e as [e|];
    [by inv_io|discriminate (proj2 He eq_refl)|discriminate (proj1 He eq_refl)|].
  unfold same_alg in *. destruct (_ || _) eqn:Hs; [by inv_io|]. inv_io.
  exists a. split; [|apply no_size_ok].
  unfold in_object, sidecar_name. change (inventoryBase +:+ "." +:+ old_alg oldInv)
    with (inventoryBase +:+ ("." +:+ old_alg oldInv)).
  rewrite <- Join_suffix; [done|apply ok|apply inventoryBase_plain|].
  change (plain_path (sidecar_name (old_alg oldInv))). apply sidecar_name_plain.
  eapply old_alg_cases; [exact ok|exact Hs].
Qed.

Lemma sidecar_names_ne : same_alg newInv oldInv = false →
  in_obj (sidecar_name (new_alg newInv)) ≠ in_obj (sidecar_name (old_alg oldInv)).
Proof.
  intros Hs He. assert (sidecar_name (new_alg newInv) = sidecar_name (old_alg oldInv)) as Hn.
  { eapply in_object_inj; [exact ok|..|exact He]; apply sidecar_name_plain.
    - by eapply new_alg_cases.
    - by eapply old_alg_cases. }
  unfold sidecar_name in Hn. do 2 apply string_app_cancel in Hn.
  unfold same_alg in Hs. rewrite Hn in Hs.
  apply orb_false_iff in Hs as [_ Hs]. by rewrite bool_decide_eq_false in Hs.
Qed.

Lemma root_sidecar_applicable od sp :
  sp_eff sp = (in_obj (sidecar_name (new_alg newInv)), Some (sidecar_content (si_digest newInv))) ::
    (if same_alg newInv oldInv then [] else [(in_obj (sidecar_name (old_alg oldInv)), None)]) →
  applicable objFS objDir files f0 specs faithful
    (root_sidecar_step (si_digest newInv) od (new_head newInv) (new_alg newInv) (old_alg oldInv)) sp.
Proof.
  intros Hsp. destruct (root_sidecar_runs od) as (run & Hrun & Hspec). split.
  - exists run. split; [done|]. intros src w w' r Hr p Hp. rewrite Hsp in Hp.
    apply Hspec in Hr as (n & e & w1 & Hw & Hr). cbn [fmap list_fmap fst] in Hp.
    apply not_elem_of_cons in Hp as [Hp1 Hp2]. pose proof (fs_Write_other _ _ _ laws _ _ _ _ _ _ p Hw Hp1) as H1.
    destruct e as [e|]; [by destruct Hr as [-> _]|].
    destruct (same_alg newInv oldInv); [by destruct Hr as [-> _]|].
    destruct Hr as (e' & Hr & _). apply (remove_existing_spec _ _ _ laws) in Hr as (Hr & _).
    rewrite Hr; [done|]. intros ->. apply Hp2. by left.
  - intros run' src w w' z Hrun' _ Hr p o Hp. rewrite Hrun in Hrun'. injection Hrun' as <-.
    apply Hspec in Hr as (n & e & w1 & Hw & Hr). rewrite Hsp in Hp.
    destruct e as [e|]; [by destruct Hr|]. apply (fs_Write_done _ _ _ laws) in Hw as [_ Hd].
    destruct (same_alg newInv oldInv) eqn:Hs.
    + destruct Hr as [-> _]. apply list_elem_of_singleton in Hp. by injection Hp as -> ->.
    + destruct Hr as (e' & Hr & [He' _]). rewrite (He' eq_refl) in Hr.
      apply (remove_existing_spec _ _ _ laws) in Hr as (Hother & _ & Hgone).
      apply elem_of_cons in Hp as [[= -> ->]|Hp].
      * rewrite Hother; [done|]. by apply sidecar_names_ne.
      * apply list_elem_of_singleton in Hp. by injection Hp as -> ->.
Qed.

(** The steps [newPlanSteps] creates. *)
Definition plan_steps : list (PlanStep W FS) :=
  root_step (new_head newInv) :: updateDeclarationSteps (new_spec newInv) (old_spec oldInv) ++
  version_step (new_head newInv) :: updateVersionContentsSteps (new_files newInv) ++
  updateInventorySteps (si_bytes newInv) (old_field oldInv si_bytes "") (si_digest newInv)
    (old_field oldInv si_digest "") (new_head newInv) (new_alg newInv) (old_alg oldInv).

Lemma newPlanSteps_Ok steps : newPlanSteps newInv oldInv = Ok steps → steps = plan_steps.
Proof.
  unfold newPlanSteps. destruct (match oldInv with Some o => _ | None => _ end); [done|]. intros Hs.
  inv_res. destruct (x <? 0); [done|]. destruct (negb _); [done|]. inv_res. done.
Qed.

(** A property of steps and their specifications holds of a whole plan. *)
Lemma plan_Forall2 (R : PlanStep W FS → step_spec → Prop) :
  R (root_step (new_head newInv)) (object_spec objDir newInv) →
  (new_spec newInv ≠ old_spec oldInv → R (write_declaration_step (new_spec newInv)) (root_spec newInv
       [(in_obj (decl_name (new_spec newInv)), Some (Namaste_Body (object_declaration (new_spec newInv))))])) →
  (new_spec newInv ≠ old_spec oldInv → Spec_Empty (old_spec oldInv) = false →
     R (remove_declaration_step (old_spec oldInv)) (root_spec newInv [(in_obj (decl_name (old_spec oldInv)), None)])) →
  R (version_step (new_head newInv)) (version_spec objDir newInv) →
  (∀ dst dig, is_Some (new_files newInv !! dst) →
     R (copy_step dst dig) (inner_spec [(in_obj dst, Some (content dig))])) →
  Forall2 R (updateInventorySteps (si_bytes newInv) (old_field oldInv si_bytes "") (si_digest newInv)
    (old_field oldInv si_digest "") (new_head newInv) (new_alg newInv) (old_alg oldInv))
    (inventory_specs objDir newInv oldInv) →
  Forall2 R plan_steps specs.
Proof.
  intros R1 R2 R3 R4 R5 R6. unfold plan_steps, plan_specs. constructor; [done|].
  apply Forall2_app; [|constructor; [done|apply Forall2_app; [|done]]].
  - unfold updateDeclarationSteps, declaration_specs. case_bool_decide; [constructor|].
    constructor; [by apply R2|]. destruct (Spec_Empty _) eqn:He; [constructor|].
    constructor; [by apply R3|constructor].
  - unfold updateVersionContentsSteps, content_specs.
    pose proof (new_files_elem newInv) as Hel. revert Hel. generalize (SortedPaths (new_files newInv)) as l.
    intros l Hel. apply Forall2_fmap, Forall2_same_length_lookup_2; [done|].
    intros i [dst dig] [dst' dig'] H1 H2. rewrite H1 in H2. injection H2 as <- <-. apply R5, Hel.
    apply list_elem_of_fmap. exists (dst, dig). split; [done|]. by eapply list_elem_of_lookup_2.
Qed.

Lemma plan_applicable : Forall2 (applicable objFS objDir files f0 specs faithful) plan_steps specs.
Proof.
  apply plan_Forall2.
  - by apply noop_applicable.
  - intros _. by eapply write_applicable; [apply write_declaration_runs|].
  - intros _ _. by eapply remove_applicable; [apply remove_declaration_runs|].
  - by apply noop_applicable.
  - intros dst dig _. apply copy_applicable.
  - repeat apply List.Forall2_cons; [..|apply List.Forall2_nil].
    + by eapply write_applicable; [apply version_inventory_runs|].
    + by eapply write_applicable; [apply version_sidecar_runs|].
    + by eapply write_applicable; [apply root_inventory_runs|].
    + by apply root_sidecar_applicable.
Qed.

(** ** Reverts *)

(** What the storage holds before the update: nothing at the object root if the
    update creates the object; else the files of the previous version, and nothing
    in the new version directory. *)
Record base_ok : Prop := {
  bo_dir : objDir ≠ ".";
  bo_first : first_version newInv = true → oldInv = None ∧ ∀ p, under objDir p = true → f0 !! p = None;
  bo_version : first_version newInv = false →
    ∀ p, under (in_obj (version_dir newInv)) p = true → f0 !! p = None;
  bo_alg : first_version newInv = false → old_alg oldInv = new_alg newInv;
  bo_inventory : first_version newInv = false → f0 !! in_obj inventoryBase = Some (old_field oldInv si_bytes "");
  bo_sidecar : first_version newInv = false →
    f0 !! in_obj (sidecar_name (new_alg newInv)) = Some (sidecar_content (old_field oldInv si_digest ""));
  bo_new_decl : first_version newInv = false → new_spec newInv ≠ old_spec oldInv →
    f0 !! in_obj (decl_name (new_spec newInv)) = None;
  bo_old_decl : first_version newInv = false → new_spec newInv ≠ old_spec oldInv →
    f0 !! in_obj (decl_name (old_spec oldInv)) = Some (Namaste_Body (object_declaration (old_spec oldInv)));
  (* a failed write or removal leaves the old file, unless the revert removes the
     object *)
  bo_atomic : first_version newInv = false → AtomicWrites ops files
}.

Context (base_state : base_ok).

Lemma in_object_below p : plain_path p → below objDir (in_obj p) = true.
Proof.
  intros Hp. unfold in_object, below. rewrite Join_dir by (done || apply ok).
  rewrite (bool_decide_false (objDir = ".")) by apply base_state.
  change (objDir +:+ "/" +:+ p) with (objDir +:+ ("/" +:+ p)). rewrite string_app_assoc. apply HasPrefix_app.
Qed.

Lemma under_trans a b c : under a b = true → under b c = true → under a c = true.
Proof.
  unfold under, below. rewrite !orb_true_iff, !bool_decide_eq_true, !HasPrefix_true.
  intros [-> |[r ->]] [-> |[r' ->]]; eauto. right. exists (r +:+ "/" +:+ r').
  by rewrite !string_app_assoc.
Qed.

Lemma remove_restores s name sp : reverts_remove s name → f0 !! name = None →
  (∀ p, sp_own sp p → p = name) → revert_restores objFS objDir files f0 s sp.
Proof.
  intros (rv & Hrv & Hr) Hf Hown. exists rv. split; [done|]. intros src w w' e He.
  apply Hr in He. apply (remove_existing_spec _ _ _ laws) in He as (Ho & Hn & Hd). split.
  - intros p. right. destruct (decide (p = name)) as [->|Hne]; [|left; by apply Ho].
    rewrite Hf. destruct Hn; auto.
  - intros -> p ->%Hown. by rewrite Hf.
Qed.

Lemma write_restores s name data sp : AtomicWrites ops files → reverts_write s name data →
  f0 !! name = Some data → (∀ p, sp_own sp p → p = name) → revert_restores objFS objDir files f0 s sp.
Proof.
  intros Hat (rv & Hrv & Hr) Hf Hown. exists rv. split; [done|]. intros src w w' e He.
  apply Hr in He as (n & e' & He & Hee). split.
  - intros p. right. destruct e' as [e'|].
    + apply (fs_Write_atomic _ _ _ laws) in He as ->; [by left|done].
    + destruct (decide (p = name)) as [->|Hne]; [|left; by eapply fs_Write_other].
      right. apply (fs_Write_done _ _ _ laws) in He as [_ He]. by rewrite He, Hf.
  - intros Hn p ->%Hown. apply Hee in Hn as ->. apply (fs_Write_done _ _ _ laws) in He as [_ He].
    by rewrite He, Hf.
Qed.

Lemma first_none p : first_version newInv = true → plain_path p → f0 !! in_obj p = None.
Proof. intros Hf Hp. apply (bo_first base_state Hf). by apply below_under, in_object_below. Qed.

Lemma root_own name o p : sp_own (root_spec newInv [(name, o)]) p → p = name.
Proof. intros [_ Hp]. by apply list_elem_of_singleton in Hp. Qed.

Lemma write_declaration_restores : new_spec newInv ≠ old_spec oldInv →
  revert_restores objFS objDir files f0 (write_declaration_step (new_spec newInv))
    (root_spec newInv [(in_obj (decl_name (new_spec newInv)), Some (Namaste_Body (object_declaration (new_spec newInv))))]).
Proof.
  intros Hne. apply (remove_restores _ (in_obj (decl_name (new_spec newInv)))); [| |apply root_own].
  { eexists. split; [done|]. intros src w w' e Hr. exact Hr. }
  destruct (first_version newInv) eqn:Hf; [|by apply (bo_new_decl base_state)].
  apply first_none; [done|]. apply decl_name_plain, ok.
Qed.

Lemma remove_declaration_restores : new_spec newInv ≠ old_spec oldInv → Spec_Empty (old_spec oldInv) = false →
  revert_restores objFS objDir files f0 (remove_declaration_step (old_spec oldInv))
    (root_spec newInv [(in_obj (decl_name (old_spec oldInv)), None)]).
Proof.
  intros Hne He. destruct (first_version newInv) eqn:Hf.
  - exfalso. destruct (bo_first base_state Hf) as [-> _]. done.
  - eapply write_restores; [by apply (bo_atomic base_state)| |by apply (bo_old_decl base_state)|apply root_own].
    eexists. split; [done|]. intros src w w' e Hw. by apply WriteDeclaration_inv in Hw.
Qed.

Lemma root_inventory_restores :
  revert_restores objFS objDir files f0
    (root_inventory_step (si_bytes newInv) (old_field oldInv si_bytes "") (new_head newInv))
    (root_spec newInv [(in_obj inventoryBase, Some (si_bytes newInv))]).
Proof.
  destruct (first_version newInv) eqn:Hf; pose proof Hf as Hf'; unfold first_version in Hf'.
  - eapply remove_restores; [|apply first_none; [done|apply inventoryBase_plain]|apply root_own].
    eexists. split; [done|]. intros src w w' e Hr. cbn beta zeta in Hr. by rewrite Hf' in Hr.
  - eapply write_restores; [by apply (bo_atomic base_state)| |by apply (bo_inventory base_state)|apply root_own].
    eexists. split; [done|]. intros src w w' e Hr. cbn beta zeta in Hr. rewrite Hf' in Hr. inv_io. by exists z, e.
Qed.

Lemma base_same_alg : same_alg newInv oldInv = true.
Proof.
  unfold same_alg. apply orb_true_iff. rewrite !bool_decide_eq_true.
  destruct (first_version newInv) eqn:Hf; [left|right; by apply base_state].
  by destruct (bo_first base_state Hf) as [-> _].
Qed.

Lemma root_sidecar_restores o :
  revert_restores objFS objDir files f0
    (root_sidecar_step (si_digest newInv) (old_field oldInv si_digest "") (new_head newInv) (new_alg newInv)
       (old_alg oldInv)) (root_spec newInv [(in_obj (sidecar_name (new_alg newInv)), o)]).
Proof.
  pose proof base_same_alg as Hsame. unfold same_alg in Hsame.
  destruct (first_version newInv) eqn:Hf; pose proof Hf as Hf'; unfold first_version in Hf'.
  - eapply remove_restores; [|apply first_none; [done|]|apply root_own].
    + eexists. split; [done|]. intros src w w' e Hr. cbn beta zeta in Hr. rewrite Hf' in Hr. exact Hr.
    + apply sidecar_name_plain. by eapply new_alg_cases.
  - eapply write_restores; [by apply (bo_atomic base_state)| |by apply (bo_sidecar base_state)|apply root_own].
    eexists. split; [done|]. intros src w w' e Hr. cbn beta zeta in Hr. rewrite Hf', Hsame in Hr. inv_io.
    rewrite (bo_alg base_state Hf) in Ha. apply writeInventorySidecar_inv in Ha as (n & e' & Hw & He).
    exists n, e'. rewrite <- He. by destruct a; inv_io.
Qed.

Lemma removeAll_restores s sp dir : dir ≠ "." →
  (∃ rv, step_revert s = Some rv ∧ ∀ src w w' e, rv objFS objDir src w = (w', e) → fs_RemoveAll objFS dir w = (w', e)) →
  (∀ p, under dir p = true → f0 !! p = None) → (∀ p, sp_own sp p → below dir p = true) →
  revert_restores objFS objDir files f0 s sp.
Proof.
  intros Hdir (rv & Hrv & Hr) Hf Hown. exists rv. split; [done|]. intros src w w' e He.
  apply Hr in He. apply (fs_RemoveAll_spec _ _ _ laws) in He as (Hout & Hn & Hd); [|done]. split.
  - intros p. right. destruct (under dir p) eqn:Hu; [|left; by apply Hout].
    destruct (Hn p) as [Hp|Hp]; [|by left]. right. by rewrite Hp, Hf.
  - intros -> p Hp%Hown. by rewrite Hd, Hf by auto using below_under.
Qed.

Lemma root_step_restores :
  revert_restores objFS objDir files f0 (root_step (new_head newInv)) (object_spec objDir newInv).
Proof.
  destruct (first_version newInv) eqn:Hf; pose proof Hf as Hf'; unfold first_version in Hf'.
  - apply (removeAll_restores _ _ objDir); [by apply (bo_dir base_state)| |by apply (bo_first base_state)|by intros p []].
    eexists. split; [done|]. intros src w w' e Hr. cbn beta zeta in Hr. by rewrite Hf' in Hr.
  - eexists. split; [done|]. intros src w w' e Hr. cbn beta zeta in Hr. rewrite Hf' in Hr. inv_io.
    split; [auto|]. intros _ p [Hp _]. congruence.
Qed.

Lemma version_dir_plain : plain_path (version_dir newInv).
Proof. apply plain_path_elem; by eapply version_dir_elem. Qed.

Lemma version_step_restores :
  revert_restores objFS objDir files f0 (version_step (new_head newInv)) (version_spec objDir newInv).
Proof.
  apply (removeAll_restores _ _ (in_obj (version_dir newInv))); [|by eexists| |by intros p []].
  - unfold in_object. rewrite Join_dir, bool_decide_false by (apply ok || apply base_state || apply version_dir_plain).
    pose proof (bo_dir base_state) as Hd. destruct objDir as [|c d]; [done|]. intros Hdot. cbn in Hdot.
    injection Hdot as -> Hdot. by destruct d.
  - destruct (first_version newInv) eqn:Hf; [|by apply (bo_version base_state)].
    intros p Hp. apply (bo_first base_state Hf). eapply under_trans; [|exact Hp].
    apply below_under, in_object_below, version_dir_plain.
Qed.

Lemma inner_restores s name o : reverts_remove s (in_obj name) → plain_path name →
  (first_version newInv = false → below (in_obj (version_dir newInv)) (in_obj name) = true) →
  revert_restores objFS objDir files f0 s (inner_spec [(in_obj name, o)]).
Proof.
  intros Hr Hp Hu. eapply remove_restores; [exact Hr| |by intros p []].
  destruct (first_version newInv) eqn:Hf; [by apply first_none|].
  by apply (bo_version base_state Hf), below_under, Hu.
Qed.

Lemma version_dir_below r : plain_path (version_dir newInv +:+ "/" +:+ r) →
  below (in_obj (version_dir newInv)) (in_obj (version_dir newInv +:+ "/" +:+ r)) = true.
Proof.
  intros Hp. unfold in_object, below. rewrite !Join_dir by (apply ok || done || apply version_dir_plain).
  rewrite !(bool_decide_false (objDir = ".")) by apply base_state.
  apply HasPrefix_true. exists r. by rewrite !string_app_assoc.
Qed.

(** Every path of an update is in the object; those of the inner steps are in the
    version directory. *)
Lemma new_files_below dst : is_Some (new_files newInv !! dst) →
  below (in_obj (version_dir newInv)) (in_obj dst) = true.
Proof.
  intros Hd. pose proof (new_files_plain _ _ _ ok dst Hd) as Hp.
  destruct Hd as [d [_ [r ->]]%versionContent_Some]. by apply version_dir_below.
Qed.

Lemma inner_atomic s eff : run_atomic objFS objDir files s (inner_spec eff).
Proof. intros run src w w' r _ _ _ p []. Qed.

Lemma root_atomic s name data : runs_write s name data →
  run_atomic objFS objDir files s (root_spec newInv [(name, Some data)]).
Proof.
  intros Hs run src w w' r Hrun Hr Hno p Hp. pose proof Hp as [Hf _].
  eapply write_atomic; [by apply (bo_atomic base_state)|exact Hs|done..].
Qed.

Lemma root_remove_atomic s name : runs_remove s name →
  run_atomic objFS objDir files s (root_spec newInv [(name, None)]).
Proof.
  intros Hs run src w w' r Hrun Hr Hno p Hp. pose proof Hp as [Hf _].
  eapply remove_atomic; [by apply (bo_atomic base_state)|exact Hs|done..].
Qed.

Lemma root_sidecar_atomic od :
  run_atomic objFS objDir files
    (root_sidecar_step (si_digest newInv) od (new_head newInv) (new_alg newInv) (old_alg oldInv))
    (root_spec newInv [(in_obj (sidecar_name (new_alg newInv)), Some (sidecar_content (si_digest newInv)))]).
Proof.
  apply root_atomic. destruct (root_sidecar_runs od) as (run & Hrun & Hspec). exists run. split; [done|].
  intros src w w' r Hr. apply Hspec in Hr as (n & e & w1 & Hw & Hr). rewrite base_same_alg in Hr.
  exists n, e. destruct e as [e|]; destruct Hr as [-> Hok]; split; try done. by rewrite Hok.
Qed.

Lemma inventory_revertible :
  Forall2 (revertible objFS objDir files f0)
    (updateInventorySteps (si_bytes newInv) (old_field oldInv si_bytes "") (si_digest newInv)
      (old_field oldInv si_digest "") (new_head newInv) (new_alg newInv) (old_alg oldInv))
    (inventory_specs objDir newInv oldInv).
Proof.
  assert (∀ s sp, applicable objFS objDir files f0 specs faithful s sp → run_frames objFS objDir files s sp)
    as Hfr by (by intros s sp []).
  unfold inventory_specs. rewrite base_same_alg. repeat apply List.Forall2_cons; [..|apply List.Forall2_nil].
  - split_and!; [|apply inner_atomic|].
    + by apply Hfr; eapply write_applicable; [apply version_inventory_runs|].
    + apply inner_restores.
      * eexists. split; [done|]. intros src w w' e Hr. cbn beta in Hr.
        destruct (version_path inventoryBase) as [Hp _]; [by vm_compute..|].
        unfold version_inventory. rewrite <- Hp. exact Hr.
      * eapply in_version_plain, inventoryBase_plain. exact ok.
      * intros _. apply version_dir_below. eapply in_version_plain, inventoryBase_plain. exact ok.
  - assert (plain_path (sidecar_name (new_alg newInv))) as Hsp.
    { apply sidecar_name_plain. by eapply new_alg_cases. }
    split_and!; [|apply inner_atomic|].
    + by apply Hfr; eapply write_applicable; [apply version_sidecar_runs|].
    + apply inner_restores.
      * eexists. split; [done|]. intros src w w' e Hr. cbn beta in Hr. unfold version_sidecar, in_object.
        rewrite (Join_plain (VNum_String _)) in Hr by (apply version_dir_plain || apply inventoryBase_plain).
        unfold version_dir, sidecar_name. rewrite <- !string_app_assoc in Hr. exact Hr.
      * by eapply in_version_plain.
      * intros _. apply version_dir_below. by eapply in_version_plain.
  - split_and!; [|apply root_atomic, root_inventory_runs|apply root_inventory_restores].
    by apply Hfr; eapply write_applicable; [apply root_inventory_runs|].
  - split_and!; [|apply root_sidecar_atomic|apply root_sidecar_restores].
    apply Hfr, root_sidecar_applicable. by rewrite base_same_alg.
Qed.

Lemma plan_revertible : Forall2 (revertible objFS objDir files f0) plan_steps specs.
Proof.
  assert (∀ s sp, applicable objFS objDir files f0 specs faithful s sp → run_frames objFS objDir files s sp)
    as Hfr by (by intros s sp []).
  apply plan_Forall2.
  - split_and!; [by apply Hfr, noop_applicable|by apply noop_atomic|apply root_step_restores].
  - intros Hne. split_and!; [|apply root_atomic, write_declaration_runs|by apply write_declaration_restores].
    by apply Hfr; eapply write_applicable; [apply write_declaration_runs|].
  - intros Hne He. split_and!; [|apply root_remove_atomic, remove_declaration_runs|by apply remove_declaration_restores].
    by apply Hfr; eapply remove_applicable; [apply remove_declaration_runs|].
  - split_and!; [by apply Hfr, noop_applicable|by apply noop_atomic|apply version_step_restores].
  - intros dst dig Hd. split_and!; [apply Hfr, copy_applicable|apply inner_atomic|].
    apply inner_restores; [|by apply (new_files_plain _ _ _ ok)|intros _; by apply new_files_below].
    eexists. split; [done|]. intros src w w' e Hr. exact Hr.
  - apply inventory_revertible.
Qed.
End contracts.
