(* ===== verification/PlanTheorems.v ===== *)
(** * Theorems on update plans

    A session is any sequence of calls of [Apply] and [Revert] on one plan, each of
    which may fail at any step, between which the plan may be saved and loaded.  The first group of theorems says what the files
    are when an [Apply] of a session succeeds, the second that a [Revert] that
    succeeds restores them, with the exact condition on the storage. *)
From S2P Require Import Prelude GoStd VNum DigestMap Spec FS Namaste Digest Codes Validation.
From S2P Require Import Inventory OcflInventory InventoryBytes Builder UpdatePlan PlanRuns PlanSpec.

Section theorems.
Context `{GoEnv, URLs, MultiError, Hashes, Decoders, PlanCodec} {W FS : Type} `{!FileSystems W FS}.
Context (objFS : FS) (ops : WriteFS W) (files : W → gmap string string).
Context (laws : WriteLaws objFS ops files) (copies : CopyLaws objFS files).
Context (objDir : string).
Implicit Types (u : UpdatePlan W FS) (w : W) (src : option (ContentSource FS)).

(** Calls of [Apply], and of [Revert] if [reverts], with any result; the plan may be
    written with [MarshalBinary] and read back in another process. *)
Inductive session (reverts : bool) (good : option (ContentSource FS) → Prop) :
    UpdatePlan W FS → W → UpdatePlan W FS → W → Prop :=
  | session_start u w : session reverts good u w u w
  | session_apply src u w u1 w1 r u2 w2 : good src →
      Apply u objFS objDir src w = (w1, (u1, r)) →
      session reverts good u1 w1 u2 w2 → session reverts good u w u2 w2
  | session_revert src u w u1 w1 r u2 w2 : reverts = true →
      Revert u objFS objDir src w = (w1, (u1, r)) →
      session reverts good u1 w1 u2 w2 → session reverts good u w u2 w2
  | session_reload u w b u' u1 u2 w2 : UpdatePlan_MarshalBinary u = inl b →
      UpdatePlan_UnmarshalBinary u' b = Ok u1 →
      session reverts good u1 w u2 w2 → session reverts good u w u2 w2.

(** [gob] decodes what it encodes, and the bytes of the two inventories, which are
    not empty, decode to them if they decode at all. *)
Record codec_ok (newInv : StoredInventory) (oldInv : option StoredInventory) : Prop := {
  co_gob : ∀ st b, gob_Encode st = inl b → gob_Decode b = inl st;
  co_new : ∀ si, newStoredInventory (si_bytes newInv) = inl si → si = newInv;
  co_old : ∀ o, oldInv = Some o → si_bytes o ≠ "" ∧ ∀ si, newStoredInventory (si_bytes o) = inl si → si = o
}.

(** A plan read back has the states of the saved one, with the functions of a new
    plan; none of its steps is concurrent. *)
Definition reloaded (s new : PlanStep W FS) : PlanStep W FS := import_step (decoded_step (step_state s)) new.

Lemma Unmarshal_inv newInv oldInv u u' b u1 :
  codec_ok newInv oldInv → up_newInv u = newInv → up_oldInv u = oldInv → up_steps u ≠ [] →
  UpdatePlan_MarshalBinary u = inl b → UpdatePlan_UnmarshalBinary u' b = Ok u1 →
  up_newInv u1 = newInv ∧ up_oldInv u1 = oldInv
  ∧ up_steps u1 = zip_with reloaded (up_steps u) (plan_steps newInv oldInv).
Proof.
  intros [Hgob Hnew Hold] <- <- Hne Hm Hu. unfold UpdatePlan_UnmarshalBinary in Hu.
  rewrite (Hgob _ _ Hm) in Hu. cbn [ups_NewInventoryBytes ups_OldInventoryBytes ups_Steps] in Hu.
  destruct (newStoredInventory (si_bytes (up_newInv u))) as [si|]; [|done]. rewrite (Hnew si eq_refl) in Hu.
  assert (prepareSteps (mkUpdatePlan (decoded_step <$> (step_state <$> up_steps u)) (up_newInv u)
    (up_oldInv u) (up_goLimit u')) = Ok u1) as Hp.
  { destruct (up_oldInv u) as [o|]; cbn [old_field] in Hu; [|done].
    destruct (Hold o eq_refl) as [Hb Ho]. rewrite bool_decide_false in Hu by done.
    destruct (newStoredInventory (si_bytes o)) as [so|]; [|done]. by rewrite (Ho so eq_refl) in Hu. }
  clear Hu. unfold prepareSteps in Hp. cbn [up_newInv up_oldInv up_steps] in Hp. inv_res.
  apply newPlanSteps_Ok in Hx as ->. destruct (up_steps u) as [|s steps]; [done|].
  cbn [fmap list_fmap] in Hp. destruct (negb _); [done|]. inv_res. subst u1. cbn [up_newInv up_oldInv up_steps with_steps].
  split_and!; [done..|].
  change (zip_with import_step (decoded_step <$> (step_state <$> (s :: steps))) (plan_steps (up_newInv u) (up_oldInv u))
    = zip_with reloaded (s :: steps) (plan_steps (up_newInv u) (up_oldInv u))).
  by rewrite <- list_fmap_compose, zip_with_fmap_l.
Qed.

(** What holds of the steps of a new plan, and depends on their functions only,
    holds of the reloaded ones. *)
Lemma reloaded_Forall2 {A} (R : PlanStep W FS → A → Prop) steps new l :
  length steps = length new → Forall2 R new l →
  (∀ s s' x, step_run s' = step_run s → step_revert s' = step_revert s → R s x → R s' x) →
  Forall2 R (zip_with reloaded steps new) l.
Proof.
  intros Hlen Hall HR. revert steps Hlen. induction Hall as [|s x new l Hs Hall IH]; intros [|s' steps] Hlen; try done.
  cbn. constructor; [by apply (HR s)|]. apply IH. by injection Hlen.
Qed.

Lemma reloaded_states steps new : length steps = length new →
  step_state <$> zip_with reloaded steps new = step_state <$> steps.
Proof.
  revert new. induction steps as [|s steps IH]; intros [|n new] Hlen; try done. cbn. f_equal. apply IH.
  by injection Hlen.
Qed.

Lemma reloaded_lookup steps new i s : length steps = length new → zip_with reloaded steps new !! i = Some s →
  ∃ s', steps !! i = Some s' ∧ step_state s = step_state s' ∧ step_async s = false.
Proof.
  intros Hlen Hi. apply lookup_zip_with_Some in Hi as (s' & n & -> & Hs & _). by exists s'.
Qed.

Lemma Apply_inv u src w w' u' r : Apply u objFS objDir src w = (w', (u', r)) →
  ∃ steps r', runSteps false objFS objDir src (IncompleteSteps (up_steps u)) (up_steps u) w = (w', (steps, r'))
  ∧ u' = with_steps u steps ∧ is_ok r = is_ok r' ∧ ∀ inv, r = Ok inv → inv = up_newInv u.
Proof.
  unfold Apply. intros Ha. inv_io. exists l, r0. split; [done|]. split; [done|].
  destruct r0; split; try done; by intros inv [= <-].
Qed.

Lemma new_plan jm inv oldInv u : newUpdatePlan jm inv oldInv = Ok u →
  up_steps u = plan_steps (up_newInv u) oldInv ∧ up_oldInv u = oldInv ∧ si_Inventory (up_newInv u) = inv
  ∧ newPlanSteps (up_newInv u) oldInv = Ok (up_steps u).
Proof.
  unfold newUpdatePlan. destruct (Inventory_marshal jm inv) as [[b d]|]; [|done].
  unfold prepareSteps. cbn [up_newInv up_oldInv up_steps]. intros Hu. inv_res. subst u. cbn.
  split_and!; [|done..]. by apply newPlanSteps_Ok in Hx.
Qed.

(** The paths of a plan are in the object root or in the new version directory. *)
Lemma plan_names_shape newInv oldInv p : update_ok objDir newInv oldInv → p ∈ plan_names newInv oldInv →
  no_slash p ∨ ∃ r, p = version_dir newInv +:+ "/" +:+ r.
Proof.
  intros ok. unfold plan_names. rewrite !elem_of_app. intros [Hp|[Hp|[Hp|Hp]]].
  - left. case_bool_decide; [by apply elem_of_nil in Hp|].
    assert (∀ s, is_ok (getOCFL s) = true → no_slash (decl_name s)) as Hd by (by intros s [-> | ->]%getOCFL_cases).
    apply elem_of_cons in Hp as [->|Hp]; [apply Hd, ok|].
    destruct (Spec_Empty (old_spec oldInv)) eqn:He; [by apply elem_of_nil in Hp|].
    apply list_elem_of_singleton in Hp as ->. apply Hd. by eapply old_spec_ok.
  - right. apply new_files_elem in Hp as [d [_ Hr]%versionContent_Some]. exact Hr.
  - pose proof (new_alg_cases _ _ _ ok) as Ha. rewrite !elem_of_cons in Hp.
    destruct Hp as [-> | [-> | [-> | [-> | Hp]]]]; [right; by eexists|right; by eexists|by left| |].
    + left. by destruct Ha as [-> | ->].
    + by apply elem_of_nil in Hp.
  - destruct (same_alg newInv oldInv) eqn:Hs; [by apply elem_of_nil in Hp|].
    apply list_elem_of_singleton in Hp as ->. left.
    by destruct (old_alg_cases _ _ _ ok Hs) as [-> | ->].
Qed.

(** No step of a new plan is completed. *)
Lemma plan_steps_fresh newInv oldInv i s :
  plan_steps (W:=W) (FS:=FS) newInv oldInv !! i = Some s → PlanStep_Completed s = false.
Proof.
  intros Hi. apply list_elem_of_lookup_2 in Hi. revert s Hi. apply Forall_forall.
  unfold plan_steps, updateDeclarationSteps. constructor; [done|]. apply Forall_app. split.
  - case_bool_decide; [constructor|]. constructor; [done|]. destruct (Spec_Empty _); by repeat constructor.
  - constructor; [done|]. apply Forall_app. split; [|by repeat constructor].
    apply Forall_fmap, Forall_forall. by intros [dst dig] _.
Qed.

Section apply.
Context (newInv : StoredInventory) (oldInv : option StoredInventory) (content : string → string)
  (f0 : gmap string string) (ok : update_ok objDir newInv oldInv) (codec : codec_ok newInv oldInv).

Notation specs := (plan_specs objDir newInv oldInv content).
Notation good := (faithful objFS files objDir newInv oldInv content f0).

(** The invariant of a session of [Apply]. *)
Definition apply_inv u w : Prop :=
  up_newInv u = newInv ∧ up_oldInv u = oldInv ∧ ∃ fl, applied objFS objDir files f0 specs good fl (up_steps u) w.

Lemma apply_inv_start u w : up_newInv u = newInv → up_oldInv u = oldInv →
  up_steps u = plan_steps newInv oldInv → files w = f0 → apply_inv u w.
Proof.
  intros Hinv Hold Hs Hf. split; [done|]. split; [done|]. rewrite Hs. eexists. split; [done| | |].
  - by eapply plan_applicable.
  - intros p _. by rewrite Hf.
  - intros i s sp p o Hi _ Hc. apply plan_steps_fresh in Hi. congruence.
Qed.

Lemma apply_inv_step u w src w' u' r : good src → apply_inv u w →
  Apply u objFS objDir src w = (w', (u', r)) →
  apply_inv u' w' ∧ (is_ok r = true → (∀ i, is_completed (up_steps u') i) ∧ r = Ok newInv
    ∧ files w' = apply_effects (plan_effects objDir newInv oldInv content) f0).
Proof.
  intros Hgood (Hinv & Hold & fl & Hap) Ha. apply Apply_inv in Ha as (steps & r' & Hrun & -> & Hok & Hr).
  pose proof (plan_effects_NoDup objDir newInv oldInv content ok) as Hnd.
  eapply applied_runSteps in Hrun as [Hap' Hc]; [|exact Hnd|exact Hgood|exact Hap].
  split; [by split; [|split; [|exists fl]]|]. intros Hrok. rewrite Hok in Hrok. specialize (Hc Hrok).
  split; [done|]. split.
  - rewrite <- Hinv. destruct r as [inv|e|]; [|by rewrite Hrok in Hok..]. f_equal. by apply Hr.
  - by eapply applied_all.
Qed.

Lemma apply_inv_reload u w u' b u1 : apply_inv u w →
  UpdatePlan_MarshalBinary u = inl b → UpdatePlan_UnmarshalBinary u' b = Ok u1 → apply_inv u1 w.
Proof.
  intros (Hinv & Hold & fl & [_ Hst Hframe Heff]) Hm Hu.
  assert (Forall2 (applicable objFS objDir files f0 specs good) (plan_steps newInv oldInv) specs) as Hplan
    by (by eapply plan_applicable).
  assert (length (up_steps u) = length (plan_steps (W:=W) (FS:=FS) newInv oldInv)) as Hlen.
  { by rewrite (Forall2_length _ _ _ Hst), (Forall2_length _ _ _ Hplan). }
  eapply Unmarshal_inv in Hu as (Hinv1 & Hold1 & Hs1); [|done|done|done|by destruct (up_steps u)|done].
  split; [done|]. split; [done|]. rewrite Hs1. eexists. split; [done| |done|].
  - apply reloaded_Forall2; [done..|]. intros s s' sp Hr _ [Hf He]. unfold applicable, run_frames, run_effect.
    by rewrite Hr.
  - intros i s sp p o Hi Hsp Hc. apply reloaded_lookup in Hi as (s' & Hs' & Hst' & _); [|done].
    apply (Heff i s' sp p o Hs' Hsp). unfold PlanStep_Completed in *. by rewrite <- Hst'.
Qed.

Lemma apply_inv_session u w u' w' : session false good u w u' w' → apply_inv u w → apply_inv u' w'.
Proof.
  induction 1 as [|src u w u1 w1 r u2 w2 Hgood Ha _ IH| |u w b u' u1 u2 w2 Hm Hu _ IH]; [done| |done|];
    intros Hi; apply IH.
  - by eapply apply_inv_step.
  - by eapply apply_inv_reload.
Qed.

(** C6. Applying an update: whatever failed before, when [Apply] succeeds the
    files are those before the first attempt with exactly the effects of the plan
    (declaration, new content, inventories and sidecars), in whatever order the
    concurrent steps ran, and the result is the new inventory. *)
Theorem Apply_spec jm inv u0 w0 u1 w1 src w2 u2 i :
  newUpdatePlan jm inv oldInv = Ok u0 → up_newInv u0 = newInv → files w0 = f0 →
  session false good u0 w0 u1 w1 → good src →
  Apply u1 objFS objDir src w1 = (w2, (u2, Ok i)) →
  i = newInv ∧ UpdatePlan_Completed u2 = true
  ∧ files w2 = apply_effects (plan_effects objDir newInv oldInv content) f0.
Proof.
  intros Hp Hinv Hf Hs Hgood Ha. apply new_plan in Hp as (Hsteps & Hold & _). rewrite Hinv in Hsteps.
  apply apply_inv_session in Hs; [|by apply apply_inv_start].
  apply apply_inv_step in Ha as [_ Ha]; [|done|done]. destruct (Ha eq_refl) as (Hc & Hr & Hfiles).
  injection Hr as ->. split; [done|]. split; [|done].
  unfold UpdatePlan_Completed. assert (IncompleteSteps (up_steps u2) = []) as ->; [|done].
  apply positions_nil. intros j s Hj. by apply (Hc j).
Qed.

(** C29. An update never touches other files: after any number of attempts, failed
    or not, a path that is not one of the plan's has the contents it had.  In
    particular the version directories of the earlier versions stay as they
    were. *)
Theorem Apply_frame jm inv u0 w0 u1 w1 :
  newUpdatePlan jm inv oldInv = Ok u0 → up_newInv u0 = newInv → files w0 = f0 →
  session false good u0 w0 u1 w1 →
  (∀ p, p ∉ in_object objDir <$> plan_names newInv oldInv → files w1 !! p = files w0 !! p)
  ∧ (∀ v p, v ≠ version_dir newInv → no_slash v → plain_path (v +:+ "/" +:+ p) →
       files w1 !! in_object objDir (v +:+ "/" +:+ p) = files w0 !! in_object objDir (v +:+ "/" +:+ p)).
Proof.
  intros Hp Hinv Hf Hs. apply new_plan in Hp as (Hsteps & Hold & _). rewrite Hinv in Hsteps.
  apply apply_inv_session in Hs as (_ & _ & fl & [_ _ Hframe _]); [|by apply apply_inv_start].
  assert (∀ p, p ∉ in_object objDir <$> plan_names newInv oldInv → files w1 !! p = files w0 !! p) as Hout.
  { intros p Hp. rewrite Hf. apply Hframe.
    change (p ∉ (plan_effects objDir newInv oldInv content).*1). by rewrite plan_effects_names. }
  split; [done|]. intros v p Hv Hs Hplain. apply Hout. intros (q & Hq & Hin)%list_elem_of_fmap.
  pose proof (plan_names_plain _ _ _ ok) as Hall. rewrite Forall_forall in Hall.
  apply (in_object_inj _ _ _ ok) in Hq; [|done|by apply Hall]. subst q.
  apply (plan_names_shape _ _ _ ok) in Hin as [Hns|[r Hr]].
  - by apply no_slash_slash in Hns.
  - apply (f_equal (split_on slash)) in Hr. destruct (version_dir_elem _ _ _ ok) as [Hvd _].
    change ("/" +:+ p) with (String slash p) in Hr. change ("/" +:+ r) with (String slash r) in Hr.
    rewrite !split_on_app in Hr by done. by injection Hr.
Qed.
End apply.

Section revert.
Context (newInv : StoredInventory) (oldInv : option StoredInventory) (f0 : gmap string string)
  (ok : update_ok objDir newInv oldInv) (codec : codec_ok newInv oldInv).

Notation specs := (plan_specs objDir newInv oldInv (λ d, d)).

Context (base_state : base_ok ops files objDir newInv oldInv f0).

(** The specifications around the one of the version directory. *)
Lemma declaration_lengths :
  length (updateDeclarationSteps (W:=W) (FS:=FS) (new_spec newInv) (old_spec oldInv))
  = length (declaration_specs objDir newInv oldInv).
Proof.
  unfold updateDeclarationSteps, declaration_specs. case_bool_decide; [done|]. by destruct (Spec_Empty _).
Qed.

Lemma eff_in_object i sp p : specs !! i = Some sp → p ∈ (sp_eff sp).*1 →
  below objDir p = true ∧ ∃ n, plain_path n ∧ p = in_object objDir n.
Proof.
  intros Hi Hp.
  assert (p ∈ (plan_effects objDir newInv oldInv (λ d, d)).*1) as Hin.
  { apply list_elem_of_fmap in Hp as (e & -> & He). apply list_elem_of_fmap. exists e. split; [done|].
    apply list_elem_of_join. exists (sp_eff sp). split; [done|]. apply list_elem_of_fmap. exists sp. split; [done|].
    by eapply list_elem_of_lookup_2. }
  rewrite plan_effects_names in Hin. apply list_elem_of_fmap in Hin as (n & -> & Hn).
  pose proof (plan_names_plain _ _ _ ok) as Hall. rewrite Forall_forall in Hall. specialize (Hall n Hn).
  split; [|by exists n]. by eapply in_object_below.
Qed.

(** A step before the one of the version directory answers for its own files; one
    after it for its own, or they are in the version directory. *)
Lemma before_version sp p : first_version newInv = false →
  sp ∈ object_spec objDir newInv :: declaration_specs objDir newInv oldInv →
  p ∈ (sp_eff sp).*1 → sp_own sp p.
Proof.
  intros Hf Hsp Hp. apply elem_of_cons in Hsp as [->|Hsp]; [by apply elem_of_nil in Hp|].
  unfold declaration_specs in Hsp. case_bool_decide; [by apply elem_of_nil in Hsp|].
  apply elem_of_cons in Hsp as [->|Hsp]; [by split|].
  destruct (Spec_Empty (old_spec oldInv)); [by apply elem_of_nil in Hsp|].
  apply list_elem_of_singleton in Hsp as ->. by split.
Qed.

Lemma after_version sp p : first_version newInv = false →
  sp ∈ content_specs objDir newInv (λ d, d) ++ inventory_specs objDir newInv oldInv →
  p ∈ (sp_eff sp).*1 → sp_own sp p ∨ sp_own (version_spec objDir newInv) p.
Proof.
  intros Hf Hsp Hp. apply elem_of_app in Hsp as [Hsp|Hsp].
  - right. split; [done|]. apply list_elem_of_fmap in Hsp as ([dst dig] & -> & Hin).
    apply list_elem_of_singleton in Hp as ->. eapply new_files_below; [exact ok|exact base_state|].
    apply new_files_elem, list_elem_of_fmap. by exists (dst, dig).
  - pose proof (new_alg_cases _ _ _ ok) as Ha. unfold inventory_specs in Hsp. rewrite !elem_of_cons in Hsp.
    destruct Hsp as [-> | [-> | [-> | [-> | Hsp]]]]; [right|right|by left; split|by left; split|].
    + apply list_elem_of_singleton in Hp as ->. split; [done|].
      eapply version_dir_below; [exact ok|exact base_state|]. by eapply in_version_plain, inventoryBase_plain.
    + apply list_elem_of_singleton in Hp as ->. split; [done|].
      eapply version_dir_below; [exact ok|exact base_state|]. by eapply in_version_plain, sidecar_name_plain.
    + by apply elem_of_nil in Hsp.
Qed.

Lemma specs_covered i sp p : specs !! i = Some sp → p ∈ (sp_eff sp).*1 →
  sp_own sp p ∨ ∃ j spj, (j < i)%nat
    ∧ (step_async <$> plan_steps (W:=W) (FS:=FS) newInv oldInv) !! j = Some false
    ∧ specs !! j = Some spj ∧ sp_own spj p.
Proof.
  intros Hi Hp. destruct (first_version newInv) eqn:Hf.
  - right. exists 0%nat, (object_spec objDir newInv). split_and!; [|done..|].
    + destruct i; [|lia]. cbn in Hi. injection Hi as <-. by apply elem_of_nil in Hp.
    + split; [done|]. by eapply eff_in_object.
  - set (k := S (length (declaration_specs objDir newInv oldInv))).
    assert (specs !! k = Some (version_spec objDir newInv)) as Hk.
    { unfold plan_specs, k. cbn [lookup list_lookup]. by apply list_lookup_middle. }
    assert ((step_async <$> plan_steps (W:=W) (FS:=FS) newInv oldInv) !! k = Some false) as Hfl.
    { rewrite list_lookup_fmap.
      assert (plan_steps (W:=W) (FS:=FS) newInv oldInv !! k = Some (version_step (new_head newInv))) as ->; [|done].
      unfold plan_steps, k. cbn [lookup list_lookup]. apply list_lookup_middle. by rewrite declaration_lengths. }
    assert (specs = (object_spec objDir newInv :: declaration_specs objDir newInv oldInv)
      ++ version_spec objDir newInv :: content_specs objDir newInv (λ d, d) ++ inventory_specs objDir newInv oldInv)
      as Hsplit by done.
    rewrite Hsplit in Hi. apply lookup_app_Some in Hi as [Hi|[Hlen Hi]].
    + left. eapply before_version; [done| |done]. by eapply list_elem_of_lookup_2.
    + cbn [length] in Hlen. destruct (i - _)%nat as [|i'] eqn:Hd; [injection Hi as <-; by apply elem_of_nil in Hp|].
      cbn [lookup list_lookup] in Hi. cbn [length] in Hd.
      destruct (after_version sp p Hf) as [Ho|Ho]; [by eapply list_elem_of_lookup_2|done|by left|].
      right. exists k, (version_spec objDir newInv). split; [unfold k; lia|done].
Qed.

(** The invariant of a session: the steps that are not concurrent in a new plan
    never are. *)
Definition revert_inv u w : Prop :=
  up_newInv u = newInv ∧ up_oldInv u = oldInv ∧ ∃ fl : list bool,
    (∀ j, (step_async <$> plan_steps (W:=W) (FS:=FS) newInv oldInv) !! j = Some false → fl !! j = Some false)
    ∧ restorable objFS objDir files f0 specs fl (up_steps u) w.

Lemma plan_steps_revertible :
  Forall2 (revertible objFS objDir files f0) (plan_steps newInv oldInv) specs.
Proof. by eapply plan_revertible. Qed.

Lemma revert_inv_start u w : up_newInv u = newInv → up_oldInv u = oldInv →
  up_steps u = plan_steps newInv oldInv → files w = f0 → revert_inv u w.
Proof.
  intros Hinv Hold Hs Hf. split; [done|]. split; [done|]. eexists. split; [done|]. split.
  - by rewrite Hs.
  - rewrite Hs. apply plan_steps_revertible.
  - intros p. left. by rewrite Hf.
Qed.

Lemma covered_flags (fl : list bool) :
  (∀ j, (step_async <$> plan_steps (W:=W) (FS:=FS) newInv oldInv) !! j = Some false → fl !! j = Some false) →
  ∀ i sp p, specs !! i = Some sp → p ∈ (sp_eff sp).*1 →
    sp_own sp p ∨ ∃ j spj, (j < i)%nat ∧ fl !! j = Some false ∧ specs !! j = Some spj ∧ sp_own spj p.
Proof.
  intros Hfl i sp p Hi Hp. destruct (specs_covered i sp p Hi Hp) as [|(j & spj & Hj & Hflj & Hspj & Ho)]; [by left|].
  right. exists j, spj. split_and!; auto.
Qed.

Lemma revert_inv_apply u w src w' u' r : revert_inv u w → Apply u objFS objDir src w = (w', (u', r)) →
  revert_inv u' w'.
Proof.
  intros (Hinv & Hold & fl & Hfl & Hi) Ha. apply Apply_inv in Ha as (steps & r' & Hrun & -> & _).
  eapply restorable_apply in Hrun; [|by apply covered_flags|exact Hi].
  split; [done|]. split; [done|]. by exists fl.
Qed.

Lemma revert_inv_revert u w src w' u' r : revert_inv u w → Revert u objFS objDir src w = (w', (u', r)) →
  revert_inv u' w' ∧ (is_ok r = true → files w' = f0 ∧ ∀ i, is_incomplete (up_steps u') i).
Proof.
  intros (Hinv & Hold & fl & Hfl & Hi) Hr. unfold Revert in Hr.
  destruct (UpdatePlan_Completed u); inv_io.
  - split; [|done]. split; [done|]. split; [done|]. by exists fl.
  - eapply restorable_reverted in Ha as [Ha Hd]; [|exact Hi]. split; [|exact Hd].
    split; [done|]. split; [done|]. by exists fl.
Qed.

Lemma revert_inv_reload u w u' b u1 : revert_inv u w →
  UpdatePlan_MarshalBinary u = inl b → UpdatePlan_UnmarshalBinary u' b = Ok u1 → revert_inv u1 w.
Proof.
  intros (Hinv & Hold & fl & Hfl & [Hflags Hst Hfiles]) Hm Hu. pose proof plan_steps_revertible as Hplan.
  assert (length (up_steps u) = length (plan_steps (W:=W) (FS:=FS) newInv oldInv)) as Hlen.
  { by rewrite (Forall2_length _ _ _ Hst), (Forall2_length _ _ _ Hplan). }
  eapply Unmarshal_inv in Hu as (Hinv1 & Hold1 & Hs1); [|done|done|done|by destruct (up_steps u)|done].
  split; [done|]. split; [done|]. exists (step_async <$> up_steps u1). split.
  - intros j Hj. rewrite list_lookup_fmap in Hj |- *. rewrite Hs1.
    destruct (zip_with _ _ _ !! j) as [s|] eqn:Hs; [by apply reloaded_lookup in Hs as (_ & _ & _ & <-)|].
    apply lookup_ge_None in Hs. rewrite length_zip_with_l_eq in Hs by done. rewrite Hlen in Hs.
    apply lookup_ge_None in Hs. by rewrite Hs in Hj.
  - split; [done| |].
    + rewrite Hs1. apply reloaded_Forall2; [done..|].
      intros s s' sp Hr Hv. unfold revertible, run_frames, run_atomic, revert_restores. by rewrite Hr, Hv.
    + intros p. destruct (Hfiles p) as [|(i & s & sp & Hs & Hsp & Hc & Ho)]; [by left|]. right.
      destruct (lookup_lt_is_Some_2 (plan_steps (W:=W) (FS:=FS) newInv oldInv) i) as [n Hn].
      { rewrite <- Hlen. by eapply lookup_lt_Some. }
      exists i, (reloaded s n), sp. rewrite Hs1. split; [|done].
      apply lookup_zip_with_Some. by exists s, n.
Qed.

Lemma revert_inv_session good u w u' w' : session true good u w u' w' → revert_inv u w → revert_inv u' w'.
Proof.
  induction 1 as [|src u w u1 w1 r u2 w2 _ Ha _ IH|src u w u1 w1 r u2 w2 _ Hr _ IH|u w b u' u1 u2 w2 Hm Hu _ IH];
    [done|..]; intros Hi; apply IH.
  - by eapply revert_inv_apply.
  - by eapply revert_inv_revert.
  - by eapply revert_inv_reload.
Qed.

(** C7. Reverting an update: after any sequence of interrupted calls of [Apply] and
    [Revert], whatever steps failed and in whatever order the concurrent steps
    ran, a [Revert] that succeeds leaves every file of the storage as it was before the
    update.  A new object may be partly written by failed writes; for an update
    of an existing object a failed write must leave the old file in place. *)
Theorem Revert_restores jm inv good u0 w0 u1 w1 src w2 u2 :
  newUpdatePlan jm inv oldInv = Ok u0 → up_newInv u0 = newInv → files w0 = f0 →
  session true good u0 w0 u1 w1 →
  Revert u1 objFS objDir src w1 = (w2, (u2, Ok ())) →
  files w2 = files w0 ∧ ∀ s, s ∈ up_steps u2 → PlanStep_Completed s = false.
Proof.
  intros Hp Hinv Hf Hs Hr. apply new_plan in Hp as (Hsteps & Hold & _). rewrite Hinv in Hsteps.
  apply revert_inv_session in Hs; [|by apply revert_inv_start].
  apply revert_inv_revert in Hr as [_ Hr]; [|done]. destruct (Hr eq_refl) as [Hfiles Hc].
  split; [congruence|]. intros s [i Hi]%list_elem_of_lookup. by apply (Hc i).
Qed.
End revert.

(** ** Saving and loading *)

(** What [PlanSteps.Eq] compares of a step. *)
Definition step_key (s : PlanStep W FS) : string * string := (PlanStep_Name s, PlanStep_ContentDigest s).

Lemma PlanSteps_Eq_true (l l' : list (PlanStep W FS)) :
  PlanSteps_Eq l l' = true ↔ step_key <$> l = step_key <$> l'.
Proof.
  revert l'. induction l as [|s l IH]; intros [|s' l']; cbn [PlanSteps_Eq fmap list_fmap]; try done.
  rewrite !andb_true_iff, !bool_decide_eq_true, IH. split.
  - intros [[Hn Hd] Hl]. by rewrite Hl; unfold step_key; rewrite Hn, Hd.
  - intros Hk. injection Hk as Hn Hd Hl. done.
Qed.

Lemma states_keys (l l' : list (PlanStep W FS)) :
  step_state <$> l = step_state <$> l' → step_key <$> l = step_key <$> l'.
Proof.
  intros Hs. apply (f_equal (fmap (λ st, (ps_Name st, ps_ContentDigest st)))) in Hs.
  by rewrite <- !list_fmap_compose in Hs.
Qed.

Lemma do_step_keys backward src i steps w w' steps' r :
  do_step backward objFS objDir src i steps w = (w', (steps', r)) →
  step_key <$> steps' = step_key <$> steps ∧ step_async <$> steps' = step_async <$> steps.
Proof.
  unfold do_step. intros Hd. destruct (steps !! i) as [s|] eqn:Hs; [|by inv_io]. inv_io.
  assert (step_key p = step_key s ∧ step_async p = step_async s) as [Hk Ha'].
  { destruct backward; [unfold PlanStep_Revert in Ha|unfold PlanStep_Run in Ha];
      repeat (case_match; inv_io; try done). }
  rewrite !list_fmap_insert, Hk, Ha'. split; apply list_insert_id; by rewrite list_lookup_fmap, Hs.
Qed.

Lemma runSteps_keys backward src todo steps w w' steps' r :
  runSteps backward objFS objDir src todo steps w = (w', (steps', r)) →
  step_key <$> steps' = step_key <$> steps.
Proof.
  intros Hrun.
  apply (runSteps_spec backward objFS objDir src (step_async <$> steps)
    (λ st _, step_async <$> st = step_async <$> steps ∧ step_key <$> st = step_key <$> steps)
    (λ _ _, True) (λ _ _, False)) in Hrun as [[_ Hk] _];
    [done|by intros ?? []| |done|by intros ????? []].
  intros i st w1 w2 st' r' [Ha Hk] _ Hd. apply do_step_keys in Hd as [Hk' Ha'].
  split; [|done]. split; congruence.
Qed.

(** A plan of these inventories with the steps of a new plan, in any state. *)
Definition plan_of newInv oldInv u : Prop :=
  up_newInv u = newInv ∧ up_oldInv u = oldInv
  ∧ step_key <$> up_steps u = step_key <$> plan_steps (W:=W) (FS:=FS) newInv oldInv.

Lemma plan_of_session newInv oldInv good u w u' w' : codec_ok newInv oldInv →
  session true good u w u' w' → plan_of newInv oldInv u → plan_of newInv oldInv u'.
Proof.
  intros codec.
  induction 1 as [|src u w u1 w1 r u2 w2 _ Ha _ IH|src u w u1 w1 r u2 w2 _ Hr _ IH|u w b u' u1 u2 w2 Hm Hu _ IH];
    [done|..]; intros (Hn & Ho & Hk); apply IH.
  - apply Apply_inv in Ha as (steps & r' & Hrun & -> & _). split; [done|]. split; [done|].
    apply runSteps_keys in Hrun. cbn [up_steps with_steps]. congruence.
  - unfold Revert in Hr. destruct (UpdatePlan_Completed u); inv_io; [done|]. split; [done|]. split; [done|].
    apply runSteps_keys in Ha. cbn [up_steps with_steps]. congruence.
  - assert (length (up_steps u) = length (plan_steps (W:=W) (FS:=FS) newInv oldInv)) as Hlen.
    { apply (f_equal length) in Hk. by rewrite !length_fmap in Hk. }
    eapply Unmarshal_inv in Hu as (Hn1 & Ho1 & Hs1); [|done|done|done|by destruct (up_steps u)|done].
    split; [done|]. split; [done|]. rewrite Hs1, <- Hk.
    by apply states_keys, reloaded_states.
Qed.

(** C28. A plan that has been interrupted at any point can be saved and loaded: the
    loaded plan is equal to the saved one, for the same inventories, and each of
    its steps has the state (completed or not, errors, size) of the saved step. *)
Theorem Marshal_roundtrip jm inv newInv oldInv good u0 w0 u1 w1 b u' :
  codec_ok newInv oldInv → newStoredInventory (si_bytes newInv) = inl newInv →
  (∀ o, oldInv = Some o → newStoredInventory (si_bytes o) = inl o) →
  newUpdatePlan jm inv oldInv = Ok u0 → up_newInv u0 = newInv → session true good u0 w0 u1 w1 →
  UpdatePlan_MarshalBinary u1 = inl b →
  ∃ u2, UpdatePlan_UnmarshalBinary u' b = Ok u2
    ∧ up_newInv u2 = newInv ∧ up_oldInv u2 = oldInv
    ∧ step_state <$> up_steps u2 = step_state <$> up_steps u1
    ∧ UpdatePlan_Eq u1 u2 = true.
Proof.
  intros codec Hnew Hold Hp Hinv Hs Hm.
  apply new_plan in Hp as (Hst & Hold0 & _ & Hsteps). rewrite Hst, Hinv in Hsteps.
  apply (plan_of_session newInv oldInv) in Hs as (Hn1 & Ho1 & Hk1); [|done|].
  2: { split; [done|]. split; [done|]. by rewrite Hst, Hinv. }
  assert (length (up_steps u1) = length (plan_steps (W:=W) (FS:=FS) newInv oldInv)) as Hlen.
  { apply (f_equal length) in Hk1. by rewrite !length_fmap in Hk1. }
  assert (UpdatePlan_UnmarshalBinary u' b = prepareSteps (mkUpdatePlan (W:=W) (FS:=FS)
    (decoded_step <$> (step_state <$> up_steps u1)) newInv oldInv (up_goLimit u'))) as Hu.
  { unfold UpdatePlan_UnmarshalBinary. rewrite (co_gob _ _ codec _ _ Hm).
    cbn [ups_NewInventoryBytes ups_OldInventoryBytes ups_Steps]. rewrite Hn1, Hnew, Ho1.
    destruct oldInv as [o|]; cbn [old_field]; [|done].
    destruct (co_old _ _ codec o eq_refl) as [Hb _]. by rewrite bool_decide_false, (Hold o). }
  assert (step_key <$> (decoded_step <$> (step_state <$> up_steps u1))
    = step_key <$> plan_steps (W:=W) (FS:=FS) newInv oldInv) as Hkd.
  { rewrite <- Hk1, <- !list_fmap_compose. by apply list_fmap_ext. }
  assert (∃ u2, UpdatePlan_UnmarshalBinary u' b = Ok u2) as [u2 Hu2].
  { rewrite Hu. unfold prepareSteps. cbn [up_newInv up_oldInv up_steps]. rewrite Hsteps. cbn [mbind res_bind].
    destruct (decoded_step <$> _) as [|s l]; [eauto|].
    rewrite (proj2 (PlanSteps_Eq_true _ _)) by (symmetry; exact Hkd). cbn [negb]. eauto. }
  exists u2. split; [done|].
  eapply Unmarshal_inv in Hu2 as (Hn2 & Ho2 & Hs2); [|done|done|done|by destruct (up_steps u1)|done].
  assert (step_state <$> up_steps u2 = step_state <$> up_steps u1) as Hst2 by (by rewrite Hs2, reloaded_states).
  split_and!; [done..|]. unfold UpdatePlan_Eq. rewrite Hn1, Hn2, Ho1, Ho2, bool_decide_true by done. cbn [negb].
  assert (PlanSteps_Eq (up_steps u1) (up_steps u2) = true) as Heq.
  { by apply PlanSteps_Eq_true, states_keys. }
  destruct oldInv; [by rewrite bool_decide_true|done].
Qed.
End theorems.

(** ** Concrete instances *)

#[local] Existing Instances ref_env ref_urls ref_multierror ref_multierror_laws
  ref_hashes ref_decoders mem_fs.

Definition ref_codec : PlanCodec := {|
  gob_Encode := λ _, inr (ErrNew "gob");
  gob_Decode := λ _, inr (ErrNew "gob");
  gob_EncodeStep := λ _, inr (ErrNew "gob");
  gob_DecodeStep := λ _, inr (ErrNew "gob");
  error_Error := λ _, "error"
|}.
#[local] Existing Instance ref_codec.

Definition ex_marshal (inv : Inventory) : result string :=
  inl ("inventory " +:+ VNum_String (inv_Head inv)).

Definition stored (inv : Inventory) : StoredInventory :=
  match Inventory_marshal ex_marshal inv with
  | inl (b, d) => mkStoredInventory inv b d
  | inr _ => mkStoredInventory inv "" ""
  end.

(** The first version of an object at "o", from a file outside of the object. *)
Definition ex_source : ContentSource unit := λ _, Some ((), "src/f").
Definition ex_storage : gmap string string := {["src/f" := "hello"]}.
Definition ex_new : StoredInventory := stored ex_inventory.

Definition ex_plan `{!FileSystems (gmap string string) unit} (newInv : StoredInventory) (oldInv : option StoredInventory)
    : UpdatePlan (gmap string string) unit :=
  mkUpdatePlan (plan_steps newInv oldInv) newInv oldInv 0.

Lemma ex_inventory_ok : inventory_ok Spec1_1 ex_inventory.
Proof.
  apply (Inventory_Validate_ok ex_inventory); [|by vm_compute]. by apply inv_ascii_check; vm_compute.
Qed.

Lemma ex_update_ok : update_ok "o" ex_new None.
Proof.
  split; [by vm_compute|exact ex_inventory_ok|by vm_compute|by vm_compute|by left|by left|].
  by split; vm_compute.
Qed.

Lemma ex_codec : codec_ok ex_new None.
Proof. split; [done| |done]. intros si Hsi. exfalso. revert Hsi. by vm_compute. Qed.

Lemma ex_newUpdatePlan : newUpdatePlan ex_marshal ex_inventory None = Ok (ex_plan ex_new None).
Proof. done. Qed.

Lemma ex_faithful :
  faithful () (λ m, m) "o" ex_new None (λ _, "hello") ex_storage (Some ex_source).
Proof.
  intros gc dig [] p w [= <-] [= <-] Hbase.
  assert (w !! "src/f" = Some "hello") as Hf.
  { rewrite (Hbase "src/f"); [by vm_compute|].
    change ("src/f" ∉ (plan_effects "o" ex_new None (λ _, "hello")).*1).
    rewrite plan_effects_names. apply (bool_decide_unpack _). by vm_compute. }
  split.
  - intros f Ho He. destruct (law_open_ok _ _ mem_read_laws _ _ _ Ho) as (data & Hd & Hdata).
    rewrite (Hdata He). assert (Some data = Some "hello") as [= ->]; [|done]. by rewrite <- Hd.
  - intros _ data Hd. assert (Some data = Some "hello") as [= ->]; [|done]. by rewrite <- Hd.
Qed.

Definition ex_applied := Apply (ex_plan ex_new None) () "o" (Some ex_source) ex_storage.

Lemma ex_applied_eq : ex_applied = (ex_applied.1, (ex_applied.2.1, Ok ex_new)).
Proof. assert (ex_applied.2.2 = Ok ex_new) as <- by by vm_compute. by destruct ex_applied as [? []]. Qed.

Lemma Apply_spec_witness :
  ex_applied.1 = apply_effects (plan_effects "o" ex_new None (λ _, "hello")) ex_storage
  ∧ ex_applied.1 !! "o/v1/content/f" = Some "hello".
Proof.
  split; [|by vm_compute].
  apply (Apply_spec () mem_ops (λ m, m) mem_write_laws mem_copy_laws "o" ex_new None (λ _, "hello") ex_storage
    ex_update_ok ex_codec ex_marshal ex_inventory (ex_plan ex_new None) ex_storage (ex_plan ex_new None) ex_storage
    (Some ex_source) ex_applied.1 ex_applied.2.1 ex_new).
  - apply ex_newUpdatePlan.
  - done.
  - done.
  - apply session_start.
  - apply ex_faithful.
  - apply ex_applied_eq.
Defined.

Lemma Apply_frame_witness : ex_applied.1 !! "src/f" = ex_storage !! "src/f".
Proof.
  apply (Apply_frame () mem_ops (λ m, m) mem_write_laws mem_copy_laws "o" ex_new None (λ _, "hello") ex_storage
    ex_update_ok ex_codec ex_marshal ex_inventory (ex_plan ex_new None) ex_storage ex_applied.2.1 ex_applied.1).
  - apply ex_newUpdatePlan.
  - done.
  - done.
  - eapply session_apply; [apply ex_faithful|apply ex_applied_eq|apply session_start].
  - apply (bool_decide_unpack _). by vm_compute.
Defined.

Lemma surjective_pairing_2 {A B C} (x : A * (B * C)) : x = (x.1, (x.2.1, x.2.2)).
Proof. by destruct x as [? []]. Qed.

(** The second version of the object, from a source without the new content. *)
Definition ex_new2 : StoredInventory := stored ex_built.

Definition ex_storage2 : gmap string string :=
  <["o/inventory.json" := si_bytes ex_new]>
  (<["o/inventory.json.sha512" := sidecar_content (si_digest ex_new)]>
  (<["o/v1/content/f" := "hello"]> {["o/0=ocfl_object_1.1" := Namaste_Body (object_declaration Spec1_1)]})).

Lemma nothing_under (m : gmap string string) dir :
  forallb (λ e : string * string, negb (under dir e.1)) (map_to_list m) = true →
  ∀ p, under dir p = true → m !! p = None.
Proof.
  intros Hall p Hp. destruct (m !! p) as [d|] eqn:Hm; [|done]. rewrite forallb_forall in Hall.
  assert (negb (under dir p) = true) as Hn.
  { apply (Hall (p, d)), list_elem_of_In. by apply elem_of_map_to_list. }
  by rewrite Hp in Hn.
Qed.

Lemma ex_update_ok2 : update_ok "o" ex_new2 (Some ex_new).
Proof.
  assert (inventory_ok Spec1_1 ex_built) as Hok.
  { apply (Inventory_Validate_ok ex_built); [by apply inv_ascii_check; vm_compute|by vm_compute]. }
  assert (new_spec ex_new2 = Spec1_1) as Hs by by vm_compute.
  split; [by vm_compute|by rewrite Hs|by vm_compute|by vm_compute|right; by left|by right|].
  by split; vm_compute.
Qed.

Lemma ex_codec2 : codec_ok ex_new2 (Some ex_new).
Proof.
  split; [done| |].
  - intros si Hsi. exfalso. revert Hsi. by vm_compute.
  - intros o [= <-]. split; [done|]. intros si Hsi. exfalso. revert Hsi. by vm_compute.
Qed.

(** The storage before the update, whatever the storage promises about writes. *)
Lemma ex_base_ok2 ops : AtomicWrites ops (λ m, m) →
  base_ok ops (λ m, m) "o" ex_new2 (Some ex_new) ex_storage2.
Proof.
  assert (first_version ex_new2 = false) as Hf by by vm_compute.
  assert (new_spec ex_new2 = old_spec (Some ex_new)) as Hs by by vm_compute.
  intros Hat. split.
  - done.
  - intros Hf'. rewrite Hf in Hf'. discriminate Hf'.
  - intros _. apply nothing_under. by vm_compute.
  - intros _. by vm_compute.
  - intros _. by vm_compute.
  - intros _. by vm_compute.
  - intros _ Hne. by destruct (Hne Hs).
  - intros _ Hne. by destruct (Hne Hs).
  - intros _. exact Hat.
Qed.

Definition ex_failed : gmap string string * (UpdatePlan (gmap string string) unit * res StoredInventory) :=
  Apply (ex_plan ex_new2 (Some ex_new)) () "o" (Some (λ _, None)) ex_storage2.
Definition ex_reverted := Revert ex_failed.2.1 () "o" (Some (λ _, None)) ex_failed.1.

Lemma Revert_restores_witness :
  is_ok ex_failed.2.2 = false ∧ ex_reverted.1 = ex_storage2.
Proof.
  split; [by vm_compute|].
  apply (Revert_restores () mem_ops (λ m, m) mem_write_laws mem_copy_laws "o" ex_new2 (Some ex_new) ex_storage2
    ex_update_ok2 ex_codec2 (ex_base_ok2 mem_ops mem_atomic) ex_marshal ex_built (λ _, True)
    (ex_plan ex_new2 (Some ex_new)) ex_storage2 ex_failed.2.1 ex_failed.1 (Some (λ _, None))
    ex_reverted.1 ex_reverted.2.1).
  - done.
  - done.
  - done.
  - eapply session_apply; [done| |apply session_start]. unfold ex_failed. apply surjective_pairing_2.
  - assert (ex_reverted.2.2 = Ok ()) as <- by by vm_compute. apply surjective_pairing_2.
Defined.

(** A codec that knows the state of one interrupted plan. *)
#[global] Instance planStepState_eq_dec : EqDecision planStepState.
Proof. solve_decision. Defined.
#[global] Instance updatePlanState_eq_dec : EqDecision updatePlanState.
Proof. solve_decision. Defined.

Definition table_codec (x : updatePlanState) : PlanCodec := {|
  gob_Encode := λ st, if decide (st = x) then inl "plan" else inr (ErrNew "gob");
  gob_Decode := λ b, if decide (b = "plan") then inl x else inr (ErrNew "gob");
  gob_EncodeStep := λ _, inr (ErrNew "gob");
  gob_DecodeStep := λ _, inr (ErrNew "gob");
  error_Error := λ _, "error"
|}.

Definition ex_decoded : StoredInventory :=
  match newStoredInventory ex_raw with inl si => si | inr _ => ex_new end.
Definition ex_saved_state : updatePlanState :=
  mkUpdatePlanState ex_raw "" (step_state <$> up_steps (ex_plan ex_decoded None)).

Lemma Marshal_roundtrip_witness :
  ∃ u2 : UpdatePlan (gmap string string) unit,
    @UpdatePlan_UnmarshalBinary _ _ _ _ _ (table_codec ex_saved_state) _ _ _ (ex_plan ex_new None) "plan" = Ok u2
    ∧ step_state <$> up_steps u2 = step_state <$> up_steps (ex_plan ex_decoded None).
Proof.
  pose proof (@Marshal_roundtrip _ _ _ _ _ (table_codec ex_saved_state) _ _ _ () "o"
    (λ _, inl ex_raw) ex_inventory ex_decoded None (λ _, True) (ex_plan ex_decoded None) ∅
    (ex_plan ex_decoded None) ∅ "plan" (ex_plan ex_new None)) as Hm.
  destruct Hm as (u2 & Hu & _ & _ & Hs & _).
  - split; [|intros si Hsi|done].
    + intros st b. cbn. destruct (decide (st = ex_saved_state)) as [->|]; [|done]. by intros [= <-].
    + assert (newStoredInventory (si_bytes ex_decoded) = inl ex_decoded) as He by by vm_compute. congruence.
  - by vm_compute.
  - done.
  - done.
  - done.
  - apply session_start.
  - by vm_compute.
  - exists u2. split; [exact Hu|exact Hs].
Defined.

(** ** A storage whose failed writes are not atomic *)

(** The write of a new root inventory truncates the old file and fails. *)
Definition torn_ops : WriteFS (gmap string string) := {|
  w_Write := λ name r m,
    if bool_decide (name = "o/inventory.json") && negb (bool_decide (rd_data r = si_bytes ex_new))
    then (<[name := ""]> m, (0, Some (ErrNew "disk full")))
    else w_Write mem_ops name r m;
  w_Remove := w_Remove mem_ops;
  w_RemoveAll := w_RemoveAll mem_ops
|}.

Definition torn_fs : FileSystems (gmap string string) unit := {|
  FS_eq_dec := unit_eq_dec;
  OpenFile := @OpenFile _ _ mem_fs;
  as_DirEntriesFS := @as_DirEntriesFS _ _ mem_fs;
  as_FileWalker := λ _, None;
  as_WriteFS := λ _, Some torn_ops;
  as_CopyFS := λ _, None
|}.

#[local] Existing Instance torn_fs.

Lemma torn_write_laws : @WriteLaws _ _ torn_fs () torn_ops (λ m, m).
Proof.
  destruct mem_write_laws as [_ L2 L3 L4 L5 L6]. split; try done.
  - intros name r w w' n. cbn [w_Write torn_ops]. destruct (_ && _); [done|]. apply L2.
  - intros name r w w' n e. cbn [w_Write torn_ops]. destruct (_ && _); [|apply L3].
    intros [= <- _ _]. by rewrite delete_insert_eq.
Qed.

Definition ex_storage3 : gmap string string := <["src/g" := "new data"]> ex_storage2.
Definition ex_source3 : ContentSource unit := λ _, Some ((), "src/g").
(** The plan whose steps write to this storage. *)
Definition ex_torn : gmap string string * (UpdatePlan (gmap string string) unit * res StoredInventory) :=
  Apply (ex_plan ex_new2 (Some ex_new)) () "o" (Some ex_source3) ex_storage3.
Definition ex_torn_reverted :=
  Revert ex_torn.2.1 () "o" (Some ex_source3) ex_torn.1.

(** Without that condition a revert can succeed and leave the object broken:
    on a storage that keeps the laws of FS.v but truncates the root inventory when
    its write fails, the update of the second version fails in that step, which
    is therefore not reverted; [Revert] reports success and the truncated
    inventory stays. *)
Theorem Revert_needs_atomic :
  WriteLaws () torn_ops (λ m : gmap string string, m) ∧
  is_ok ex_torn.2.2 = false ∧ ex_torn_reverted.2.2 = Ok ()
  ∧ ex_storage3 !! "o/inventory.json" = Some (si_bytes ex_new)
  ∧ ex_torn_reverted.1 = <["o/inventory.json" := ""]> ex_storage3.
Proof.
  split; [apply torn_write_laws|]. split; [by vm_compute|]. split; [by vm_compute|].
  split; vm_compute; reflexivity.
Qed.
