(* ===== verification/Stage.v ===== *)
(** * Stages ([src/stage.go])

    A stage is the state of a new object version with the sources of its content
    and fixity.  A source is the interface value of the code: nil, a list of
    sources ([contentSources], [fixitySources]) or one other source, which is its
    method.  [StageDir] and [StageFiles] digest the files of a backend;
    [Overlay] merges stages. *)
From S2P Require Import Prelude GoStd DigestMap FS Pipeline Digest UpdatePlan.

(** ** [sort.SearchStrings] *)

(** [sort.Search]: the binary search of the smallest index in [[i, j)] with
    [f]. *)
Fixpoint search (fuel : nat) (i j : Z) (f : Z → bool) : Z :=
  match fuel with
  | O => i
  | S fuel =>
      if i <? j then
        let h := Z.shiftr (i + j) 1 in
        if negb (f h) then search fuel (h + 1) j f else search fuel i h f
      else i
  end.

Definition nth_string (a : list string) (i : Z) : string := default "" (a !! Z.to_nat i).

(** The search halves its range: the length bounds the number of rounds. *)
Definition SearchStrings (a : list string) (x : string) : Z :=
  search (S (length a)) 0 (Z.of_nat (length a)) (λ i, negb (String.ltb (nth_string a i) x)).

(** ** Sources *)

(** The dynamic value of a [ContentSource] or [FixitySource]. *)
Inductive source (A : Type) : Type := SrcNil | SrcList (l : list A) | SrcOne (a : A).
Arguments SrcNil {A}.
Arguments SrcList {A} l.
Arguments SrcOne {A} a.

(** [src/stage.go:212-218] FixitySource *)
Definition FixitySource : Type := string → Set_.

(** The body of [addContentSource] and [addFixitySource].  The sources are a value:
    in Go, [append] may write past the end of a slice that a copy of the stage
    shares, which is not modelled. *)
Definition addSource {A} (current new : source A) : source A :=
  let sources := match current with SrcList l => l | SrcNil => [] | SrcOne a => [a] end in
  SrcList (sources ++ match new with SrcList l => l | SrcNil => [] | SrcOne a => [a] end).

(** [src/stage.go:265-268] dirManifestEntry *)
Record dirManifestEntry := mkEntry { dme_paths : list string; dme_fixity : Set_ }.

Section sources.
Context `{GoEnv} {W FS : Type} `{!FileSystems W FS}.

(** [src/stage.go:222-230] contentSources.GetContent *)
Definition contentSources_GetContent (ps : list (ContentSource FS)) (digest : string) : option (FS * string) :=
  find_some (λ p, p digest) ps.

(** [src/stage.go:234-242] fixitySources.GetFixity *)
Definition fixitySources_GetFixity (ps : list FixitySource) (dig : string) : Set_ :=
  Some (foldl (λ set fixer,
    foldl (λ set '(fixAlg, fixDigest), <[fixAlg := fixDigest]> set) set (range 80 (set_map (fixer dig)))) ∅ ps).

(** [src/stage.go:244-248] dirManifest: [None] is a nil [FS] *)
Record dirManifest := mkDirManifest {
  dm_fs : option FS;
  dm_baseDir : string;
  dm_manifest : gmap string dirManifestEntry
}.

Definition entry_of (m : gmap string dirManifestEntry) (d : string) : dirManifestEntry :=
  default (mkEntry [] None) (m !! d).

(** [src/stage.go:254-259] dirManifest.GetContent *)
Definition dirManifest_GetContent (s : dirManifest) : ContentSource FS := λ digest,
  match dm_fs s, dme_paths (entry_of (dm_manifest s) digest) with
  | Some fsys, p :: _ => Some (fsys, Join [dm_baseDir s; p])
  | _, _ => None
  end.

(** [src/stage.go:261-263] dirManifest.GetFixity *)
Definition dirManifest_GetFixity (s : dirManifest) : FixitySource := λ dig,
  dme_fixity (entry_of (dm_manifest s) dig).

(** Insert at an index, as [append] and [copy] do. *)
Definition insert_at (l : list string) (i : Z) (x : string) : list string :=
  take (Z.to_nat i) l ++ x :: drop (Z.to_nat i) l.

(** [src/stage.go:270-280] dirManifestEntry.addPaths *)
Fixpoint addPaths (entry : dirManifestEntry) (paths : list string) : dirManifestEntry :=
  match paths with
  | [] => entry
  | stagePath :: paths =>
      let i := SearchStrings (dme_paths entry) stagePath in
      if (i <? Z.of_nat (length (dme_paths entry)))
         && bool_decide (nth_string (dme_paths entry) i = stagePath)
      then entry
      else addPaths (mkEntry (insert_at (dme_paths entry) i stagePath) (dme_fixity entry)) paths
  end.

(** [src/stage.go:282-293] dirManifestEntry.addFixity *)
Definition addFixity (entry : dirManifestEntry) (fixity : Set_) : dirManifestEntry :=
  if decide (set_map fixity = ∅) then entry
  else match dme_fixity entry with
       | None => mkEntry (dme_paths entry) fixity
       | Some m =>
           mkEntry (dme_paths entry)
             (Some (foldl (λ m '(alg, dig), <[alg := dig]> m) m (range 81 (set_map fixity))))
       end.

(** ** Stages *)

(** [src/stage.go:16-29] Stage *)
Record Stage := mkStage {
  st_State : DigestMap;
  st_DigestAlgorithm : option Algorithm;
  st_ContentSource : source (ContentSource FS);
  st_FixitySource : source FixitySource
}.

(** The source that is passed on: a nil interface, or its method. *)
Definition content_source (s : source (ContentSource FS)) : option (ContentSource FS) :=
  match s with
  | SrcNil => None
  | SrcList l => Some (contentSources_GetContent l)
  | SrcOne f => Some f
  end.
Definition fixity_source (s : source FixitySource) : option FixitySource :=
  match s with
  | SrcNil => None
  | SrcList l => Some (fixitySources_GetFixity l)
  | SrcOne f => Some f
  end.

(** [src/stage.go:129-137] Stage.HasContent *)
Definition HasContent (s : Stage) (digest : string) : bool :=
  match content_source (st_ContentSource s) with
  | None => false
  | Some src => match src digest with Some (_, p) => negb (bool_decide (p = "")) | None => false end
  end.

(** The variables of the loop of [newStage]. *)
Record stage_loop := mkLoop {
  sl_manifest : gmap string dirManifestEntry;
  sl_baseDir : string;
  sl_fsys : option FS
}.

(** One file of the loop of [newStage]. *)
Definition stage_file (alg : Algorithm) (l : stage_loop) (f : @DFileRef FS) : result stage_loop :=
  let ref := dfr_FileRef f in
  let fsys := default (fr_FS ref) (sl_fsys l) in
  if negb (bool_decide (fsys = fr_FS ref)) then inr (ErrNew "inconsistent backend FS for staged files")
  else match set_map (dfr_Digests f) !! alg_ID alg with
       | None => inr (ErrNew "missing expected digest")
       | Some primaryDigest =>
           let baseDir := if bool_decide (sl_baseDir l = "") then fr_BaseDir ref else sl_baseDir l in
           if negb (bool_decide (baseDir = fr_BaseDir ref))
           then inr (ErrNew "inconsistent base directory for staged files")
           else
             let entry := addPaths (entry_of (sl_manifest l) primaryDigest) [fr_Path ref] in
             let entry := addFixity entry (dfr_Fixity f) in
             inl (mkLoop (<[primaryDigest := entry]> (sl_manifest l)) baseDir (Some fsys))
       end.

Fixpoint stage_files (alg : Algorithm) (l : stage_loop) (digests : list (@DFileRef FS)) : result stage_loop :=
  match digests with
  | [] => inl l
  | f :: digests =>
      match stage_file alg l f with
      | inr err => inr err
      | inl l => stage_files alg l digests
      end
  end.

(** [src/stage.go:85-127] newStage *)
Definition newStage (digests : list (@DFileRef FS)) (alg : Algorithm) : result Stage :=
  match stage_files alg (mkLoop ∅ "" None) digests with
  | inr err => inr err
  | inl l =>
      let state := foldl (λ state '(dig, entry), <[dig := dme_paths entry]> state) ∅ (range 82 (sl_manifest l)) in
      let dirMan := mkDirManifest (sl_fsys l) (sl_baseDir l) (sl_manifest l) in
      inl (mkStage state (Some alg) (SrcOne (dirManifest_GetContent dirMan)) (SrcOne (dirManifest_GetFixity dirMan)))
  end.

Definition of_result {A} (r : result A) : res A := match r with inl a => Ok a | inr e => Err e end.
(** The pairs of a file and an error, as a sequence that [UntilErr] reads. *)
Definition of_pair {A} (p : A * option error) : res A := match p.2 with None => Ok p.1 | Some e => Err e end.

(** [src/stage.go:63-83] StageFiles *)
Definition StageFiles (files : list (FileRef FS)) (alg : Algorithm) (fixity : list Algorithm) (w : W) : res Stage :=
  if negb (bool_decide (alg_ID alg = SHA512)) && negb (bool_decide (alg_ID alg = SHA256))
  then Err (ErrNew "at least one algorithm (sha512 or sha256) must be provided")
  else
    let '(validFiles, fileTypeErr) := UntilErr (of_pair <$> CheckFileTypes files w) in
    let '(digests, digestErr) := UntilErr (of_result <$> DigestFiles validFiles alg fixity w) in
    stage ← of_result (newStage digests alg);
    _ ← digestErr;
    _ ← fileTypeErr;
    Ok stage.

(** [src/stage.go:41-61] StageDir: the fuel bounds the depth of the tree *)
Definition StageDir (fuel : nat) (fsys : FS) (dir : string) (alg : Algorithm) (fixity : list Algorithm) (w : W)
    : res Stage :=
  let '(files, walkErr) := UntilErr (fs_WalkFiles fuel fsys dir w) in
  let files := FilterFiles files IsNotHidden in
  stage ← StageFiles files alg fixity w;
  _ ← walkErr;
  Ok (match st_DigestAlgorithm stage with
      | Some _ => stage
      | None => mkStage (st_State stage) (Some alg) (st_ContentSource stage) (st_FixitySource stage)
      end).

(** [src/stage.go:31-39] StageBytes: [mapFS] is the backend over [fstest.MapFS] *)
Definition StageBytes (mapFS : gmap string string → FS) (fuel : nat) (content : gmap string string)
    (alg : Algorithm) (fixity : list Algorithm) (w : W) : res Stage :=
  StageDir fuel (mapFS content) "." alg fixity w.

(** [src/stage.go:166-183] Stage.addContentSource *)
Definition addContentSource (s : Stage) (cs : source (ContentSource FS)) : Stage :=
  mkStage (st_State s) (st_DigestAlgorithm s) (addSource (st_ContentSource s) cs) (st_FixitySource s).

(** [src/stage.go:185-202] Stage.addFixitySource *)
Definition addFixitySource (s : Stage) (fs : source FixitySource) : Stage :=
  mkStage (st_State s) (st_DigestAlgorithm s) (st_ContentSource s) (addSource (st_FixitySource s) fs).

(** [s.State = state] *)
Definition set_State (s : Stage) (state : DigestMap) : Stage :=
  mkStage state (st_DigestAlgorithm s) (st_ContentSource s) (st_FixitySource s).

(** The loop of [Overlay]: the state becomes nil when [Merge] fails. *)
Fixpoint overlay_loop (alg : Algorithm) (stages : list Stage) (s : Stage) : Stage * res unit :=
  match stages with
  | [] => (s, Ok ())
  | over :: stages =>
      match st_DigestAlgorithm over with
      | None => (s, Panic)
      | Some overAlg =>
          if negb (bool_decide (alg_ID alg = alg_ID overAlg))
          then (s, Err (ErrNew "can't overlay stage with different digest algorithm than the base"))
          else match Merge (st_State s) (st_State over) true with
               | Ok state =>
                   overlay_loop alg stages
                     (addFixitySource (addContentSource (set_State s state) (st_ContentSource over))
                        (st_FixitySource over))
               | Err err => (set_State s ∅, Err err)
               | Panic => (s, Panic)
               end
      end
  end.

(** [src/stage.go:139-164] Stage.Overlay *)
Definition Overlay (s : Stage) (stages : list Stage) : Stage * res unit :=
  match st_DigestAlgorithm s with
  | None => (s, Err (ErrNew "stage's digest algorithm must be 'sha512' or 'sha256'"))
  | Some al =>
      if negb (bool_decide (alg_ID al = SHA512)) && negb (bool_decide (alg_ID al = SHA256))
      then (s, Err (ErrNew "stage's digest algorithm must be 'sha512' or 'sha256'"))
      else match overlay_loop al stages s with
           | (s, Ok _) => (s, check (DM_Valid (st_State s)))
           | r => r
           end
  end.
End sources.
Arguments Stage FS : clear implicits.
Arguments dirManifest FS : clear implicits.
