(* ===== verification/StageSpec.v ===== *)
(** * What a stage promises ([src/stage.go])

    The binary search of [addPaths] keeps the paths of a digest sorted and without
    repetition; a stage built from files has exactly their paths and finds their
    content; and overlaying stages keeps the invariant that the content of every
    digest of the state can be read. *)
From S2P Require Import Prelude GoStd DigestMap FS Pipeline Digest UpdatePlan Stage.

(** ** Binary search *)

Lemma search_spec fuel i j f :
  i ≤ j → j - i < Z.of_nat fuel →
  (∀ a b, i ≤ a → a ≤ b → b < j → f a = true → f b = true) →
  let k := search fuel i j f in
  i ≤ k ≤ j ∧ (∀ a, i ≤ a < k → f a = false) ∧ (∀ a, k ≤ a < j → f a = true).
Proof.
  revert i j. induction fuel as [|fuel IH]; intros i j Hij Hf Hm; cbn; [lia|].
  destruct (i <? j) eqn:Hlt; bool_to_prop; [|split_and!; [lia..|intros; lia|intros; lia]].
  assert (i ≤ Z.shiftr (i + j) 1 < j) as Hh by (rewrite Z.shiftr_div_pow2 by lia; change (2 ^ 1) with 2; split;
    [apply Z.div_le_lower_bound; lia|apply Z.div_lt_upper_bound; lia]).
  set (h := Z.shiftr (i + j) 1) in *. destruct (f h) eqn:Hfh; cbn [negb].
  - destruct (IH i h) as (Hk & Hlow & Hhigh); [lia|lia|intros a b; intros; eapply Hm; [..|done]; lia|].
    split_and!; [lia|lia|done|]. intros a Ha. destruct (decide (a < h)); [by apply Hhigh; lia|].
    apply (Hm h a); [lia..|done].
  - destruct (IH (h + 1) j) as (Hk & Hlow & Hhigh); [lia|lia|intros a b; intros; eapply Hm; [..|done]; lia|].
    split_and!; [lia|lia| |done]. intros a Ha. destruct (decide (h < a)); [by apply Hlow; lia|].
    destruct (f a) eqn:Hfa; [|done]. rewrite (Hm a h) in Hfh by (done || lia). done.
Qed.

Lemma not_ltb x a : negb (String.ltb a x) = true ↔ String.le x a.
Proof.
  unfold String.ltb, String.le, String.leb. rewrite (String.compare_antisym a x).
  destruct (x ?= a)%string; cbn; unfold Is_true; naive_solver.
Qed.

Definition string_lt (a b : string) : Prop := String.le a b ∧ a ≠ b.
Notation sorted_set := (StronglySorted string_lt).

Lemma string_lt_trans a b c : string_lt a b → string_lt b c → string_lt a c.
Proof.
  intros [H1 Hn1] [H2 Hn2]. split; [by etrans|]. intros ->. apply Hn1. by apply (anti_symm String.le).
Qed.

Lemma sorted_set_lookup l i j a b : sorted_set l → (i < j)%nat → l !! i = Some a → l !! j = Some b → string_lt a b.
Proof.
  intros Hs. revert i j. induction Hs as [|x l Hs IH Hx]; intros i j Hij; [done|].
  destruct j as [|j]; [lia|]. destruct i as [|i]; cbn.
  - intros [= ->] Hb. rewrite Forall_forall in Hx. apply Hx. by eapply list_elem_of_lookup_2.
  - apply IH. lia.
Qed.

Lemma nth_string_lookup l i x : l !! i = Some x → nth_string l (Z.of_nat i) = x.
Proof. intros Hi. unfold nth_string. by rewrite Nat2Z.id, Hi. Qed.

(** Where a string is, or belongs, in a sorted slice. *)
Lemma SearchStrings_spec l x : sorted_set l →
  let i := SearchStrings l x in
  0 ≤ i ≤ Z.of_nat (length l)
  ∧ (∀ y, y ∈ take (Z.to_nat i) l → string_lt y x) ∧ (∀ y, y ∈ drop (Z.to_nat i) l → String.le x y).
Proof.
  intros Hs. unfold SearchStrings.
  destruct (search_spec (S (length l)) 0 (Z.of_nat (length l)) (λ i, negb (String.ltb (nth_string l i) x)))
    as (Hi & Hlow & Hhigh); [lia|lia| |].
  - intros a b Ha Hab Hb. rewrite !not_ltb. intros Hx. etrans; [exact Hx|].
    destruct (decide (a = b)) as [->|Hne]; [done|].
    destruct (lookup_lt_is_Some_2 l (Z.to_nat a)) as [sa Hsa]; [lia|].
    destruct (lookup_lt_is_Some_2 l (Z.to_nat b)) as [sb Hsb]; [lia|].
    unfold nth_string. rewrite Hsa, Hsb. cbn.
    by destruct (sorted_set_lookup l (Z.to_nat a) (Z.to_nat b) sa sb) as [? _]; [done|lia|..].
  - set (i := search _ _ _ _) in *. cbn zeta. split; [done|]. split.
    + intros y [k Hk]%list_elem_of_lookup. apply lookup_take_Some in Hk as [Hk Hlt].
      specialize (Hlow (Z.of_nat k) ltac:(lia)). rewrite (nth_string_lookup _ _ _ Hk) in Hlow.
      assert (¬ String.le x y) as Hn by (rewrite <- not_ltb; by rewrite Hlow).
      destruct (total String.le x y) as [|Hyx]; [done|]. split; [done|]. by intros ->.
    + intros y [k Hk]%list_elem_of_lookup. rewrite lookup_drop in Hk.
      specialize (Hhigh (Z.of_nat (Z.to_nat i + k))). rewrite (nth_string_lookup _ _ _ Hk) in Hhigh.
      apply not_ltb, Hhigh. apply lookup_lt_Some in Hk. lia.
Qed.

(** Adding a path to the paths of a digest is adding it to a sorted set. *)
Lemma addPaths_one e x : sorted_set (dme_paths e) →
  let e' := addPaths e [x] in
  sorted_set (dme_paths e') ∧ (∀ y, y ∈ dme_paths e' ↔ y = x ∨ y ∈ dme_paths e) ∧ dme_fixity e' = dme_fixity e.
Proof.
  intros Hs. cbn [addPaths]. cbn zeta. pose proof (SearchStrings_spec _ x Hs) as (Hi & Hlow & Hhigh).
  set (l := dme_paths e) in *. set (i := SearchStrings l x) in *.
  destruct ((i <? Z.of_nat (length l)) && bool_decide (nth_string l i = x)) eqn:Hc.
  { split_and!; [done| |done]. intros y. split; [tauto|]. intros [-> |]; [|done].
    bool_to_prop. destruct Hc as [Hlt Hx]. unfold nth_string in Hx.
    destruct (lookup_lt_is_Some_2 l (Z.to_nat i)) as [s Hs']; [lia|]. rewrite Hs' in Hx. cbn in Hx. rewrite <- Hx.
    by eapply list_elem_of_lookup_2. }
  cbn [dme_paths dme_fixity]. fold l. unfold insert_at.
  assert (∀ y, y ∈ drop (Z.to_nat i) l → string_lt x y) as Hgt.
  { intros y Hy. split; [by apply Hhigh|]. intros <-.
    apply list_elem_of_lookup in Hy as [k Hk]. rewrite lookup_drop in Hk.
    destruct k as [|k].
    - rewrite Nat.add_0_r in Hk. apply andb_false_iff in Hc as [Hc|Hc].
      + apply lookup_lt_Some in Hk. apply Z.ltb_ge in Hc. lia.
      + apply bool_decide_eq_false in Hc. unfold nth_string in Hc. by rewrite Hk in Hc.
    - assert (is_Some (l !! Z.to_nat i)) as [z Hz] by (apply lookup_lt_is_Some; apply lookup_lt_Some in Hk; lia).
      destruct (sorted_set_lookup l (Z.to_nat i) (Z.to_nat i + S k) z x) as [Hzx Hne]; [done|lia|done..|].
      apply Hne. apply (anti_symm String.le); [done|]. apply Hhigh.
      apply (list_elem_of_lookup_2 _ 0). by rewrite lookup_drop, Nat.add_0_r. }
  pose proof (take_drop (Z.to_nat i) l) as Htd.
  assert (sorted_set (take (Z.to_nat i) l ++ drop (Z.to_nat i) l)) as Hs2 by (by rewrite Htd).
  apply StronglySorted_app in Hs2 as (Hcross & Hs1 & Hs2). split_and!; [| |done].
  - apply StronglySorted_app. split_and!; [|done|].
    + intros y z Hy [-> |Hz]%elem_of_cons; [by apply Hlow|by apply Hcross].
    + constructor; [done|]. by apply Forall_forall.
  - intros y. assert (y ∈ l ↔ y ∈ take (Z.to_nat i) l ∨ y ∈ drop (Z.to_nat i) l) as -> by (by rewrite <- elem_of_app, Htd).
    rewrite elem_of_app, elem_of_cons. tauto.
Qed.

(** ** Stages from files *)

Section stages.
Context `{GoEnv} {W FS : Type} `{!FileSystems W FS}.
Implicit Types (f g : @DFileRef FS) (st : Stage FS).

(** The digest of a file with the stage's algorithm, and its path. *)
Definition primary (alg : Algorithm) f : option string := set_map (dfr_Digests f) !! alg_ID alg.
Definition path_of f : string := fr_Path (dfr_FileRef f).

(** The files of a stage: in one directory of one backend, and digested. *)
Definition uniform (alg : Algorithm) (fsys : FS) (base : string) f : Prop :=
  fr_FS (dfr_FileRef f) = fsys ∧ fr_BaseDir (dfr_FileRef f) = base ∧ is_Some (primary alg f).

(** The entries of the files that were read. *)
Record loop_inv (alg : Algorithm) (fsys : FS) (base : string) (ds : list (@DFileRef FS)) (l : stage_loop) : Prop := {
  li_sorted : ∀ d, sorted_set (dme_paths (entry_of (sl_manifest l) d));
  li_elem : ∀ d p, p ∈ dme_paths (entry_of (sl_manifest l) d) ↔ ∃ f, f ∈ ds ∧ primary alg f = Some d ∧ path_of f = p;
  li_dom : ∀ d, is_Some (sl_manifest l !! d) → ∃ f, f ∈ ds ∧ primary alg f = Some d;
  li_base : ds ≠ [] → sl_baseDir l = base ∧ sl_fsys l = Some fsys;
  li_init : ds = [] → sl_baseDir l = "" ∧ sl_fsys l = None
}.

Lemma addFixity_paths e fx : dme_paths (addFixity e fx) = dme_paths e.
Proof. unfold addFixity. destruct (decide _); [done|]. by destruct (dme_fixity e). Qed.

Lemma entry_of_insert m d e d' : entry_of (<[d := e]> m) d' = if decide (d = d') then e else entry_of m d'.
Proof. unfold entry_of. rewrite lookup_insert. by case_decide. Qed.

Lemma stage_file_step alg fsys base ds l f : loop_inv alg fsys base ds l → uniform alg fsys base f →
  ∃ l', stage_file alg l f = inl l' ∧ loop_inv alg fsys base (ds ++ [f]) l'.
Proof.
  intros [Hs He Hd Hb Hi] (Hfs & Hbase & [d Hprim]). unfold stage_file.
  assert (default (fr_FS (dfr_FileRef f)) (sl_fsys l) = fsys) as ->.
  { destruct ds as [|g ds]; [destruct (Hi eq_refl) as [_ ->]; done|].
    destruct Hb as [_ ->]; done. }
  rewrite Hfs, bool_decide_true by done. cbn [negb]. unfold primary in Hprim. rewrite Hprim.
  assert ((if bool_decide (sl_baseDir l = "") then fr_BaseDir (dfr_FileRef f) else sl_baseDir l) = base) as ->.
  { destruct ds as [|g ds]; [destruct (Hi eq_refl) as [-> _]; by rewrite bool_decide_true|].
    destruct Hb as [-> _]; [done|]. by case_bool_decide. }
  rewrite Hbase, bool_decide_true by done. cbn [negb]. eexists. split; [done|].
  destruct (addPaths_one (entry_of (sl_manifest l) d) (path_of f) (Hs d)) as (Hs' & He' & _).
  split; cbn [sl_manifest sl_baseDir sl_fsys].
  - intros d'. rewrite entry_of_insert. case_decide; [|done]. by rewrite addFixity_paths.
  - intros d' p. rewrite entry_of_insert. setoid_rewrite elem_of_app. case_decide as Hdd.
    + subst d'. rewrite addFixity_paths. fold (path_of f). rewrite He', He. split.
      * intros [-> |(g & Hg & Hrest)]; [exists f; split; [by right; left|done]|exists g; by split; [left|]].
      * intros (g & [Hg|Hg] & Hp & Hpath); [right; by exists g|]. apply list_elem_of_singleton in Hg as ->. by left.
    + rewrite He. split; [intros (g & Hg & Hrest); exists g; by split; [left|]|].
      intros (g & [Hg|Hg] & Hp & Hpath); [by exists g|]. apply list_elem_of_singleton in Hg as ->.
      unfold primary in Hp. congruence.
  - intros d'. rewrite lookup_insert. setoid_rewrite elem_of_app. case_decide as Hdd.
    + intros _. subst. exists f. split; [by right; left|done].
    + intros (g & Hg & Hp)%Hd. exists g. by split; [left|].
  - done.
  - intros Hnil. by destruct ds.
Qed.

Lemma stage_files_spec alg fsys base ds ds' l : loop_inv alg fsys base ds l →
  Forall (uniform alg fsys base) ds' →
  ∃ l', stage_files alg l ds' = inl l' ∧ loop_inv alg fsys base (ds ++ ds') l'.
Proof.
  intros Hinv Hu. revert ds l Hinv. induction Hu as [|f ds' Hf Hu IH]; intros ds l Hinv.
  { exists l. split; [done|]. by rewrite app_nil_r. }
  destruct (stage_file_step _ _ _ _ _ _ Hinv Hf) as (l1 & Hl1 & Hinv1). cbn. rewrite Hl1.
  destruct (IH _ _ Hinv1) as (l2 & Hl2 & Hinv2). exists l2. split; [done|]. by rewrite <- (assoc_L (++)) in Hinv2.
Qed.

Lemma state_lookup (m : gmap string dirManifestEntry) d :
  (foldl (λ (state : DigestMap) '(dig, entry), <[dig := dme_paths entry]> state) ∅ (range 82 m)) !! d
  = dme_paths <$> m !! d.
Proof.
  rewrite (foldl_ext _ (λ state e, <[e.1 := dme_paths e.2]> state)) by (by intros ? []).
  change (foldl _ ∅ (range 82 m)) with (insert_all fst (λ e, dme_paths e.2) ∅ (range 82 m)).
  assert (NoDup (range 82 m).*1) as Hnd by (rewrite range_perm; apply NoDup_fst_map_to_list).
  apply option_eq. intros ps. rewrite insert_all_lookup by done. setoid_rewrite range_perm. split.
  - intros ([k e] & Hin & -> & ->). apply elem_of_map_to_list in Hin. cbn. by rewrite Hin.
  - intros (e & He & ->)%fmap_Some. exists (d, e). split; [by apply elem_of_map_to_list|done].
Qed.

(** C20. A stage built from the files of one directory, digested with the stage's
    algorithm, exists; its state gives each digest the sorted paths of the files
    that have it, each once, and its source finds the content of each digest in
    one of these files. *)
Theorem newStage_spec alg fsys base digests :
  Forall (uniform alg fsys base) digests →
  ∃ st, newStage digests alg = inl st
    ∧ (∀ p d, contains (st_State st) p d ↔ ∃ f, f ∈ digests ∧ primary alg f = Some d ∧ path_of f = p)
    ∧ (∀ d ps, st_State st !! d = Some ps → ps ≠ [] ∧ sorted_set ps)
    ∧ (∀ d, is_Some (st_State st !! d) → ∃ g src, g ∈ digests ∧ primary alg g = Some d
         ∧ content_source (st_ContentSource st) = Some src ∧ src d = Some (fsys, FullPath (dfr_FileRef g))).
Proof.
  intros Hu. destruct (stage_files_spec alg fsys base [] digests (mkLoop ∅ "" None)) as (l & Hl & [Hs He Hd Hb _]);
    [|done|].
  { split; cbn; try done.
    - constructor.
    - intros d p. split; [by intros ?%elem_of_nil|]. by intros (f & ?%elem_of_nil & _).
    - by intros d [].  }
  rewrite app_nil_l in Hd, He. cbn [app] in Hb. unfold newStage. rewrite Hl. eexists. split; [done|]. cbn [st_State st_ContentSource content_source].
  assert (∀ d, is_Some (sl_manifest l !! d) → dme_paths (entry_of (sl_manifest l) d) ≠ []) as Hne.
  { intros d (f & Hf & Hp)%Hd. intros Hnil. assert (path_of f ∈ dme_paths (entry_of (sl_manifest l) d)) as Hin
      by (apply He; eauto). rewrite Hnil in Hin. by apply elem_of_nil in Hin. }
  split_and!.
  - intros p d. rewrite <- He. unfold contains, paths_of, entry_of. rewrite state_lookup.
    by destruct (sl_manifest l !! d).
  - intros d ps. rewrite state_lookup. intros (e & Hm & ->)%fmap_Some.
    specialize (Hne d (ltac:(by eexists))). specialize (Hs d). unfold entry_of in Hne, Hs. by rewrite Hm in Hne, Hs.
  - intros d. rewrite state_lookup. intros Hd'%fmap_is_Some. specialize (Hne d Hd').
    destruct (dme_paths (entry_of (sl_manifest l) d)) as [|p ps] eqn:Hps; [done|].
    assert (p ∈ dme_paths (entry_of (sl_manifest l) d)) as Hp by (rewrite Hps; left).
    apply He in Hp as (g & Hg & Hgd & <-). rewrite Forall_forall in Hu. destruct (Hu g Hg) as (Hfs & Hbase & _).
    exists g. eexists. split; [done|]. split; [done|]. split; [done|].
    destruct Hb as [Hbl Hfl]; [by intros Hnil; rewrite Hnil in Hg; apply elem_of_nil in Hg|].
    unfold dirManifest_GetContent. cbn [dm_fs dm_manifest dm_baseDir]. rewrite Hfl, Hps, Hbl.
    unfold FullPath. by rewrite Hbase.
Qed.

(** ** Overlays *)

(** The single sources of a source. *)
Definition sources_of {A} (s : source A) : list A :=
  match s with SrcNil => [] | SrcList l => l | SrcOne a => [a] end.

Lemma sources_of_addSource {A} (s1 s2 : source A) : sources_of (addSource s1 s2) = sources_of s1 ++ sources_of s2.
Proof. done. Qed.

(** The content of every digest of the state, spelled as [Merge] does, is found;
    no source gives the empty path. *)
Definition gives_paths (src : source (ContentSource FS)) : Prop :=
  ∀ (s : ContentSource FS) d (fsys : FS) p, s ∈ sources_of src → s d = Some (fsys, p) → p ≠ "".
Definition provides (src : source (ContentSource FS)) (d : string) : Prop :=
  ∃ s : ContentSource FS, s ∈ sources_of src ∧ is_Some (s d).
Definition complete st : Prop :=
  gives_paths (st_ContentSource st)
  ∧ ∀ d, is_Some (st_State st !! d) → provides (st_ContentSource st) (normalizeDigest d).

Lemma provides_HasContent st d : gives_paths (st_ContentSource st) → provides (st_ContentSource st) d →
  HasContent st d = true.
Proof.
  unfold HasContent, gives_paths, provides. intros Hg (s & Hs & [[f p] Hsd]).
  destruct (st_ContentSource st) as [|l|s']; cbn in *.
  - by apply elem_of_nil in Hs.
  - unfold contentSources_GetContent.
    match goal with |- context [find_some ?h l] => destruct (find_some h l) as [[f' p']|] eqn:Hf end.
    + apply find_some_Some in Hf as (s' & Hs' & Hd). apply negb_true_iff, bool_decide_eq_false. by eapply Hg.
    + apply find_some_None in Hf. rewrite Forall_forall in Hf. specialize (Hf s Hs). cbn in Hf. congruence.
  - apply list_elem_of_singleton in Hs as ->. rewrite Hsd. apply negb_true_iff, bool_decide_eq_false.
    eapply Hg; [|done]. left.
Qed.

(** Lookups in a map built by insertions come from the list. *)
Lemma insert_all_inv {A V} (f : A → string) (g : A → V) (m : gmap string V) l k v :
  insert_all f g m l !! k = Some v → m !! k = Some v ∨ ∃ x, x ∈ l ∧ k = f x ∧ v = g x.
Proof.
  revert m. induction l as [|x l IH]; intros m; [by left|]. intros [Hm|(y & Hy & Hrest)]%IH.
  - apply lookup_insert_Some in Hm as [[<- <-]|[_ Hm]]; [|by left]. right. exists x. split; [left|done].
  - right. exists y. split; [by right|done].
Qed.

Lemma Normalize_keys m n d : Normalize m = Ok n → is_Some (n !! d) → ∃ d0, is_Some (m !! d0) ∧ d = normalizeDigest d0.
Proof.
  unfold Normalize. destruct (DM_Valid m); [done|]. intros [= <-] [ps Hps].
  rewrite (foldl_ext _ (λ norm e, <[normalizeDigest e.1 := sort_strings e.2]> norm)) in Hps by (by intros ? []).
  change (foldl _ ∅ (range 7 m)) with
    (insert_all (λ e : string * list string, normalizeDigest e.1) (λ e, sort_strings e.2) ∅ (range 7 m)) in Hps.
  apply insert_all_inv in Hps as [Hps|([d0 ps0] & Hin & -> & _)]; [by rewrite lookup_empty in Hps|].
  rewrite range_perm in Hin. apply elem_of_map_to_list in Hin. by exists d0.
Qed.

Lemma DM_PathMap_inv m p d : DM_PathMap m !! p = Some d → is_Some (m !! d).
Proof.
  unfold DM_PathMap. rewrite (foldl_ext _ (λ pm x, <[x.1 := x.2]> pm)) by (by intros ? []).
  change (foldl _ ∅ (Paths m)) with (insert_all fst snd ∅ (Paths m)).
  intros [Hp|([p' d'] & Hin & -> & ->)]%insert_all_inv; [by rewrite lookup_empty in Hp|].
  apply Paths_elem, contains_lookup in Hin as (ps & Hps & _). by eexists.
Qed.

(** The digests of a merged state are normalised digests of the two states. *)
Lemma Merge_keys m1 m2 replace m d : Merge m1 m2 replace = Ok m → is_Some (m !! d) →
  ∃ d0, (is_Some (m1 !! d0) ∨ is_Some (m2 !! d0)) ∧ d = normalizeDigest d0.
Proof.
  intros Hm [ps Hps]. destruct (Normalize m1) as [n1| |] eqn:H1; [|by unfold Merge in Hm; rewrite H1 in Hm..].
  destruct (Normalize m2) as [n2| |] eqn:H2; [|by unfold Merge in Hm; rewrite H1 in Hm; cbn in Hm; rewrite H2 in Hm..].
  apply (Merge_merged_map _ _ _ _ _ _ H1 H2) in Hm as [Hm _].
  destruct (merged_map_spec _ _ _ _ Hm) as (Hc & Hne & _).
  destruct ps as [|p ps]; [by destruct (Hne d)|].
  assert (contains m p d) as Hcd by (apply contains_lookup; eexists; split; [done|left]).
  apply Hc in Hcd. apply lookup_union_Some_raw in Hcd as [Hd|[_ Hd]]; apply DM_PathMap_inv in Hd.
  - destruct (Normalize_keys _ _ _ H2 Hd) as (d0 & ? & ->). eauto.
  - destruct (Normalize_keys _ _ _ H1 Hd) as (d0 & ? & ->). eauto.
Qed.

Lemma normalizeDigest_idem d : normalizeDigest (normalizeDigest d) = normalizeDigest d.
Proof. apply ToLower_idem. Qed.

Lemma complete_merge st over m : complete st → complete over →
  Merge (st_State st) (st_State over) true = Ok m →
  complete (addFixitySource (addContentSource (set_State st m) (st_ContentSource over)) (st_FixitySource over)).
Proof.
  intros [Hg1 Hc1] [Hg2 Hc2] Hm. split; cbn [st_ContentSource addFixitySource addContentSource set_State].
  - intros s d fsys p. rewrite sources_of_addSource, elem_of_app. intros [Hs|Hs]; [by apply (Hg1 s d fsys)|by apply (Hg2 s d fsys)].
  - cbn [st_State addFixitySource addContentSource set_State]. intros d Hd.
    destruct (Merge_keys _ _ _ _ _ Hm Hd) as (d0 & Hd0 & ->). rewrite normalizeDigest_idem. unfold provides.
    rewrite sources_of_addSource. setoid_rewrite elem_of_app.
    destruct Hd0 as [(s & Hs & Hsd)%Hc1|(s & Hs & Hsd)%Hc2]; exists s; tauto.
Qed.

(** Digests in the spelling of [Normalize]. *)
Definition normal_state st : Prop := ∀ d, is_Some (st_State st !! d) → normalizeDigest d = d.

Lemma overlay_loop_complete alg stages st st' : complete st → Forall complete stages →
  overlay_loop alg stages st = (st', Ok ()) →
  complete st' ∧ (normal_state st ∨ stages ≠ [] → normal_state st').
Proof.
  intros Hst Hall. revert st Hst. induction Hall as [|over stages Hover Hall IH]; intros st Hst; cbn.
  { intros [= <-]. split; [done|]. by intros [?|?]. }
  destruct (st_DigestAlgorithm over) as [overAlg|]; [|done].
  destruct (negb _); [done|]. destruct (Merge _ _ _) as [m| |] eqn:Hm; [|done..]. intros Hl.
  destruct (IH _ (complete_merge _ _ _ Hst Hover Hm) Hl) as [Hc Hn]. split; [done|]. intros _. apply Hn. left.
  intros d Hd. destruct (Merge_keys _ _ _ _ _ Hm Hd) as (d0 & _ & ->). apply normalizeDigest_idem.
Qed.

(** C12. Overlaying keeps the invariant of stages ([complete]): no source gives the
    empty path, and the content of every digest of the state is found under the
    lower-case spelling of the digest.  If it holds of the stage and of each of the
    stages laid over it, and [Overlay] succeeds, then it holds of the result, whose
    state is valid; after at least one overlay the digests of the state are in lower
    case, and [HasContent] finds the content of each.  A stage whose source knows a
    digest only in capital letters is not [complete], and loses the content
    ([Overlay_spelling]). *)
Theorem Overlay_invariant st stages st' :
  complete st → Forall complete stages → Overlay st stages = (st', Ok ()) →
  complete st' ∧ DM_Valid (st_State st') = None
  ∧ (stages ≠ [] → ∀ d, is_Some (st_State st' !! d) → HasContent st' d = true).
Proof.
  intros Hst Hall. unfold Overlay. destruct (st_DigestAlgorithm st) as [al|]; [|done].
  destruct (_ && _); [done|]. destruct (overlay_loop al stages st) as [s1 [[]| |]] eqn:Hl; [|done..].
  intros [= <- Hv]. apply check_Ok in Hv.
  destruct (overlay_loop_complete _ _ _ _ Hst Hall Hl) as [Hc Hn]. split_and!; [done..|].
  intros Hne d Hd. destruct Hc as [Hg Hp]. apply provides_HasContent; [done|].
  rewrite <- (Hn (or_intror Hne) d Hd). by apply Hp.
Qed.
End stages.

(** ** Concrete instances *)

#[local] Existing Instances ref_env ref_hashes mem_fs.

Definition ex_file (base path dig : string) : @DFileRef unit :=
  mkDFileRef (mkFileRef () base path None) (Some {["sha256" := dig]}) None.
Definition ex_alg : Algorithm := builtin_alg SHA256.

Lemma newStage_spec_witness :
  let digests := [ex_file "d" "b" "aa"; ex_file "d" "a" "aa"; ex_file "d" "c" "bb"] in
  ∃ st, newStage (W:=gmap string string) digests ex_alg = inl st
    ∧ st_State st !! "aa" = Some ["a"; "b"]
    ∧ ∀ d, is_Some (st_State st !! d) → ∃ g src, g ∈ digests ∧ primary ex_alg g = Some d
         ∧ content_source (st_ContentSource st) = Some src ∧ src d = Some ((), FullPath (dfr_FileRef g)).
Proof.
  intros digests.
  destruct (newStage_spec (W:=gmap string string) ex_alg () "d" digests) as (st & Hst & Hc & Hs & Hsrc).
  { repeat constructor; by vm_compute; eexists. }
  exists st. split; [done|]. split; [|done]. vm_compute in Hst. injection Hst as <-. by vm_compute.
Defined.

Definition ex_stage : Stage unit :=
  mkStage {["aa" := ["a"]]} (Some ex_alg) (SrcOne (λ d, if bool_decide (d = "aa") then Some ((), "x/a") else None)) SrcNil.
Definition ex_over : Stage unit :=
  mkStage {["BB" := ["b"]]} (Some ex_alg) (SrcOne (λ d, if bool_decide (d = "bb") then Some ((), "y/b") else None)) SrcNil.

Lemma Overlay_invariant_witness :
  complete (Overlay ex_stage [ex_over]).1 ∧ is_ok (Overlay ex_stage [ex_over]).2 = true
  ∧ HasContent (Overlay ex_stage [ex_over]).1 "bb" = true.
Proof.
  assert (complete ex_stage ∧ complete ex_over) as [Hs Ho].
  { split; (split; [intros s d f p ->%list_elem_of_singleton; by case_bool_decide; intros; simplify_eq|]);
      cbn [st_State ex_stage ex_over]; intros d [ps Hps]; apply lookup_singleton_Some in Hps as [<- _]; eexists; (split; [left|]); vm_compute; by eexists. }
  destruct (Overlay_invariant ex_stage [ex_over] (Overlay ex_stage [ex_over]).1 Hs) as (Hc & _ & Hh);
    [by constructor|by vm_compute|].
  split; [done|]. split; [by vm_compute|]. apply Hh; [done|]. vm_compute. by eexists.
Defined.

(** [Overlay] spells the digests of the state in lower case and keeps the sources:
    content that a source knows under "BB" only is not found any more. *)
Lemma Overlay_spelling :
  let st : Stage unit :=
    mkStage {["BB" := ["b"]]} (Some ex_alg) (SrcOne (λ d, if bool_decide (d = "BB") then Some ((), "y/b") else None)) SrcNil in
  HasContent st "BB" = true
  ∧ match Overlay st [ex_stage] with
    | (st', Ok ()) => is_Some (st_State st' !! "bb") ∧ HasContent st' "bb" = false
    | _ => False
    end.
Proof. split; vm_compute; [reflexivity|]. split; [by eexists|reflexivity]. Qed.

(** The files of a stage may come from two base directories if the first one is
    empty; the content of the first file is then looked for in the wrong
    place. *)
Lemma newStage_base_mismatch :
  match newStage (W:=gmap string string) [ex_file "" "a" "aa"; ex_file "x" "b" "bb"] ex_alg with
  | inl st => match content_source (st_ContentSource st) with
              | Some src => src "aa" = Some ((), "x/a")
              | None => False
              end
  | inr _ => False
  end.
Proof. by vm_compute. Qed.
