(* ===== verification/LogicalFS.v ===== *)
(** * The logical view of a version ([src/internal/logical-fs/fs.go])

    A file system whose files are logical names that refer to files of a backend,
    and whose directories are read off the names.  An open directory keeps the
    offset of [ReadDir]. *)
From S2P Require Import Prelude GoStd FS.

(** [src/internal/logical-fs/fs.go:187-192] logicalDirEntry: [open] is the path
    that the closure opens *)
Record logicalDirEntry := mkLogicalDirEntry {
  lde_name : string;
  lde_created : Z;
  lde_mode : Z;
  lde_open : string
}.

(** [src/internal/logical-fs/fs.go:126-135] logicalFile *)
Record logicalFile := mkLogicalFile {
  lf_File : option File;
  lf_name : string;
  lf_created : Z;
  lf_mode : Z;
  lf_size : Z;
  lf_entries : list logicalDirEntry;
  lf_offset : Z
}.

(** [src/internal/logical-fs/fs.go:31-40] LogicalFS *)
Record LogicalFS (FS : Type) := mkLogicalFS {
  lfs_fs : FS;
  lfs_refs : gmap string string;
  lfs_created : Z
}.
Arguments mkLogicalFS {FS} lfs_fs lfs_refs lfs_created.
Arguments lfs_fs {FS} l.
Arguments lfs_refs {FS} l.
Arguments lfs_created {FS} l.

Definition mode_file : Z := 292.                 (* 0444 *)
Definition mode_dir : Z := Z.lor ModeDir 365.    (* fs.ModeDir | 0555 *)

(** [src/internal/logical-fs/fs.go:18-29] NewLogicalFS *)
Definition NewLogicalFS {FS : Type} (fsys : FS) (refs : gmap string string) (created : Z) : LogicalFS FS :=
  mkLogicalFS fsys refs created.

Definition lde_by_name (a b : logicalDirEntry) : bool := String.ltb (lde_name a) (lde_name b).

Section logical.
Context `{GoEnv} {W FS : Type} `{!FileSystems W FS}.
Implicit Types (fsys : LogicalFS FS) (w : W).

(** One name of the loop of [openDir]. *)
Definition add_child fsys (dir prefix : string) (children : gmap string logicalDirEntry) (p : string)
    : gmap string logicalDirEntry :=
  match CutPrefix p prefix with
  | None => children
  | Some rest =>
      let '(childName, _, childIsDir) := Cut rest "/" in
      match children !! childName with
      | Some _ => children
      | None =>
          <[childName := mkLogicalDirEntry childName (lfs_created fsys)
              (if childIsDir then mode_dir else mode_file) (Join [dir; childName])]> children
      end
  end.

(** [src/internal/logical-fs/fs.go:79-124] LogicalFS.openDir *)
Definition openDir fsys (dir : string) : result logicalFile :=
  let prefix := if bool_decide (dir +:+ "/" = "./") then "" else dir +:+ "/" in
  let children := foldl (add_child fsys dir prefix) ∅ (range 90 (lfs_refs fsys)).*1 in
  if negb (bool_decide (dir = ".")) && bool_decide (size children < 1)%nat
  then inr (PathError "open" dir (ErrVar fs_ErrNotExist))
  else inl (mkLogicalFile None (Base dir) (lfs_created fsys) mode_dir 0
              (sort_slice lde_by_name (range 91 children).*2) 0).

(** [src/internal/logical-fs/fs.go:58-77] LogicalFS.openFile *)
Definition openFile fsys (name : string) w : result logicalFile :=
  let realName := default "" (lfs_refs fsys !! name) in
  if bool_decide (realName = "") then openDir fsys name
  else match OpenFile (lfs_fs fsys) realName w with
       | inr err => inr (ErrWrap "opening file with logical path" err)
       | inl f => inl (mkLogicalFile (Some f) (Base name) (lfs_created fsys) mode_file 0 [] 0)
       end.

(** [src/internal/logical-fs/fs.go:44-56] LogicalFS.Open *)
Definition Open fsys (name : string) w : result logicalFile :=
  if negb (ValidPath name) then inr (PathError "open" name (ErrVar fs_ErrInvalid))
  else if bool_decide (name = ".") then openDir fsys "."
  else openFile fsys name w.

(** [src/internal/logical-fs/fs.go:141-146] logicalFile.Close *)
Definition lf_Close (dir : logicalFile) : option error :=
  match lf_File dir with Some f => f_Close f | None => None end.

(** [src/internal/logical-fs/fs.go:147-147] logicalFile.IsDir *)
Definition lf_IsDir (f : logicalFile) : bool := Mode_IsDir (lf_mode f).

(** [src/internal/logical-fs/fs.go:151-156] logicalFile.Read: what reading yields *)
Definition lf_reader (f : logicalFile) : reader :=
  match lf_File f with
  | None => mkReader "" (Some (PathError "read" "" (ErrNew "is a directory")))
  | Some f => f_reader f
  end.

Definition set_offset (f : logicalFile) (o : Z) : logicalFile :=
  mkLogicalFile (lf_File f) (lf_name f) (lf_created f) (lf_mode f) (lf_size f) (lf_entries f) o.

(** [src/internal/logical-fs/fs.go:158-173] logicalFile.ReadDir *)
Definition lf_ReadDir (f : logicalFile) (n : Z) : logicalFile * list logicalDirEntry * option error :=
  let len := Z.of_nat (length (lf_entries f)) in
  if n <=? 0 then (set_offset f len, drop (Z.to_nat (lf_offset f)) (lf_entries f), None)
  else
    let remain := len - lf_offset f in
    let n := if remain <? n then remain else n in
    if n <=? 0 then (f, [], Some (ErrVar io_EOF))
    else (set_offset f (lf_offset f + n),
          take (Z.to_nat n) (drop (Z.to_nat (lf_offset f)) (lf_entries f)), None).

(** [src/internal/logical-fs/fs.go:175-184] logicalFile.Stat: the file is its own
    [FileInfo] *)
Definition lf_Stat (f : logicalFile) : logicalFile * result FileInfo :=
  let info f := inl (mkFileInfo (lf_name f) (lf_size f) (lf_mode f) (lf_created f)) in
  match lf_File f with
  | None => (f, info f)
  | Some file =>
      match f_Stat file with
      | inr err => (f, inr err)
      | inl i =>
          let f := mkLogicalFile (lf_File f) (lf_name f) (lf_created f) (lf_mode f) (fi_Size i) (lf_entries f) (lf_offset f) in
          (f, info f)
      end
  end.

(** [src/internal/logical-fs/fs.go:196-198] logicalDirEntry.IsDir, logicalDirEntry.Type *)
Definition lde_IsDir (e : logicalDirEntry) : bool := Mode_IsDir (lde_mode e).

(** [src/internal/logical-fs/fs.go:200-207] logicalDirEntry.Info: the file is
    closed after [Stat] *)
Definition lde_Info fsys (e : logicalDirEntry) w : option FileInfo * option error :=
  match Open fsys (lde_open e) w with
  | inr err => (None, Some err)
  | inl f =>
      let '(f, stat) := lf_Stat f in
      match stat with
      | inl i => (Some i, join_close None (lf_Close f))
      | inr err => (None, join_close (Some err) (lf_Close f))
      end
  end.

(** ** What the view shows *)

(** The names of a version: paths to files, none of which is a directory of
    another. *)
Definition refs_ok (refs : gmap string string) : Prop :=
  (∀ p r, refs !! p = Some r → plain_path p ∧ r ≠ "")
  ∧ (∀ p q r, is_Some (refs !! p) → q = p +:+ "/" +:+ r → refs !! q = None).

(** What is at a path of the view. *)
Definition is_file fsys (p : string) : Prop := is_Some (lfs_refs fsys !! p).
Definition is_dir fsys (p : string) : Prop :=
  p = "." ∨ ∃ r, is_Some (lfs_refs fsys !! (p +:+ "/" +:+ r)).

(** The entry of a name. *)
Definition entry_at fsys (dir n : string) (d : bool) : logicalDirEntry :=
  mkLogicalDirEntry n (lfs_created fsys) (if d then mode_dir else mode_file) (Join [dir; n]).

Lemma Cut_spec s : let '(a, b, d) := Cut s "/" in
  no_slash a ∧ s = (if d : bool then a +:+ "/" +:+ b else a) ∧ (d = false → b = "").
Proof.
  induction s as [|c s IH]; [done|]. cbn [Cut]. destruct (ascii_dec c "/") as [->|Hc]; [done|].
  destruct (Cut s "/") as [[a b] d]. destruct IH as (Ha & -> & Hb). split_and!; [|by destruct d|done].
  unfold no_slash in *. cbn. by destruct (ascii_dec c slash).
Qed.

Lemma Cut_slash a b : no_slash a → Cut (a +:+ "/" +:+ b) "/" = (a, b, true).
Proof.
  unfold no_slash. induction a as [|c a IH]; [done|]. cbn. destruct (ascii_dec c slash) as [->|Hc]; [done|].
  intros Ha. cbn in IH. rewrite IH by done. by destruct (ascii_dec c "/").
Qed.

Lemma Cut_no_slash a : no_slash a → Cut a "/" = (a, "", false).
Proof.
  unfold no_slash. induction a as [|c a IH]; [done|]. cbn. destruct (ascii_dec c slash) as [->|Hc]; [done|].
  intros Ha. rewrite IH by done. by destruct (ascii_dec c "/").
Qed.

(** The loop of [openDir]: the first name of each child makes its entry. *)
Lemma children_inv fsys dir prefix l c n e :
  foldl (add_child fsys dir prefix) c l !! n = Some e →
  c !! n = Some e ∨ ∃ p rest b d, p ∈ l ∧ CutPrefix p prefix = Some rest ∧ Cut rest "/" = (n, b, d)
    ∧ e = entry_at fsys dir n d.
Proof.
  revert c. induction l as [|p l IH]; intros c; [by left|]. intros [Hc|(p' & rest & b & d & Hp & Hrest)]%IH.
  - unfold add_child in Hc. destruct (CutPrefix p prefix) as [rest|] eqn:Hp; [|by left].
    destruct (Cut rest "/") as [[m b] d] eqn:Hcut. destruct (c !! m) eqn:Hm; [by left|].
    apply lookup_insert_Some in Hc as [[-> <-]|[_ Hc]]; [|by left]. right. exists p, rest, b, d.
    split; [left|]. done.
  - right. exists p', rest, b, d. split; [by right|done].
Qed.

Lemma children_complete fsys dir prefix l c p rest n b d :
  p ∈ l ∨ is_Some (c !! n) → CutPrefix p prefix = Some rest → Cut rest "/" = (n, b, d) →
  is_Some (foldl (add_child fsys dir prefix) c l !! n).
Proof.
  intros Hin Hp Hcut. revert c Hin. induction l as [|q l IH]; intros c Hin.
  { destruct Hin as [Hin|Hin]; [by apply elem_of_nil in Hin|done]. }
  apply IH. destruct Hin as [[<- |Hin]%elem_of_cons|Hin]; [right|by left|right].
  - unfold add_child. rewrite Hp, Hcut. destruct (c !! n) eqn:Hn; [by eexists|].
    rewrite lookup_insert_eq. by eexists.
  - unfold add_child. destruct (CutPrefix q prefix) as [s|]; [|done]. destruct (Cut s "/") as [[m ?] ?].
    destruct (c !! m); [done|]. rewrite lookup_insert. case_decide; [by eexists|done].
Qed.

Section view.
Context fsys (ok : refs_ok (lfs_refs fsys)) (dir : string) (dir_ok : ValidPath dir = true).

Definition dir_prefix : string := if bool_decide (dir +:+ "/" = "./") then "" else dir +:+ "/".

Lemma prefix_Join n : plain_path n → dir_prefix +:+ n = Join [dir; n].
Proof.
  intros Hn. rewrite Join_dir by done. unfold dir_prefix.
  destruct (decide (dir = ".")) as [->|Hd]; [done|].
  rewrite (bool_decide_false (dir = ".")) by done. rewrite bool_decide_false; [by rewrite string_app_assoc|].
  destruct dir as [|c [|c' s]]; cbn; [done| |].
  - intros [= ->]. done.
  - intros [= -> -> Hs]. by destruct s.
Qed.

(** The names below the directory. *)
Lemma ref_below p rest n b d : is_Some (lfs_refs fsys !! p) → CutPrefix p dir_prefix = Some rest →
  Cut rest "/" = (n, b, d) →
  no_slash n ∧ plain_elem n
  ∧ (if d then p = Join [dir; n] +:+ "/" +:+ b else p = Join [dir; n]).
Proof.
  intros [r Hr] Hp Hcut. destruct ok as [Hplain _]. destruct (Hplain _ _ Hr) as [Hpl _].
  apply CutPrefix_Some in Hp as ->. pose proof (Cut_spec rest) as Hs. rewrite Hcut in Hs.
  destruct Hs as (Hn & Hrest & _).
  assert (plain_path rest) as Hpr.
  { unfold dir_prefix in Hpl. case_bool_decide; [done|]. unfold plain_path in *.
    replace ((dir +:+ "/") +:+ rest) with (dir +:+ String slash rest) in Hpl by (by rewrite <- string_app_assoc).
    rewrite split_on_app_any in Hpl. by apply Forall_app in Hpl as [_ ?]. }
  assert (plain_elem n) as Hpn.
  { subst rest. unfold plain_path in Hpr. destruct d.
    - change (n +:+ "/" +:+ b) with (n +:+ String slash b) in Hpr. rewrite split_on_app in Hpr by done.
      by inversion_clear Hpr.
    - rewrite split_on_no_sep in Hpr by done. by inversion_clear Hpr. }
  split; [done|]. split; [done|]. rewrite <- prefix_Join by (by apply plain_path_elem).
  destruct d; subst rest; [by rewrite string_app_assoc|done].
Qed.

Definition children : gmap string logicalDirEntry :=
  foldl (add_child fsys dir dir_prefix) ∅ (range 90 (lfs_refs fsys)).*1.

Lemma refs_elem p : p ∈ (range 90 (lfs_refs fsys)).*1 ↔ is_Some (lfs_refs fsys !! p).
Proof.
  rewrite range_perm. rewrite list_elem_of_fmap. split.
  - intros ([p' r] & -> & Hin). apply elem_of_map_to_list in Hin. by eexists.
  - intros [r Hr]. exists (p, r). split; [done|]. by apply elem_of_map_to_list.
Qed.

(** The children are the files and the directories below, each once. *)
Lemma children_spec n e : children !! n = Some e ↔
  no_slash n ∧ plain_elem n ∧ ∃ d : bool, e = entry_at fsys dir n d
    ∧ (if d then is_dir fsys (Join [dir; n]) else is_file fsys (Join [dir; n])).
Proof.
  assert (∀ e, children !! n = Some e → no_slash n ∧ plain_elem n ∧ ∃ d : bool, e = entry_at fsys dir n d
    ∧ (if d then is_dir fsys (Join [dir; n]) else is_file fsys (Join [dir; n]))) as Hfwd.
  { intros e0 [He|(p & rest & b & d & Hp & Hpre & Hcut & ->)]%children_inv; [by rewrite lookup_empty in He|].
    apply refs_elem in Hp. destruct (ref_below _ _ _ _ _ Hp Hpre Hcut) as (Hn & Hpn & Hpath).
    split_and!; [done..|]. exists d. split; [done|]. destruct d; subst p; [|done]. right. by exists b. }
  split; [apply Hfwd|]. intros (Hn & Hpn & d & -> & Hd).
  assert (plain_path n) as Hpl by (by apply plain_path_elem).
  assert (∃ p rest b, is_Some (lfs_refs fsys !! p) ∧ CutPrefix p dir_prefix = Some rest ∧ Cut rest "/" = (n, b, d))
    as (p & rest & b & Hp & Hpre & Hcut).
  { rewrite <- prefix_Join in Hd by done. destruct d.
    - destruct Hd as [Hdot|[r Hr]].
      + exfalso. rewrite prefix_Join in Hdot by done. apply plain_elem_spec in Hpn as (_ & Hnd & _).
        rewrite Join_dir in Hdot by done. case_bool_decide; [done|].
        apply (f_equal String.length) in Hdot. rewrite !string_length_app in Hdot. cbn in Hdot.
        destruct dir; [done|]. cbn in Hdot. lia.
      + exists ((dir_prefix +:+ n) +:+ "/" +:+ r), (n +:+ "/" +:+ r), r. split; [done|].
        rewrite <- string_app_assoc, CutPrefix_app. split; [done|]. by apply Cut_slash.
    - exists (dir_prefix +:+ n), n, "". split; [done|]. rewrite CutPrefix_app. split; [done|]. by apply Cut_no_slash. }
  destruct (children_complete fsys dir dir_prefix (range 90 (lfs_refs fsys)).*1 ∅ p rest n b d) as [e He];
    [left; by apply refs_elem|done|done|]. change (children !! n = Some e) in He.
  destruct (Hfwd e He) as (_ & _ & d' & -> & Hd'). rewrite He. do 2 f_equal.
  destruct d, d'; try done; exfalso.
  - destruct Hd as [Hdot|[r Hr]].
    + destruct Hd' as [x Hx]. destruct ok as [Hok _]. rewrite Hdot in Hx. destruct (Hok _ _ Hx) as [Hbad _].
      inversion_clear Hbad. done.
    + destruct ok as [_ Hok]. rewrite (Hok _ _ r Hd' eq_refl) in Hr. by destruct Hr.
  - destruct Hd' as [Hdot|[r Hr]].
    + destruct Hd as [x Hx]. destruct ok as [Hok _]. rewrite Hdot in Hx. destruct (Hok _ _ Hx) as [Hbad _].
      inversion_clear Hbad. done.
    + destruct ok as [_ Hok]. rewrite (Hok _ _ r Hd eq_refl) in Hr. by destruct Hr.
Qed.

Lemma children_nonempty : dir ≠ "." → children ≠ ∅ ↔ is_dir fsys dir.
Proof.
  intros Hdot.
  assert (dir_prefix = dir +:+ "/") as Hpre.
  { unfold dir_prefix. rewrite bool_decide_false; [done|]. intros Heq. apply Hdot.
    destruct dir as [|c [|c' s]]; [done| |]; cbn in Heq; injection Heq; [by intros ->|]. by intros Hs ->; destruct s. }
  split.
  - intros Hne. apply map_choose in Hne as (n & e & He). apply children_spec in He as (Hn & Hpn & d & _ & Hd).
    right. assert (plain_path n) as Hpl by (by apply plain_path_elem).
    rewrite <- prefix_Join, Hpre in Hd by done. destruct d.
    + destruct Hd as [Hd|[r Hr]].
      * exfalso. destruct dir as [|c [|c' s]]; [done|..]; by destruct n.
      * exists (n +:+ "/" +:+ r). by rewrite <- !string_app_assoc in Hr.
    + exists n. by rewrite <- string_app_assoc in Hd.
  - intros [->|[r Hr]]; [done|].
    destruct (Cut r "/") as [[n b] d] eqn:Hcut. intros He.
    destruct (children_complete fsys dir dir_prefix (range 90 (lfs_refs fsys)).*1 ∅ (dir +:+ "/" +:+ r) r n b d)
      as [e Hc]; [left; by apply refs_elem|by rewrite Hpre, string_app_assoc, CutPrefix_app|done|].
    change (children !! n = Some e) in Hc. by rewrite He in Hc.
Qed.
End view.

Lemma ltb_le a b : String.ltb b a = false ↔ String.le a b.
Proof.
  unfold String.ltb, String.le, String.leb. rewrite (String.compare_antisym b a).
  destruct (a ?= b)%string; cbn; unfold Is_true; naive_solver.
Qed.

Lemma lde_by_name_order : weak_order lde_by_name.
Proof.
  unfold lde_by_name. split.
  - intros x. by apply ltb_le.
  - intros x y z Hxy Hyz. apply not_false_iff_true. intros Hxz%ltb_le.
    assert (String.le (lde_name x) (lde_name y)) as H1.
    { destruct (total String.le (lde_name x) (lde_name y)) as [|H1%ltb_le]; [done|congruence]. }
    assert (String.le (lde_name y) (lde_name z)) as H2.
    { destruct (total String.le (lde_name y) (lde_name z)) as [|H2%ltb_le]; [done|congruence]. }
    assert (lde_name x = lde_name y) as Heq.
    { apply (anti_symm String.le); [done|]. by etrans. }
    rewrite Heq in Hxy. assert (String.ltb (lde_name y) (lde_name y) = false) by (by apply ltb_le). congruence.
  - intros x y z Hxy%ltb_le Hyz%ltb_le. apply ltb_le. by etrans.
Qed.

Lemma sorted_entries (c : gmap string logicalDirEntry) : (∀ n e, c !! n = Some e → lde_name e = n) →
  let l := sort_slice lde_by_name (range 91 c).*2 in
  StronglySorted String.le (lde_name <$> l) ∧ NoDup (lde_name <$> l)
  ∧ ∀ e, e ∈ l ↔ ∃ n, c !! n = Some e.
Proof.
  intros Hname l. pose proof (sort_slice_perm _ lde_by_name (range 91 c).*2) as Hp. fold l in Hp. split_and!.
  - pose proof (sort_slice_sorted _ _ (range 91 c).*2 lde_by_name_order) as Hs. fold l in Hs.
    clear Hp. induction Hs as [|e l' Hs IH He]; [constructor|]. cbn. constructor; [done|].
    apply Forall_fmap. eapply Forall_impl; [exact He|]. intros x Hx. by apply ltb_le.
  - rewrite Hp. rewrite range_perm.
    assert (lde_name <$> (map_to_list c).*2 = (map_to_list c).*1) as ->.
    { rewrite <- list_fmap_compose. apply list_fmap_ext. intros i [n e] Hin. cbn. apply Hname.
      apply elem_of_map_to_list. by eapply list_elem_of_lookup_2. }
    apply NoDup_fst_map_to_list.
  - intros e. rewrite Hp, range_perm, list_elem_of_fmap. split.
    + intros ([n e'] & -> & Hin). apply elem_of_map_to_list in Hin. by exists n.
    + intros [n Hn]. exists (n, e). split; [done|]. by apply elem_of_map_to_list.
Qed.

(** C24. The view opens a logical name as the file it refers to and every directory
    above one as a directory, whose entries are its files and directories, in
    order and each once; any other valid name does not exist. *)
Theorem Open_spec fsys name w :
  refs_ok (lfs_refs fsys) → ValidPath name = true →
  match Open fsys name w with
  | inl f =>
      (∃ real file, lfs_refs fsys !! name = Some real ∧ OpenFile (lfs_fs fsys) real w = inl file
        ∧ f = mkLogicalFile (Some file) (Base name) (lfs_created fsys) mode_file 0 [] 0)
      ∨ (¬ is_file fsys name ∧ is_dir fsys name ∧ lf_IsDir f = true ∧ lf_offset f = 0
         ∧ StronglySorted String.le (lde_name <$> lf_entries f) ∧ NoDup (lde_name <$> lf_entries f)
         ∧ ∀ e, e ∈ lf_entries f ↔ ∃ n (d : bool), e = entry_at fsys name n d ∧ no_slash n ∧ plain_elem n
             ∧ (if d then is_dir fsys (Join [name; n]) else is_file fsys (Join [name; n])))
  | inr err =>
      (∃ real e, lfs_refs fsys !! name = Some real ∧ OpenFile (lfs_fs fsys) real w = inr e
        ∧ err = ErrWrap "opening file with logical path" e)
      ∨ (¬ is_file fsys name ∧ ¬ is_dir fsys name ∧ errors_Is err fs_ErrNotExist = true)
  end.
Proof.
  intros ok Hv. unfold Open. rewrite Hv. cbn [negb].
  assert (¬ is_file fsys name → match openDir fsys name with
    | inl f => is_dir fsys name ∧ lf_IsDir f = true ∧ lf_offset f = 0
         ∧ StronglySorted String.le (lde_name <$> lf_entries f) ∧ NoDup (lde_name <$> lf_entries f)
         ∧ ∀ e, e ∈ lf_entries f ↔ ∃ n (d : bool), e = entry_at fsys name n d ∧ no_slash n ∧ plain_elem n
             ∧ (if d then is_dir fsys (Join [name; n]) else is_file fsys (Join [name; n]))
    | inr err => ¬ is_dir fsys name ∧ errors_Is err fs_ErrNotExist = true
    end) as Hdir.
  { intros Hnf. unfold openDir. fold (dir_prefix name). change (foldl _ ∅ _) with (children fsys name).
    destruct (sorted_entries (children fsys name)) as (Hs & Hnd & Hin).
    { intros n e (_ & _ & d & -> & _)%children_spec; done. }
    destruct (decide (name = ".")) as [->|Hne].
    - rewrite (bool_decide_true ("." = ".")) by done. cbn [negb andb]. split_and!; [by left|done..|].
      intros e. cbn [lf_entries]. rewrite Hin. setoid_rewrite (children_spec fsys ok "." Hv). naive_solver.
    - rewrite (bool_decide_false (name = ".")) by done. cbn [negb andb].
      pose proof (children_nonempty fsys ok name Hv Hne) as Hc.
      destruct (decide (children fsys name = ∅)) as [He|He].
      + rewrite bool_decide_true by (rewrite He, map_size_empty; lia). split; [tauto|done].
      + rewrite bool_decide_false by (apply map_size_non_empty_iff in He; lia).
        split_and!; [tauto|done..|].
        intros e. cbn [lf_entries]. rewrite Hin. setoid_rewrite (children_spec fsys ok name Hv). naive_solver. }
  case_bool_decide as Hdot.
  - subst name. assert (¬ is_file fsys ".") as Hnf.
    { intros [r Hr]. destruct ok as [Hok _]. destruct (Hok _ _ Hr) as [Hbad _]. by inversion_clear Hbad. }
    specialize (Hdir Hnf). destruct (openDir fsys "."); [right; tauto|right; tauto].
  - unfold openFile. destruct (lfs_refs fsys !! name) as [real|] eqn:Hr.
    + destruct ok as [Hok _]. destruct (Hok _ _ Hr) as [_ Hne]. cbn [default from_option id].
      rewrite bool_decide_false by done. destruct (OpenFile _ real w) eqn:Ho; left; eauto.
    + cbn [default from_option id]. rewrite bool_decide_true by done.
      assert (¬ is_file fsys name) as Hnf by (unfold is_file; rewrite Hr; by intros []).
      specialize (Hdir Hnf). destruct (openDir fsys name); [right; tauto|right; tauto].
Qed.
End logical.

(** ** Concrete instances *)

Definition ex_refs : gmap string string := {["a/b" := "o/v1/content/x"; "c" := "o/v1/content/y"]}.
Definition ex_view : LogicalFS unit := NewLogicalFS () ex_refs 0.

Lemma ex_refs_ok : refs_ok ex_refs.
Proof.
  split.
  - intros p r. unfold ex_refs. rewrite lookup_insert_Some, lookup_singleton_Some.
    intros [[<- <-]|[_ [<- <-]]]; split; by repeat constructor.
  - intros p q r Hp ->. unfold ex_refs in *. rewrite lookup_insert_is_Some, lookup_singleton_is_Some in Hp.
    rewrite lookup_insert_None, lookup_singleton_None. destruct Hp as [<-|[_ <-]]; by split.
Qed.

Lemma Open_spec_witness :
  match @Open ref_env _ _ mem_fs ex_view "a" ∅ with
  | inl f => lf_IsDir f = true ∧ lde_name <$> lf_entries f = ["b"]
  | inr _ => False
  end.
Proof.
  pose proof (@Open_spec ref_env _ _ mem_fs ex_view "a" ∅ ex_refs_ok eq_refl) as Ho.
  destruct (Open ex_view "a" ∅) as [f|err] eqn:He; vm_compute in He; [|discriminate He].
  injection He as <-. destruct Ho as [(real & file & Hr & _)|(_ & _ & Hd & _)]; [discriminate Hr|].
  split; [exact Hd|reflexivity].
Defined.
