(* ===== verification/Healthy.v ===== *)
(** * Backends without failures

    What a backend that works promises of its reads: every file opens and is read
    to its end, one that is missing does not open, and a directory lists the first
    elements of the names below it.  The error of a missing file is
    [fs.ErrNotExist] only for a name that the backend could have: a file system
    may refuse a name that is too long with another error ([nameable]), and a name
    below a regular file, which POSIX reports as ENOTDIR ([unblocked]).  Round-trip
    theorems of the program, which write and then read, are stated for such a
    backend; the operations themselves are modelled for every backend. *)
From S2P Require Import Prelude GoStd Spec FS Digest Codes Validation Inventory OcflInventory InventoryBytes.

Section healthy.
Context `{GoEnv} {W FS : Type} `{!FileSystems W FS}.

(** The backend can have a file of that name: in some state it opens one. *)
Definition nameable (fsys : FS) (name : string) : Prop := ∃ w f, OpenFile fsys name w = inl f.

(** The backend can have files in a directory of that name. *)
Definition nameable_dir (fsys : FS) (dir : string) : Prop := ∃ b, plain_path b ∧ nameable fsys (Join [dir; b]).

(** No element of the path before the last one is a file: where one is, there are
    files below it, which a tree of files and directories does not have. *)
Definition unblocked (m : gmap string string) (name : string) : Prop :=
  ∀ a, below a name = true → is_Some (m !! a) → ∃ q, is_Some (m !! q) ∧ below a q = true.

Record Healthy (fsys : FS) (files : W → gmap string string) (w : W) : Prop := {
  h_open : ∀ name data, files w !! name = Some data →
    ∃ f, OpenFile fsys name w = inl f ∧ f_reader f = bytes_reader data ∧ f_Close f = None;
  h_absent : ∀ name, ValidPath name = true → name ≠ "." → files w !! name = None → mem_children (files w) name = ∅ →
    ∃ e, OpenFile fsys name w = inr e
      ∧ (nameable fsys name → unblocked (files w) name → errors_Is e fs_ErrNotExist = true);
  h_list : ∀ dir, ValidPath dir = true → mem_children (files w) dir ≠ ∅ →
    ∃ es, fs_DirEntries fsys dir w = inl <$> es
      ∧ (λ e, (de_Name e, de_IsDir e)) <$> es ≡ₚ map_to_list (mem_children (files w) dir);
  h_list_empty : ∀ dir, ValidPath dir = true → files w !! dir = None → mem_children (files w) dir = ∅ →
    fs_DirEntries fsys dir w = []
    ∨ ∃ e, fs_DirEntries fsys dir w = [inr e]
        ∧ (nameable_dir fsys dir → unblocked (files w) dir → errors_Is e fs_ErrNotExist = true)
}.

Lemma until_err_inl {A} (l : list A) : until_err (inl <$> l : list (result A)) = (l, None).
Proof. induction l as [|a l IH]; cbn; [done|]. by rewrite IH. Qed.

Section facts.
Context (fsys : FS) (files : W → gmap string string) (w : W) (h : Healthy fsys files w).

Lemma healthy_ReadAll name data : files w !! name = Some data → fs_ReadAll fsys name w = Ok data.
Proof. intros (f & Ho & Hr & _)%(h_open _ _ _ h). unfold fs_ReadAll. by rewrite Ho, Hr. Qed.

Lemma healthy_ReadDir dir : ValidPath dir = true → mem_children (files w) dir ≠ ∅ →
  ∃ es, fs_ReadDir fsys dir w = (es, None)
    ∧ (λ e, (de_Name e, de_IsDir e)) <$> es ≡ₚ map_to_list (mem_children (files w) dir).
Proof.
  intros Hd Hc. destruct (h_list _ _ _ h dir Hd Hc) as (es & Hes & Hp).
  exists (sort_slice by_name es). unfold fs_ReadDir. rewrite Hes, until_err_inl. split; [done|].
  by rewrite sort_slice_perm.
Qed.

Lemma healthy_ReadDir_empty dir : ValidPath dir = true → files w !! dir = None → mem_children (files w) dir = ∅ →
  ∃ err, fs_ReadDir fsys dir w = ([], err)
    ∧ match err with
      | Some e => nameable_dir fsys dir → unblocked (files w) dir → errors_Is e fs_ErrNotExist = true
      | None => True
      end.
Proof.
  intros Hd Hf Hc. unfold fs_ReadDir. destruct (h_list_empty _ _ _ h dir Hd Hf Hc) as [-> |(e & -> & He)]; cbn; [|eauto].
  exists None. split; [|done]. f_equal. apply Permutation_nil. symmetry. apply sort_slice_perm.
Qed.
End facts.
End healthy.

(** ** Reading an inventory and its sidecar *)

Section inventories.
Context `{GoEnv, URLs, MultiError, Hashes, Decoders} {W FS : Type} `{!FileSystems W FS}.
Context (fsys : FS) (files : W → gmap string string) (w : W) (h : Healthy fsys files w).

Lemma healthy_ReadInventory dir si : files w !! Join [dir; inventoryBase] = Some (si_bytes si) →
  newStoredInventory (si_bytes si) = inl si → ReadInventory fsys dir w = inl si.
Proof.
  intros (f & Ho & Hr & _)%(h_open _ _ _ h) Hn. unfold ReadInventory. rewrite Ho, Hr.
  unfold NewStoredInventory. cbn [rd_err rd_data bytes_reader]. exact Hn.
Qed.

Lemma healthy_ValidateSidecar dir si (alg := inv_DigestAlgorithm (si_Inventory si)) :
  files w !! Join [dir; inventoryBase +:+ "." +:+ alg] = Some (sidecar_content (si_digest si)) →
  digest_bytes alg (si_bytes si) = inl (si_digest si) → hash_sum alg (si_bytes si) ≠ "" →
  ValidateSidecar si fsys dir w = None.
Proof.
  intros Hf Hd%digest_bytes_hex Hs. unfold ValidateSidecar, ReadInventorySidecar. fold alg.
  rewrite (healthy_ReadAll _ _ _ h _ _ Hf). cbn [mbind res_bind]. rewrite Hd.
  rewrite sidecar_match_content by (apply hex_encode_hex || by apply hex_encode_nonempty).
  by rewrite EqualFold_refl_ascii by apply is_hex_ascii, hex_encode_hex.
Qed.
End inventories.

(** ** The children of a directory *)

Lemma children_elem m dir n d :
  (n, d) ∈ omap (child_of dir) ((map_to_list m).*1) ↔ ∃ p, is_Some ((m : gmap string string) !! p) ∧ child_of dir p = Some (n, d).
Proof.
  rewrite list_elem_of_omap. split.
  - intros (p & Hp & Hc). exists p. split; [|done]. apply list_elem_of_fmap in Hp as ([p' x] & -> & Hin).
    apply elem_of_map_to_list in Hin. by eexists.
  - intros (p & [x Hx] & Hc). exists p. split; [|done]. apply list_elem_of_fmap. exists (p, x).
    split; [done|]. by apply elem_of_map_to_list.
Qed.

Lemma mem_children_empty m dir :
  mem_children m dir = ∅ ↔ ∀ p, is_Some (m !! p) → child_of dir p = None.
Proof.
  split.
  - intros He p Hp. destruct (child_of dir p) as [[n d]|] eqn:Hc; [|done]. exfalso.
    assert (list_to_map (M:=gmap string bool) (omap (child_of dir) ((map_to_list m).*1)) !! n = None) as Hn.
    { change (mem_children m dir !! n = None). by rewrite He. }
    apply not_elem_of_list_to_map_2 in Hn. apply Hn. apply list_elem_of_fmap. exists (n, d).
    split; [done|]. apply children_elem. eauto.
  - intros Hall. unfold mem_children.
    destruct (omap (child_of dir) ((map_to_list m).*1)) as [|[n d] l] eqn:He; [done|].
    assert ((n, d) ∈ omap (child_of dir) ((map_to_list m).*1)) as Hin by (rewrite He; left).
    apply children_elem in Hin as (p & Hp & Hc). by rewrite Hall in Hc.
Qed.

Lemma mem_children_inv m dir n d :
  mem_children m dir !! n = Some d → ∃ p, is_Some (m !! p) ∧ child_of dir p = Some (n, d).
Proof. intros Hm%elem_of_list_to_map_2. by apply children_elem. Qed.

Lemma mem_children_in m dir p n d :
  is_Some (m !! p) → child_of dir p = Some (n, d) →
  (∀ p' d', is_Some (m !! p') → child_of dir p' = Some (n, d') → d' = d) →
  mem_children m dir !! n = Some d.
Proof.
  intros Hp Hc Hu. apply elem_of_list_to_map_1'.
  - intros d' (p' & Hp' & Hc')%children_elem. by rewrite (Hu p' d').
  - apply children_elem. eauto.
Qed.

Lemma child_of_Join dir b : ValidPath dir = true → plain_path b →
  child_of dir (Join [dir; b]) = let '(n, _, isDir) := Cut b "/" in Some (n, isDir).
Proof.
  intros Hd Hb. unfold child_of. rewrite Join_dir by done. case_bool_decide.
  - by destruct b.
  - rewrite string_app_assoc, CutPrefix_app. done.
Qed.

(** ** Names below no file *)

Lemma prefix_slash dir b a r : no_slash b → dir +:+ "/" +:+ b = a +:+ "/" +:+ r → ∃ x, dir +:+ "/" = (a +:+ "/") +:+ x.
Proof.
  intros Hb. revert a. induction dir as [|c dir IH]; intros [|c' a] E; cbn in E.
  - by exists "".
  - injection E as <- ->. by apply no_slash_slash in Hb.
  - injection E as -> _. by exists (dir +:+ "/").
  - injection E as <- E. destruct (IH a E) as [x Hx]. exists x. cbn. by rewrite Hx.
Qed.

(** What is above a file is above the other files of its directory. *)
Lemma below_Join a dir b b' : ValidPath dir = true → plain_path b → no_slash b → plain_path b' →
  below a (Join [dir; b]) = true → below a (Join [dir; b']) = true.
Proof.
  intros Hd Hb Hns Hb'. rewrite !Join_dir by done. unfold below. case_bool_decide as Hdot; rewrite !HasPrefix_true.
  - intros [r ->]. rewrite <- string_app_assoc in Hns. by apply no_slash_slash in Hns.
  - intros [r E]. rewrite <- string_app_assoc in E. apply prefix_slash in E as [x Hx]; [|done].
    exists (x +:+ b'). by rewrite string_app_assoc, Hx, <- string_app_assoc.
Qed.

(** A name is not below a file if its directory has another file. *)
Lemma unblocked_Join m dir b b' : ValidPath dir = true → plain_path b → no_slash b → plain_path b' →
  is_Some (m !! Join [dir; b']) → unblocked m (Join [dir; b]).
Proof. intros Hd Hb Hns Hb' Hm a Ha _. exists (Join [dir; b']). split; [done|]. by apply (below_Join a dir b b'). Qed.

Lemma unblocked_dir m dir b : ValidPath dir = true → plain_path b → unblocked m (Join [dir; b]) → unblocked m dir.
Proof.
  intros Hd Hb Hu a Ha. apply Hu. revert Ha. rewrite Join_dir by done. unfold below. rewrite !HasPrefix_true. intros [r E].
  case_bool_decide as Hdot; [|exists (r +:+ "/" +:+ b); by rewrite E, <- string_app_assoc].
  rewrite Hdot in E. by destruct a as [|? [|]].
Qed.

(** ** The backend in memory works *)

Lemma mem_healthy `{GoEnv} m : @Healthy _ _ mem_fs () (λ m, m) m.
Proof.
  split; cbn.
  - intros name data ->. eauto.
  - intros name _ _ -> _. by eexists.
  - intros dir _ Hc. unfold fs_DirEntries. cbn. rewrite decide_False by tauto.
    exists (mem_entry <$> merge_sort (λ a b : string * bool, String.le a.1 b.1) (map_to_list (mem_children m dir))).
    split; [by rewrite <- list_fmap_compose|]. rewrite <- list_fmap_compose.
    rewrite <- (list_fmap_id (map_to_list _)) at 2. rewrite (merge_sort_Permutation _).
    erewrite list_fmap_ext; [done|]. intros _ [n d] _. by destruct d.
  - intros dir _ _ Hc. unfold fs_DirEntries. cbn. rewrite Hc. destruct (decide _); [right|left; done].
    by eexists.
Qed.

Lemma mem_nameable `{GoEnv} name : @nameable _ _ mem_fs () name.
Proof. exists {[name := ""]}. cbn. rewrite lookup_singleton_eq. by eexists. Qed.

Lemma mem_nameable_dir `{GoEnv} dir : @nameable_dir _ _ mem_fs () dir.
Proof. exists "f". split; [by repeat constructor|]. apply mem_nameable. Qed.
