(* ===== verification/Listing.v ===== *)
(** * The files below a directory

    [lists m dir names]: the files of [m] below [dir] are those with the relative
    paths [names].  On a backend without failures, reading a directory gives the
    first elements of these paths, and walking it gives the paths themselves. *)
From S2P Require Import Prelude GoStd FS Local LogicalFS PlanSpec Healthy.

(** ** Valid paths and their parts *)

Lemma in_range_ascii lo hi c : (128 <= lo)%N → is_ascii_byte c = true → in_range lo hi c = false.
Proof.
  intros Hlo Hc. apply not_true_iff_false. intros Hr%in_range_spec. unfold is_ascii_byte in Hc.
  apply N.ltb_lt in Hc. lia.
Qed.

Lemma utf8_lead_lo c n lo hi : utf8_lead c = Some (n, lo, hi) → (128 <= lo)%N ∧ (1 <= n <= 3)%nat.
Proof. unfold utf8_lead. repeat case_match; intros; simplify_eq; lia. Qed.

Lemma decode_runes_app a c b : is_ascii_byte c = true →
  decode_runes (a +:+ String c b) = decode_runes a ++ decode_runes (String c b).
Proof.
  intros Hc. remember (String.length a) as n eqn:Hn. revert a Hn.
  induction n as [n IH] using (well_founded_induction lt_wf). intros a ->.
  assert (∀ a', (String.length a' < String.length a)%nat →
    decode_runes (a' +:+ String c b) = decode_runes a' ++ decode_runes (String c b)) as IHa.
  { intros a' Ha. by eapply IH. }
  clear IH. destruct a as [|c0 r0]; [done|]. cbn [String.append decode_runes]. cbn [String.length] in IHa.
  destruct (is_ascii_byte c0) eqn:Hc0; [by rewrite IHa by lia|].
  destruct (utf8_lead c0) as [[[n lo] hi]|] eqn:Hl; [|by rewrite IHa by lia].
  apply utf8_lead_lo in Hl as [Hlo Hn]. pose proof (in_range_ascii lo hi c Hlo Hc) as R1.
  pose proof (in_range_ascii 128 191 c ltac:(lia) Hc) as R2.
  destruct n as [|[|[|[|n]]]]; [lia| | | |lia].
  - destruct r0 as [|c1 r1]; cbn [String.append].
    + by rewrite R1.
    + destruct (in_range lo hi c1).
      * rewrite IHa by (cbn; lia). done.
      * change (String c1 (r1 +:+ String c b)) with (String c1 r1 +:+ String c b). rewrite IHa by lia. done.
  - destruct r0 as [|c1 [|c2 r2]]; cbn [String.append].
    + destruct b as [|c2 b]; [done|]. by rewrite R1.
    + rewrite R2, andb_false_r.
      change (String c1 (String c b)) with (String c1 "" +:+ String c b). rewrite IHa by (cbn; lia). done.
    + destruct (in_range lo hi c1 && in_range 128 191 c2).
      * rewrite IHa by (cbn; lia). done.
      * change (String c1 (String c2 (r2 +:+ String c b))) with (String c1 (String c2 r2) +:+ String c b).
        rewrite IHa by lia. done.
  - destruct r0 as [|c1 [|c2 [|c3 r3]]]; cbn [String.append].
    + destruct b as [|c2 [|c3 b]]; [done..|]. by rewrite R1.
    + destruct b as [|c3 b].
      * change (String c1 (String c "")) with (String c1 "" +:+ String c ""). rewrite IHa by (cbn; lia). done.
      * rewrite R2, andb_false_r, andb_false_l.
        change (String c1 (String c (String c3 b))) with (String c1 "" +:+ String c (String c3 b)).
        rewrite IHa by (cbn; lia). done.
    + rewrite R2, andb_false_r.
      change (String c1 (String c2 (String c b))) with (String c1 (String c2 "") +:+ String c b).
      rewrite IHa by (cbn; lia). done.
    + destruct (in_range lo hi c1 && in_range 128 191 c2 && in_range 128 191 c3).
      * rewrite IHa by (cbn; lia). done.
      * change (String c1 (String c2 (String c3 (r3 +:+ String c b)))) with (String c1 (String c2 (String c3 r3)) +:+ String c b).
        rewrite IHa by lia. done.
Qed.

Lemma valid_utf8_slash a b : valid_utf8 (a +:+ "/" +:+ b) = valid_utf8 a && valid_utf8 b.
Proof. unfold valid_utf8. cbn [String.append]. rewrite decode_runes_app by done. by rewrite forallb_app. Qed.

Lemma split_on_slash a b : split_on slash (a +:+ "/" +:+ b) = split_on slash a ++ split_on slash b.
Proof. change ("/" +:+ b) with (String slash b). apply split_on_app_any. Qed.

(** A valid path other than the dot. *)
Definition valid_name (t : string) : Prop := ValidPath t = true ∧ t ≠ ".".

Lemma valid_name_plain t : valid_name t → plain_path t.
Proof. intros [? ?]. by apply ValidPath_plain. Qed.

Lemma plain_not_dot t : plain_path t → t ≠ ".".
Proof. intros Hp ->. inversion_clear Hp as [|?? He]. by apply plain_elem_spec in He as (_ & ? & _). Qed.

Lemma valid_name_spec t : valid_name t ↔ valid_utf8 t = true ∧ plain_path t.
Proof.
  split.
  - intros Hv. split; [|by apply valid_name_plain]. destruct Hv as [Hv _]. unfold ValidPath in Hv.
    by apply andb_true_iff in Hv as [? _].
  - intros [Hu Hp]. split; [|by apply plain_not_dot]. unfold ValidPath. rewrite Hu, andb_true_l, orb_true_iff. right.
    apply forallb_forall. intros x Hx%list_elem_of_In. unfold plain_path in Hp. rewrite Forall_forall in Hp. by apply Hp.
Qed.

Lemma valid_name_slash a b : valid_name (a +:+ "/" +:+ b) ↔ valid_name a ∧ valid_name b.
Proof.
  rewrite !valid_name_spec, valid_utf8_slash, andb_true_iff. unfold plain_path. rewrite split_on_slash, Forall_app. tauto.
Qed.

Lemma valid_name_Join dir t : ValidPath dir = true → valid_name t → ValidPath (Join [dir; t]) = true.
Proof.
  intros Hd Ht. rewrite Join_dir by (done || by apply valid_name_plain). case_bool_decide; [by destruct Ht|].
  by apply valid_name_slash.
Qed.

Lemma Join_not_dot dir t : ValidPath dir = true → plain_path t → Join [dir; t] ≠ ".".
Proof.
  intros Hd Ht. rewrite Join_dir by done. case_bool_decide; apply plain_not_dot; [done|].
  apply plain_path_app; [by apply ValidPath_plain|done].
Qed.

Lemma Join_root dir : ValidPath dir = true → Join [dir; "."] = dir.
Proof.
  intros Hd. destruct (decide (dir = ".")) as [->|Hne]; [done|]. pose proof (ValidPath_plain dir Hd Hne) as Hp.
  unfold Join. rewrite !filter_cons_True by (done || by apply plain_path_nonempty). rewrite filter_nil. cbn [join_with].
  assert (∀ s, s ≠ "" → HasPrefix s "/" = false → Clean s =
    let body := join_with "/" (clean_elems false [] (split_on slash s)) in if bool_decide (body = "") then "." else body) as Hc.
  { intros s Hs Hr. destruct s; [done|]. unfold Clean. by rewrite Hr. }
  rewrite Hc.
  - rewrite split_on_slash. change (split_on slash ".") with ["."]. rewrite clean_elems_app by done. cbn.
    rewrite (bool_decide_true ("." = ".")) by done. rewrite orb_true_r, app_nil_r, rev_involutive, join_split. rewrite bool_decide_false; [done|]. by apply plain_path_nonempty.
  - destruct dir; [|done]. by apply plain_path_nonempty in Hp.
  - pose proof (plain_path_unrooted dir Hp) as Hr. pose proof (plain_path_nonempty dir Hp) as Hn.
    destruct (HasPrefix (dir +:+ _) "/") eqn:He; [|done]. apply HasPrefix_true in He as [r He].
    destruct dir as [|c dir]; [done|]. injection He as -> _.
    discriminate (eq_trans (eq_sym (HasPrefix_app "/" dir)) Hr).
Qed.

Lemma Join_dot t : plain_path t → Join ["."; t] = t.
Proof. intros Ht. by rewrite Join_dir by done. Qed.

(** ** The files below a directory *)

(** The part of a path below a directory. *)
Definition rel (dir p : string) : option string :=
  CutPrefix p (if bool_decide (dir = ".") then "" else dir +:+ "/").

Record lists (m : gmap string string) (dir : string) (names : list string) : Prop := {
  ls_dir : ValidPath dir = true;
  ls_valid : ∀ t, t ∈ names → valid_name t;
  ls_in : ∀ t, t ∈ names → is_Some (m !! Join [dir; t]);
  ls_only : ∀ p t, is_Some (m !! p) → rel dir p = Some t → t ∈ names;
  ls_tree : ∀ a b, a ∈ names → (a +:+ "/" +:+ b) ∉ names
}.

(** The paths below a subdirectory. *)
Definition sub_names (d : string) (names : list string) : list string :=
  omap (λ t, CutPrefix t (d +:+ "/")) names.

Lemma sub_names_elem d names t : t ∈ sub_names d names ↔ (d +:+ "/" +:+ t) ∈ names.
Proof.
  unfold sub_names. rewrite list_elem_of_omap. split.
  - intros (x & Hx & ->%CutPrefix_Some). by rewrite <- string_app_assoc in Hx.
  - intros Hin. exists (d +:+ "/" +:+ t). split; [done|]. apply CutPrefix_Some. by rewrite string_app_assoc.
Qed.

Lemma rel_Join dir t : ValidPath dir = true → plain_path t → rel dir (Join [dir; t]) = Some t.
Proof.
  intros Hd Ht. unfold rel. rewrite Join_dir by done. case_bool_decide; [by rewrite CutPrefix_Some|].
  apply CutPrefix_Some. by rewrite string_app_assoc.
Qed.

Lemma rel_inv dir p t : ValidPath dir = true → plain_path t → rel dir p = Some t → p = Join [dir; t].
Proof.
  intros Hd Ht. unfold rel. rewrite CutPrefix_Some, Join_dir by done. case_bool_decide; [done|].
  by rewrite string_app_assoc.
Qed.

Lemma child_of_rel dir p : child_of dir p = (λ t, let '(n, _, d) := Cut t "/" in (n, d)) <$> rel dir p.
Proof. unfold child_of, rel. destruct (CutPrefix _ _) as [t|]; [|done]. cbn. by destruct (Cut t "/") as [[? ?] ?]. Qed.

Section listed.
Context (m : gmap string string) (dir : string) (names : list string) (l : lists m dir names).

Lemma lists_sub d : valid_name d → lists m (Join [dir; d]) (sub_names d names).
Proof.
  intros Hd. pose proof (valid_name_plain d Hd) as Hp. pose proof (ls_dir _ _ _ l) as Hdir.
  assert (∀ t, t ∈ sub_names d names → valid_name t) as Hv.
  { intros t Ht%sub_names_elem%(ls_valid _ _ _ l). by apply valid_name_slash in Ht as [_ ?]. }
  split; [by apply valid_name_Join|done| | |].
  - intros t Ht. rewrite Join_Join by (done || by apply valid_name_plain, Hv). apply (ls_in _ _ _ l). by apply sub_names_elem.
  - intros p t Hm Hr. apply sub_names_elem. apply (ls_only _ _ _ l p); [done|]. revert Hr. unfold rel.
    rewrite bool_decide_false.
    2: by apply Join_not_dot.
    rewrite !CutPrefix_Some. rewrite Join_dir by done. intros ->. case_bool_decide; by rewrite <- !string_app_assoc.
  - intros a b Ha%sub_names_elem Hb%(proj1 (sub_names_elem d names _)). apply (ls_tree _ _ _ l (d +:+ "/" +:+ a) b); [done|].
    by rewrite <- !string_app_assoc.
Qed.

(** The first element of a path, and whether it is a directory. *)
Lemma lists_child n b : mem_children m dir !! n = Some b ↔ ∃ t r, t ∈ names ∧ Cut t "/" = (n, r, b).
Proof.
  split.
  - intros (p & Hp & Hc)%mem_children_inv. rewrite child_of_rel in Hc. destruct (rel dir p) as [t|] eqn:Hr; [|done].
    cbn in Hc. destruct (Cut t "/") as [[n' r] b'] eqn:Ht. injection Hc as -> ->. exists t, r. split; [|done].
    by eapply (ls_only _ _ _ l).
  - intros (t & r & Ht & Hc). pose proof (ls_valid _ _ _ l _ Ht) as Hv%valid_name_plain.
    apply (mem_children_in m dir (Join [dir; t])); [by apply (ls_in _ _ _ l)| |].
    { rewrite child_of_rel, rel_Join by (done || apply l). cbn. by rewrite Hc. }
    intros p' b' Hp' Hc'. rewrite child_of_rel in Hc'. destruct (rel dir p') as [t'|] eqn:Hr; [|done]. cbn in Hc'.
    destruct (Cut t' "/") as [[n' r'] d'] eqn:Ht'. injection Hc' as -> ->.
    assert (t' ∈ names) as Hin by (by eapply (ls_only _ _ _ l)).
    pose proof (Cut_spec t) as H1. pose proof (Cut_spec t') as H2. rewrite Hc in H1. rewrite Ht' in H2.
    destruct H1 as (_ & E1 & _), H2 as (_ & E2 & _). destruct b, b'; try done; subst.
    + by destruct (ls_tree _ _ _ l n r).
    + by destruct (ls_tree _ _ _ l n r').
Qed.

Lemma lists_absent t : valid_name t → t ∉ names → m !! Join [dir; t] = None.
Proof.
  intros Ht%valid_name_plain Hn. destruct (m !! Join [dir; t]) eqn:Hm; [|done]. destruct Hn.
  apply (ls_only _ _ _ l (Join [dir; t])); [by rewrite Hm|]. apply rel_Join; [apply l|done].
Qed.

Lemma lists_empty : mem_children m dir = ∅ ↔ names = [].
Proof.
  split.
  - intros He. apply elem_of_nil_inv. intros t Ht. destruct (Cut t "/") as [[n r] b] eqn:Hc.
    assert (mem_children m dir !! n = Some b) as Hn by (apply lists_child; eauto).
    rewrite He in Hn. done.
  - intros Hn. apply map_eq. intros n. rewrite lookup_empty. destruct (mem_children m dir !! n) as [b|] eqn:Hc; [|done].
    apply lists_child in Hc as (t & r & Ht & _). rewrite Hn in Ht. by apply elem_of_nil in Ht.
Qed.
End listed.

(** ** Directories apart from each other *)

(** No path is in both directories. *)
Definition apart (a b : string) : Prop := ∀ p, is_Some (rel a p) → rel b p = None.

Lemma apart_sym a b : apart a b → apart b a.
Proof. intros Ha p Hp. destruct (rel a p) as [t|] eqn:Hr; [|done]. rewrite Ha in Hp by by rewrite Hr. by destruct Hp. Qed.

Lemma string_app_prefix (a b x y : string) : a +:+ x = b +:+ y → HasPrefix a b = true ∨ HasPrefix b a = true.
Proof.
  revert b. induction a as [|c a IH]; intros [|d b]; cbn; [by left|by right|by left|].
  intros [= -> He]. destruct (IH b He) as [Hp|Hp]; [left|right]; unfold HasPrefix in *; cbn; destruct (ascii_dec d d); done.
Qed.

Lemma apart_prefix a b : a ≠ "." → b ≠ "." →
  HasPrefix (a +:+ "/") (b +:+ "/") = false → HasPrefix (b +:+ "/") (a +:+ "/") = false → apart a b.
Proof.
  intros Ha Hb H1 H2 p [t Ht]. destruct (rel b p) as [t'|] eqn:Ht'; [|done]. exfalso. unfold rel in *.
  rewrite !bool_decide_false in * by done. apply CutPrefix_Some in Ht, Ht'.
  rewrite Ht in Ht'. apply string_app_prefix in Ht' as [?|?]; congruence.
Qed.

(** ** Reading and walking *)

Section read.
Context `{GoEnv} {W FS : Type} `{!FileSystems W FS}.
Context (fsys : FS) (files : W → gmap string string) (w : W) (h : Healthy fsys files w).

(** A file is regular, or irregular as the objects of a bucket are. *)
Definition file_type (t : Z) : Prop := t = 0 ∨ t = ModeIrregular.

(** Files are listed with such a type and with their [FileInfo]. *)
Definition plain_entries : Prop := ∀ dir e, inl e ∈ fs_DirEntries fsys dir w →
  (de_IsDir e = false → file_type (de_Type e)) ∧ ∃ info, de_Info e = inl info.

(** An entry for each first element. *)
Definition entries_of (names : list string) (es : list DirEntry) : Prop :=
  NoDup (de_Name <$> es) ∧ ∀ n b, (∃ e, e ∈ es ∧ de_Name e = n ∧ de_IsDir e = b) ↔ ∃ t r, t ∈ names ∧ Cut t "/" = (n, r, b).

Lemma lists_entries dir names : lists (files w) dir names → names ≠ [] →
  ∃ es, fs_DirEntries fsys dir w = inl <$> es ∧ entries_of names es.
Proof.
  intros l Hne. destruct (h_list _ _ _ h dir) as (es & Hes & Hp).
  { apply l. } { by rewrite (lists_empty _ _ _ l). }
  exists es. split; [done|]. split.
  - assert (NoDup (fst <$> ((λ e, (de_Name e, de_IsDir e)) <$> es))) as Hnd by (rewrite Hp; apply NoDup_fst_map_to_list).
    by rewrite <- list_fmap_compose in Hnd.
  - intros n b. rewrite <- (lists_child _ _ _ l), <- elem_of_map_to_list, <- Hp, list_elem_of_fmap. naive_solver.
Qed.

Lemma lists_ReadDir dir names : lists (files w) dir names → names ≠ [] →
  ∃ es, fs_ReadDir fsys dir w = (es, None) ∧ entries_of names es ∧ ∀ e, e ∈ es → inl e ∈ fs_DirEntries fsys dir w.
Proof.
  intros l Hne. destruct (lists_entries dir names l Hne) as (es & Hes & Hnd & He). exists (sort_slice by_name es).
  unfold fs_ReadDir. rewrite Hes, until_err_inl. split; [done|]. split; [split|].
  - by rewrite sort_slice_perm.
  - intros n b. rewrite <- He. by setoid_rewrite sort_slice_perm.
  - intros e Hin. rewrite sort_slice_perm in Hin. by apply list_elem_of_fmap_2.
Qed.

(** What a walk below a directory yields: each path once, of this backend. *)
Record walked (dir : string) (refs : list (FileRef FS)) (Q : string → Prop) : Prop := {
  wk_from : ∀ r, r ∈ refs → fr_FS r = fsys ∧ fr_BaseDir r = dir;
  wk_once : NoDup (fr_Path <$> refs);
  wk_paths : ∀ q, (∃ r, r ∈ refs ∧ fr_Path r = q) ↔ Q q
}.

Lemma NoDup_fmap_elem {A B} (f : A → B) l x y : NoDup (f <$> l) → x ∈ l → y ∈ l → f x = f y → x = y.
Proof.
  induction l as [|z l IH]; [by intros _ ?%elem_of_nil|]. rewrite fmap_cons. intros [Hz Hnd]%NoDup_cons.
  intros [->|Hx]%elem_of_cons [->|Hy]%elem_of_cons Hf; [done| | |by apply IH]; exfalso; apply Hz.
  - rewrite Hf. by apply list_elem_of_fmap_2.
  - rewrite <- Hf. by apply list_elem_of_fmap_2.
Qed.

(** The files of each entry make those of the directory. *)
Lemma bind_refs dir (g : DirEntry → list (res (FileRef FS))) (Q : DirEntry → string → Prop) es : NoDup es →
  (∀ e e' q, e ∈ es → e' ∈ es → Q e q → Q e' q → e = e') →
  (∀ e, e ∈ es → ∃ rs, g e = Ok <$> rs ∧ walked dir rs (Q e)) →
  ∃ refs, es ≫= g = Ok <$> refs ∧ walked dir refs (λ q, ∃ e, e ∈ es ∧ Q e q).
Proof.
  induction es as [|e es IH]; intros Hnd Hdis Hg.
  - exists []. split; [done|]. split; [intros r []%elem_of_nil|constructor|]. intros q. 
    split; [intros (r & Hr & _)|intros (e & He & _)]; by apply elem_of_nil in Hr || apply elem_of_nil in He.
  - apply NoDup_cons in Hnd as [Hout Hnd]. destruct (Hg e ltac:(left)) as (rs & E & [F1 N1 Hq]).
    destruct IH as (refs & E' & [F2 N2 Hq']); [done|intros e1 e2 q H1 H2; apply Hdis; by right|intros; apply Hg; by right|].
    exists (rs ++ refs). rewrite bind_cons, E, E', fmap_app. split; [done|]. split.
    + intros r [Hr|Hr]%elem_of_app; auto.
    + rewrite fmap_app. apply NoDup_app. split; [done|]. split; [|done]. intros q Hq1 Hq2.
      apply list_elem_of_fmap in Hq1 as (r1 & -> & Hr1), Hq2 as (r2 & Eq & Hr2).
      destruct (proj1 (Hq' (fr_Path r1))) as (e' & He' & Hqe); [eauto|]. apply Hout.
      rewrite (Hdis e e' (fr_Path r1)); [done|by left|by right| |done]. apply Hq. eauto.
    + intros q. setoid_rewrite elem_of_app. setoid_rewrite elem_of_cons. specialize (Hq q). specialize (Hq' q). naive_solver.
Qed.

Lemma bind_inl {A B} (l : list A) (g : A + error → list B) : (inl <$> l) ≫= g = l ≫= (λ a, g (inl a)).
Proof. induction l as [|a l IH]; [done|]. by rewrite fmap_cons, !bind_cons, IH. Qed.

(** The paths an entry stands for. *)
Definition entry_paths (sub : string) (names : list string) (e : DirEntry) (q : string) : Prop :=
  if de_IsDir e then ∃ t, t ∈ sub_names (de_Name e) names ∧ q = Join [Join [sub; de_Name e]; t]
  else q = Join [sub; de_Name e].

Lemma entries_paths sub names es q : ValidPath sub = true → (∀ t, t ∈ names → valid_name t) → entries_of names es →
  (∃ e, e ∈ es ∧ entry_paths sub names e q) ↔ ∃ t, t ∈ names ∧ q = Join [sub; t].
Proof.
  intros Hs Hv [_ He]. unfold entry_paths. split.
  - intros (e & Hin & Hq). destruct (proj1 (He (de_Name e) (de_IsDir e))) as (t & r & Ht & Hc); [eauto|].
    pose proof (Cut_spec t) as Ht'. rewrite Hc in Ht'. destruct Ht' as (_ & Et & _). destruct (de_IsDir e).
    + destruct Hq as (t' & Ht'%sub_names_elem & ->). exists (de_Name e +:+ "/" +:+ t'). split; [done|].
      apply Hv, valid_name_slash in Ht' as [? ?]. by apply Join_Join; [|apply valid_name_plain..].
    + exists t. by rewrite Et in *.
  - intros (t & Ht & ->). destruct (Cut t "/") as [[n r] b] eqn:Hc. destruct (proj2 (He n b)) as (e & Hin & <- & Hb); [eauto|].
    exists e. split; [done|]. rewrite Hb. pose proof (Cut_spec t) as Ht'. rewrite Hc in Ht'. destruct Ht' as (_ & Et & _).
    destruct b; subst t; [|done]. exists r. split; [by apply sub_names_elem|].
    apply Hv, valid_name_slash in Ht as [? ?]. symmetry. by apply Join_Join; [|apply valid_name_plain..].
Qed.

Lemma entry_valid names es e : (∀ t, t ∈ names → valid_name t) → entries_of names es → e ∈ es → valid_name (de_Name e).
Proof.
  intros Hv [_ He] Hin. destruct (proj1 (He (de_Name e) (de_IsDir e))) as (t & r & Ht & Hc); [eauto|].
  pose proof (Cut_spec t) as Ht'. rewrite Hc in Ht'. destruct Ht' as (_ & Et & _). apply Hv in Ht. subst t.
  destruct (de_IsDir e); [|done]. by apply valid_name_slash in Ht as [? _].
Qed.

Lemma entry_no_slash names es e : entries_of names es → e ∈ es → no_slash (de_Name e).
Proof.
  intros [_ He] Hin. destruct (proj1 (He (de_Name e) (de_IsDir e))) as (t & r & Ht & Hc); [eauto|].
  pose proof (Cut_spec t) as Ht'. rewrite Hc in Ht'. tauto.
Qed.

(** Entries with different names stand for different paths. *)
Lemma entry_paths_name sub names e e' q : ValidPath sub = true → (∀ t, t ∈ names → valid_name t) →
  valid_name (de_Name e) → valid_name (de_Name e') → no_slash (de_Name e) → no_slash (de_Name e') →
  entry_paths sub names e q → entry_paths sub names e' q → de_Name e = de_Name e'.
Proof.
  intros Hs Hv Hn Hn' Hns Hns'.
  assert (∀ d, valid_name (de_Name d) → no_slash (de_Name d) → entry_paths sub names d q →
    ∃ t, valid_name t ∧ q = Join [sub; t] ∧ (Cut t "/").1.1 = de_Name d) as Hone.
  { intros d Hd Hsl. unfold entry_paths. destruct (de_IsDir d).
    - intros (t & Ht%sub_names_elem%Hv & ->). exists (de_Name d +:+ "/" +:+ t). split_and!; [done| |by rewrite Cut_slash].
      apply valid_name_slash in Ht as [? ?]. by apply Join_Join; [|apply valid_name_plain..].
    - intros ->. exists (de_Name d). by rewrite Cut_no_slash. }
  intros (t & Ht & -> & <-)%Hone (t' & Ht' & E & <-)%Hone; [|done..].
  apply (f_equal (rel sub)) in E. rewrite !rel_Join in E by (done || by apply valid_name_plain). by injection E as <-.
Qed.

(** The walk, for a backend without a method of its own. *)
Lemma fileWalk_lists fuel root sub names :
  plain_entries → ValidPath root = true → ValidPath sub = true →
  lists (files w) (Join [root; sub]) names → names ≠ [] →
  (∀ t, t ∈ names → (String.length t < fuel)%nat) →
  ∃ refs, fileWalk fuel fsys root sub w = Ok <$> refs ∧ walked root refs (λ q, ∃ t, t ∈ names ∧ q = Join [sub; t]).
Proof.
  intros Hpl Hroot. revert sub names. induction fuel as [|fuel IH]; intros sub names Hsub l Hne Hlen.
  { destruct names as [|t ts]; [done|]. specialize (Hlen t ltac:(left)). lia. }
  destruct (lists_entries _ _ l Hne) as (es & Hes & He). cbn [fileWalk]. rewrite Hes, bind_inl.
  destruct (bind_refs root (λ e, let entryPath := Join [sub; de_Name e] in
      if de_IsDir e then fileWalk fuel fsys root entryPath w
      else match de_Info e with
           | inr err => [Err err; Ok (mkFileRef fsys root entryPath None)]
           | inl info => [Ok (mkFileRef fsys root entryPath (Some info))]
           end) (entry_paths sub names) es) as (refs & E & Hw).
  - destruct He as [Hnd _]. by eapply NoDup_fmap_1.
  - intros e e' q H1 H2 Q1 Q2. apply (NoDup_fmap_elem de_Name es); [by apply He|done..|].
    eapply (entry_paths_name sub names e e' q); [done|apply l| | | | |done..];
      by (eapply entry_valid; [apply l| |]) || by eapply entry_no_slash.
  - intros e Hin. destruct (Hpl (Join [root; sub]) e) as [_ [info Hinfo]]; [rewrite Hes; by apply list_elem_of_fmap_2|].
    pose proof (entry_valid _ _ _ (ls_valid _ _ _ l) He Hin) as Hn. pose proof (valid_name_plain _ Hn) as Hp.
    unfold entry_paths. cbn zeta. destruct (de_IsDir e) eqn:Hd.
    + destruct (IH (Join [sub; de_Name e]) (sub_names (de_Name e) names)) as (refs & Hr & Hq); [by apply valid_name_Join| | | |by eauto].
      * replace (Join [root; Join [sub; de_Name e]]) with (Join [Join [root; sub]; de_Name e]); [by apply lists_sub|].
        destruct (decide (sub = ".")) as [->|Hs]; [by rewrite Join_dot, Join_root|].
        rewrite Join_Join by (done || by apply ValidPath_plain). rewrite (Join_dir sub) by done. by rewrite bool_decide_false.
      * destruct (proj1 (proj2 He (de_Name e) true)) as (t & r & Ht & Hc); [eauto|]. intros Hnil.
        pose proof (Cut_spec t) as Ht'. rewrite Hc in Ht'. destruct Ht' as (_ & -> & _).
        apply sub_names_elem in Ht. rewrite Hnil in Ht. by apply elem_of_nil in Ht.
      * intros t Ht%sub_names_elem%Hlen. rewrite !string_length_app in Ht. cbn in Ht. lia.
    + rewrite Hinfo. exists [mkFileRef fsys root (Join [sub; de_Name e]) (Some info)]. split; [done|]. split.
      * by intros r ->%list_elem_of_singleton.
      * apply NoDup_singleton.
      * intros q. setoid_rewrite list_elem_of_singleton. naive_solver.
  - exists refs. split; [exact E|]. destruct Hw as [F N Hq]. split; [done..|]. intros q. rewrite Hq.
    by apply (entries_paths sub names es q Hsub (ls_valid _ _ _ l) He).
Qed.

(** A walk of any backend: the files below the directory, by their paths in it. *)
Definition walks (fuel : nat) : Prop := ∀ dir names, lists (files w) dir names → names ≠ [] →
  (∀ t, t ∈ names → (String.length t < fuel)%nat) →
  ∃ refs, fs_WalkFiles fuel fsys dir w = Ok <$> refs ∧ walked dir refs (λ q, q ∈ names).

Lemma fileWalk_walks fuel : plain_entries → as_FileWalker fsys = None → walks fuel.
Proof.
  intros Hpl Hw dir names l Hne Hlen. unfold fs_WalkFiles. rewrite Hw.
  destruct (fileWalk_lists fuel dir "." names) as (refs & -> & [F N Hq]); [done|apply l|done| |done..|].
  { rewrite Join_root by apply l. done. }
  exists refs. split; [done|]. split; [done..|]. intros q. rewrite Hq. split.
  - intros (t & Ht & ->). rewrite Join_dot; [done|]. by apply valid_name_plain, (ls_valid _ _ _ l).
  - intros Hin. exists q. rewrite Join_dot; [done|]. by apply valid_name_plain, (ls_valid _ _ _ l).
Qed.
End read.
