(* ===== verification/LocalSpec.v ===== *)
(** * The local backend without failures

    [OSHealthy] is what the operating system promises of a directory at a moment:
    the files below it can be opened and read, and a listing has an entry for each
    file and for each directory with files.  Then the local backend is one that
    works: it reads, lists and walks the files below its root, as the theorems on
    sequences of calls ask of a backend. *)
From S2P Require Import Prelude GoStd FS Local LogicalFS PlanSpec Healthy Listing.

Section local.
Context `{GoEnv} {W : Type} `{!OS W}.

(** No regular file is above the name; the system reports ENOTDIR below one, and not
    that the file does not exist. *)
Definition no_file_above (m : gmap string string) (name : string) : Prop := ∀ a, below a name = true → m !! a = None.

(** The directory [root] at the state [w]: the caller's context is not cancelled,
    the directory is not a file or below one, no directory below it is empty, and
    no file is anything but a regular file.  A missing file does not open; the
    error says so for a name that the system can give to a file (it may refuse the
    length or a character of others) and that is not below a regular file. *)
Record OSHealthy (files : W → gmap string string) (root : string) (w : W)
    (below_root := local_files_of root (files w)) : Prop := {
  oh_ctx : os_ctx_Err w = None;
  oh_root : ∀ p, under p root = true → files w !! p = None;
  oh_open : ∀ name data, ValidPath name = true → files w !! Join [root; name] = Some data →
    ∃ f, os_DirFS_Open root name w = inl f ∧ f_reader f = bytes_reader data ∧ f_Close f = None;
  oh_tree : ∀ name, ValidPath name = true → is_Some (files w !! Join [root; name]) → mem_children below_root name = ∅;
  oh_absent : ∀ name, ValidPath name = true → name ≠ "." → files w !! Join [root; name] = None →
    mem_children below_root name = ∅ →
    ∃ e, os_DirFS_Open root name w = inr e
      ∧ ((∃ w' f, os_DirFS_Open root name w' = inl f) → no_file_above below_root name → errors_Is e fs_ErrNotExist = true);
  oh_list : ∀ name, ValidPath name = true → files w !! Join [root; name] = None →
    ∃ es err, os_DirFS_ReadDir root name w = (es, err)
      ∧ (λ e, (de_Name e, de_IsDir e)) <$> es ≡ₚ map_to_list (mem_children below_root name)
      ∧ match err with
        | None => True
        | Some e => es = [] ∧ ((∃ b w' f, plain_path b ∧ os_DirFS_Open root (Join [name; b]) w' = inl f) →
            no_file_above below_root name → errors_Is e fs_ErrNotExist = true)
        end;
  oh_entries : ∀ name e, e ∈ (os_DirFS_ReadDir root name w).1 →
    (de_IsDir e = false → file_type (de_Type e)) ∧ ∃ info, de_Info e = inl info
}.

Context (files : W → gmap string string) (fsys : LocalFS) (Hroot : abs_path (lf_path fsys)).
#[local] Instance backend : FileSystems W unit := local_fs fsys.

Section healthy.
Context (w : W) (h : OSHealthy files (lf_path fsys) w).

Lemma local_lookup name data : local_files files fsys w !! name = Some data →
  ValidPath name = true ∧ files w !! Join [lf_path fsys; name] = Some data.
Proof using Hroot. unfold local_files. rewrite local_files_lookup by done. by destruct (ValidPath name). Qed.

Lemma local_absent name : ValidPath name = true → local_files files fsys w !! name = None →
  files w !! Join [lf_path fsys; name] = None.
Proof using Hroot. unfold local_files. rewrite local_files_lookup by done. by intros ->. Qed.

(** In a tree of files no file has files below it. *)
Lemma local_unblocked name : unblocked (local_files files fsys w) name → no_file_above (local_files files fsys w) name.
Proof using Hroot h.
  intros Hu a Ha. destruct (local_files files fsys w !! a) as [data|] eqn:Hf; [|done]. exfalso.
  destruct (Hu a Ha ltac:(by rewrite Hf)) as (q & Hq & Hb). pose proof Hf as [Hv Hd]%local_lookup.
  pose proof (oh_tree _ _ _ h a Hv ltac:(by rewrite Hd)) as Hc. rewrite mem_children_empty in Hc.
  specialize (Hc q Hq). apply HasPrefix_true in Hb as [r Hr]. rewrite child_of_rel in Hc. unfold rel in Hc.
  case_bool_decide as Hdot; [by destruct (Cut q "/") as [[? ?] ?]|]. subst q. rewrite CutPrefix_app in Hc. cbn in Hc.
  by destruct (Cut r "/") as [[? ?] ?].
Qed.

Lemma open_local name w' f : OpenFile () name w' = inl f → ∃ f', os_DirFS_Open (lf_path fsys) name w' = inl f'.
Proof using.
  cbn. unfold WrapFS_OpenFile. destruct (os_ctx_Err w'); [done|]. destruct (ValidPath name); [|done].
  destruct (os_DirFS_Open _ _ _); [|done]. by eexists.
Qed.

Lemma local_DirEntries dir : ValidPath dir = true → files w !! Join [lf_path fsys; dir] = None →
  let c := mem_children (local_files files fsys w) dir in
  ∃ es, (λ e, (de_Name e, de_IsDir e)) <$> es ≡ₚ map_to_list c
    ∧ (fs_DirEntries () dir w = inl <$> es
       ∨ c = ∅ ∧ ∃ e, fs_DirEntries () dir w = [inr e] ∧ (nameable_dir () dir →
           unblocked (local_files files fsys w) dir → errors_Is e fs_ErrNotExist = true)).
Proof using Hroot h.
  intros Hd Hn c. destruct (oh_list _ _ _ h dir Hd Hn) as (es & err & Hr & Hp & He). exists es. split; [done|].
  unfold fs_DirEntries. cbn. unfold WrapFS_DirEntries. rewrite Hd, Hr, (oh_ctx _ _ _ h). cbn [negb].
  destruct err as [e|].
  - destruct He as [-> He]. right. cbn in Hp. apply Permutation_nil, map_to_list_empty_iff in Hp. split; [done|].
    exists e. split; [done|]. intros (b & Hb & w' & f & Ho) Hu. apply He; [|by apply local_unblocked].
    apply open_local in Ho as [f' Ho]. eauto.
  - left. rewrite app_nil_r. by destruct es.
Qed.

Lemma local_healthy : Healthy () (local_files files fsys) w.
Proof using Hroot h.
  split.
  - intros name data [Hv Hd]%local_lookup. destruct (oh_open _ _ _ h name data Hv Hd) as (f & Ho & Hf).
    exists f. cbn. unfold WrapFS_OpenFile. by rewrite (oh_ctx _ _ _ h), Hv, Ho.
  - intros name Hv Hd Hn%local_absent Hc; [|done]. destruct (oh_absent _ _ _ h name Hv Hd Hn Hc) as (e & Ho & He).
    exists (default e (set_path name e)). cbn. unfold WrapFS_OpenFile. rewrite (oh_ctx _ _ _ h), Hv, Ho. split; [done|].
    intros (w' & f & [f' Hf]%open_local) Hu%local_unblocked. specialize (He ltac:(eauto) Hu).
    destruct (set_path name e) as [e'|] eqn:Hs; [|done]. by rewrite (set_path_Is _ _ _ _ Hs).
  - intros dir Hd Hc. destruct (local_DirEntries dir Hd) as (es & Hp & [He|[? _]]); [|by exists es|done].
    destruct (files w !! Join [lf_path fsys; dir]) eqn:Hf; [|done]. destruct Hc. apply (oh_tree _ _ _ h); [done|]. by rewrite Hf.
  - intros dir Hd Hn%local_absent Hc; [|done]. destruct (local_DirEntries dir Hd Hn) as (es & Hp & [He|[_ He]]); [left|by right].
    rewrite Hc, map_to_list_empty in Hp. apply Permutation_nil_r in Hp. by destruct es.
Qed.

Lemma local_plain_entries : plain_entries () w.
Proof using h.
  intros dir e. unfold fs_DirEntries. cbn. unfold WrapFS_DirEntries. destruct (ValidPath dir); cbn [negb].
  2:{ by intros ?%list_elem_of_singleton. }
  pose proof (oh_entries _ _ _ h dir) as He. rewrite (oh_ctx _ _ _ h).
  destruct (os_DirFS_ReadDir (lf_path fsys) dir w) as [es err] eqn:Hr. intros Hin. apply He. cbn.
  assert (inl e ∈ (inl <$> es) ++ (match err with Some err => [inr err] | None => [] end : list (result DirEntry))) as Hin'
    by by destruct es.
  apply elem_of_app in Hin' as [(e' & [= ->] & ?)%list_elem_of_fmap|Hin']; [done|].
  by destruct err; apply list_elem_of_singleton in Hin' || apply elem_of_nil in Hin'.
Qed.
End healthy.

(** C18. On a system without failures, and as long as no directory below the root is
    empty, the local backend is one that works: it opens every file below its root
    and reads all of it, fails to open a missing one, lists the entries of a
    directory, and a walk of a directory yields each of its files once; the error
    of a missing file or directory is [fs.ErrNotExist] if the system can have a
    file of that name and no element of the path before the last one is a regular
    file.  So the theorems on sequences of updates and on storage roots hold for
    it. *)
Theorem LocalFS_healthy w : OSHealthy files (lf_path fsys) w →
  Healthy () (local_files files fsys) w ∧ plain_entries () w ∧ ∀ fuel, walks () (local_files files fsys) w fuel.
Proof.
  intros h. split; [by apply local_healthy|]. split; [by apply local_plain_entries|].
  intros fuel. apply fileWalk_walks; [by apply local_healthy|by apply local_plain_entries|done].
Qed.
End local.

(** ** The system of the small disk *)

Definition disk_tree (root : string) (m : gmap string string) : Prop :=
  map_Forall (λ p _, under p root = false
                     ∧ match local_name root p with
                       | Some n => mem_children (local_files_of root m) n = ∅
                       | None => True
                       end) m.

#[global] Instance disk_tree_dec root m : Decision (disk_tree root m).
Proof. apply map_Forall_dec. intros p d. destruct (local_name root p); apply _. Defined.

Lemma small_disk_healthy `{GoEnv} root m : abs_path root → disk_tree root m →
  @OSHealthy _ small_disk.os (λ m, m) root m.
Proof.
  intros Hroot Ht.
  assert (∀ name, (λ e, (de_Name e, de_IsDir e)) <$> (mem_entry <$> merge_sort (λ a b, String.le a.1 b.1)
    (map_to_list (mem_children (local_files_of root m) name))) ≡ₚ map_to_list (mem_children (local_files_of root m) name)) as Hp.
  { intros name. rewrite <- list_fmap_compose. rewrite <- (list_fmap_id (map_to_list _)) at 2. rewrite (merge_sort_Permutation _).
    erewrite list_fmap_ext; [done|]. intros _ [n d] _. by destruct d. }
  split; cbn.
  - done.
  - intros p Hu0. destruct (m !! p) as [d|] eqn:Hd; [|done]. destruct (Ht _ _ Hd) as [Hu _]. by rewrite Hu0 in Hu.
  - intros name data _ ->. eauto.
  - intros name Hv [d Hd]. destruct (Ht _ _ Hd) as [_ Hc]. cbn in Hc. by rewrite (proj2 (local_name_Some root _ name Hroot)) in Hc.
  - intros name _ _ -> _. by eexists.
  - intros name _ _. destruct (decide _) as [[Hc _]|]; [exists [], (Some (mem_not_exist "open" name)); by rewrite Hc|].
    eexists _, None. split; [done|]. by split.
  - intros name e. destruct (decide _); cbn; [by intros ?%elem_of_nil|].
    intros ([x b] & -> & _)%list_elem_of_fmap. cbn. split; [|eauto]. unfold de_IsDir. cbn. destruct b; [done|by left].
Qed.

Definition ex_disk : gmap string string := {["/srv/ocfl/o/f" := "hello"; "/srv/ocfl/o/d/g" := "world"; "/etc/motd" := ""]}.

#[local] Existing Instance ref_env.

Lemma LocalFS_healthy_witness :
  Healthy (FileSystems0 := local_fs ex_local) () (local_files (λ m, m) ex_local) ex_disk
  ∧ (λ r, match r with Ok ref => fr_Path ref | _ => "" end)
      <$> fs_WalkFiles (FileSystems0 := local_fs ex_local) 3 () "o" ex_disk = ["d/g"; "f"].
Proof.
  split; [|vm_compute; reflexivity].
  assert (abs_path "/srv/ocfl") as Hroot.
  { exists "srv/ocfl". split; [done|]. unfold plain_path. by repeat constructor. }
  apply (LocalFS_healthy (λ m, m) ex_local Hroot ex_disk).
  apply small_disk_healthy; [exact Hroot|]. apply (bool_decide_unpack _). vm_compute. reflexivity.
Defined.
