(* ===== verification/S3Healthy.v ===== *)
(** * The S3 backend without failures

    [S3DirLaws] is what the service promises of listings with the delimiter, and
    [S3Healthy] of its answers at a moment.  Then a bucket whose keys are paths is
    a backend that works: it reads, lists and walks its objects, as the theorems
    on sequences of calls ask of a backend. *)
From S2P Require Import Prelude GoStd FS S3 S3Spec Local LogicalFS PlanSpec Healthy Listing.

(** ** Elements of a listing *)

Definition prefix_of (dir : string) : string := default "" (list_prefix dir).

Lemma prefix_of_eq dir : prefix_of dir = if bool_decide (dir = ".") then "" else dir +:+ "/".
Proof. unfold prefix_of, list_prefix. by case_bool_decide. Qed.

Lemma rel_prefix dir p : rel dir p = CutPrefix p (prefix_of dir).
Proof. unfold rel. by rewrite prefix_of_eq. Qed.

Lemma last_nonempty_slash l b acc : b ≠ "" → last_nonempty (l ++ [b; ""]) acc = b.
Proof.
  intros Hb. revert acc. induction l as [|x l IH]; intros acc; cbn; [|by apply IH].
  by rewrite (bool_decide_false (b = "")).
Qed.

(** The path of an element, without its slash. *)
Definition element_path (dir n : string) (d : bool) : string := prefix_of dir +:+ n +:+ (if d then "/" else "").

Lemma Base_element dir n d : no_slash n → n ≠ "" → Base (element_path dir n d) = n.
Proof.
  intros Hn Hne. unfold element_path. rewrite prefix_of_eq.
  assert (∀ p l, split_on slash p = l ++ [n; ""] → Base p = n) as Hg.
  { intros p l Hp. unfold Base. rewrite Hp, last_nonempty_slash by done.
    destruct p; [by destruct l as [|? []]|]. by rewrite bool_decide_false. }
  destruct d; [|rewrite string_app_nil_r; case_bool_decide; [by apply Base_no_slash|rewrite <- string_app_assoc; by apply Base_app]].
  assert (split_on slash (n +:+ "/") = [n; ""]) as Hs.
  { change (n +:+ "/") with (n +:+ "/" +:+ ""). rewrite split_on_slash. by rewrite (split_on_no_sep n). }
  case_bool_decide; [by apply (Hg _ [])|]. apply (Hg _ (split_on slash dir)). by rewrite <- string_app_assoc, split_on_slash, Hs.
Qed.

Lemma element_path_inj dir n n' d d' : element_path dir n d = element_path dir n' d' → d = d' → n = n'.
Proof. unfold element_path. intros E <-. apply (inj (String.append _)) in E. by apply (string_app_inj_r) in E. Qed.

(** The element of a key and its entry in the directory. *)
Lemma element_child dir k e : element_of (prefix_of dir) k = Some e ↔
  ∃ n, child_of dir k = Some (n, e.2) ∧ e.1 = element_path dir n e.2.
Proof.
  unfold element_of. rewrite child_of_rel, rel_prefix. destruct (CutPrefix k (prefix_of dir)) as [t|]; cbn; [|naive_solver].
  destruct (Cut t "/") as [[n r] d]. destruct e as [p b]. cbn. unfold element_path. split.
  - intros [= <- <-]. by exists n.
  - by intros (n' & [= <- <-] & ->).
Qed.

(** ** What the service promises *)

(** A listing with the delimiter has each element once, whatever its pages. *)
Record S3DirLaws {W : Type} `{!S3API W} (bucket : string) (objects : W → gmap string string)
    (tok_key : string → string) : Prop := {
  s3d_sound : ∀ prefix token w page,
    ListObjectsV2 bucket (mkListInput prefix (Some "/") token maxKeys) w = inl page →
    NoDup (page_elements page)
    ∧ (∀ e, e ∈ page_elements page → after tok_key token e.1
        ∧ ∃ k, is_Some (objects w !! k) ∧ element_of (default "" prefix) k = Some e)
    ∧ (∀ t, lo_NextContinuationToken page = Some t → page_elements page ≠ []
        ∧ (∀ e, e ∈ page_elements page → ¬ after tok_key (Some t) e.1)
        ∧ (∀ p, after tok_key (Some t) p → after tok_key token p));
  s3d_complete : ∀ prefix token w page k e,
    ListObjectsV2 bucket (mkListInput prefix (Some "/") token maxKeys) w = inl page →
    is_Some (objects w !! k) → element_of (default "" prefix) k = Some e → after tok_key token e.1 →
    e ∈ page_elements page ∨ ∃ t, lo_NextContinuationToken page = Some t ∧ after tok_key (Some t) e.1
}.

(** The service answers its requests, and the keys of the bucket are those of a
    tree of files.  An object that is missing is reported so if the service can have
    one of that key (it refuses one that is too long). *)
Record S3Healthy {W : Type} `{!S3API W} (bucket : string) (objects : W → gmap string string) (w : W) : Prop := {
  sh_keys : ∀ k, is_Some (objects w !! k) → addressable k = true;
  sh_tree : ∀ k x, is_Some (objects w !! k) → objects w !! (k +:+ "/" +:+ x) = None;
  sh_head : ∀ k, is_Some (objects w !! k) → ∃ h, HeadObject bucket k w = inl h;
  sh_absent : ∀ k, addressable k = true → objects w !! k = None →
    ∃ e, HeadObject bucket k w = inr e ∧ ((∃ w' h, HeadObject bucket k w' = inl h) → errIsNotExist e = true);
  sh_get : ∀ k h, HeadObject bucket k w = inl h →
    ∃ b, GetObject (mkGetInput bucket k (ho_ETag h) (ho_LastModified h) None) w = inl b ∧ rd_err b = None;
  sh_close : ∀ b : reader, body_Close b = None;
  sh_list : ∀ prefix delimiter token, ∃ page,
    ListObjectsV2 bucket (mkListInput prefix delimiter token maxKeys) w = inl page
}.

(** ** The backend *)

Section backend.
Context `{GoEnv} {W : Type} `{!S3API W} (bucket : string) (objects : W → gmap string string)
  (uploads : W → gmap string (gmap Z (string * string))) (tok_key : string → string)
  (laws : S3Laws bucket objects uploads tok_key) (dlaws : S3DirLaws bucket objects tok_key).
Context (w : W) (h : S3Healthy bucket objects w).

(** A file whose next [Read] finds a body without errors. *)
Definition readable (f : s3File) : Prop := ∃ b,
  match sf_body f with Some b => inl b | None => GetObject (get_params f) w end = inl b ∧ rd_err b = None.

Lemma open_readable name : is_Some (objects w !! name) → addressable name = true →
  ∃ f, s3_openFile bucket name w = inl f ∧ sf_offset f = 0 ∧ readable f.
Proof using h.
  intros Hs [Hv Hd]%addressable_true. destruct (sh_head _ _ _ h name Hs) as [ho Hh]. unfold s3_openFile.
  rewrite Hv, bool_decide_false, Hh by done. cbn. eexists. split; [done|]. split; [done|].
  destruct (sh_get _ _ _ h name ho Hh) as (b & Hb & He). by exists b.
Qed.

Lemma Read_readable f f' d err : readable f → s3File_Read f 32768 w = Ok (f', (d, err)) →
  readable f' ∧ (err = None ∨ err = Some (ErrVar io_EOF)).
Proof using.
  intros (b & Hb & He). unfold s3File_Read. destruct (ho_ContentLength _); [|done].
  destruct (_ <=? _); [intros [= <- <- <-]; split; [by exists b|by right]|]. rewrite Hb.
  destruct (body_Read b 32768) as [b' [d' err']] eqn:Hr. intros [= <- <- <-].
  apply body_Read_spec in Hr as (_ & He' & _ & Hres). split; [by exists b'; rewrite He'|].
  destruct err' as [e|]; [right|by left]. destruct Hres as (_ & ->). by rewrite He.
Qed.

Lemma drain_readable k data fuel f : file_ok bucket k data f → objects w !! k = Some data → readable f →
  len data - sf_offset f < Z.of_nat fuel → sf_offset f ≤ len data → rd_err (drain fuel f w).1 = None.
Proof using laws.
  revert f. induction fuel as [|fuel IH]; intros f Hok Hd Hrd Hf Hle; [lia|]. cbn [drain].
  destruct (Read_spec bucket objects uploads tok_key laws k data f 32768 w _ Hok Hd eq_refl) as (g & d & err & Hr & Hok' & Hat); [done|].
  rewrite Hr. destruct (Read_readable f g d err Hrd Hr) as [Hrd' [-> | ->]]; [|done].
  inversion Hat as [d' err' Hd' Hlt Hn Hne _ Hg| |]; subst.
  assert (0 < len d) as Hpos. { destruct d; [by destruct (Hne eq_refl)|]. rewrite len_cons. pose proof (len_nonneg d). lia. }
  assert (String.length d ≤ String.length data - Z.to_nat (sf_offset f))%nat as Hb.
  { rewrite <- string_length_drop. rewrite (string_take_drop (Z.to_nat (len d)) (string_drop _ data)), <- Hd', string_length_app. lia. }
  destruct Hok as (_ & _ & _ & Ho & _).
  specialize (IH g Hok' Hd Hrd' ltac:(unfold len in *; lia) ltac:(unfold len in *; lia)).
  by destruct (drain fuel g w) as [r f'].
Qed.

(** A file of the program reads the whole object. *)
Lemma open_reads name data : objects w !! name = Some data → addressable name = true →
  ∃ f, s3_openFile bucket name w = inl f ∧ f_reader (s3_File f w) = bytes_reader data ∧ f_Close (s3_File f w) = None.
Proof using laws h.
  intros Hd Ha. destruct (open_readable name ltac:(by eexists) Ha) as (f & Ho & H0 & Hrd). exists f. split; [done|].
  destruct (openFile_ok _ _ _ _ laws _ _ _ Ho) as (data' & Hd' & Hok & _). rewrite Hd in Hd'. injection Hd' as <-.
  pose proof Hok as (_ & _ & Hl & _). unfold s3_File. rewrite Hl. cbn [default from_option id]. pose proof (len_nonneg data) as Hlen.
  pose proof (drain_readable name data (S (S (Z.to_nat (len data)))) f Hok Hd Hrd ltac:(lia) ltac:(lia)) as He.
  pose proof (drain_ok _ _ _ _ laws name data w (S (S (Z.to_nat (len data)))) f Hok Hd ltac:(lia) ltac:(lia)) as Hdata.
  destruct (drain _ f w) as [r f']. cbn in *. rewrite H0 in Hdata. split.
  - specialize (Hdata He). destruct r as [x y]. cbn in *. unfold bytes_reader. by rewrite Hdata, He.
  - unfold s3File_Close. destruct (sf_body f') as [b|]; [|done]. cbn. apply (sh_close _ _ _ h).
Qed.

(** *** Listing a directory *)

(** The elements of a directory that a listing has not reached. *)
Definition pending_elements (dir : string) (token : option string) : gset (string * bool) :=
  filter (λ e : string * bool, after tok_key token e.1)
    (list_to_set (omap (element_of (prefix_of dir)) (elements (dom (objects w))))).

Lemma pending_elem dir token e : e ∈ pending_elements dir token ↔
  after tok_key token e.1 ∧ ∃ k, is_Some (objects w !! k) ∧ element_of (prefix_of dir) k = Some e.
Proof using.
  unfold pending_elements. rewrite elem_of_filter, elem_of_list_to_set, list_elem_of_omap.
  setoid_rewrite elem_of_elements. by setoid_rewrite elem_of_dom.
Qed.

Lemma pending_size dir token : (size (pending_elements dir token) ≤ size (objects w))%nat.
Proof using.
  unfold pending_elements. etransitivity; [apply subseteq_size; intros e [_ ?]%elem_of_filter; done|].
  rewrite <- size_dom. change (size (dom (objects w))) with (length (elements (dom (objects w)))).
  generalize (elements (dom (objects w))). intros l.
  induction l as [|k l IH]; [done|]. cbn [omap list_omap length].
  destruct (element_of (prefix_of dir) k) as [e|]; [|by etransitivity; [exact IH|lia]].
  rewrite list_to_set_cons, size_union_alt, size_singleton. apply le_n_S.
  etransitivity; [|exact IH]. apply subseteq_size. by intros x [? _]%elem_of_difference.
Qed.

(** An entry as its name and kind, from its element. *)
Definition entry_of (e : string * bool) : string * bool := (Base e.1, e.2).

Lemma page_entries_elements page :
  (λ e, (de_Name e, de_IsDir e)) <$> page_entries page = entry_of <$> page_elements page.
Proof using. unfold page_entries, page_elements. rewrite !fmap_app, <- !list_fmap_compose. done. Qed.

Lemma dir_pages_elements n dir token (hasContent : bool) :
  (size (pending_elements dir token) < n)%nat → (hasContent = true ∨ pending_elements dir token ≠ ∅) →
  ∃ es, dir_pages n bucket dir token hasContent w = inl <$> es
    ∧ (λ e, (de_Name e, de_IsDir e)) <$> es ≡ₚ entry_of <$> elements (pending_elements dir token).
Proof using dlaws h.
  revert token hasContent. induction n as [|n IH]; intros token hasContent Hn Hc; [lia|]. cbn [dir_pages].
  destruct (sh_list _ _ _ h (list_prefix dir) (Some "/") token) as [page Hp]. rewrite Hp.
  destruct (s3d_sound _ _ _ dlaws _ _ _ _ Hp) as (Hnd & Hin & Hnext).
  assert (∀ e, e ∈ page_elements page → e ∈ pending_elements dir token) as Hin' by (intros e He; by apply pending_elem, Hin).
  assert (∀ e, e ∈ pending_elements dir token → e ∈ page_elements page
    ∨ ∃ t, lo_NextContinuationToken page = Some t ∧ e ∈ pending_elements dir (Some t)) as Hcomp.
  { intros e (Ha & k & Hk & He)%pending_elem.
    destruct (s3d_complete _ _ _ dlaws _ _ _ _ k e Hp Hk He Ha) as [?|(t & Ht & Hat)]; [by left|].
    right. exists t. split; [done|]. apply pending_elem. eauto. }
  assert (page_entries page = [] ↔ page_elements page = []) as Hnil.
  { pose proof (page_entries_elements page) as E. split; intros Hx; rewrite Hx in E; cbn in E.
    - by destruct (page_elements page).
    - by destruct (page_entries page). }
  destruct (page_entries page) as [|e0 es0] eqn:Hpe.
  - assert (page_elements page = []) as Hpl by by apply Hnil.
    assert (pending_elements dir token = ∅) as He.
    { apply leibniz_equiv, elem_of_equiv_empty. intros e [Hx|(t & Ht & _)]%Hcomp; [by rewrite Hpl in Hx; apply elem_of_nil in Hx|].
      by destruct (Hnext t Ht) as [? _]. }
    destruct Hc as [-> |Hc]; [|done]. exists []. split; [done|]. by rewrite He, elements_empty.
  - rewrite <- Hpe in *. assert ((λ e, (de_Name e, de_IsDir e)) <$> sort_slice by_name (page_entries page) ≡ₚ entry_of <$> page_elements page) as Hsort
      by by rewrite sort_slice_perm, page_entries_elements.
    destruct (lo_NextContinuationToken page) as [t|] eqn:Ht.
    + destruct (Hnext t eq_refl) as (Hne & Hnot & Hmono).
      assert (pending_elements dir (Some t) ⊂ pending_elements dir token) as Hsub.
      { split; [intros e (Ha & Hk)%pending_elem; apply pending_elem; auto|].
        destruct (page_elements page) as [|e l]; [done|]. intros Hsub.
        specialize (Hsub e (Hin' e ltac:(left))). apply pending_elem in Hsub as [Ha _]. by apply (Hnot e ltac:(left)). }
      apply subset_size in Hsub as Hsz. destruct (IH (Some t) true) as (es & Hes & Hperm); [lia|by left|].
      exists (sort_slice by_name (page_entries page) ++ es). rewrite !fmap_app, Hes. split; [done|].
      rewrite Hsort, Hperm, <- fmap_app. apply fmap_Permutation, NoDup_Permutation.
      * apply NoDup_app. split_and!; [done| |apply NoDup_elements]. intros e He He'%elem_of_elements.
        apply pending_elem in He' as [Ha _]. by apply (Hnot e He).
      * apply NoDup_elements.
      * intros e. rewrite elem_of_app, !elem_of_elements. split; [intros [?|?]; [by apply Hin'|by apply Hsub]|].
        intros [?|(t' & [= <-] & ?)]%Hcomp; auto.
    + exists (sort_slice by_name (page_entries page)). rewrite app_nil_r. split; [done|]. rewrite Hsort.
      apply fmap_Permutation, NoDup_Permutation; [done|apply NoDup_elements|]. intros e. rewrite elem_of_elements.
      split; [apply Hin'|]. by intros [?|(t' & [=] & _)]%Hcomp.
Qed.

(** The first element of a key below a directory. *)
Lemma key_child dir k n d : ValidPath dir = true → is_Some (objects w !! k) → child_of dir k = Some (n, d) →
  no_slash n ∧ n ≠ "" ∧ ∃ r, k = Join [dir; n] +:+ (if d then "/" +:+ r else "").
Proof using h.
  intros Hdir Hk Hc. apply (sh_keys _ _ _ h), addressable_true in Hk. change (valid_name k) in Hk.
  rewrite child_of_rel in Hc. destruct (rel dir k) as [t|] eqn:Hr; [|done]. cbn in Hc.
  destruct (Cut t "/") as [[n' r] d'] eqn:Ht. injection Hc as -> ->.
  assert (valid_name t) as Hvt.
  { unfold rel in Hr. apply CutPrefix_Some in Hr as ->. case_bool_decide; [done|].
    rewrite <- string_app_assoc in Hk. by apply valid_name_slash in Hk as [_ ?]. }
  pose proof (rel_inv _ _ _ Hdir (valid_name_plain _ Hvt) Hr) as Ek.
  pose proof (Cut_spec t) as Hs. rewrite Ht in Hs. destruct Hs as (Hn & Et & _). split; [done|].
  assert (valid_name n) as Hvn by (destruct d; subst t; [by apply valid_name_slash in Hvt as [? _]|done]).
  split; [by apply plain_path_nonempty, valid_name_plain|]. exists r. rewrite Ek. destruct d; subst t.
  - apply valid_name_slash in Hvt as [_ Hr']. rewrite <- (Join_Join dir n r) by (done || by apply valid_name_plain).
    rewrite Join_dir; [|by apply valid_name_Join|by apply valid_name_plain].
    by rewrite bool_decide_false by (apply Join_not_dot; [done|by apply valid_name_plain]).
  - by rewrite string_app_nil_r.
Qed.

(** A name is a file or a directory, not both. *)
Lemma children_kind dir k k' n d d' : ValidPath dir = true → is_Some (objects w !! k) → is_Some (objects w !! k') →
  child_of dir k = Some (n, d) → child_of dir k' = Some (n, d') → d = d'.
Proof using h.
  intros Hdir Hk Hk' Hc Hc'. destruct (key_child dir k n d Hdir Hk Hc) as (_ & _ & r & E).
  destruct (key_child dir k' n d' Hdir Hk' Hc') as (_ & _ & r' & E').
  destruct d, d'; try done; rewrite ?string_app_nil_r in *; subst; exfalso.
  - rewrite (sh_tree _ _ _ h _ r Hk') in Hk. by destruct Hk.
  - rewrite (sh_tree _ _ _ h _ r' Hk) in Hk'. by destruct Hk'.
Qed.

Lemma children_pending dir : ValidPath dir = true →
  entry_of <$> elements (pending_elements dir None) ≡ₚ map_to_list (mem_children (objects w) dir).
Proof using h.
  intros Hdir.
  assert (∀ e, e ∈ pending_elements dir None → ∃ k n, is_Some (objects w !! k) ∧ child_of dir k = Some (n, e.2)
    ∧ e.1 = element_path dir n e.2 ∧ Base e.1 = n) as Hel.
  { intros e (_ & k & Hk & (n & Hc & He)%element_child)%pending_elem. exists k, n. split_and!; [done..|].
    destruct (key_child dir k n _ Hdir Hk Hc) as (Hn & Hne & _). rewrite He. by apply Base_element. }
  apply NoDup_Permutation; [|apply NoDup_map_to_list|].
  - apply NoDup_fmap_2_strong; [|apply NoDup_elements]. intros e e' He%elem_of_elements He'%elem_of_elements [= Hb Hd].
    apply Hel in He as (k & n & _ & _ & E & B), He' as (k' & n' & _ & _ & E' & B').
    destruct e as [p d], e' as [p' d']. cbn in *. subst. by rewrite Hb, B' in B; subst.
  - intros [n d]. rewrite elem_of_map_to_list, list_elem_of_fmap. setoid_rewrite elem_of_elements. split.
    + intros (e & [= -> ->] & He). destruct (Hel e He) as (k & n & Hk & Hc & _ & ->).
      eapply mem_children_in; [done|done|]. intros k' d' Hk' Hc'. by eapply (children_kind dir k' k).
    + intros (k & Hk & Hc)%mem_children_inv. exists (element_path dir n d, d).
      destruct (key_child dir k n d Hdir Hk Hc) as (Hn & Hne & _). unfold entry_of. cbn. split; [by rewrite Base_element|].
      apply pending_elem. split; [done|]. exists k. split; [done|]. apply element_child. by exists n.
Qed.

(** *** The backend works *)

Lemma files_objects : bucket_files objects w = objects w.
Proof using h.
  apply map_eq. intros k. rewrite bucket_files_lookup. destruct (addressable k) eqn:Ha; [done|].
  destruct (objects w !! k) eqn:Hk; [|done]. by rewrite (sh_keys _ _ _ h k) in Ha.
Qed.

Context (fuel : nat) (f : BucketFS) (Hbucket : bf_bucket f = bucket) (Hfuel : (size (objects w) < fuel)%nat).
#[local] Instance bucket_backend : FileSystems W unit := bucket_fs fuel f.

Lemma bucket_DirEntries dir : ValidPath dir = true →
  (mem_children (objects w) dir ≠ ∅ → ∃ es, fs_DirEntries () dir w = inl <$> es
    ∧ (λ e, (de_Name e, de_IsDir e)) <$> es ≡ₚ map_to_list (mem_children (objects w) dir))
  ∧ (mem_children (objects w) dir = ∅ → ∃ e, fs_DirEntries () dir w = [inr e] ∧ errors_Is e fs_ErrNotExist = true).
Proof using dlaws h Hbucket Hfuel.
  intros Hdir. pose proof (pending_size dir None) as Hsz. pose proof (children_pending dir Hdir) as Hperm.
  unfold fs_DirEntries. cbn. unfold BucketFS_DirEntries, s3_dirEntries. rewrite Hbucket, Hdir. cbn [negb]. split.
  - intros Hc. destruct (dir_pages_elements fuel dir None false) as (es & -> & He); [lia| |exists es; by rewrite He].
    right. intros Hp. rewrite Hp, elements_empty in Hperm. cbn in Hperm. symmetry in Hperm.
    by apply Permutation_nil_r, map_to_list_empty_iff in Hperm.
  - intros Hc. rewrite Hc, map_to_list_empty in Hperm. apply Permutation_nil_r in Hperm.
    apply fmap_nil_inv, elements_empty_inv, leibniz_equiv in Hperm.
    destruct fuel as [|n]; [lia|]. cbn [dir_pages].
    destruct (sh_list _ _ _ h (list_prefix dir) (Some "/") None) as [page Hp]. rewrite Hp.
    destruct (s3d_sound _ _ _ dlaws _ _ _ _ Hp) as (_ & Hin & _).
    destruct (page_entries page) as [|e es] eqn:Hpe; [by eexists|]. exfalso.
    pose proof (page_entries_elements page) as E. rewrite Hpe in E. destruct (page_elements page) as [|e' es'] eqn:Hpl; [done|].
    assert (e' ∈ pending_elements dir None) as He by (apply pending_elem, Hin; left).
    rewrite Hperm in He. by apply not_elem_of_empty in He.
Qed.

Lemma bucket_healthy : Healthy () (bucket_files objects) w.
Proof using laws dlaws h Hbucket Hfuel.
  split; rewrite files_objects.
  - intros name data Hd. destruct (open_reads name data Hd) as (g & Ho & Hr); [apply (sh_keys _ _ _ h); by eexists|].
    exists (s3_File g w). cbn. unfold BucketFS_OpenFile. by rewrite Hbucket, Ho.
  - intros name Hv Hd Hn _. destruct (sh_absent _ _ _ h name) as (e & Hh & He); [by apply addressable_true|done|].
    unfold nameable. cbn. unfold BucketFS_OpenFile, s3_openFile. rewrite Hbucket, Hv, bool_decide_false, Hh by done. cbn.
    eexists. split; [done|]. intros (w' & f' & Hf) _. rewrite He; [done|]. exists w'.
    destruct (HeadObject bucket name w') as [ho|]; [by exists ho|done].
  - intros dir Hdir Hc. by apply (bucket_DirEntries dir Hdir).
  - intros dir Hdir _ Hc. right. destruct (bucket_DirEntries dir Hdir) as [_ (e & He & Hne)]; [done|]. by exists e.
Qed.

(** The entries of a bucket are directories and irregular files. *)
Lemma page_entry e page : e ∈ page_entries page → (de_IsDir e = false → file_type (de_Type e)) ∧ ∃ info, de_Info e = inl info.
Proof using.
  unfold page_entries. intros [(p & -> & _)%list_elem_of_fmap|(i & -> & _)%list_elem_of_fmap]%elem_of_app.
  - split; [done|by eexists].
  - split; [by right|by eexists].
Qed.

Lemma dir_pages_entry n dir token c e : inl e ∈ dir_pages n bucket dir token c w → ∃ page, e ∈ page_entries page.
Proof using.
  revert token c. induction n as [|n IH]; intros token c; cbn [dir_pages]; [by intros ?%list_elem_of_singleton|].
  destruct (ListObjectsV2 _ _ w) as [page|]; [|by intros ?%list_elem_of_singleton].
  destruct (page_entries page) as [|e0 es] eqn:Hp; [destruct c; [by intros ?%elem_of_nil|by intros ?%list_elem_of_singleton]|].
  rewrite <- Hp. intros [(e' & [= ->] & Hin)%list_elem_of_fmap|Hin]%elem_of_app.
  - exists page. by rewrite sort_slice_perm in Hin.
  - destruct (lo_NextContinuationToken page); [by apply IH in Hin|by apply elem_of_nil in Hin].
Qed.

Lemma bucket_plain_entries : plain_entries () w.
Proof using Hbucket.
  intros dir e. unfold fs_DirEntries. cbn. unfold BucketFS_DirEntries, s3_dirEntries. rewrite Hbucket.
  destruct (ValidPath dir); cbn [negb]; [|by intros ?%list_elem_of_singleton].
  intros (page & Hp)%dir_pages_entry. by apply page_entry in Hp.
Qed.

Lemma bucket_walks n : walks () (bucket_files objects) w n.
Proof using laws h Hbucket Hfuel.
  intros dir names l _ _. rewrite files_objects in l. pose proof (ls_dir _ _ _ l) as Hdir.
  unfold fs_WalkFiles. cbn. unfold BucketFS_WalkFiles, s3_walkFiles. rewrite Hbucket, Hdir. cbn [negb].
  destruct (walk_pages_spec bucket objects uploads tok_key laws fuel () dir None w) as (items & -> & Hnd & Hkeys).
  { intros token. apply (sh_list _ _ _ h). }
  { eapply Nat.le_lt_trans; [|exact Hfuel]. rewrite <- size_dom. apply subseteq_size. by intros k [_ ?]%elem_of_filter. }
  exists (walk_ref () dir <$> items). rewrite <- list_fmap_compose. split; [done|].
  assert (∀ i, i ∈ items → is_Some (objects w !! si_Key i) ∧ rel dir (si_Key i) = Some (fr_Path (walk_ref () dir i))) as Hi.
  { intros i Hin. assert (si_Key i ∈ pending objects tok_key w dir None) as Hp by (apply Hkeys; by apply list_elem_of_fmap_2).
    apply elem_of_filter in Hp as [[Hp _] Hs%elem_of_dom]. split; [done|]. rewrite rel_prefix. unfold walk_ref. cbn [fr_Path].
    apply HasPrefix_true in Hp as [r E]. change (default "" (list_prefix dir)) with (prefix_of dir) in E. rewrite E, CutPrefix_app.
    rewrite prefix_of_eq. case_bool_decide; [done|]. by rewrite TrimPrefix_app. }
  split.
  - by intros r (i & -> & _)%list_elem_of_fmap.
  - rewrite <- list_fmap_compose. apply NoDup_fmap_2_strong; [|by eapply NoDup_fmap_1]. intros i i' Hin Hin' E.
    apply (NoDup_fmap_elem si_Key items); [done..|]. destruct (Hi i Hin) as [_ R], (Hi i' Hin') as [_ R']. unfold compose in E.
    rewrite rel_prefix in R, R'. apply CutPrefix_Some in R, R'. by rewrite R, R', E.
  - intros q. split.
    + intros (r & (i & -> & Hin)%list_elem_of_fmap & <-). destruct (Hi i Hin) as [Hs R]. by eapply (ls_only _ _ _ l).
    + intros Hq. pose proof (valid_name_plain q (ls_valid _ _ _ l q Hq)) as Hpq.
      assert (Join [dir; q] ∈ si_Key <$> items) as (i & Ei & Hin)%list_elem_of_fmap.
      { apply Hkeys, elem_of_filter. rewrite elem_of_dom. split; [split; [|done]|by apply (ls_in _ _ _ l)].
        pose proof (rel_Join dir q Hdir Hpq) as R. rewrite rel_prefix in R. apply CutPrefix_Some in R.
        apply HasPrefix_true. by exists q. }
      exists (walk_ref () dir i). split; [by apply list_elem_of_fmap_2|]. destruct (Hi i Hin) as [_ R].
      rewrite <- Ei, rel_Join in R by done. by injection R.
Qed.
End backend.

(** C16. When the service answers its requests and the keys of the bucket are those
    of a tree of files, the S3 backend is one that works: it opens every object and
    reads all of it, fails to open a missing one (with [fs.ErrNotExist] if the
    service can have an object of that name), lists the entries of a directory,
    each once, however the service cuts the listing into pages, and a walk of a
    directory yields each of its objects once; so the theorems on sequences of
    updates and on storage roots hold for it. *)
Theorem BucketFS_healthy `{GoEnv} {W : Type} `{!S3API W} bucket (objects : W → gmap string string) uploads tok_key fuel f w :
  S3Laws bucket objects uploads tok_key → S3DirLaws bucket objects tok_key → S3Healthy bucket objects w →
  bf_bucket f = bucket → (size (objects w) < fuel)%nat →
  Healthy (FileSystems0 := bucket_fs fuel f) () (bucket_files objects) w
  ∧ plain_entries (FileSystems0 := bucket_fs fuel f) () w
  ∧ ∀ n, walks (FileSystems0 := bucket_fs fuel f) () (bucket_files objects) w n.
Proof.
  intros laws dlaws h Hb Hf. split_and!.
  - by eapply bucket_healthy.
  - by eapply bucket_plain_entries.
  - intros n. by eapply bucket_walks.
Qed.

(** ** The service in memory *)

Lemma split_elements (g : string → S3Item) (es : list (string * bool)) : (∀ p, si_Key (g p) = p) →
  ((λ p, (p, true)) <$> omap (λ e : string * bool, if e.2 then Some e.1 else None) es)
    ++ ((λ i, (si_Key i, false)) <$> omap (λ e : string * bool, if e.2 then None else Some (g e.1)) es) ≡ₚ es.
Proof.
  intros Hg. induction es as [|[p []] es IH]; [done| |]; cbn.
  - by apply perm_skip.
  - rewrite <- Permutation_middle, Hg. by apply perm_skip.
Qed.

Lemma mem_page_elements prefix token w page :
  mem_s3.list_objects (mkListInput prefix (Some "/") token maxKeys) w = inl page →
  lo_NextContinuationToken page = None ∧ page_elements page ≡ₚ mem_s3.elements_after (default "" prefix) token w.
Proof.
  intros [= <-]. split; [done|]. unfold page_elements. cbn [lo_CommonPrefixes lo_Contents].
  by apply (split_elements (λ p, mkItem p (len (default "" (mem_s3.objects w !! p))) 0)).
Qed.

Lemma mem_elements_after prefix token w e : e ∈ mem_s3.elements_after prefix token w ↔
  after (λ t, t) token e.1 ∧ ∃ k, is_Some (mem_s3.objects w !! k) ∧ element_of prefix k = Some e.
Proof.
  unfold mem_s3.elements_after. rewrite list_elem_of_filter, elem_of_remove_dups, list_elem_of_omap.
  setoid_rewrite list_elem_of_fmap. split.
  - intros (Ha & k & ([k' d] & -> & Hin%elem_of_map_to_list) & He). split; [done|]. exists k'. split; [by exists d|done].
  - intros (Ha & k & [d Hk] & He). split; [done|]. exists k. split; [|done]. exists (k, d). split; [done|]. by apply elem_of_map_to_list.
Qed.

Lemma mem_dir_laws : S3DirLaws "b" mem_s3.objects (λ t, t).
Proof.
  split.
  - intros prefix token w page [Hn Hp]%mem_page_elements. split_and!.
    + rewrite Hp. apply NoDup_filter, NoDup_remove_dups.
    + intros e. rewrite Hp. apply mem_elements_after.
    + by rewrite Hn.
  - intros prefix token w page k e [_ Hp]%mem_page_elements Hk He Ha. left. rewrite Hp. apply mem_elements_after. eauto.
Qed.

(** The keys of a tree of files. *)
Definition bucket_tree (m : gmap string string) : Prop :=
  map_Forall (λ k _, addressable k = true ∧ map_Forall (λ k' _, HasPrefix k' (k +:+ "/") = false) m) m.

#[global] Instance bucket_tree_dec m : Decision (bucket_tree m).
Proof. apply map_Forall_dec. intros k d. apply _. Defined.

Lemma mem_healthy_bucket w : bucket_tree (mem_s3.objects w) → S3Healthy "b" mem_s3.objects w.
Proof.
  intros Ht. split.
  - intros k [d Hk]. by apply (Ht _ _ Hk).
  - intros k x [d Hk]. destruct (mem_s3.objects w !! (k +:+ "/" +:+ x)) as [y|] eqn:Hx; [|done].
    pose proof (proj2 (Ht _ _ Hk) _ _ Hx) as Hp. cbn beta in Hp. by rewrite string_app_assoc, HasPrefix_app in Hp.
  - intros k [d Hk]. cbn. unfold mem_s3.head. rewrite Hk. by eexists.
  - intros k _ Hk. cbn. unfold mem_s3.head. rewrite Hk. by eexists.
  - intros k h. cbn. unfold mem_s3.head, mem_s3.get. cbn. destruct (mem_s3.objects w !! k); [|done]. intros _. by eexists.
  - done.
  - intros prefix delimiter token. cbn. unfold mem_s3.list_objects. cbn. destruct delimiter; by eexists.
Qed.

#[local] Existing Instance ref_env.

Definition ex_objects : mem_s3.state := ({["o/v1/f" := "hello"; "o/v1/d/g" := "world"; "p" := ""]}, ∅).

Lemma BucketFS_healthy_witness :
  Healthy (FileSystems0 := bucket_fs 4 ex_backend) () (bucket_files mem_s3.objects) ex_objects
  ∧ (λ e, match e with inl e => (de_Name e, de_IsDir e) | _ => ("", false) end)
      <$> fs_DirEntries (FileSystems0 := bucket_fs 4 ex_backend) () "o/v1" ex_objects = [("d", true); ("f", false)].
Proof.
  split; [|vm_compute; reflexivity].
  apply (BucketFS_healthy "b" mem_s3.objects snd (λ t, t) 4 ex_backend ex_objects mem_s3.laws mem_dir_laws); [|done|].
  - apply mem_healthy_bucket. apply (bool_decide_unpack _). vm_compute. reflexivity.
  - apply (bool_decide_unpack _). vm_compute. reflexivity.
Defined.
