(* ===== verification/Root.v ===== *)
(** * Storage roots ([src/root.go])

    Opening and initialising a storage root, its layout and the configuration
    files of its extensions.  The methods of [Root] that return objects are in
    Object.v, those that validate them in ValidateObject.v. *)
From S2P Require Import Prelude GoStd Spec FS Namaste Digest Extension.

Definition layoutConfigFile : string := "ocfl_layout.json".
Definition descriptionKey : string := "description".
Definition extensionKey : string := "extension".
Definition extensionConfigFile : string := "config.json".

(** [err != nil && !errors.Is(err, fs.ErrNotExist)] *)
Definition unless_not_exist (err : option error) : option error :=
  match err with
  | Some err => if errors_Is err fs_ErrNotExist then None else Some err
  | None => None
  end.

(** [json.NewDecoder(f).Decode] of an object: [None] is [null]. *)
Class LayoutJSON := { layout_Decode : reader → result (option cfg) }.

(** [src/root.go:387-391] initRootArgs *)
Record initRootArgs := mkInitRootArgs {
  ira_spec : Spec;
  ira_layoutDesc : string;
  ira_extensions : list Extension
}.

(** [src/root.go:28-39] Root: [None] is a nil layout, map or pointer *)
Record Root (FS : Type) := mkRoot {
  r_fs : FS;
  r_dir : string;
  r_spec : Spec;
  r_layout : option Extension;
  r_layoutConfig : option (gmap string string);
  r_initArgs : option initRootArgs
}.
Arguments mkRoot {FS} r_fs r_dir r_spec r_layout r_layoutConfig r_initArgs.
Arguments r_fs {FS} r.
Arguments r_dir {FS} r.
Arguments r_spec {FS} r.
Arguments r_layout {FS} r.
Arguments r_layoutConfig {FS} r.
Arguments r_initArgs {FS} r.

Section root.
Context `{GoEnv, Hashes, ConfigJSON, LayoutJSON} {W FS : Type} `{!FileSystems W FS}.
Implicit Types (r : Root FS) (w : W).

(** Assignments to fields of [*r]. *)
Definition set_spec (s : Spec) r : Root FS :=
  mkRoot (r_fs r) (r_dir r) s (r_layout r) (r_layoutConfig r) (r_initArgs r).
Definition set_layout (l : option Extension) r : Root FS :=
  mkRoot (r_fs r) (r_dir r) (r_spec r) l (r_layoutConfig r) (r_initArgs r).
Definition set_layoutConfig (c : option (gmap string string)) r : Root FS :=
  mkRoot (r_fs r) (r_dir r) (r_spec r) (r_layout r) c (r_initArgs r).

(** [src/root.go:384-403] RootOption, InitRoot *)
Definition InitRoot (spec : Spec) (layoutDesc : string) (exts : list Extension) (r : Root FS) : Root FS :=
  mkRoot (r_fs r) (r_dir r) (r_spec r) (r_layout r) (r_layoutConfig r)
    (Some (mkInitRootArgs spec layoutDesc exts)).

(** [m[k]] on a map that may be nil. *)
Definition config_get (c : option (gmap string string)) (k : string) : string :=
  default "" (default ∅ c !! k).

(** [src/root.go:80-84] Root.Description *)
Definition Description r : string := config_get (r_layoutConfig r) descriptionKey.

(** [src/root.go:96-103] Root.LayoutName *)
Definition LayoutName r : string := match r_layout r with None => "" | Some l => Name l end.

(** [src/root.go:127-141] Root.ResolveID *)
Definition ResolveID r (id : string) : res string :=
  match r_layout r with
  | None => Err (ErrVar ErrLayoutUndefined)
  | Some layout =>
      objPath ← wrap_err ("object id: " +:+ id) (Resolve layout id);
      if negb (ValidPath objPath) then Err (ErrNew "layout resolved id to an invalid path")
      else Ok objPath
  end.

(** [src/root.go:143-161] Root.ObjectDeclarations: the files that are yielded, up
    to the first error; the fuel bounds the depth of the tree *)
Fixpoint object_declarations (files : list (res (FileRef FS))) : list (res (FileRef FS)) :=
  match files with
  | [] => []
  | Ok f :: files =>
      match ParseNamaste (Base (fr_Path f)) with
      | Ok decl => if Namaste_IsObject decl then Ok f :: object_declarations files
                   else object_declarations files
      | _ => object_declarations files
      end
  | Err err :: _ => [Err err]
  | Panic :: _ => [Panic]
  end.
Definition ObjectDeclarations (fuel : nat) r w : list (res (FileRef FS)) :=
  object_declarations (fs_WalkFiles fuel (r_fs r) (r_dir r) w).

(** ** Configuration files *)

(** [src/root.go:369-382] writeExtensionConfig *)
Definition writeExtensionConfig (fsys : FS) (root : string) (config : Extension) : IO W (option error) :=
  let confPath := Join [root; extensionsDir; Name config; extensionConfigFile] in
  match ext_Marshal config with
  | inr err => mret (Some (ErrWrap "encoding config" err))
  | inl b =>
      '(_, err) ← fs_Write fsys confPath (bytes_reader b);
      mret (ErrWrap "writing config" <$> err)
  end.

(** [src/root.go:348-367] readExtensionConfig *)
Definition readExtensionConfig (fsys : FS) (root name : string) w : res Extension :=
  let confPath := Join [root; extensionsDir; name; extensionConfigFile] in
  match OpenFile fsys confPath w with
  | inr err => Err (ErrWrap "opening extension config" err)
  | inl f =>
      b ← wrap_err "reading extension config" (io_ReadAll (f_reader f));
      match Registry_Unmarshal DefaultExtensions b with
      | inr err => Err (ErrWrap "extension config has errors" err)
      | inl ext => Ok ext
      end
  end.

(** [Decode] into a [map[string]string]: [null] stores the zero value, any other
    type is an error. *)
Definition fill_strings (o : cfg) : result (gmap string string) :=
  let '(m, bad) := foldl (λ '(m, bad) '(k, v),
    match v with
    | CStr s => (<[k := s]> m, bad)
    | CNull => (<[k := ""]> m, bad)
    | _ => (m, true)
    end) (∅ : gmap string string, false) o in
  if bad : bool then inr err_json_type else inl m.

(** [src/root.go:287-306] Root.readLayoutConfig *)
Definition readLayoutConfig r w : Root FS * option error :=
  let layoutPath := Join [r_dir r; layoutConfigFile] in
  match OpenFile (r_fs r) layoutPath w with
  | inr err =>
      if errors_Is err fs_ErrNotExist then (set_layoutConfig None r, None) else (r, Some err)
  | inl f =>
      match layout_Decode (f_reader f) with
      | inr err => (r, Some (ErrWrap "storage root layout config is invalid" err))
      | inl None => (set_layoutConfig None r, None)
      | inl (Some o) =>
          match fill_strings o with
          | inr err => (r, Some (ErrWrap "storage root layout config is invalid" err))
          | inl layout => (set_layoutConfig (Some layout) r, None)
          end
      end
  end.

(** [src/root.go:254-285] Root.getLayout *)
Definition getLayout r w : Root FS * res unit :=
  let '(r, err) := readLayoutConfig (set_layout None (set_layoutConfig None r)) w in
  match err with
  | Some err => (r, Err err)
  | None =>
      let name := config_get (r_layoutConfig r) extensionKey in
      if bool_decide (name = "") then (r, Ok ())
      else
        let ext := match readExtensionConfig (r_fs r) (r_dir r) name w with
                   | Err err =>
                       if negb (errors_Is err fs_ErrNotExist)
                       then Err (ErrWrap "setting layout extension" err)
                       else match ext_Get name with inl ext => Ok ext | inr err => Err err end
                   | ext => ext
                   end in
        match ext with
        | Err err => (r, Err err)
        | Panic => (r, Panic)
        | Ok ext =>
            if negb (is_Layout ext) then (r, Err (ErrWrap "setting layout extension" (ErrVar ext_ErrNotLayout)))
            else match Layout_Valid ext with
                 | Some err => (r, Err (ErrWrap "setting layout extension" err))
                 | None => (set_layout (Some ext) r, Ok ())
                 end
        end
  end.

(** The configuration that [setLayout] writes, and the map it keeps. *)
Definition layout_config (layout : Extension) (desc : string) : cfg :=
  [(descriptionKey, CStr desc); (extensionKey, CStr (Name layout))].
Definition layout_map (layout : Extension) (desc : string) : gmap string string :=
  <[extensionKey := Name layout]> {[descriptionKey := desc]}.

(** [src/root.go:308-346] Root.setLayout: a method of the nil layout panics *)
Definition setLayout r (layout : option Extension) (desc : string) : IO W (Root FS * res unit) :=
  match as_WriteFS (r_fs r) with
  | None => mret (r, Err (ErrNew "storage root backend is not writable"))
  | Some _ =>
      let layoutPath := Join [r_dir r; layoutConfigFile] in
      match layout, r_layout r with
      | None, Some _ =>
          let r := set_layoutConfig None (set_layout None r) in
          err ← fs_Remove (r_fs r) layoutPath;
          match err with
          | Some err => mret (r, if errors_Is err fs_ErrNotExist then Ok () else Err err)
          | None => mret (r, Ok ())
          end
      | None, None => mret (r, Panic)
      | Some layout, _ =>
          match cfg_encode (layout_config layout desc) with
          | inr err => mret (r, Err (ErrWrap "encoding" err))
          | inl b =>
              '(_, err) ← fs_Write (r_fs r) layoutPath (bytes_reader b);
              match err with
              | Some err => mret (r, Err (ErrWrap "writing" err))
              | None =>
                  err ← writeExtensionConfig (r_fs r) (r_dir r) layout;
                  match err with
                  | Some err => mret (r, Err (ErrWrap "setting root layout extension" err))
                  | None => mret (set_layout (Some layout) (set_layoutConfig (Some (layout_map layout desc)) r), Ok ())
                  end
              end
          end
      end
  end.

(** ** Opening a root *)

(** The loop over the extensions of a new root: the first layout becomes the
    root's, the configuration of every other extension is written. *)
Fixpoint init_extensions (exts : list Extension) (desc : string) (haveLayout : bool) r
    : IO W (Root FS * res unit) :=
  match exts with
  | [] => mret (r, Ok ())
  | e :: exts =>
      if is_Layout e && negb haveLayout then
        '(r, err) ← setLayout r (Some e) desc;
        match err with
        | Ok _ => init_extensions exts desc true r
        | err => mret (r, err)
        end
      else
        err ← writeExtensionConfig (r_fs r) (r_dir r) e;
        match err with
        | Some err => mret (r, Err err)
        | None => init_extensions exts desc haveLayout r
        end
  end.

(** [src/root.go:218-252] Root.init *)
Definition root_init r : IO W (Root FS * res unit) :=
  match r_initArgs r with
  | None => mret (r, Ok ())
  | Some args =>
      if Spec_Empty (ira_spec args)
      then mret (r, Err (ErrNew "can't initialize storage root: missing OCFL spec version"))
      else match getOCFL (ira_spec args) with
           | Err err => mret (r, Err (ErrWrap "OCFL" err))
           | Panic => mret (r, Panic)
           | Ok _ =>
               match as_WriteFS (r_fs r) with
               | None => mret (r, Err (ErrNew "storage root backend is not writable"))
               | Some _ =>
                   err ← WriteDeclaration (r_fs r) (r_dir r) (mkNamaste NamasteTypeRoot (ira_spec args));
                   match err with
                   | Some err => mret (r, Err err)
                   | None =>
                       init_extensions (ira_extensions args) (ira_layoutDesc args) false
                         (set_spec (ira_spec args) r)
                   end
               end
           end
  end.

(** Open an existing root, from the entries of its directory. *)
Definition open_root r (entries : list DirEntry) w : res (Root FS) :=
  let decl := match FindNamaste entries with
              | Ok decl =>
                  if negb (bool_decide (nam_Type decl = NamasteTypeRoot))
                  then Err (ErrNew "NAMASTE declaration has wrong type") else Ok decl
              | decl => decl
              end in
  decl ← wrap_err "not an OCFL storage root" decl;
  _ ← wrap_err "OCFL" (getOCFL (nam_Version decl));
  match getLayout (set_spec (nam_Version decl) r) w with
  | (r, Ok _) => Ok r
  | (_, Err err) => Err err
  | (_, Panic) => Panic
  end.

(** [src/root.go:41-78] NewRoot *)
Definition NewRoot (fsys : FS) (dir : string) (opts : list (Root FS → Root FS)) : IO W (res (Root FS)) :=
  let r := foldl (λ r opt, opt r) (mkRoot fsys dir "" None None None) opts in
  '(entries, err) ← io_read (fs_ReadDir fsys dir);
  match unless_not_exist err with
  | Some err => mret (Err err)
  | None =>
      match entries, r_initArgs r with
      | [], Some _ =>
          '(r, err) ← root_init r;
          mret (_ ← wrap_err "initializing new storage root" err; Ok r)
      | _, _ => io_read (open_root r entries)
      end
  end.
End root.
