(* ===== verification/RootSpec.v ===== *)
(** * Initialising a storage root and opening it again ([src/root.go])

    A root that [NewRoot] initialised is opened by [NewRoot] with the same
    specification, layout and description, on every backend that works; the
    names of the extensions must differ, as they name the configuration files. *)
From S2P Require Import Prelude GoStd Spec FS Namaste Digest Extension ExtensionSpec.
From S2P Require Import Healthy Listing PlanSpec Root.

(** [Decode] reads back an object that was written. *)
Class LayoutLaws `{ConfigJSON, LayoutJSON} : Prop := {
  layout_decode_encode : ∀ o b, cfg_ok o → cfg_encode o = inl b →
    layout_Decode (bytes_reader b) = inl (Some o)
}.

(** The files of a root, relative to its directory. *)
Definition ext_path (e : Extension) : string := "extensions/" +:+ Name e +:+ "/config.json".

Section names.
Context `{Hashes}.

Lemma builtin_name e : builtin_config e →
  Name e ∈ [ext0001; ext0002; ext0003; ext0004; ext0006; ext0007; ext0009].
Proof.
  destruct e; cbn; [intros [[= -> _]|[= -> _]]|intros ->|intros [-> _]..|done]; set_solver.
Qed.

Lemma builtin_path e : builtin_config e → plain_path (ext_path e) ∧ Cut (ext_path e) "/" = ("extensions", Name e +:+ "/config.json", true).
Proof.
  intros He%builtin_name. unfold ext_path.
  repeat (apply elem_of_cons in He as [-> |He]; [split; [apply Forall_fold_right; vm_compute; tauto|done]|]).
  by apply elem_of_nil in He.
Qed.

End names.

Section root_spec.
Context `{GoEnv, Hashes, ConfigJSON, LayoutJSON} `{!ConfigLaws, !LayoutLaws}.
Context {W FS : Type} `{!FileSystems W FS}.
Context (fsys : FS) (ops : WriteFS W) (files : W → gmap string string).
Context (laws : WriteLaws fsys ops files).
Context (dir : string) (dir_ok : ValidPath dir = true).
Implicit Types (r : Root FS) (w : W).

Lemma ext_path_inj e1 e2 : ext_path e1 = ext_path e2 → Name e1 = Name e2.
Proof. intros He%string_app_cancel. by apply string_app_inj_r in He. Qed.

(** The path that the code builds. *)
Lemma conf_path e : builtin_config e →
  Join [dir; extensionsDir; Name e; extensionConfigFile] = Join [dir; ext_path e].
Proof.
  intros He. destruct (builtin_path e He) as [Hp _]. unfold Join.
  assert (dir ≠ "") as Hd by (by intros ->).
  assert (Name e ≠ "") as Hn by (apply builtin_name in He; intros Hn; rewrite Hn in He; set_solver).
  assert (ext_path e ≠ "") as Hx by done. rewrite !filter_cons_True by done. done.
Qed.

Definition conf e : string := Join [dir; ext_path e].
Definition layout_path : string := Join [dir; layoutConfigFile].
Definition decl_path (spec : Spec) : string := Join [dir; Namaste_Name (mkNamaste NamasteTypeRoot spec)].

Lemma layout_plain : plain_path layoutConfigFile.
Proof. repeat constructor. Qed.

Lemma conf_inj e1 e2 : builtin_config e1 → builtin_config e2 → conf e1 = conf e2 → Name e1 = Name e2.
Proof.
  intros [Hp1 _]%builtin_path [Hp2 _]%builtin_path Heq. apply ext_path_inj.
  by apply (Join_inj dir).
Qed.

Lemma conf_layout e : builtin_config e → conf e ≠ layout_path.
Proof.
  intros [Hp1 Hcut]%builtin_path Heq. apply Join_inj in Heq; [|done|done|apply layout_plain].
  rewrite Heq in Hcut. by vm_compute in Hcut.
Qed.

Lemma ext_Marshal_ok e : builtin_config e → ∃ b, ext_Marshal e = inl b.
Proof. intros He. destruct (ext_Marshal_Unmarshal e He) as (b & Hb & _). eauto. Qed.

Lemma writeExtensionConfig_ok e w w' : builtin_config e →
  writeExtensionConfig fsys dir e w = (w', None) →
  ∃ b, ext_Marshal e = inl b ∧ files w' = <[conf e := b]> (files w).
Proof.
  intros He. unfold writeExtensionConfig. destruct (ext_Marshal e) as [b|]; [|by intros; inv_io].
  rewrite conf_path by done. intros Hw. inv_io. destruct o as [err|]; [done|].
  unfold fs_Write in Ha. rewrite (law_as _ _ _ laws) in Ha.
  apply (law_write_ok _ _ _ laws) in Ha as [_ Hf]. eauto.
Qed.

(** The root after its layout was set. *)
Definition with_layout r (l : Extension) (desc : string) : Root FS :=
  set_layout (Some l) (set_layoutConfig (Some (layout_map l desc)) r).

Lemma setLayout_ok r l desc w w' r' : r_fs r = fsys → r_dir r = dir → builtin_config l →
  setLayout r (Some l) desc w = (w', (r', Ok ())) →
  r' = with_layout r l desc ∧ ∃ b1 b2, cfg_encode (layout_config l desc) = inl b1
    ∧ ext_Marshal l = inl b2 ∧ files w' = <[conf l := b2]> (<[layout_path := b1]> (files w)).
Proof.
  intros Hfs Hdir Hl. unfold setLayout. rewrite Hfs, Hdir, (law_as _ _ _ laws). clear Hfs Hdir.
  destruct (cfg_encode _) as [b1|]; [|by intros; inv_io]. intros Hw. inv_io.
  destruct o as [err|]; [by inv_io|]. inv_io. destruct a as [err|]; [by inv_io|]. inv_io. split; [done|].
  apply writeExtensionConfig_ok in Ha0 as (b2 & Hb & ->); [|done].
  unfold fs_Write in Ha. rewrite (law_as _ _ _ laws) in Ha.
  apply (law_write_ok _ _ _ laws) in Ha as [_ ->]. eauto.
Qed.

(** What [init] leaves in storage, for the extensions that remain. *)
Lemma init_extensions_ok exts desc have r w w' r' :
  r_fs r = fsys → r_dir r = dir → Forall builtin_config exts → NoDup (Name <$> exts) →
  init_extensions exts desc have r w = (w', (r', Ok ())) →
  (∀ e, e ∈ exts → ∃ b, ext_Marshal e = inl b ∧ files w' !! conf e = Some b)
  ∧ (∀ p, p ≠ layout_path → p ∉ conf <$> exts → files w' !! p = files w !! p)
  ∧ match (if have : bool then None else List.find is_Layout exts) with
    | None => r' = r ∧ files w' !! layout_path = files w !! layout_path
    | Some l => r' = with_layout r l desc
        ∧ ∃ b, cfg_encode (layout_config l desc) = inl b ∧ files w' !! layout_path = Some b
    end.
Proof.
  intros Hfs Hdir Hb Hnd. revert have r w Hfs Hdir. induction exts as [|e exts IH]; intros have r w Hfs Hdir.
  { cbn. intros Hi. clear Hfs Hdir. inv_io. split_and!; [|done|by destruct have].
    intros e He. by apply elem_of_nil in He. }
  inversion_clear Hb as [|?? He Hexts]. rewrite fmap_cons in Hnd. apply NoDup_cons in Hnd as [Hfresh Hnd].
  specialize (IH Hexts Hnd).
  assert (conf e ∉ conf <$> exts) as Hnew.
  { intros (e' & Heq & He')%list_elem_of_fmap. apply Hfresh. apply list_elem_of_fmap. exists e'.
    rewrite Forall_forall in Hexts. split; [|done]. apply conf_inj; auto. }
  cbn [init_extensions]. destruct (is_Layout e && negb have) eqn:Hc; intros Hi.
  - apply andb_true_iff in Hc as [Hl Hh]. apply negb_true_iff in Hh as ->.
    apply io_bind_inv in Hi as (w1 & [r1 res] & Hset & Hi). cbn beta iota in Hi.
    destruct res as [[]|err|]; [|by inv_io..].
    destruct (setLayout_ok _ _ _ _ _ _ Hfs Hdir He Hset) as (-> & b1 & b2 & Hb1 & Hb2 & Hf).
    destruct (IH true (with_layout r e desc) w1) as (Hall & Hother & -> & Hlay); [done..|].
    split_and!.
    + intros e' [-> |He']%elem_of_cons; [|by apply Hall]. exists b2. split; [done|].
      rewrite Hother; [|by apply conf_layout|done]. by rewrite Hf, lookup_insert_eq.
    + intros p Hp1 [Hp2 Hp3]%not_elem_of_cons. rewrite Hother by done. rewrite Hf.
      by rewrite !lookup_insert_ne by done.
    + cbn. rewrite Hl. split; [done|]. exists b1. split; [done|]. rewrite Hlay, Hf.
      rewrite lookup_insert_ne by (by apply conf_layout). by rewrite lookup_insert_eq.
  - apply io_bind_inv in Hi as (w1 & err & Hw & Hi). cbn beta in Hi.
    destruct err as [err|]; [by inv_io|]. rewrite Hfs, Hdir in Hw.
    destruct (writeExtensionConfig_ok _ _ _ He Hw) as (b & Hb & Hf).
    destruct (IH have r w1) as (Hall & Hother & Hlay); [done..|]. split_and!.
    + intros e' [-> |He']%elem_of_cons; [|by apply Hall]. exists b. split; [done|].
      rewrite Hother; [|by apply conf_layout|done]. by rewrite Hf, lookup_insert_eq.
    + intros p Hp1 [Hp2 Hp3]%not_elem_of_cons. rewrite Hother by done. rewrite Hf.
      by rewrite lookup_insert_ne by done.
    + assert (files w1 !! layout_path = files w !! layout_path) as Heq.
      { rewrite Hf, lookup_insert_ne; [done|]. by apply conf_layout. }
      rewrite Heq in Hlay. destruct have; [done|]. cbn.
      rewrite andb_true_r in Hc. by rewrite Hc.
Qed.

(** ** Reading the root back *)

Lemma FindNamaste_entries es (c : gmap string bool) name n :
  (λ e, (de_Name e, de_IsDir e)) <$> es ≡ₚ map_to_list c →
  c !! name = Some false → ParseNamaste name = Ok n →
  (∀ name', c !! name' = Some false → name' ≠ name → is_ok (ParseNamaste name') = false) →
  FindNamaste es = Ok n.
Proof.
  intros Hes Hc Hn Hother.
  set (g := λ e : string * bool, if e.2 then None else match ParseNamaste e.1 with Ok dec => Some dec | _ => None end).
  assert (omap g ((λ e, (de_Name e, de_IsDir e)) <$> es) ≡ₚ [n]) as Hp.
  { rewrite Hes. rewrite <- (insert_delete_id c name false) by done.
    rewrite map_to_list_insert by apply lookup_delete_eq. cbn. rewrite Hn.
    replace (omap g (map_to_list (delete name c))) with (@nil Namaste); [done|]. symmetry.
    destruct (omap g (map_to_list (delete name c))) as [|n' l] eqn:He; [done|]. exfalso.
    assert (n' ∈ omap g (map_to_list (delete name c))) as Hin by (rewrite He; left).
    apply list_elem_of_omap in Hin as ([k d] & Hk & Hg). apply elem_of_map_to_list in Hk.
    apply lookup_delete_Some in Hk as [Hne Hk]. unfold g in Hg. cbn in Hg. destruct d; [done|].
    specialize (Hother k Hk (not_eq_sym Hne)). by destruct (ParseNamaste k). }
  apply Permutation_singleton_r in Hp. unfold FindNamaste.
  replace (omap _ es) with [n]; [done|]. rewrite <- Hp. clear. induction es as [|e es IH]; cbn; [done|].
  by rewrite <- IH.
Qed.

Lemma CutPrefix_cancel (a b c : string) : CutPrefix (a +:+ b) (a +:+ c) = CutPrefix b c.
Proof. induction a as [|x a IH]; cbn; [done|]. by destruct (ascii_dec x x). Qed.

(** Files below the layout's configuration file. *)
Lemma below_layout b : plain_path b → CutPrefix b (layoutConfigFile +:+ "/") = None →
  child_of layout_path (Join [dir; b]) = None.
Proof.
  intros Hb Hc. unfold child_of, layout_path. rewrite !(Join_dir dir) by (done || apply layout_plain).
  destruct (bool_decide (dir = ".")).
  - rewrite bool_decide_false by done. by rewrite Hc.
  - rewrite bool_decide_false by (by destruct dir as [|? [|]]).
    rewrite <- !string_app_assoc. rewrite CutPrefix_cancel.
    change (CutPrefix ("/" +:+ b) ("/" +:+ layoutConfigFile +:+ "/")) with (CutPrefix b (layoutConfigFile +:+ "/")).
    by rewrite Hc.
Qed.

Lemma below_layout_child p : child_of layout_path p ≠ None → child_of dir p ≠ None.
Proof.
  unfold child_of, layout_path. rewrite Join_dir by (done || apply layout_plain).
  assert (∀ d, d = (if bool_decide (dir = ".") then layoutConfigFile else dir +:+ "/" +:+ layoutConfigFile) → d ≠ ".") as Hd.
  { intros d ->. case_bool_decide; [done|]. by destruct dir as [|? [|]]. }
  rewrite (bool_decide_false _ (Hd _ eq_refl)).
  destruct (CutPrefix p _) as [rest|] eqn:Hc; [|done]. intros _. apply CutPrefix_Some in Hc as ->.
  destruct (bool_decide (dir = ".")); cbn [String.append]; [done|].
  change (String "/" layoutConfigFile) with ("/" +:+ layoutConfigFile). rewrite <- !string_app_assoc.
  rewrite (string_app_assoc dir "/"), CutPrefix_app. done.
Qed.

(** ** The round trip *)

Lemma decl_parses spec impl : getOCFL spec = Ok impl →
  ParseNamaste (Namaste_Name (mkNamaste NamasteTypeRoot spec)) = Ok (mkNamaste NamasteTypeRoot spec)
  ∧ plain_path (Namaste_Name (mkNamaste NamasteTypeRoot spec))
  ∧ Cut (Namaste_Name (mkNamaste NamasteTypeRoot spec)) "/" = (Namaste_Name (mkNamaste NamasteTypeRoot spec), "", false)
  ∧ CutPrefix (Namaste_Name (mkNamaste NamasteTypeRoot spec)) (layoutConfigFile +:+ "/") = None.
Proof.
  unfold getOCFL. destruct (bool_decide (spec = Spec1_0)) eqn:H0'; [|destruct (bool_decide (spec = Spec1_1)) eqn:H1'].
  - apply bool_decide_eq_true in H0' as ->. intros _. split_and!; [by vm_compute|by repeat constructor|by vm_compute..].
  - apply bool_decide_eq_true in H1' as ->. intros _. split_and!; [by vm_compute|by repeat constructor|by vm_compute..].
  - by destruct (bool_decide (spec = "")).
Qed.

(** The state of storage after [init]: the files that were written. *)
Record initialised (spec : Spec) (desc : string) (exts : list Extension) (w w' : W) : Prop := {
  in_decl : files w' !! decl_path spec = Some (Namaste_Body (mkNamaste NamasteTypeRoot spec));
  in_exts : ∀ e, e ∈ exts → ∃ b, ext_Marshal e = inl b ∧ files w' !! conf e = Some b;
  in_layout : match List.find is_Layout exts with
              | None => files w' !! layout_path = files w !! layout_path
              | Some l => ∃ b, cfg_encode (layout_config l desc) = inl b ∧ files w' !! layout_path = Some b
              end;
  in_other : ∀ p, p ≠ decl_path spec → p ≠ layout_path → p ∉ conf <$> exts → files w' !! p = files w !! p
}.

Definition init_root (spec : Spec) (desc : string) (exts : list Extension) (args : option initRootArgs) : Root FS :=
  let l := List.find is_Layout exts in
  mkRoot fsys dir spec l ((λ l, layout_map l desc) <$> l) args.

Lemma root_init_ok spec desc exts w w' r' : Forall builtin_config exts → NoDup (Name <$> exts) →
  let args := Some (mkInitRootArgs spec desc exts) in
  root_init (mkRoot fsys dir "" None None args) w = (w', (r', Ok ())) →
  r' = init_root spec desc exts args ∧ (∃ impl, getOCFL spec = Ok impl) ∧ initialised spec desc exts w w'.
Proof.
  intros Hb Hnd args. unfold root_init. cbn [r_initArgs r_fs r_dir args].
  destruct (Spec_Empty _); [by intros; inv_io|]. cbn [ira_spec].
  destruct (getOCFL spec) as [impl|err|] eqn:Hs; [|by intros; inv_io..]. rewrite (law_as _ _ _ laws).
  intros Hi. apply io_bind_inv in Hi as (w1 & err & Hd & Hi). destruct err as [err|]; [by inv_io|].
  unfold WriteDeclaration in Hd. inv_io. destruct o as [err|]; [done|].
  unfold fs_Write in Ha. rewrite (law_as _ _ _ laws) in Ha. apply (law_write_ok _ _ _ laws) in Ha as [_ Hf].
  cbn [rd_data bytes_reader] in Hf. fold (decl_path spec) in Hf.
  destruct (decl_parses _ _ Hs) as (_ & Hpl & Hcut & Hpre).
  assert (decl_path spec ≠ layout_path) as Hne.
  { intros Heq. apply Join_inj in Heq; [|done..|apply layout_plain]. rewrite Heq in Hcut.
    unfold getOCFL in Hs. repeat case_bool_decide; simplify_eq; by vm_compute in Heq. }
  assert (decl_path spec ∉ conf <$> exts) as Hnc.
  { intros (e & Heq & He)%list_elem_of_fmap. rewrite Forall_forall in Hb.
    destruct (builtin_path e (Hb e He)) as [Hep Hec].
    apply Join_inj in Heq; [|done..]. rewrite Heq, Hec in Hcut. by simplify_eq. }
  eapply init_extensions_ok in Hi as (Hall & Hother & Hlay); [|done..]. cbn iota in Hlay.
  assert (files w1 !! layout_path = files w !! layout_path) as Hl1 by (by rewrite Hf, lookup_insert_ne).
  split; [|split; [by eexists|split]].
  - unfold init_root. cbn [ira_extensions ira_layoutDesc ira_spec] in Hlay.
    destruct (List.find is_Layout exts); by destruct Hlay as [-> _].
  - rewrite Hother by done. by rewrite Hf, lookup_insert_eq.
  - done.
  - cbn [ira_extensions ira_layoutDesc] in Hlay. rewrite <- Hl1. destruct (List.find is_Layout exts); by destruct Hlay as [_ ?].
  - intros p H1' H2' H3'. rewrite Hother by done. rewrite Hf. by rewrite lookup_insert_ne.
Qed.

Section reopen.
Context (spec : Spec) (desc : string) (exts : list Extension) (w w' : W).
Context (exts_ok : Forall builtin_config exts) (desc_ok : valid_utf8 desc = true).
Context (layout_ok : ∀ l, List.find is_Layout exts = Some l → Layout_Valid l = None).
Context (spec_ok : ∃ impl, getOCFL spec = Ok impl).
Context (healthy : Healthy fsys files w') (layout_name : List.find is_Layout exts = None → nameable fsys layout_path) (dir_empty : mem_children (files w) dir = ∅).
Context (init : initialised spec desc exts w w').

Lemma first_layout l : List.find is_Layout exts = Some l →
  l ∈ exts ∧ is_Layout l = true ∧ builtin_config l.
Proof.
  intros [Hin Hl]%List.find_some. apply list_elem_of_In in Hin.
  pose proof (proj1 (Forall_forall _ _) exts_ok). auto.
Qed.

Lemma absent_in_dir b : plain_path b → files w !! Join [dir; b] = None.
Proof using dir_ok dir_empty.
  intros Hb. destruct (files w !! Join [dir; b]) eqn:Hf; [|done]. exfalso.
  assert (child_of dir (Join [dir; b]) = None) as Hc by (by eapply mem_children_empty; [exact dir_empty|eexists]).
  rewrite child_of_Join in Hc by done. by destruct (Cut b "/") as [[n x] d].
Qed.

(** What is in the directory of the root. *)
Lemma written p : is_Some (files w' !! p) →
  p = decl_path spec ∨ p = layout_path ∨ p ∈ conf <$> exts ∨ child_of dir p = None.
Proof.
  intros [x Hx]. destruct (decide (p = decl_path spec)); [by left|].
  destruct (decide (p = layout_path)); [by right; left|].
  destruct (decide (p ∈ conf <$> exts)); [by right; right; left|]. right; right; right.
  rewrite (in_other _ _ _ _ _ init) in Hx by done. eapply mem_children_empty; [exact dir_empty|by eexists].
Qed.

Lemma written_child p n d : is_Some (files w' !! p) → child_of dir p = Some (n, d) →
  (n, d) = (Namaste_Name (mkNamaste NamasteTypeRoot spec), false)
  ∨ (n, d) = (layoutConfigFile, false) ∨ (n, d) = ("extensions", true).
Proof.
  destruct spec_ok as [impl Himpl]. destruct (decl_parses _ _ Himpl) as (_ & Hpl & Hcut & _).
  intros [-> |[-> |[(e & -> & He)%list_elem_of_fmap|Hc]]]%written Hd.
  - unfold decl_path in Hd. rewrite child_of_Join, Hcut in Hd by done. left. by simplify_eq.
  - unfold layout_path in Hd. rewrite child_of_Join in Hd by (done || apply layout_plain). right; left.
    vm_compute in Hd. by simplify_eq.
  - destruct (builtin_path e (proj1 (Forall_forall _ _) exts_ok e He)) as [Hep Hec].
    unfold conf in Hd. rewrite child_of_Join, Hec in Hd by done. right; right. by simplify_eq.
  - congruence.
Qed.

Lemma read_layout args :
  getLayout (mkRoot fsys dir spec None None args) w' = (init_root spec desc exts args, Ok ()).
Proof.
  unfold getLayout, readLayoutConfig. cbn [r_fs r_dir set_layout set_layoutConfig].
  fold layout_path. pose proof (in_layout _ _ _ _ _ init) as Hlay. unfold init_root.
  destruct (List.find is_Layout exts) as [l|] eqn:Hfind in Hlay |- *.
  - destruct Hlay as (b & Hb & Hf). destruct (first_layout l Hfind) as (Hin & Hisl & Hl).
    destruct (h_open _ _ _ healthy _ _ Hf) as (f & -> & Hr & _). rewrite Hr.
    assert (Name l ≠ "") as Hn by (apply builtin_name in Hl; intros Hn; rewrite Hn in Hl; set_solver).
    rewrite (layout_decode_encode (layout_config l desc)); [| |done].
    2:{ repeat constructor; [done|]. apply builtin_name in Hl. cbn.
        repeat (apply elem_of_cons in Hl as [-> |Hl]; [done|]). by apply elem_of_nil in Hl. }
    cbn [fill_strings layout_config foldl].
    change (<[extensionKey:=Name l]> (<[descriptionKey:=desc]> ∅)) with (layout_map l desc).
    assert (config_get (Some (layout_map l desc)) extensionKey = Name l) as Hk.
    { unfold config_get, layout_map. cbn. by rewrite lookup_insert_eq. }
    destruct (in_exts _ _ _ _ _ init l Hin) as (b' & Hb' & Hf').
    destruct (ext_Marshal_Unmarshal l Hl) as (b2 & Hb2 & Hun). assert (b2 = b') as -> by congruence.
    destruct (h_open _ _ _ healthy _ _ Hf') as (f' & Ho & Hr' & _).
    assert (readExtensionConfig fsys dir (Name l) w' = Ok l) as Hread.
    { unfold readExtensionConfig. rewrite conf_path by done. fold (conf l). rewrite Ho, Hr'.
      cbn [io_ReadAll bytes_reader rd_err rd_data wrap_err mbind res_bind]. by rewrite Hun. }
    cbn [set_layout set_layoutConfig r_fs r_dir r_layoutConfig]. rewrite Hk, bool_decide_false by done.
    rewrite Hread, Hisl. cbn [negb].
    by rewrite (layout_ok l Hfind).
  - unfold layout_path in Hlay at 2. rewrite absent_in_dir in Hlay by apply layout_plain.
    assert (unblocked (files w') layout_path) as Hu.
    { destruct spec_ok as [impl Himpl]. destruct (decl_parses _ _ Himpl) as (_ & Hpl & _ & _).
      apply (unblocked_Join _ _ _ (Namaste_Name (mkNamaste NamasteTypeRoot spec))); [done|apply layout_plain|done|done|].
      fold (decl_path spec). rewrite (in_decl _ _ _ _ _ init). by eexists. }
    destruct (h_absent _ _ _ healthy layout_path) as (e & -> & He);
      [by apply valid_name_Join|apply Join_not_dot; [done|apply layout_plain]|done| |rewrite He; [done|by apply layout_name|done]].
    apply mem_children_empty. intros p Hp. destruct (child_of layout_path p) as [c|] eqn:Hc; [|done]. exfalso.
    assert (child_of layout_path p ≠ None) as Hne by congruence.
    destruct (written p Hp) as [-> |[-> |[(e' & -> & He)%list_elem_of_fmap|Hc']]].
    + destruct spec_ok as [impl Himpl]. destruct (decl_parses _ _ Himpl) as (_ & Hpl & _ & Hpre).
      apply Hne. by apply below_layout.
    + rewrite Hlay in Hp. by destruct Hp.
    + destruct (builtin_path e' (proj1 (Forall_forall _ _) exts_ok e' He)) as [Hep _].
      apply Hne. by apply below_layout.
    + by apply (below_layout_child p).
Qed.

Lemma read_root :
  NewRoot fsys dir [] w' = (w', Ok (init_root spec desc exts None)).
Proof.
  destruct spec_ok as [impl Himpl]. destruct (decl_parses _ _ Himpl) as (Hparse & Hpl & Hcut & _).
  set (decl := Namaste_Name (mkNamaste NamasteTypeRoot spec)) in *.
  assert (mem_children (files w') dir !! decl = Some false) as Hdecl.
  { apply (mem_children_in _ _ (decl_path spec)).
    - rewrite (in_decl _ _ _ _ _ init). by eexists.
    - unfold decl_path. fold decl. by rewrite child_of_Join, Hcut.
    - intros p' d' Hp' Hc'. destruct (written_child p' _ _ Hp' Hc') as [Heq|[Heq|Heq]];
        [by injection Heq|by injection Heq|injection Heq as Hn _].
      exfalso. rewrite Hn in Hparse. by vm_compute in Hparse. }
  assert (mem_children (files w') dir ≠ ∅) as Hne by (intros He; by rewrite He in Hdecl).
  destruct (healthy_ReadDir _ _ _ healthy dir dir_ok Hne) as (es & Hes & Hperm).
  assert (FindNamaste es = Ok (mkNamaste NamasteTypeRoot spec)) as Hfind.
  { apply (FindNamaste_entries es _ decl _ Hperm Hdecl Hparse).
    intros n' (p & Hp & Hc)%mem_children_inv Hnn.
    destruct (written_child p _ _ Hp Hc) as [Heq|[Heq|Heq]];
      [by injection Heq|injection Heq as ->; by vm_compute|discriminate Heq]. }
  unfold NewRoot. cbn [foldl]. unfold mbind, IO_bind, io_read. rewrite Hes. cbn [unless_not_exist r_initArgs].
  assert (open_root (mkRoot fsys dir "" None None None) es w' = Ok (init_root spec desc exts None)) as Ho.
  { unfold open_root. rewrite Hfind. cbn [nam_Type nam_Version]. rewrite bool_decide_true by done.
    cbn [negb wrap_err mbind res_bind]. cbn [nam_Version]. rewrite Himpl. cbn [wrap_err].
    unfold set_spec. cbn [r_fs r_dir r_layout r_layoutConfig r_initArgs].
    by rewrite read_layout. }
  destruct es; by rewrite Ho.
Qed.
End reopen.

(** What an initialisation that succeeds has done. *)
Lemma NewRoot_init_ok spec desc exts w w' r : Forall builtin_config exts → NoDup (Name <$> exts) →
  files w !! dir = None → mem_children (files w) dir = ∅ → Healthy fsys files w →
  NewRoot fsys dir [InitRoot spec desc exts] w = (w', Ok r) →
  r = init_root spec desc exts (Some (mkInitRootArgs spec desc exts)) ∧ (∃ impl, getOCFL spec = Ok impl)
  ∧ initialised spec desc exts w w'.
Proof.
  intros Hb Hnd Habs Hempty Hh Hnew.
  destruct (healthy_ReadDir_empty _ _ _ Hh dir dir_ok Habs Hempty) as (err & Herr & _).
  unfold NewRoot in Hnew. cbn [foldl InitRoot r_fs r_dir r_spec r_layout r_layoutConfig r_initArgs] in Hnew.
  unfold mbind at 1, IO_bind at 1, io_read at 1 in Hnew. rewrite Herr in Hnew.
  destruct (unless_not_exist err); [done|]. apply io_bind_inv in Hnew as (w1 & [r1 res] & Hinit & Hnew). cbn beta iota in Hnew.
  unfold mret, IO_ret in Hnew. destruct res as [[]|e|]; [|by cbn in Hnew..]. cbn in Hnew.
  injection Hnew as <- <-. by apply root_init_ok in Hinit.
Qed.

(** C21. A storage root that [NewRoot] initialises in an empty directory is opened by
    a later [NewRoot] as the same root: its specification, its layout (the first
    one among the extensions, with its configuration) and its description.  The
    conditions: the backend works before and after; the directory is empty and is
    not a file; all extensions are built-in ones (the later call looks them up in
    the default registry), under their own names, with strings in valid UTF-8, and
    have different names; the description is valid UTF-8; the layout is one that its
    own [Valid] accepts; and, if there is no layout, the backend can have a file
    with the name of the layout's configuration, so that it reports its absence. *)
Theorem NewRoot_init_roundtrip spec desc exts w w' r :
  Forall builtin_config exts → NoDup (Name <$> exts) → valid_utf8 desc = true →
  (∀ l, List.find is_Layout exts = Some l → Layout_Valid l = None) →
  (List.find is_Layout exts = None → nameable fsys (Join [dir; layoutConfigFile])) →
  files w !! dir = None → mem_children (files w) dir = ∅ → Healthy fsys files w → Healthy fsys files w' →
  NewRoot fsys dir [InitRoot spec desc exts] w = (w', Ok r) →
  NewRoot fsys dir [] w'
    = (w', Ok (mkRoot fsys dir (r_spec r) (r_layout r) (r_layoutConfig r) None))
  ∧ r_spec r = spec ∧ r_layout r = List.find is_Layout exts
  ∧ ((∃ l, r_layout r = Some l) → Description r = desc).
Proof.
  intros Hb Hnd Hdesc Hvalid Hname Habs Hempty Hh Hh' Hnew.
  destruct (NewRoot_init_ok _ _ _ _ _ _ Hb Hnd Habs Hempty Hh Hnew) as (-> & Hspec & Hst).
  split; [|split; [done|split; [done|]]].
  - rewrite (read_root spec desc exts w w'); [done..|]. done.
  - unfold Description, init_root. cbn [r_layoutConfig r_layout]. intros [l ->].
    unfold config_get, layout_map. cbn. rewrite lookup_insert_ne by done.
    by rewrite lookup_insert_eq.
Qed.
End root_spec.

(** ** Concrete instances *)

#[local] Existing Instances ref_env sized_hashes ref_config mem_fs.

Definition ref_layout : LayoutJSON := {|
  layout_Decode := λ r, match cfg_parse (rd_data r) with inl o => inl (Some o) | inr err => inr err end
|}.
#[local] Existing Instance ref_layout.

Lemma ref_layout_laws : LayoutLaws.
Proof. split. intros o b Ho Hb. cbn [layout_Decode ref_layout bytes_reader rd_data].
  by rewrite (@cfg_parse_encode _ ref_config_laws o b). Qed.

Definition ex_exts : list Extension := [Ext0001; Ext0003].

Lemma NewRoot_init_roundtrip_witness :
  match NewRoot () "store" [InitRoot Spec1_1 "test" ex_exts] ∅ with
  | (m, Ok r) => NewRoot () "store" [] m = (m, Ok (mkRoot () "store" (r_spec r) (r_layout r) (r_layoutConfig r) None))
      ∧ r_spec r = Spec1_1
  | _ => False
  end.
Proof.
  destruct (NewRoot () "store" [InitRoot Spec1_1 "test" ex_exts] ∅) as [m res] eqn:Hnew.
  assert (∃ r, res = Ok r) as [r ->].
  { assert (is_ok res = true) as Hok by (by rewrite <- (f_equal snd Hnew : _ = res); vm_compute).
    destruct res; [by eexists|done..]. }
  pose proof (@NewRoot_init_roundtrip _ _ _ _ ref_config_laws ref_layout_laws _ _ _ () mem_ops (λ m, m)
    mem_write_laws "store" eq_refl Spec1_1 "test" ex_exts ∅ m r) as Ht.
  assert (Forall builtin_config ex_exts) as Hb by (repeat constructor; by left).
  assert (NoDup (Name <$> ex_exts)) as Hnd by (repeat constructor; set_solver).
  destruct Ht as (H1 & H2 & _); [done|done|by vm_compute| |done|done| |apply mem_healthy..|done|done].
  - intros l Hl. vm_compute in Hl. injection Hl as <-. by vm_compute.
  - by vm_compute.
Defined.

(** [init] does not ask whether the layout is valid: with the default values of
    0006, which has no delimiter, it creates a root that cannot be opened. *)
Lemma init_invalid_layout :
  match NewRoot () "store" [InitRoot Spec1_1 "" [Ext0006]] ∅ with
  | (m, Ok r) => r_layout r = Some Ext0006 ∧ is_ok (NewRoot () "store" [] m).2 = false
  | _ => False
  end.
Proof. vm_compute. split; reflexivity. Qed.
