(* ===== verification/Layouts.v ===== *)
(** * Layouts keep objects apart

    The interface between a storage root and its layout: [separates] says that the
    directories of different objects never contain each other, and that they are
    none of the root's own.  The layouts 0003 and 0004 promise it for identifiers
    whose digests do not collide; the others do not, and the last section shows the
    identifiers they give a directory that is not for objects. *)
From S2P Require Import Prelude GoStd DigestMap Spec FS Digest Extension Inventory Root ExtensionSpec Local LogicalFS PlanSpec Listing.

(** ** Elements of paths *)

Definition first_elem (t : string) : string := (Cut t "/").1.1.

Lemma first_elem_app a b : first_elem (a +:+ "/" +:+ b) = first_elem a.
Proof.
  unfold first_elem. pose proof (Cut_spec a) as Ha. destruct (Cut a "/") as [[n r] d]. destruct Ha as (Hn & -> & _). destruct d.
  - rewrite <- !string_app_assoc. by rewrite Cut_slash.
  - by rewrite Cut_slash.
Qed.

Lemma first_elem_join e es : no_slash e → first_elem (join_with "/" (e :: es)) = e.
Proof.
  intros He. unfold first_elem. destruct es as [|e' es].
  - cbn. by rewrite Cut_no_slash.
  - change (join_with "/" (e :: e' :: es)) with (e +:+ "/" +:+ join_with "/" (e' :: es)). by rewrite Cut_slash.
Qed.

(** Paths of as many elements are apart, or the same. *)
Lemma joined_apart es es' : es ≠ [] → length es = length es' → Forall no_slash es → Forall no_slash es' →
  join_with "/" es ≠ "." → join_with "/" es' ≠ "." → es ≠ es' → apart (join_with "/" es) (join_with "/" es').
Proof.
  intros Hne Hlen Hs Hs' Hd Hd' Hdiff p [t Ht]. destruct (rel (join_with "/" es') p) as [t'|] eqn:Ht'; [|done].
  exfalso. apply Hdiff. unfold rel in *. rewrite !bool_decide_false in * by done. apply CutPrefix_Some in Ht, Ht'.
  rewrite Ht, <- !string_app_assoc in Ht'. apply (f_equal (split_on slash)) in Ht'. rewrite !split_on_slash, !split_join in Ht';
    [by apply app_inj_1 in Ht' as [-> _]|done || by destruct es, es'..].
Qed.

Lemma apart_Join dir a b : ValidPath dir = true → valid_name a → valid_name b → apart a b → apart (Join [dir; a]) (Join [dir; b]).
Proof.
  intros Hd [Ha Na] [Hb Nb] Hab. rewrite !Join_dir by (done || by apply ValidPath_plain).
  case_bool_decide as Hdot; [done|]. pose proof (ValidPath_plain dir Hd Hdot) as Hp.
  assert (∀ x p, rel (dir +:+ "/" +:+ x) p = CutPrefix p ((dir +:+ "/") +:+ x +:+ "/")) as Hrel.
  { intros x p. unfold rel. rewrite bool_decide_false; [by rewrite !string_app_assoc|].
    intros E. apply (f_equal (String.length)) in E. destruct dir as [|c dir]; [by apply plain_path_nonempty in Hp|].
    rewrite !string_length_app in E. cbn in E. lia. }
  intros p [t Ht]. rewrite Hrel in *. destruct (CutPrefix p ((dir +:+ "/") +:+ b +:+ "/")) as [t'|] eqn:Ht'; [|done].
  apply CutPrefix_Some in Ht, Ht'. exfalso. rewrite Ht, <- !string_app_assoc in Ht'.
  do 2 apply (inj (String.append _)) in Ht'. cbn in Ht'.
  specialize (Hab (a +:+ "/" +:+ t)). unfold rel in Hab. rewrite !bool_decide_false in Hab by done.
  assert (CutPrefix (a +:+ "/" +:+ t) (a +:+ "/") = Some t) as E1 by (apply CutPrefix_Some; by rewrite <- string_app_assoc).
  assert (CutPrefix (a +:+ "/" +:+ t) (b +:+ "/") = Some t') as E2 by (apply CutPrefix_Some; by rewrite <- string_app_assoc).
  rewrite E1, E2 in Hab. by specialize (Hab ltac:(done)).
Qed.

(** ** The interface *)

Section separation.
Context `{GoEnv, Hashes}.
Implicit Types (ids : string → Prop) (own : list string).

(** What a layout promises a root with the files [own] for the identifiers [ids]. *)
Class Separates (layout : Extension) own ids : Prop := {
  sep_name : ∀ id p, ids id → Resolve layout id = Ok p → p ≠ ".";
  sep_own : ∀ id p t, ids id → Resolve layout id = Ok p → t ∈ own → first_elem p ≠ first_elem t;
  sep_apart : ∀ id id' p p', ids id → ids id' → id ≠ id' →
    Resolve layout id = Ok p → Resolve layout id' = Ok p' → apart p p'
}.

(** The root's own files have first elements that are not hexadecimal. *)
Definition not_hex own : Prop := ∀ t, t ∈ own → string_forall is_hex (first_elem t) = false.

Definition no_collision (alg : string) ids : Prop :=
  ∀ id id', ids id → ids id' → hash_sum alg id = hash_sum alg id' → id = id'.

Lemma safe_join_dot es : es ≠ [] → Forall (λ e, string_forall is_safe e = true) es → join_with "/" es ≠ ".".
Proof.
  intros Hne Hs E. apply (f_equal (split_on slash)) in E. rewrite split_join in E; [|done|].
  - subst es. inversion_clear Hs as [|?? Hx _]. by vm_compute in Hx.
  - eapply Forall_impl; [done|apply safe_no_slash].
Qed.

(** Paths of the same number of elements, of which the first is hexadecimal. *)
Lemma elems_separate layout own ids n : not_hex own →
  (∀ id p, ids id → Resolve layout id = Ok p → ∃ e es, p = join_with "/" (e :: es) ∧ length es = n
     ∧ Forall (λ e, string_forall is_safe e = true) (e :: es) ∧ string_forall is_hex e = true) →
  (∀ id id' p, ids id → ids id' → Resolve layout id = Ok p → Resolve layout id' = Ok p → id = id') →
  Separates layout own ids.
Proof.
  intros Hown Hel Hinj. split.
  - intros id p Hid (e & es & -> & _ & Hs & _)%(Hel id p Hid). by apply safe_join_dot.
  - intros id p t Hid (e & es & -> & _ & Hs & Hh)%(Hel id p Hid) Ht E.
    inversion_clear Hs as [|?? He _]. rewrite first_elem_join in E by by apply safe_no_slash.
    specialize (Hown t Ht). rewrite <- E in Hown. congruence.
  - intros id id' p p' Hid Hid' Hne Hp Hp'.
    destruct (Hel id p Hid Hp) as (e & es & E1 & L1 & S1 & _), (Hel id' p' Hid' Hp') as (e' & es' & E2 & L2 & S2 & _).
    assert (p ≠ p') as Hpp by (intros <-; by destruct Hne; eapply Hinj).
    assert (∀ l, Forall (λ e, string_forall is_safe e = true) l → Forall no_slash l) as Hns
      by (intros l Hl; eapply Forall_impl; [done|apply safe_no_slash]).
    subst p p'. apply joined_apart; try by apply Hns. all: try by apply safe_join_dot.
    + done.
    + cbn. by rewrite L1, L2.
    + by intros [= -> ->].
Qed.

Lemma hex_safe s : string_forall is_hex s = true → string_forall is_safe s = true.
Proof.
  apply string_forall_impl. intros c. destruct c as [[] [] [] [] [] [] [] []]; by vm_compute.
Qed.

Lemma forall_concat f l : string_forall f (concat_strings l) = true ↔ Forall (λ e, string_forall f e = true) l.
Proof.
  induction l as [|e l IH]; cbn; [by split|]. by rewrite string_forall_app, andb_true_iff, IH, Forall_cons.
Qed.

(** 0003, unless it is configured to have no tuples. *)
Lemma HashIDTuple_separates l own ids : not_hex own → 1 ≤ l3_TupleNum l →
  no_collision (l3_DigestAlgorithm l) ids → Separates (HashIDTuple l) own ids.
Proof.
  intros Hown Hn Hc. apply (elems_separate _ _ _ (Z.to_nat (l3_TupleNum l))); [done| |].
  - intros id p _ (ts & e & -> & Hlen & Hs & He)%l3_Resolve_inv. specialize (Hs is_hex (hex_encode_hex _)).
    destruct ts as [|t ts]; [cbn in Hlen; lia|]. inversion_clear Hs as [|?? Ht Hts]. exists t, (ts ++ [e]).
    split; [done|]. split; [rewrite length_app; cbn in *; lia|]. split; [|done].
    constructor; [by apply hex_safe|]. apply Forall_app. split; [by eapply Forall_impl; [|apply hex_safe]|].
    constructor; [|done]. rewrite He. apply l3_last_safe.
  - intros id id' p Hid Hid' Hp Hp'. destruct (l3_injective l id id' p Hp Hp') as [->|E]; [done|]. by apply Hc.
Qed.

(** 0004. *)
Lemma HashTuple_separates l own ids size sum : not_hex own → HashSizes →
  getHash (l4_DigestAlgorithm l) = Some (size, sum) → l4_Valid l = None →
  0 ≤ l4_TupleSize l → 0 ≤ l4_TupleNum l → l4_TupleNum l * l4_TupleSize l < 2 ^ 63 →
  no_collision (l4_DigestAlgorithm l) ids → Separates (HashTuple l) own ids.
Proof.
  intros Hown Hsz Hg Hv H1 H2 H3 Hc. pose proof (getHash_sum _ _ _ Hg) as [Esum _].
  assert (∀ id p, l4_Resolve l id = Ok p → ∃ ts e, p = join_with "/" (ts ++ [e])
    ∧ length ts = Z.to_nat (l4_TupleNum l) ∧ Forall (λ e, string_forall is_hex e = true) (ts ++ [e])
    ∧ (if l4_Short l then concat_strings (ts ++ [e]) else e) = hex_encode (hash_sum (l4_DigestAlgorithm l) id)) as Hinv.
  { intros id p Hp. destruct (l4_resolves l id size sum Hsz Hg Hv H1 H2 H3) as (ts & e & Hr & Hlen & _ & He & _).
    rewrite Hp in Hr. injection Hr as ->. rewrite Esum in He. exists ts, e. split; [done|]. split; [lia|].
    pose proof (hex_encode_hex (hash_sum (l4_DigestAlgorithm l) id)) as Hh. destruct (l4_Short l).
    - split; [|done]. apply forall_concat. by rewrite He.
    - destruct He as [-> [rest Hrest]]. split; [|done]. apply Forall_app. split; [|by constructor].
      apply forall_concat. rewrite Hrest, string_forall_app in Hh. by apply andb_true_iff in Hh as [? _]. }
  apply (elems_separate _ _ _ (Z.to_nat (l4_TupleNum l))); [done| |].
  - intros id p _ (ts & e & -> & Hlen & Hh & _)%Hinv. destruct (ts ++ [e]) as [|t es] eqn:E; [by destruct ts|].
    exists t, es. split; [done|]. apply (f_equal length) in E. rewrite length_app in E. cbn in E. split; [lia|].
    split; [|by inversion Hh]. eapply Forall_impl; [done|apply hex_safe].
  - intros id id' p Hid Hid' (ts & e & -> & _ & Hh & E)%Hinv (ts' & e' & Ep & _ & Hh' & E')%Hinv.
    apply join_last_inj in Ep as [-> ->]; [|by eapply Forall_impl; [done|apply hex_safe]..].
    rewrite E' in E. apply hex_encode_inj in E. symmetry. by apply Hc.
Qed.

(** C22. The layouts 0003 (with at least one tuple) and 0004 (with parameters that are
    valid) give the objects of a storage root directories that never contain each
    other or a file of the root, for any identifiers whose digests do not collide
    and a root whose own files do not start with a hexadecimal element. *)
Theorem hashed_layouts_separate own ids : not_hex own → HashSizes →
  (∀ l, 1 ≤ l3_TupleNum l → no_collision (l3_DigestAlgorithm l) ids → Separates (HashIDTuple l) own ids)
  ∧ (∀ l size sum, getHash (l4_DigestAlgorithm l) = Some (size, sum) → l4_Valid l = None →
      0 ≤ l4_TupleSize l → 0 ≤ l4_TupleNum l → l4_TupleNum l * l4_TupleSize l < 2 ^ 63 →
      no_collision (l4_DigestAlgorithm l) ids → Separates (HashTuple l) own ids).
Proof.
  intros Hown Hsz. split; [intros; by apply HashIDTuple_separates|intros; by eapply HashTuple_separates].
Qed.
End separation.

(** ** Identifiers that get a directory that is not for objects *)

#[local] Existing Instances ref_env sized_hashes.

(** 0007 looks for a slash after the first byte only: this identifier gets the
    directory of the storage root itself. *)
Lemma TupleOmitPrefix_slash : Resolve Ext0007 "x:/.." = Ok ".".
Proof. vm_compute. reflexivity. Qed.

(** 0002, and 0003 without tuples, give this one the directory of the extensions,
    which 0006 refuses. *)
Lemma extensions_resolved :
  Resolve Ext0002 "extensions" = Ok "extensions"
  ∧ Resolve (HashIDTuple (mkHashIDTuple ext0003 "sha256" 0 0)) "extensions" = Ok "extensions"
  ∧ is_ok (Resolve (FlatOmitPrefix (mkFlatOmitPrefix ext0006 ":")) "extensions") = false.
Proof. split_and!; vm_compute; reflexivity. Qed.

(** ** Witness *)

Lemma hashed_layouts_separate_witness :
  let own := ["0=ocfl_1.1"; "ocfl_layout.json"; "extensions/0003-hash-and-id-n-tuple-storage-layout/config.json"] in
  let ids := λ id, id = "info:1" ∨ id = "info:2" in
  Separates (HashIDTuple (mkHashIDTuple ext0003 "sha256" 3 3)) own ids
  ∧ Separates (HashTuple (mkHashTuple ext0004 "md5" 8 4 true)) own ids.
Proof.
  intros own ids.
  assert (not_hex own) as Hown by (unfold not_hex; apply Forall_forall; by repeat constructor).
  assert (∀ alg, hash_sum alg "info:1" ≠ hash_sum alg "info:2" → no_collision alg ids) as Hc
    by (intros alg Hne id id' [-> | ->] [-> | ->]; [done|by intros ?%Hne|by intros E%eq_sym%Hne|done]).
  destruct (hashed_layouts_separate own ids Hown sized_hashes_ok) as [H3 H4]. split.
  - apply H3; [by vm_compute|]. apply Hc. vm_compute. done.
  - apply (H4 _ 16 (hash_sum "md5")); try done. apply Hc. vm_compute. done.
Defined.
