(* ===== verification/Object.v ===== *)
(** * Objects ([src/object.go])

    Opening an object, reading it, and updating it with a stage: the plan is
    built by [NewUpdatePlan] and applied by [ApplyUpdatePlan].  The methods of
    [Root] that open objects are here too.  Loggers are left out. *)
From S2P Require Import Prelude GoStd VNum DigestMap Spec FS ObjectState Pipeline Digest Extension Codes Validation.
From S2P Require Import Inventory OcflInventory InventoryBytes Builder UpdatePlan Root Stage LogicalFS.

(** [src/object.go:23-40] Object *)
Record Object (FS : Type) := mkObject {
  o_fs : FS;
  o_path : string;
  o_inventory : option StoredInventory;
  o_inventoryIsRoot : bool;
  o_root : option (Root FS);
  o_requiredID : string
}.
Arguments mkObject {FS} o_fs o_path o_inventory o_inventoryIsRoot o_root o_requiredID.
Arguments o_fs {FS} o.
Arguments o_path {FS} o.
Arguments o_inventory {FS} o.
Arguments o_inventoryIsRoot {FS} o.
Arguments o_root {FS} o.
Arguments o_requiredID {FS} o.

(** [src/object.go:507-519] newObjectConfig *)
Record newObjectConfig (FS : Type) := mkObjectConfig {
  oc_requiredID : string;
  oc_mustExist : bool;
  oc_skipRootSidecarValidation : bool;
  oc_root : option (Root FS);
  oc_inv : option StoredInventory
}.
Arguments mkObjectConfig {FS} _ _ _ _ _.
Arguments oc_requiredID {FS} n.
Arguments oc_mustExist {FS} n.
Arguments oc_skipRootSidecarValidation {FS} n.
Arguments oc_root {FS} n.
Arguments oc_inv {FS} n.

(** [src/object.go:536-541] ObjectVersion *)
Record ObjectVersion := mkObjectVersion { ov_vnum : VNum; ov_version : InventoryVersion }.

(** [src/object.go:549-550] ObjectVersion.State *)
Definition ov_State `{GoEnv} (o : ObjectVersion) : DigestMap := Clone (state_of (ov_version o)).

(** [src/object.go:565-573] objectUpdateOptions *)
Record objectUpdateOptions := mkUpdateOptions {
  uo_created : Time;
  uo_spec : Spec;
  uo_newHead : Z;
  uo_allowUnchanged : bool;
  uo_contentPathFunc : option PathMutation;
  uo_goLimit : Z
}.

(** [src/object.go:588-590] ObjectUpdateOption *)
Definition ObjectUpdateOption : Type := objectUpdateOptions → objectUpdateOptions.

(** [src/object.go:592-598] UpdateWithVersionCreated *)
Definition UpdateWithVersionCreated (t : Time) : ObjectUpdateOption := λ o,
  mkUpdateOptions t (uo_spec o) (uo_newHead o) (uo_allowUnchanged o) (uo_contentPathFunc o) (uo_goLimit o).
(** [src/object.go:600-605] UpdateWithOCFLSpec *)
Definition UpdateWithOCFLSpec (s : Spec) : ObjectUpdateOption := λ o,
  mkUpdateOptions (uo_created o) s (uo_newHead o) (uo_allowUnchanged o) (uo_contentPathFunc o) (uo_goLimit o).
(** [src/object.go:607-614] UpdateWithNewHead *)
Definition UpdateWithNewHead (v : Z) : ObjectUpdateOption := λ o,
  mkUpdateOptions (uo_created o) (uo_spec o) v (uo_allowUnchanged o) (uo_contentPathFunc o) (uo_goLimit o).
(** [src/object.go:616-623] UpdateWithUnchangedVersionState *)
Definition UpdateWithUnchangedVersionState : ObjectUpdateOption := λ o,
  mkUpdateOptions (uo_created o) (uo_spec o) (uo_newHead o) true (uo_contentPathFunc o) (uo_goLimit o).
(** [src/object.go:625-631] UpdateWithContentPathFunc *)
Definition UpdateWithContentPathFunc (mutate : option PathMutation) : ObjectUpdateOption := λ o,
  mkUpdateOptions (uo_created o) (uo_spec o) (uo_newHead o) (uo_allowUnchanged o) mutate (uo_goLimit o).
(** [src/object.go:641-647] UpdateWithGoLimit *)
Definition UpdateWithGoLimit (gos : Z) : ObjectUpdateOption := λ o,
  mkUpdateOptions (uo_created o) (uo_spec o) (uo_newHead o) (uo_allowUnchanged o) (uo_contentPathFunc o) gos.

Section object.
Context `{GoEnv, URLs, MultiError, Hashes, Decoders, PlanCodec} {W FS : Type} `{!FileSystems W FS}.
(** The clock, [Truncate] and [json.Marshal] of an inventory. *)
Context (now : nat → Time) (strip : Z → Z) (json_Marshal : Inventory → result string).
Implicit Types (obj : Object FS) (w : W).

(** ** Options *)

(** [src/object.go:458-459] ObjectOption *)
Definition ObjectOption : Type := newObjectConfig FS → newObjectConfig FS.

(** [src/object.go:461-467] ObjectMustExist *)
Definition ObjectMustExist : ObjectOption := λ o,
  mkObjectConfig (oc_requiredID o) true (oc_skipRootSidecarValidation o) (oc_root o) (oc_inv o).
(** [src/object.go:469-475] ObjectSkipRootSidecarValidation *)
Definition ObjectSkipRootSidecarValidation : ObjectOption := λ o,
  mkObjectConfig (oc_requiredID o) (oc_mustExist o) true (oc_root o) (oc_inv o).
(** [src/object.go:477-484] ObjectWithID *)
Definition ObjectWithID (id : string) : ObjectOption := λ o,
  mkObjectConfig id (oc_mustExist o) (oc_skipRootSidecarValidation o) (oc_root o) (oc_inv o).
(** [src/object.go:486-495] ObjectWithInventory *)
Definition ObjectWithInventory (inv : option StoredInventory) : ObjectOption := λ o,
  mkObjectConfig (oc_requiredID o) (oc_mustExist o) (oc_skipRootSidecarValidation o) (oc_root o) inv.
(** [src/object.go:497-505] objectWithRoot *)
Definition objectWithRoot (root : Root FS) : ObjectOption := λ o,
  match oc_root o with
  | None => mkObjectConfig (oc_requiredID o) (oc_mustExist o) (oc_skipRootSidecarValidation o) (Some root) (oc_inv o)
  | Some _ => o
  end.

(** [src/object.go:521-534] newObjectAndConfig *)
Definition newObjectAndConfig (fsys : FS) (dir : string) (opts : list ObjectOption) : Object FS * newObjectConfig FS :=
  let config := foldl (λ config optFn, optFn config) (mkObjectConfig "" false false None None) opts in
  (mkObject fsys dir (oc_inv config) false (oc_root config) (oc_requiredID config), config).

(** [src/object.go:575-586] newObjectUpdateOptions *)
Definition newObjectUpdateOptions (opts : list ObjectUpdateOption) : objectUpdateOptions :=
  let combinedOpts := foldl (λ o f, f o) (mkUpdateOptions Time_zero "" 0 false None 0) opts in
  if Time_IsZero (uo_created combinedOpts) then UpdateWithVersionCreated (now 0) combinedOpts else combinedOpts.

(** ** Reading *)

(** [obj.inventory.field], or a default for the nil inventory. *)
Definition with_inv {A} obj (f : Inventory → A) (zero : A) : A :=
  match o_inventory obj with Some si => f (si_Inventory si) | None => zero end.

(** [src/object.go:256-265] Object.ID *)
Definition Object_ID obj : string := with_inv obj inv_ID (o_requiredID obj).

(** [src/object.go:120-126] Object.ContentDirectory *)
Definition ContentDirectory obj : string :=
  with_inv obj (λ inv, if bool_decide (inv_ContentDirectory inv = "") then contentDir else inv_ContentDirectory inv)
    contentDir.

(** [src/object.go:128-136] Object.InventoryBuilder *)
Definition Object_InventoryBuilder obj : InventoryBuilder :=
  ib_ID (NewInventoryBuilder (si_Inventory <$> o_inventory obj)) (Object_ID obj).

(** [src/object.go:173-179] Object.DigestAlgorithm *)
Definition Object_DigestAlgorithm obj : Algorithm :=
  builtin_alg (with_inv obj (λ inv, if bool_decide (inv_DigestAlgorithm inv = SHA256) then SHA256 else SHA512) SHA512).

(** [src/object.go:181-184] Object.Exists *)
Definition Object_Exists obj : bool := bool_decide (is_Some (o_inventory obj)).

(** [src/object.go:186-200] Object.ExtensionNames *)
Definition ExtensionNames obj w : result (list string) :=
  match fs_ReadDir (o_fs obj) (Join [o_path obj; extensionsDir]) w with
  | (_, Some err) => inr err
  | (entries, None) => inl (omap (λ e, if de_IsDir e then Some (de_Name e) else None) entries)
  end.

(** [src/object.go:202-210] Object.FixityAlgorithms *)
Definition FixityAlgorithms obj : list string := with_inv obj (λ inv, (range 85 (inv_Fixity inv)).*1) [].

(** [src/object.go:217-223] Object.GetFixity *)
Definition Object_GetFixity obj : FixitySource := λ dig,
  with_inv obj (λ inv, Inventory_GetFixity inv dig) None.

(** [src/object.go:225-235] Object.GetContent *)
Definition Object_GetContent obj : ContentSource FS := λ dig,
  with_inv obj (λ inv, match paths_of (manifest inv) dig with
                       | [] => None
                       | p :: _ => Some (o_fs obj, Join [o_path obj; p])
                       end) None.

(** [src/object.go:237-244] Object.Head *)
Definition Object_Head obj : VNum := with_inv obj inv_Head (mkVNum 0 0).

(** [src/object.go:246-254] Object.InventoryDigest *)
Definition InventoryDigest obj : string := match o_inventory obj with Some si => si_Digest si | None => "" end.

(** [src/object.go:267-277] Object.Manifest: [None] is the nil map *)
Definition Object_Manifest obj : option DigestMap := with_inv obj (λ inv, Some (Clone (manifest inv))) None.

(** [src/object.go:284-297] Object.ReadOnly *)
Definition ReadOnly obj : option error :=
  if bool_decide (is_Some (o_inventory obj)) && negb (o_inventoryIsRoot obj)
  then Some (ErrWrap "initialized without latest inventory state" (ErrVar ErrObjectReadOnly))
  else match as_WriteFS (o_fs obj) with
       | None => Some (ErrWrap "storage backend does not support writes" (ErrVar ErrObjectReadOnly))
       | Some _ => None
       end.

(** [src/object.go:305-312] Object.Spec *)
Definition Object_Spec obj : Spec := with_inv obj (λ inv, it_Spec (inv_Type inv)) "".

(** [src/object.go:328-348] Object.Version *)
Definition Object_Version obj (v : Z) : option ObjectVersion :=
  with_inv obj (λ inv,
    let vnum := if 0 <? v then V [v; padding (inv_Head inv)] else inv_Head inv in
    match versions inv !! vnum with
    | Some (Some ver) => Some (mkObjectVersion vnum ver)
    | _ => None
    end) None.

(** [src/object.go:391-396] Object.version *)
Definition object_version obj (v : Z) : option InventoryVersion := with_inv obj (λ inv, Inventory_version inv v) None.

(** The content path of each logical name. *)
Fixpoint logical_names obj (man : DigestMap) (paths : list (string * string)) (names : gmap string string)
    : result (gmap string string) :=
  match paths with
  | [] => inl names
  | (name, digest) :: paths =>
      match paths_of man digest with
      | [] => inr (ErrNew "missing manifest entry for digest")
      | realName :: _ => logical_names obj man paths (<[name := Join [o_path obj; realName]]> names)
      end
  end.

(** [src/object.go:350-374] Object.VersionFS *)
Definition VersionFS obj (v : Z) : result (LogicalFS FS) :=
  match object_version obj v with
  | None => inr (ErrNew "version not found")
  | Some ver =>
      match logical_names obj (with_inv obj manifest ∅) (Paths (state_of ver)) ∅ with
      | inr err => inr err
      | inl logicalNames => inl (NewLogicalFS (o_fs obj) logicalNames (tm_ns (iv_Created ver)))
      end
  end.

(** [src/object.go:376-389] Object.VersionStage *)
Definition VersionStage obj (v : Z) : option (Stage FS) :=
  match object_version obj v with
  | None => None
  | Some ver =>
      Some (mkStage (state_of ver) (Some (Object_DigestAlgorithm obj)) (SrcOne (Object_GetContent obj))
              (SrcOne (Object_GetFixity obj)))
  end.

(** [src/object.go:398-407] Object.sync *)
Definition sync obj w : Object FS * option error :=
  match ReadInventory (o_fs obj) (o_path obj) w with
  | inr err => (obj, Some (ErrWrap "inventory" err))
  | inl inv => (mkObject (o_fs obj) (o_path obj) (Some inv) true (o_root obj) (o_requiredID obj), None)
  end.

(** The object with an inventory that is known to be the root inventory. *)
Definition set_root_inventory obj (inv : StoredInventory) : Object FS :=
  mkObject (o_fs obj) (o_path obj) (Some inv) true (o_root obj) (o_requiredID obj).

(** The rest of [NewObject] for an object that exists. *)
Definition open_existing obj (config : newObjectConfig FS) (dir : string) (inv : StoredInventory) w : res (Object FS) :=
  if negb (bool_decide (o_requiredID obj = "")) && negb (bool_decide (inv_ID (si_Inventory inv) = o_requiredID obj))
  then Err (ErrNew "object has unexpected ID")
  else if oc_skipRootSidecarValidation config then Ok obj
  else match ValidateSidecar inv (o_fs obj) dir w with
       | Some err => Err err
       | None => Ok (set_root_inventory obj inv)
       end.

(** The rest of [NewObject] for an object without inventory. *)
Definition open_new obj (dir : string) w : res (Object FS) :=
  if bool_decide (o_requiredID obj = "") then Err (ErrVar ErrNoObjectID)
  else
    let '(entries, err) := fs_ReadDir (o_fs obj) dir w in
    match unless_not_exist err with
    | Some err => Err (ErrWrap "reading object root directory" err)
    | None =>
        let rootState := ParseObjectDir entries in
        if ObjectState_Empty rootState then Ok obj
        else if HasNamaste rootState then Err (ErrWrap "incomplete OCFL object" (ErrVar fs_ErrNotExist))
        else Err (ErrNew "directory is not empty: non-conforming contents")
    end.

(** [src/object.go:42-92] NewObject *)
Definition NewObject (fsys : FS) (dir : string) (opts : list ObjectOption) w : res (Object FS) :=
  if negb (ValidPath dir) then Err (ErrWrap "invalid object path" (ErrVar fs_ErrInvalid))
  else
    let '(obj, config) := newObjectAndConfig fsys dir opts in
    let '(obj, err) := match o_inventory obj with None => sync obj w | Some _ => (obj, None) end in
    match (if oc_mustExist config then err else unless_not_exist err) with
    | Some err => Err err
    | None =>
        match o_inventory obj with
        | Some inv => open_existing obj config dir inv w
        | None => open_new obj dir w
        end
    end.

(** ** Updates *)

(** The state of the head version after [Eq] has sorted its paths in place. *)
Definition with_head_state (si : StoredInventory) (state : DigestMap) : StoredInventory :=
  let inv := si_Inventory si in
  let vers := match versions inv !! inv_Head inv with
              | Some (Some v) => <[inv_Head inv := Some (mkInventoryVersion (iv_Created v) (Some state) (iv_Message v) (iv_User v))]> (versions inv)
              | _ => versions inv
              end in
  mkStoredInventory
    (mkInventory (inv_ID inv) (inv_Type inv) (inv_DigestAlgorithm inv) (inv_Head inv) (inv_ContentDirectory inv)
       (inv_Manifest inv) (Some vers) (inv_Fixity inv))
    (si_bytes si) (si_digest si).

(** Whether the head version has the stage's state, and the inventory after the
    comparison. *)
Definition unchanged (currentInv : option StoredInventory) (state : DigestMap) : option StoredInventory * bool :=
  match currentInv with
  | None => (None, false)
  | Some si =>
      match versions (si_Inventory si) !! inv_Head (si_Inventory si) with
      | Some (Some lastV) =>
          match iv_State lastV with
          | Some st => let '(st, eq) := DM_Eq st state in (Some (with_head_state si st), eq)
          | None => (Some si, (DM_Eq ∅ state).2)
          end
      | _ => (Some si, false)
      end
  end.

(** [src/object.go:143-153] the new inventory of Object.NewUpdatePlan: a stage
    without algorithm panics where its [ID] is asked for *)
Definition stage_inventory (builder : InventoryBuilder) (stage : Stage FS) (msg : string) (user : User)
    (updateOpts : objectUpdateOptions) : res Inventory :=
  let b := ib_Spec (ib_ContentPathFunc (ib_FixitySource builder (fixity_source (st_FixitySource stage)))
             (uo_contentPathFunc updateOpts)) (uo_spec updateOpts) in
  match st_DigestAlgorithm stage with
  | Some alg =>
      Finalize now strip (ib_AddVersion b (mkAddedVersion (st_State stage) alg (uo_created updateOpts) msg (Some user)))
  | None =>
      inv ← initialInventory b;
      _ ← wrap_err "existing inventory's version scheme doesn't support additional versions" (Next (inv_Head inv));
      _ ← wrap_err "version state" (Normalize (st_State stage));
      Panic
  end.

Definition set_inventory obj (inv : option StoredInventory) : Object FS :=
  mkObject (o_fs obj) (o_path obj) inv (o_inventoryIsRoot obj) (o_root obj) (o_requiredID obj).

(** [src/object.go:138-171] Object.NewUpdatePlan: the inventory of the object is
    changed by the comparison of states *)
Definition NewUpdatePlan obj (stage : Stage FS) (msg : string) (user : User) (opts : list ObjectUpdateOption)
    : Object FS * res (UpdatePlan W FS) :=
  let updateOpts := newObjectUpdateOptions opts in
  match wrap_err "building new inventory for update"
          (stage_inventory (Object_InventoryBuilder obj) stage msg user updateOpts) with
  | Err err => (obj, Err err)
  | Panic => (obj, Panic)
  | Ok newInv =>
      let '(currentInv, same) :=
        if uo_allowUnchanged updateOpts then (o_inventory obj, false)
        else unchanged (o_inventory obj) (st_State stage) in
      let obj := set_inventory obj currentInv in
      if same then (obj, Err (ErrNew "update has unchanged version state"))
      else (obj, plan ← wrap_err "in object update plan" (newUpdatePlan json_Marshal newInv currentInv);
                 Ok (setGoLimit plan (uo_goLimit updateOpts)))
  end.

(** [src/object.go:94-118] Object.ApplyUpdatePlan *)
Definition ApplyUpdatePlan obj (update : UpdatePlan W FS) (src : option (ContentSource FS))
    : IO W (Object FS * UpdatePlan W FS * res unit) :=
  match ReadOnly obj with
  | Some err => mret (obj, update, Err (ErrWrap "cannot be updated" err))
  | None =>
      if negb (bool_decide (UpdatePlan_ObjectID update = Object_ID obj))
      then mret (obj, update, Err (ErrNew "update plan is for a different object"))
      else
        let baseInvDigest := match o_inventory obj with Some si => si_digest si | None => "" end in
        if negb (bool_decide (baseInvDigest = BaseInventoryDigest update))
        then mret (obj, update, Err (ErrNew "update plan does not reflect object's current inventory state"))
        else
          '(update, r) ← Apply update (o_fs obj) (o_path obj) src;
          match r with
          | Ok newInv => mret (set_root_inventory obj newInv, update, Ok ())
          | Err err => mret (obj, update, Err err)
          | Panic => mret (obj, update, Panic)
          end
  end.

(** [src/object.go:314-326] Object.Update *)
Definition Update obj (stage : Stage FS) (msg : string) (user : User) (opts : list ObjectUpdateOption)
    : IO W (Object FS * option (UpdatePlan W FS) * res unit) :=
  match NewUpdatePlan obj stage msg user opts with
  | (obj, Err err) => mret (obj, None, Err err)
  | (obj, Panic) => mret (obj, None, Panic)
  | (obj, Ok plan) =>
      '(obj, plan, r) ← ApplyUpdatePlan obj plan (content_source (st_ContentSource stage));
      mret (obj, Some plan, r)
  end.

(** ** Objects of a root *)

(** [src/root.go:118-125] Root.NewObjectDir *)
Definition Root_NewObjectDir (r : Root FS) (dir : string) (opts : list ObjectOption) w : res (Object FS) :=
  NewObject (r_fs r) (Join [r_dir r; dir]) (opts ++ [objectWithRoot r]) w.

(** [src/root.go:105-116] Root.NewObject *)
Definition Root_NewObject (r : Root FS) (id : string) (opts : list ObjectOption) w : res (Object FS) :=
  objPath ← ResolveID r id;
  Root_NewObjectDir r objPath (opts ++ [ObjectWithID id]) w.

(** [src/root.go:169-188] Root.ObjectsBatch: the objects and errors that are
    yielded; the fuel bounds the depth of the tree *)
Definition ObjectsBatch (fuel : nat) (r : Root FS) (numgos : Z) (opts : list ObjectOption) w : list (res (Object FS)) :=
  let opts := opts ++ [ObjectMustExist; objectWithRoot r] in
  let openObj (ref : FileRef FS) := NewObject (fr_FS ref) (FullPathDir ref) opts w in
  let '(declFiles, err) := UntilErr (ObjectDeclarations fuel r w) in
  Results 3 declFiles openObj numgos ++ match err with Ok _ => [] | Err e => [Err e] | Panic => [Panic] end.

(** [src/root.go:163-167] Root.Objects *)
Definition Objects (fuel : nat) (r : Root FS) (opts : list ObjectOption) w : list (res (Object FS)) :=
  ObjectsBatch fuel r 0 opts w.
End object.
