(* ===== verification/ObjectValidation.v ===== *)
(** * The state of an object's validation ([src/validation.go], second part)

    An [ObjectValidation] collects the errors of a validation and what it has
    seen of the content: the digests that the inventories declare for each file,
    and whether the file exists. *)
From S2P Require Import Prelude GoStd DigestMap FS Digest Codes Validation Inventory Object.

(** [src/validation.go:338-342] validationFileInfo *)
Record validationFileInfo := mkFileState {
  vf_manifestDigests : Set_;
  vf_fixityDigests : Set_;
  vf_fileExists : bool
}.

(** A call of a method of [slog.Logger]: the error and the value of "ocfl_code". *)
Inductive LogRecord := LogError (e : error) (code : option string) | LogWarn (e : error) (code : option string).

(** [src/validation.go:75-87] ObjectValidation: the nil map [files] is the empty
    one, as it is only read or replaced by a new map; a logger is the records it
    was given *)
Record ObjectValidation (FS : Type) `{MultiError} := mkObjectValidation {
  vd_Validation : Validation;
  vd_obj : Object FS;
  vd_objOptions : list (ObjectOption (FS:=FS));
  vd_logger : option (list LogRecord);
  vd_skipDigests : bool;
  vd_concurrency : Z;
  vd_files : gmap string validationFileInfo;
  vd_algRegistry : AlgorithmRegistry
}.
Arguments mkObjectValidation {FS _} _ _ _ _ _ _ _ _.
Arguments vd_Validation {FS _} o.
Arguments vd_obj {FS _} o.
Arguments vd_objOptions {FS _} o.
Arguments vd_logger {FS _} o.
Arguments vd_skipDigests {FS _} o.
Arguments vd_concurrency {FS _} o.
Arguments vd_files {FS _} o.
Arguments vd_algRegistry {FS _} o.

(** [errors.As(err, &validErr)] and the code of the error. *)
Definition is_validation_error (e : error) : option ValidationCode :=
  match e with ValidationError c _ => Some c | _ => None end.
Definition ocfl_code (e : error) : option string := vc_Code <$> errors_As is_validation_error e.

Section object_validation.
Context `{GoEnv, MultiError, Hashes} {W FS : Type} `{!FileSystems W FS}.
Implicit Types (v : ObjectValidation FS).

Definition vd_with (f : Validation → Validation) (log : list LogRecord) v : ObjectValidation FS :=
  mkObjectValidation (f (vd_Validation v)) (vd_obj v) (vd_objOptions v)
    ((λ l, l ++ log) <$> vd_logger v) (vd_skipDigests v) (vd_concurrency v) (vd_files v) (vd_algRegistry v).
Definition vd_set_files (files : gmap string validationFileInfo) v : ObjectValidation FS :=
  mkObjectValidation (vd_Validation v) (vd_obj v) (vd_objOptions v) (vd_logger v) (vd_skipDigests v)
    (vd_concurrency v) files (vd_algRegistry v).
Definition vd_set_obj (obj : Object FS) v : ObjectValidation FS :=
  mkObjectValidation (vd_Validation v) obj (vd_objOptions v) (vd_logger v) (vd_skipDigests v)
    (vd_concurrency v) (vd_files v) (vd_algRegistry v).

(** ** Errors and warnings *)

(** [src/validation.go:125-140] ObjectValidation.AddFatal *)
Definition AddFatal v (errs : list error) : ObjectValidation FS :=
  vd_with (λ vd, v_AddFatal vd errs) ((λ e, LogError e (ocfl_code e)) <$> errs) v.

(** [src/validation.go:142-158] ObjectValidation.AddWarn *)
Definition AddWarn v (errs : list error) : ObjectValidation FS :=
  vd_with (λ vd, v_AddWarn vd errs) ((λ e, LogWarn e (ocfl_code e)) <$> errs) v.

(** [src/validation.go:102-109] ObjectValidation.Add *)
Definition Add v (v2 : option Validation) : ObjectValidation FS :=
  match v2 with
  | None => v
  | Some v2 => AddWarn (AddFatal v (v_Errors v2)) (v_WarnErrors v2)
  end.

(** [src/validation.go:111-123] ObjectValidation.PrefixAdd *)
Definition PrefixAdd v (prefix : string) (v2 : option Validation) : ObjectValidation FS :=
  match v2 with
  | None => v
  | Some v2 =>
      let v := foldl (λ v err, AddFatal v [ErrWrap prefix err]) v (v_Errors v2) in
      foldl (λ v err, AddWarn v [ErrWrap prefix err]) v (v_WarnErrors v2)
  end.

(** [src/validation.go:171-178] ObjectValidation.DigestConcurrency *)
Definition DigestConcurrency v : Z := if 0 <? vd_concurrency v then vd_concurrency v else num_cpu.

(** ** Options *)

(** [src/validation.go:306-306] ObjectValidationOption *)
Definition ObjectValidationOption : Type := ObjectValidation FS → ObjectValidation FS.

(** [src/validation.go:308-312] ValidationSkipDigest *)
Definition ValidationSkipDigest : ObjectValidationOption := λ v,
  mkObjectValidation (vd_Validation v) (vd_obj v) (vd_objOptions v) (vd_logger v) true
    (vd_concurrency v) (vd_files v) (vd_algRegistry v).
(** [src/validation.go:314-320] ValidationLogger *)
Definition ValidationLogger (logger : option (list LogRecord)) : ObjectValidationOption := λ v,
  mkObjectValidation (vd_Validation v) (vd_obj v) (vd_objOptions v) logger (vd_skipDigests v)
    (vd_concurrency v) (vd_files v) (vd_algRegistry v).
(** [src/validation.go:322-328] ValidationDigestConcurrency *)
Definition ValidationDigestConcurrency (num : Z) : ObjectValidationOption := λ v,
  mkObjectValidation (vd_Validation v) (vd_obj v) (vd_objOptions v) (vd_logger v) (vd_skipDigests v)
    num (vd_files v) (vd_algRegistry v).
(** [src/validation.go:330-336] ValidationAlgorithms *)
Definition ValidationAlgorithms (reg : AlgorithmRegistry) : ObjectValidationOption := λ v,
  mkObjectValidation (vd_Validation v) (vd_obj v) (vd_objOptions v) (vd_logger v) (vd_skipDigests v)
    (vd_concurrency v) (vd_files v) reg.

(** [src/validation.go:89-100] newObjectValidation: no option reads the object,
    which is nil until the options are applied *)
Definition newObjectValidation (fsys : FS) (dir : string) (opts : list ObjectValidationOption)
    : ObjectValidation FS :=
  let v := foldl (λ v opt, opt v)
    (mkObjectValidation new_Validation (mkObject fsys dir None false None "") [] None false 0 ∅ DefaultRegistry)
    opts in
  vd_set_obj (newObjectAndConfig fsys dir (vd_objOptions v)).1 v.

(** ** Content *)

(** [src/validation.go:187-197] ObjectValidation.addExistingContent *)
Definition addExistingContent v (name : string) : ObjectValidation FS :=
  let info := default (mkFileState None None false) (vd_files v !! name) in
  vd_set_files (<[name := mkFileState (vf_manifestDigests info) (vf_fixityDigests info) true]> (vd_files v)) v.

(** [errors.As(err, &digestError)] and the assignment to its path. *)
Definition digest_error_path (name : string) (e : error) : error :=
  match e with
  | DigestError _ alg got expected fix_ => DigestError name alg got expected fix_
  | e => e
  end.

(** [allErrors = multierror.Append(allErrors, err)]; [None] is the empty error. *)
Definition append_err (name : string) (allErrors : option multierror) (err : option error) : option multierror :=
  match err with
  | None => allErrors
  | Some err => Some (me_Append allErrors [digest_error_path name err])
  end.

(** The loop of [addInventory] over the paths of the manifest. *)
Fixpoint add_manifest (inv : Inventory) (paths : list (string * string))
    (files : gmap string validationFileInfo) (allErrors : option multierror)
    : res (gmap string validationFileInfo * option multierror) :=
  match paths with
  | [] => Ok (files, allErrors)
  | (name, primaryDigest) :: paths =>
      let newManifest : Set_ := Some {[inv_DigestAlgorithm inv := primaryDigest]} in
      let newFixity := Inventory_GetFixity inv primaryDigest in
      match files !! name with
      | None => add_manifest inv paths (<[name := mkFileState newManifest newFixity false]> files) allErrors
      | Some existing =>
          '(digests, err) ← Set_Add (vf_manifestDigests existing) newManifest;
          let allErrors := append_err name allErrors err in
          '(fixity, err) ← Set_Add (vf_fixityDigests existing) newFixity;
          let allErrors := append_err name allErrors err in
          add_manifest inv paths (<[name := mkFileState digests fixity (vf_fileExists existing)]> files) allErrors
      end
  end.

(** [src/validation.go:199-246] ObjectValidation.addInventory *)
Definition addInventory v (inv : StoredInventory) (isRoot : bool) : res (ObjectValidation FS * option error) :=
  '(files, allErrors) ← add_manifest (si_Inventory inv) (Paths (manifest (si_Inventory inv))) (vd_files v) None;
  let v := vd_set_files files v in
  match allErrors ≫= me_ErrorOrNil with
  | Some err => Ok (v, Some err)
  | None =>
      if isRoot then Ok (vd_set_obj (set_root_inventory (vd_obj v) inv) v, None) else Ok (v, None)
  end.

(** [len(entry.manifestDigests) > 0] *)
Definition seenInManifest (entry : validationFileInfo) : bool :=
  negb (bool_decide (set_map (vf_manifestDigests entry) = ∅)).

(** [src/validation.go:248-270] ObjectValidation.existingContentDigests *)
Definition existingContentDigests v (fsys : FS) (objPath : string) : list (DFileRef (FS:=FS)) :=
  omap (λ '(name, entry),
    if vf_fileExists entry && seenInManifest entry
    then Some (mkDFileRef (mkFileRef fsys objPath name None) (vf_manifestDigests entry) (vf_fixityDigests entry))
    else None) (range 100 (vd_files v)).

(** [src/validation.go:276-289] ObjectValidation.missingContent *)
Definition missingContent v : list string :=
  omap (λ '(name, entry), if seenInManifest entry && negb (vf_fileExists entry) then Some name else None)
    (range 101 (vd_files v)).

(** [src/validation.go:291-304] ObjectValidation.unexpectedContent *)
Definition unexpectedContent v : list string :=
  omap (λ '(name, entry), if vf_fileExists entry && negb (seenInManifest entry) then Some name else None)
    (range 102 (vd_files v)).
End object_validation.
