(* ===== verification/ValidateObject.v ===== *)
(** * Validation of objects ([src/ocflv1.go], second part, and [ValidateObject])

    The checks of an object's root directory, of its version directories and of
    its content, and the function that composes them.  A call that would crash the
    program is [Panic]. *)
From S2P Require Import Prelude GoStd VNum DigestMap Spec FS Namaste ObjectState Digest Extension Codes Validation.
From S2P Require Import Inventory OcflInventory InventoryBytes Root Object ObjectValidation.

(** [src/ocflv1.go:695-700] versionDirState *)
Record versionDirState := mkVersionDirState {
  vds_hasInventory : bool;
  vds_sidecarAlg : string;
  vds_extraFiles : list string;
  vds_dirs : list string
}.

(** The body of the loop of [parseVersionDirState]. *)
Definition parse_version_entry (info : versionDirState) (e : DirEntry) : versionDirState :=
  let name := de_Name e in
  let extra := mkVersionDirState (vds_hasInventory info) (vds_sidecarAlg info)
                 (vds_extraFiles info ++ [name]) (vds_dirs info) in
  if Mode_IsDir (de_Type e)
  then mkVersionDirState (vds_hasInventory info) (vds_sidecarAlg info) (vds_extraFiles info) (vds_dirs info ++ [name])
  else if Mode_IsRegular (de_Type e) || (de_Type e =? ModeIrregular) then
    if bool_decide (name = inventoryBase)
    then mkVersionDirState true (vds_sidecarAlg info) (vds_extraFiles info) (vds_dirs info)
    else if HasPrefix name (inventoryBase +:+ ".") && bool_decide (vds_sidecarAlg info = "")
    then mkVersionDirState (vds_hasInventory info) (TrimPrefix name (inventoryBase +:+ "."))
           (vds_extraFiles info) (vds_dirs info)
    else extra
  else extra.

(** [src/ocflv1.go:702-723] parseVersionDirState *)
Definition parseVersionDirState (entries : list DirEntry) : versionDirState :=
  foldl parse_version_entry (mkVersionDirState false "" [] []) entries.

(** [src/ocflv1.go:725-730] logicalState: the nil map is [None] *)
Record logicalState := mkLogicalState { ls_manifest : option DigestMap; ls_state : option DigestMap }.

Section checks.
Context `{GoEnv, MultiError}.

(** [src/ocflv1.go:732-762] logicalState.forwardMatch *)
Definition forwardMatch (a b : logicalState) : bool :=
  match ls_state a, ls_state b, ls_manifest a, ls_manifest b with
  | Some aState, Some bState, Some aMan, Some bMan =>
      if negb (size aState =? size bState)%nat then false
      else
        forallb (λ '(aName, aDig),
          let bDig := DigestFor bState aName in
          if bool_decide (bDig = "") then false
          else forallb (λ con, bool_decide (con ∈ paths_of bMan bDig)) (paths_of aMan aDig)) (Paths aState)
        && forallb (λ '(bName, _), negb (bool_decide (DigestFor aState bName = ""))) (Paths bState)
  | _, _, _, _ => false
  end.

(** The code of an error of the version directories. *)
Definition version_dirs_error (spec : string) (err : error) : error :=
  if errors_Is err ErrVerEmpty then verr err (E008 spec)
  else if errors_Is err ErrVNumPadding then verr err (E011 spec)
  else if errors_Is err ErrVNumMissing then verr err (E010 spec)
  else err.

(** [src/ocflv1.go:764-803] validateRootState: [Valid] sorts the version
    directories of the state *)
Definition validateRootState (spec : Spec) (state : ObjectState) : ObjectState * Validation :=
  let v := foldl (λ v name, v_AddFatal v [verr (ErrWrap name (ErrVar ErrObjRootStructure)) (E001 spec)])
             new_Validation (os_Invalid state) in
  let v := fatal_if (negb (HasNamaste state)) (verr (ErrWrap "version declaration" (ErrVar fs_ErrNotExist)) (E003 spec)) v in
  let v := fatal_if (negb (HasInventory state)) (verr (ErrWrap "root inventory.json" (ErrVar fs_ErrNotExist)) (E063 spec)) v in
  let v := fatal_if (negb (HasSidecar state)) (verr (ErrWrap "root inventory.json sidecar" (ErrVar fs_ErrNotExist)) (E058 spec)) v in
  let '(dirs, err) := VNums_Valid (os_VersionDirs state) in
  let state := mkObjectState (os_Spec state) dirs (os_SidecarAlg state) (os_Invalid state) (os_Flags state) in
  match err with
  | Some err => (state, v_AddFatal v [version_dirs_error spec err])
  | None =>
      (state, warn_if (0 <? VNums_Padding dirs)
                (verr (ErrNew "version directory names are zero-padded") (W001 spec)) v)
  end.
End checks.

Section validate_object.
Context `{GoEnv, URLs, MultiError, Hashes, Decoders} {W FS : Type} `{!FileSystems W FS}.
Implicit Types (v vldr : ObjectValidation FS) (w : W).

Definition vd_fs v : FS := o_fs (vd_obj v).
Definition vd_path v : string := o_path (vd_obj v).

(** [src/ocflv1.go:805-831] validateExtensionsDir: [None] is the nil pointer *)
Definition validateExtensionsDir (spec : Spec) (fsys : FS) (objDir : string) w : option Validation :=
  let extDir := Join [objDir; extensionsDir] in
  match fs_ReadDir fsys extDir w with
  | (_, Some err) =>
      if errors_Is err fs_ErrNotExist then None else Some (v_AddFatal new_Validation [err])
  | (items, None) =>
      Some (foldl (λ (v : Validation) i,
        if negb (de_IsDir i)
        then v_AddFatal v [verr (ErrNew ("invalid file: " +:+ de_Name i)) (E067 spec)]
        else match ext_Get (de_Name i) with
             | inl _ => v
             | inr err => v_AddWarn v [verr (ErrWrap (de_Name i) err) (W013 spec)]
             end) new_Validation items)
  end.

(** The code of an error of a sidecar. *)
Definition sidecar_error (spec : string) (err : error) : error :=
  if errors_Is err ErrInventorySidecarContents then verr err (E061 spec) else verr err (E060 spec).

(** The rest of [ValidateObjectRoot], with a root inventory. *)
Definition check_root (imp : ocflV1) vldr (state : ObjectState) (inv : StoredInventory) w
    : res (ObjectValidation FS * ObjectState * option error) :=
  let specStr := v1Spec imp in
  let vldr := match ValidateSidecar inv (vd_fs vldr) (vd_path vldr) w with
              | Some err => AddFatal vldr [sidecar_error specStr err]
              | None => vldr
              end in
  let vldr := PrefixAdd vldr "extensions directory"
                (validateExtensionsDir (v1Spec imp) (vd_fs vldr) (vd_path vldr) w) in
  '(vldr, err) ← addInventory vldr inv true;
  let vldr := match err with Some err => AddFatal vldr [err] | None => vldr end in
  let '(state, v) := validateRootState (v1Spec imp) state in
  let vldr := PrefixAdd vldr "root contents" (Some v) in
  Ok (vldr, state, v_Err (vd_Validation vldr)).

(** [src/ocflv1.go:435-484] ocflV1.ValidateObjectRoot *)
Definition ValidateObjectRoot (imp : ocflV1) vldr (state : ObjectState) w
    : res (ObjectValidation FS * ObjectState * option error) :=
  let specStr := v1Spec imp in
  let decl := mkNamaste NamasteTypeObject (v1Spec imp) in
  let name := Join [vd_path vldr; Namaste_Name decl] in
  match ValidateNamaste (vd_fs vldr) name w with
  | Some err =>
      if errors_Is err fs_ErrNotExist then
        let err := ErrWrap name (ErrVar ErrObjectNamasteNotExist) in
        Ok (AddFatal vldr [verr err (E003 specStr)], state, Some err)
      else Ok (AddFatal vldr [verr err (E007 specStr)], state, Some err)
  | None =>
      match fs_ReadAll (vd_fs vldr) (Join [vd_path vldr; inventoryBase]) w with
      | Panic => Panic
      | Err err =>
          if errors_Is err fs_ErrNotExist
          then Ok (AddFatal vldr [err; verr err (E063 specStr)], state, Some err)
          else Ok (AddFatal vldr [err], state, Some err)
      | Ok invBytes =>
          let '(inv, invValidation) := ValidateInventoryBytes_v1 imp invBytes in
          let vldr := PrefixAdd vldr "root inventory.json" (Some invValidation) in
          match v_Err invValidation, inv with
          | Some err, _ => Ok (vldr, state, Some err)
          | None, None => Panic
          | None, Some inv => check_root imp vldr state inv w
          end
      end
  end.

(** ** Version directories *)

(** The loop of [compareVersionInventory] over the versions: [verInv.Versions[v]]
    that is nil is dereferenced. *)
Fixpoint compare_versions (specStr : string) (dirNum : VNum) (verInv rootInv : Inventory) (vs : list VNum) vldr
    : res (ObjectValidation FS) :=
  match vs with
  | [] => Ok vldr
  | v :: vs =>
      match mjoin (versions rootInv !! v), mjoin (versions verInv !! v) with
      | None, _ =>
          compare_versions specStr dirNum verInv rootInv vs
            (AddFatal vldr [verr (ErrNew "root inventory.json has missing version") (E046 specStr)])
      | Some _, None => Panic
      | Some rootVersion, Some thisVersion =>
          let vldr :=
            if forwardMatch (mkLogicalState (inv_Manifest verInv) (iv_State thisVersion))
                            (mkLogicalState (inv_Manifest rootInv) (iv_State rootVersion))
            then vldr
            else AddFatal vldr [verr (ErrNew "different logical state") (E066 specStr)] in
          let vldr :=
            if bool_decide (iv_Message thisVersion = iv_Message rootVersion) then vldr
            else AddWarn vldr [verr (ErrNew "different 'message'") (W011 specStr)] in
          let vldr :=
            if bool_decide (iv_User thisVersion = iv_User rootVersion) then vldr
            else AddWarn vldr [verr (ErrNew "different 'user'") (W011 specStr)] in
          let vldr :=
            if bool_decide (iv_Created thisVersion = iv_Created rootVersion) then vldr
            else AddWarn vldr [verr (ErrNew "different 'created'") (W011 specStr)] in
          compare_versions specStr dirNum verInv rootInv vs vldr
      end
  end.

(** [src/ocflv1.go:615-665] ocflV1.compareVersionInventory *)
Definition compareVersionInventory (imp : ocflV1) (rootSi : StoredInventory) (dirNum : VNum)
    (verSi : StoredInventory) vldr : res (ObjectValidation FS) :=
  let specStr := v1Spec imp in
  let verInv := si_Inventory verSi in
  let rootInv := si_Inventory rootSi in
  let vldr :=
    if bool_decide (inv_Head verInv = inv_Head rootInv) && negb (bool_decide (si_Digest verSi = si_Digest rootSi))
    then AddFatal vldr [verr (ErrNew "not the same as the root inventory: digests don't match") (E064 specStr)]
    else vldr in
  let vldr :=
    if bool_decide (inv_ID verInv = inv_ID rootInv) then vldr
    else AddFatal vldr [verr (ErrNew "'id' doesn't match value in root inventory") (E037 specStr)] in
  let vldr :=
    if bool_decide (inv_ContentDirectory verInv = inv_ContentDirectory rootInv) then vldr
    else AddFatal vldr [verr (ErrNew "'contentDirectory' doesn't match value in root inventory") (E019 specStr)] in
  vs ← Lineage (inv_Head verInv);
  compare_versions specStr dirNum verInv rootInv vs vldr.

(** The loop over the files of a content directory, with the number of files; the
    error is that of the walk. *)
Fixpoint add_content_files (vnumStr cdName : string) (contents : list (res (FileRef FS))) (added : Z) vldr
    : res (ObjectValidation FS * Z * option error) :=
  match contents with
  | [] => Ok (vldr, added, None)
  | Panic :: _ => Panic
  | Err err :: _ => Ok (AddFatal vldr [err], added, Some err)
  | Ok contentFile :: contents =>
      add_content_files vnumStr cdName contents (added + 1)
        (addExistingContent vldr (Join [vnumStr; cdName; fr_Path contentFile]))
  end.

(** The loop over the directories of a version directory; the fuel bounds the depth
    of the content directory. *)
Fixpoint check_version_dirs (fuel : nat) (specStr fullVerDir vnumStr cdName : string) (dirs : list string) vldr w
    : res (ObjectValidation FS * option error) :=
  match dirs with
  | [] => Ok (vldr, None)
  | d :: dirs =>
      if negb (bool_decide (d = cdName)) then
        check_version_dirs fuel specStr fullVerDir vnumStr cdName dirs
          (AddWarn vldr [verr (ErrNew ("extra directory: " +:+ d)) (W002 specStr)]) w
      else
        let fullVerContDir := Join [fullVerDir; cdName] in
        '(vldr, added, err) ← add_content_files vnumStr cdName (fs_WalkFiles fuel (vd_fs vldr) fullVerContDir w) 0 vldr;
        match err with
        | Some err => Ok (vldr, Some err)
        | None =>
            let vldr := if added =? 0
                        then AddFatal vldr [verr (ErrNew "content directory is empty directory") (E016 specStr)]
                        else vldr in
            check_version_dirs fuel specStr fullVerDir vnumStr cdName dirs vldr w
        end
  end.

(** The checks of a version's inventory against the previous one and the root's. *)
Definition check_version_inventory (imp : ocflV1) vldr (vnum : VNum) (verInv : StoredInventory)
    (prevInv : option StoredInventory) (rootInv : option StoredInventory) (fullVerDir : string) w
    : res (ObjectValidation FS) :=
  let specStr := v1Spec imp in
  let vnumStr := VNum_String vnum in
  let vldr := PrefixAdd vldr (vnumStr +:+ "/inventory.json") (Some (ValidateInventory imp (si_Inventory verInv))) in
  let vldr := match ValidateSidecar verInv (vd_fs vldr) fullVerDir w with
              | Some err => AddFatal vldr [sidecar_error specStr (ErrWrap (vnumStr +:+ "/inventory.json") err)]
              | None => vldr
              end in
  older ← match prevInv with
          | None => Ok false
          | Some prevInv =>
              c ← Spec_Cmp (it_Spec (inv_Type (si_Inventory verInv))) (it_Spec (inv_Type (si_Inventory prevInv)));
              Ok (c <? 0)
          end;
  let vldr := if older : bool
              then AddFatal vldr [verr (ErrNew "uses an older OCFL specification") (E103 Spec1_1)] else vldr in
  let vldr := if bool_decide (inv_Head (si_Inventory verInv) = vnum) then vldr
              else AddFatal vldr [verr (ErrNew "'head' does not matchs its directory") (E040 specStr)] in
  vldr ← match rootInv with
         | None => Ok vldr
         | Some rootInv =>
             if bool_decide (si_Digest verInv = si_Digest rootInv) then Ok vldr
             else
               vldr ← compareVersionInventory imp rootInv vnum verInv vldr;
               '(vldr, err) ← addInventory vldr verInv false;
               Ok match err with
                  | Some err => AddFatal vldr [verr (ErrWrap "digests are inconsistent with other inventories" err) (E066 specStr)]
                  | None => vldr
                  end
         end;
  let manifestPaths := DM_PathMap (manifest (si_Inventory verInv)) in
  Ok (foldl (λ vldr '(name, entry),
        if negb (vf_fileExists entry) then vldr
        else if bool_decide (is_Some (manifestPaths !! name)) then vldr
        else AddFatal vldr [verr (ErrNew ("missing content in manifest: " +:+ name)) (E023 specStr)])
        vldr (range 103 (vd_files vldr))).

(** [src/ocflv1.go:486-580] ocflV1.ValidateObjectVersion *)
Definition ValidateObjectVersion (fuel : nat) (imp : ocflV1) vldr (vnum : VNum)
    (verInv prevInv : option StoredInventory) w : res (ObjectValidation FS * option error) :=
  let fsys := vd_fs vldr in
  let vnumStr := VNum_String vnum in
  let fullVerDir := Join [vd_path vldr; vnumStr] in
  let specStr := v1Spec imp in
  let rootInv := o_inventory (vd_obj vldr) in
  let '(vDirEntries, err) := fs_ReadDir fsys fullVerDir w in
  match unless_not_exist err with
  | Some err => Ok (AddFatal vldr [err], Some err)
  | None =>
      let vdirState := parseVersionDirState vDirEntries in
      let vldr := foldl (λ vldr f, AddFatal vldr [verr (ErrNew ("unexpected file: " +:+ f)) (E015 specStr)])
                    vldr (vds_extraFiles vdirState) in
      let vldr := if vds_hasInventory vdirState then vldr
                  else AddWarn vldr [verr (ErrNew ("missing " +:+ vnumStr +:+ "/inventory.json")) (W010 specStr)] in
      let cdName := ContentDirectory (vd_obj vldr) in
      '(vldr, err) ← check_version_dirs fuel specStr fullVerDir vnumStr cdName (vds_dirs vdirState) vldr w;
      match err, verInv with
      | Some err, _ => Ok (vldr, Some err)
      | None, None => Ok (vldr, None)
      | None, Some verInv =>
          vldr ← check_version_inventory imp vldr vnum verInv prevInv rootInv fullVerDir w;
          Ok (vldr, None)
      end
  end.

(** ** Content *)

(** The code of an error of [ValidateFilesBatch]. *)
Definition content_error (specStr : string) (err : error) : error :=
  match errors_As (λ e, match e with DigestError _ _ _ _ isFixity => Some (e, isFixity) | _ => None end) err with
  | Some (digestErr, false) => verr digestErr (E092 specStr)
  | Some (digestErr, true) => verr digestErr (E093 specStr)
  | None => err
  end.

(** [src/ocflv1.go:582-613] ocflV1.ValidateObjectContent *)
Definition ValidateObjectContent (imp : ocflV1) v w : ObjectValidation FS * option error :=
  let specStr := v1Spec imp in
  let newVld := foldl (λ vd name, v_AddFatal vd [verr (ErrNew ("missing content: " +:+ name)) (E092 specStr)])
                  new_Validation (missingContent v) in
  let newVld := foldl (λ vd name, v_AddFatal vd [verr (ErrNew ("unexpected content: " +:+ name)) (E023 specStr)])
                  newVld (unexpectedContent v) in
  let newVld :=
    if vd_skipDigests v then newVld
    else foldl (λ vd err, v_AddFatal vd [content_error specStr err]) newVld
           (ValidateFilesBatch (existingContentDigests v (vd_fs v) (vd_path v)) (vd_algRegistry v)
              (DigestConcurrency v) w) in
  (Add v (Some newVld), v_Err newVld).

(** ** The whole validation *)

(** [src/object.go:441-453] the loop of ValidateObject: each version is validated by
    the specification of the last inventory that was read *)
Fixpoint validate_versions (fuel : nat) (dir : string) (vs : list VNum) (versionOCFL : ocflV1)
    (prevInv : option StoredInventory) v w : res (ObjectValidation FS) :=
  match vs with
  | [] => Ok v
  | vnum :: vs =>
      let versionDir := Join [dir; VNum_String vnum] in
      let '(versionInv, err) := match ReadInventory (vd_fs v) versionDir w with
                                | inl inv => (Some inv, None)
                                | inr err => (None, Some err)
                                end in
      match unless_not_exist err with
      | Some err => validate_versions fuel dir vs versionOCFL prevInv (AddFatal v [ErrWrap "reading inventory.json" err]) w
      | None =>
          versionOCFL ← match versionInv with
                        | Some inv => mustGetOCFL (it_Spec (inv_Type (si_Inventory inv)))
                        | None => Ok versionOCFL
                        end;
          '(v, _) ← ValidateObjectVersion fuel versionOCFL v vnum versionInv prevInv w;
          validate_versions fuel dir vs versionOCFL versionInv v w
      end
  end.

(** [src/object.go:409-456] ValidateObject *)
Definition ValidateObject (fuel : nat) (fsys : FS) (dir : string) (opts : list ObjectValidationOption) w
    : res (ObjectValidation FS) :=
  let v := newObjectValidation fsys dir opts in
  if negb (ValidPath dir) then Ok (AddFatal v [ErrWrap "invalid object path" (ErrVar fs_ErrInvalid)])
  else
    match fs_ReadDir fsys dir w with
    | (_, Some err) => Ok (AddFatal v [err])
    | (entries, None) =>
        let state := ParseObjectDir entries in
        let spec := if bool_decide (os_Spec state = "") then Spec1_1 else os_Spec state in
        match getOCFL spec with
        | Err err => Ok (AddFatal v [err])
        | Panic => Panic
        | Ok impl =>
            '(v, state, err) ← ValidateObjectRoot impl v state w;
            match err with
            | Some _ => Ok v
            | None =>
                vs ← Lineage (VNums_Head (os_VersionDirs state));
                v ← validate_versions fuel dir vs lowestOCFL None v w;
                Ok (ValidateObjectContent impl v w).1
            end
        end
    end.

(** [src/root.go:213-216] Root.ValidateObjectDir *)
Definition Root_ValidateObjectDir (fuel : nat) (r : Root FS) (dir : string) (opts : list ObjectValidationOption) w
    : res (ObjectValidation FS) := ValidateObject fuel (r_fs r) (Join [r_dir r; dir]) opts w.

(** [src/root.go:200-211] Root.ValidateObject: [ResolveID] returns the empty path
    with its errors *)
Definition Root_ValidateObject (fuel : nat) (r : Root FS) (id : string) (opts : list ObjectValidationOption) w
    : res (ObjectValidation FS) :=
  match ResolveID r id with
  | Panic => Panic
  | Err err => Ok (AddFatal (newObjectValidation (r_fs r) (Join [r_dir r; ""]) opts) [err])
  | Ok objPath => Root_ValidateObjectDir fuel r objPath opts w
  end.
End validate_object.
