(* ===== verification/ValidateObjectSpec.v ===== *)
(** * Theorems on the validation of objects

    What the validation state knows about each file only grows; an object that is
    accepted has the content its root inventory declares; and inputs on which the
    validation crashes. *)
From S2P Require Import Prelude GoStd VNum DigestMap Spec FS Namaste ObjectState Pipeline Digest Extension Codes Validation.
From S2P Require Import Inventory OcflInventory InventoryBytes Root Object ObjectValidation ValidateObject.

(** ** Sets of digests only grow *)

Definition digests_le (s s' : Set_) : Prop := ∀ alg, set_get s alg ≠ "" → set_get s' alg = set_get s alg.

#[export] Instance digests_le_pre : PreOrder digests_le.
Proof. split; [done|]. intros a b c Hab Hbc alg Ha. rewrite Hbc; [by apply Hab|]. by rewrite Hab. Qed.

Definition files_le (f f' : gmap string validationFileInfo) : Prop :=
  ∀ name e, f !! name = Some e → ∃ e', f' !! name = Some e'
    ∧ digests_le (vf_manifestDigests e) (vf_manifestDigests e').

#[export] Instance files_le_pre : PreOrder files_le.
Proof.
  split; [intros f name e He; by exists e|].
  intros a b c Hab Hbc name e (e' & He' & Hle)%Hab. apply Hbc in He' as (e'' & He'' & Hle').
  exists e''. split; [done|]. by etrans.
Qed.

Section validation_state.
Context `{GoEnv, MultiError, Hashes} `{!MultiErrorLaws} {W FS : Type} `{!FileSystems W FS}.
Implicit Types (v : ObjectValidation FS).

Lemma set_add_le l s s' o : set_add s l = Ok (s', o) → digests_le s s'.
Proof.
  revert s. induction l as [|[alg d] l IH]; intros s; cbn [set_add]; [by intros [= <- _]|].
  case_bool_decide as He.
  - destruct s as [m|]; [|done]. intros Hs%IH. etrans; [|exact Hs].
    intros k Hk. unfold set_get, set_map in *. cbn in *. rewrite lookup_insert_ne; [done|]. by intros <-.
  - destruct (EqualFold _ _); [apply IH|]. by intros [= <- _].
Qed.

Lemma Set_Add_le s s2 s' o : Set_Add s s2 = Ok (s', o) → digests_le s s'.
Proof. apply set_add_le. Qed.

Lemma files_le_insert f name e :
  (∀ e0, f !! name = Some e0 → digests_le (vf_manifestDigests e0) (vf_manifestDigests e)) →
  files_le f (<[name := e]> f).
Proof.
  intros Hle k e0 Hk. destruct (decide (k = name)) as [->|Hne].
  - exists e. rewrite lookup_insert_eq. split; [done|]. by apply Hle.
  - exists e0. rewrite lookup_insert_ne by done. done.
Qed.

Lemma add_manifest_le inv paths f o f' o' : add_manifest inv paths f o = Ok (f', o') → files_le f f'.
Proof.
  revert f o. induction paths as [|[name d] paths IH]; intros f o; cbn [add_manifest]; [by intros [= <- _]|].
  destruct (f !! name) as [existing|] eqn:He.
  - intros Hr. inv_res. destruct x as [digests err]. inv_res. destruct x as [fixity err'].
    apply IH in Hr. etrans; [|exact Hr]. apply files_le_insert. cbn. intros e0 Hf.
    rewrite He in Hf. injection Hf as <-. by eapply Set_Add_le.
  - intros Hr%IH. etrans; [|exact Hr]. apply files_le_insert. congruence.
Qed.

Lemma add_manifest_other inv paths f o f' o' name :
  name ∉ paths.*1 → add_manifest inv paths f o = Ok (f', o') → f' !! name = f !! name.
Proof.
  revert f o. induction paths as [|[p d] paths IH]; intros f o Hn; cbn [add_manifest]; [by intros [= <- _]|].
  rewrite fmap_cons, not_elem_of_cons in Hn. destruct Hn as [Hp Hn].
  destruct (f !! p) as [existing|]; intros Hr; inv_res.
  - destruct x as [digests err]. inv_res. destruct x as [fixity err'].
    apply IH in Hr; [|done]. by rewrite Hr, lookup_insert_ne.
  - apply IH in Hr; [|done]. by rewrite Hr, lookup_insert_ne.
Qed.

(** The first inventory fills the state with its manifest. *)
Lemma add_manifest_new inv paths f o :
  NoDup paths.*1 → (∀ p, p ∈ paths.*1 → f !! p = None) →
  ∃ f', add_manifest inv paths f o = Ok (f', o) ∧ ∀ p d, (p, d) ∈ paths →
    ∃ fix_, f' !! p = Some (mkFileState (Some {[inv_DigestAlgorithm inv := d]}) fix_ false).
Proof.
  revert f. induction paths as [|[name d] paths IH]; intros f Hnd Hf; cbn [add_manifest].
  { exists f. split; [done|]. by intros p d ?%elem_of_nil. }
  rewrite fmap_cons in Hnd. apply NoDup_cons in Hnd as [Hn Hnd]. rewrite (Hf name) by (rewrite fmap_cons; left).
  set (e := mkFileState _ _ _). destruct (IH (<[name := e]> f) Hnd) as (f' & Hr & Hrest).
  { intros p Hp. rewrite lookup_insert_ne by (intros <-; done). apply Hf. rewrite fmap_cons. by right. }
  exists f'. split; [done|]. intros p d' [[= -> ->]|Hin]%elem_of_cons; [|by apply Hrest].
  apply (add_manifest_other _ _ _ _ _ _ name Hn) in Hr. rewrite Hr, lookup_insert_eq. by eexists.
Qed.

(** ** What a step of the validation keeps *)

Definition vno v : Prop := no_fatal (vd_Validation v).

Record keeps v v' : Prop := {
  kp_obj : vd_obj v' = vd_obj v;
  kp_skip : vd_skipDigests v' = vd_skipDigests v;
  kp_reg : vd_algRegistry v' = vd_algRegistry v;
  kp_files : files_le (vd_files v) (vd_files v');
  kp_fatal : vno v' → vno v
}.

#[local] Instance keeps_pre : PreOrder keeps.
Proof.
  split; [by split|]. intros a b c [] []. split; [congruence..| |auto]. by etrans.
Qed.

Lemma Errors_AddFatal v errs :
  v_Errors (vd_Validation (AddFatal v errs)) = v_Errors (vd_Validation v) ++ mjoin (me_flat <$> errs).
Proof. apply v_Errors_AddFatal. Qed.

Lemma keeps_refl v : keeps v v.
Proof. done. Qed.

Lemma keeps_AddFatal v errs : keeps v (AddFatal v errs).
Proof. split; [done..|]. unfold vno, no_fatal. rewrite Errors_AddFatal. by intros [? _]%app_eq_nil. Qed.

Lemma keeps_AddWarn v errs : keeps v (AddWarn v errs).
Proof. by split. Qed.

Lemma keeps_foldl {A} (f : ObjectValidation FS → A → ObjectValidation FS) l v :
  (∀ v x, keeps v (f v x)) → keeps v (foldl f v l).
Proof. intros Hf. revert v. induction l as [|x l IH]; intros v; cbn; [done|]. etrans; [apply Hf|apply IH]. Qed.

Lemma keeps_Add v (v2 : option Validation) : keeps v (Add v v2).
Proof. destruct v2; [|done]. cbn. etrans; [apply keeps_AddFatal|apply keeps_AddWarn]. Qed.

Lemma keeps_PrefixAdd v prefix (v2 : option Validation) : keeps v (PrefixAdd v prefix v2).
Proof.
  destruct v2 as [v2|]; [|done]. cbn.
  transitivity (foldl (λ v err, AddFatal v [ErrWrap prefix err]) v (v_Errors v2));
    apply keeps_foldl; intros; [apply keeps_AddFatal|apply keeps_AddWarn].
Qed.

Lemma keeps_addExisting v name : keeps v (addExistingContent v name).
Proof.
  split; try done. cbn. apply files_le_insert. intros e0 He. cbn. by rewrite He.
Qed.

(** A check that adds to the state it is given. *)
Lemma keeps_fatal_if (b : bool) v a errs : keeps v a → keeps v (if b then AddFatal a errs else a).
Proof. intros Ha. destruct b; [|done]. etrans; [exact Ha|apply keeps_AddFatal]. Qed.

Lemma keeps_fatal_unless (b : bool) v a errs : keeps v a → keeps v (if b then a else AddFatal a errs).
Proof. intros Ha. destruct b; [done|]. etrans; [exact Ha|apply keeps_AddFatal]. Qed.

Lemma keeps_warn_unless (b : bool) v a errs : keeps v a → keeps v (if b then a else AddWarn a errs).
Proof. intros Ha. destruct b; [done|]. etrans; [exact Ha|apply keeps_AddWarn]. Qed.

Lemma keeps_fatal_opt v (f : error → list error) (o : option error) :
  keeps v match o with Some err => AddFatal v (f err) | None => v end.
Proof. destruct o; [apply keeps_AddFatal|done]. Qed.

Lemma keeps_addInventory v inv v' o : addInventory v inv false = Ok (v', o) → keeps v v'.
Proof.
  unfold addInventory. intros Hr. inv_res. destruct x as [f' errs]. apply add_manifest_le in Hx.
  assert (v' = vd_set_files f' v) as ->; [|by split].
  by destruct (errs ≫= me_ErrorOrNil); simplify_eq.
Qed.
End validation_state.

Create HintDb keeps.
#[export] Hint Resolve keeps_refl keeps_AddFatal keeps_AddWarn keeps_Add keeps_PrefixAdd keeps_addExisting
  keeps_fatal_if keeps_fatal_unless keeps_warn_unless keeps_fatal_opt keeps_addInventory : keeps.
#[export] Existing Instance keeps_pre.

(** ** The steps of the validation of the versions *)

Section steps.
Context `{GoEnv, URLs, MultiError, Hashes, Decoders} `{!MultiErrorLaws} {W FS : Type} `{!FileSystems W FS}.
Implicit Types (v : ObjectValidation FS) (w : W).

Lemma keeps_compare_versions spec dirNum verInv rootInv vs v v' :
  compare_versions spec dirNum verInv rootInv vs v = Ok v' → keeps v v'.
Proof.
  revert v. induction vs as [|vn vs IH]; intros v; cbn [compare_versions]; [by intros [= <-]|].
  destruct (mjoin (versions rootInv !! vn)); [destruct (mjoin (versions verInv !! vn)); [|done]|];
    intros Hr%IH; (etrans; [|exact Hr]); auto 8 with keeps.
Qed.

Lemma keeps_compare imp rootSi dirNum verSi v v' :
  compareVersionInventory imp rootSi dirNum verSi v = Ok v' → keeps v v'.
Proof.
  unfold compareVersionInventory. intros Hr. inv_res. apply keeps_compare_versions in Hr.
  etrans; [|exact Hr]. auto 8 with keeps.
Qed.

Lemma keeps_content_files vnumStr cdName contents n v v' n' o :
  add_content_files vnumStr cdName contents n v = Ok (v', n', o) → keeps v v'.
Proof.
  revert n v. induction contents as [|[f|err|] contents IH]; intros n v; cbn [add_content_files].
  - by intros [= <- _ _].
  - intros Hr%IH. etrans; [|exact Hr]. auto 8 with keeps.
  - intros [= <- _ _]. auto 8 with keeps.
  - done.
Qed.

Lemma keeps_version_dirs fuel spec fullVerDir vnumStr cdName dirs v w v' o :
  check_version_dirs fuel spec fullVerDir vnumStr cdName dirs v w = Ok (v', o) → keeps v v'.
Proof.
  revert v. induction dirs as [|d dirs IH]; intros v; cbn [check_version_dirs]; [by intros [= <- _]|].
  case_bool_decide; cbn [negb].
  - intros Hr. inv_res. destruct x as [[v1 added] err]. apply keeps_content_files in Hx.
    etrans; [exact Hx|]. destruct err; [by simplify_eq|]. apply IH in Hr.
    etrans; [|exact Hr]. auto 8 with keeps.
  - intros Hr%IH. etrans; [|exact Hr]. auto 8 with keeps.
Qed.

Lemma keeps_version_inventory imp v vnum verInv prevInv rootInv fullVerDir w v' :
  check_version_inventory imp v vnum verInv prevInv rootInv fullVerDir w = Ok v' → keeps v v'.
Proof.
  unfold check_version_inventory. intros Hr. inv_res. subst v'.
  match type of Hx0 with match _ with Some _ => _ | None => Ok ?a end = _ => assert (keeps v a) as Hv1; [|generalize dependent a; intros v1 Hx0 Hv1] end.
  { apply keeps_fatal_unless, keeps_fatal_if. etrans; [|apply keeps_fatal_opt]. auto 8 with keeps. }
  etrans; [exact Hv1|]. etrans; [|apply keeps_foldl].
  - destruct rootInv as [rootInv|]; [|by injection Hx0 as ->].
    case_bool_decide; [by injection Hx0 as ->|].
    inv_res. destruct x2 as [v2 err]. apply keeps_compare in Hx1. etrans; [exact Hx1|].
    apply keeps_addInventory in Hx2. etrans; [exact Hx2|]. inv_res. subst x0. destruct err; auto 8 with keeps.
  - intros v2 [name entry]. destruct (negb _); auto 8 with keeps.
Qed.

Lemma keeps_version fuel imp v vnum verInv prevInv w v' o :
  ValidateObjectVersion fuel imp v vnum verInv prevInv w = Ok (v', o) → keeps v v'.
Proof.
  unfold ValidateObjectVersion. destruct (fs_ReadDir _ _ w) as [entries err].
  destruct (unless_not_exist err); [intros [= <- _]; auto 8 with keeps|].
  intros Hr. inv_res. destruct x as [v1 err1]. apply keeps_version_dirs in Hx.
  assert (keeps v v1) as Hv1.
  { etrans; [|exact Hx]. apply keeps_warn_unless, keeps_foldl. auto 8 with keeps. }
  etrans; [exact Hv1|]. destruct err1; [by simplify_eq|]. destruct verInv; [|by simplify_eq].
  inv_res. simplify_eq. by eapply keeps_version_inventory.
Qed.

Lemma keeps_versions fuel dir vs imp prevInv v w v' :
  validate_versions fuel dir vs imp prevInv v w = Ok v' → keeps v v'.
Proof.
  revert imp prevInv v. induction vs as [|vn vs IH]; intros imp prevInv v; cbn [validate_versions];
    [by intros [= <-]|].
  destruct (match ReadInventory _ _ _ with inl _ => _ | inr _ => _ end) as [inv err].
  destruct (unless_not_exist err).
  - intros Hr%IH. etrans; [|exact Hr]. auto 8 with keeps.
  - intros Hr. inv_res. destruct x0 as [v1 o]. apply keeps_version in Hx0. apply IH in Hr. by etrans.
Qed.
End steps.

(** ** The validation of the root *)

Section root_checks.
Context `{GoEnv, URLs, MultiError, Hashes, Decoders} `{!MultiErrorLaws} {W FS : Type} `{!FileSystems W FS}.
Implicit Types (v : ObjectValidation FS) (w : W).

Lemma vno_AddFatal v e : me_flat e ≠ [] → ¬ vno (AddFatal v [e]).
Proof.
  intros He. unfold vno, no_fatal. rewrite Errors_AddFatal. cbn. rewrite app_nil_r.
  by intros [_ ?]%app_eq_nil.
Qed.

Lemma vno_PrefixAdd v prefix (v2 : Validation) :
  vno (PrefixAdd v prefix (Some v2)) → v_Errors v2 = [].
Proof.
  unfold vno, no_fatal. cbn. intros Hv.
  assert (vno (foldl (λ v err, AddFatal v [ErrWrap prefix err]) v (v_Errors v2))) as Hf.
  { refine (kp_fatal _ _ _ Hv). apply keeps_foldl. auto with keeps. }
  clear Hv. revert Hf. destruct (v_Errors v2) as [|e l] using rev_ind; [done|].
  rewrite foldl_app. cbn. intros Hf. exfalso. revert Hf. by apply vno_AddFatal.
Qed.

Lemma single_flat e : single e → me_flat e ≠ [].
Proof. by intros ->. Qed.

Lemma verr_code e c : c ≠ None → me_flat (verr e c) ≠ [].
Proof. by destruct c. Qed.

Lemma known_spec imp : getOCFL (v1Spec imp) = Ok imp → v1Spec imp = Spec1_0 ∨ v1Spec imp = Spec1_1.
Proof. unfold getOCFL. repeat case_bool_decide; auto; done. Qed.

Lemma sidecar_error_flat imp e : getOCFL (v1Spec imp) = Ok imp → me_flat (sidecar_error (v1Spec imp) e) ≠ [].
Proof.
  intros Himp. unfold sidecar_error. destruct (known_spec imp Himp) as [-> | ->];
    destruct (errors_Is _ _); by apply verr_code.
Qed.

Lemma addInventory_root v inv v' o : addInventory v inv true = Ok (v', o) →
  match o with
  | Some err => me_flat err ≠ []
  | None =>
      vd_obj v' = set_root_inventory (vd_obj v) inv ∧ vd_skipDigests v' = vd_skipDigests v
      ∧ vd_algRegistry v' = vd_algRegistry v ∧ vd_Validation v' = vd_Validation v
      ∧ (vd_files v = ∅ → NoDup (Paths (manifest (si_Inventory inv))).*1 →
         ∀ p d, contains (manifest (si_Inventory inv)) p d → ∃ fix_, vd_files v' !! p
           = Some (mkFileState (Some {[inv_DigestAlgorithm (si_Inventory inv) := d]}) fix_ false))
  end.
Proof.
  unfold addInventory. intros Hr. inv_res. destruct x as [f' errs].
  destruct (errs ≫= me_ErrorOrNil) as [err|] eqn:He; simplify_eq.
  - destruct errs as [m|]; [|done]. cbn in He. unfold me_ErrorOrNil in He.
    destruct (me_Errors m); by simplify_eq.
  - split_and!; [done..|]. cbn [vd_files vd_set_obj vd_set_files]. intros Hf Hnd p d Hin. rewrite Hf in Hx.
    destruct (add_manifest_new (si_Inventory inv) (Paths (manifest (si_Inventory inv))) ∅ None Hnd) as (f & Hr & Hall).
    { intros. apply lookup_empty. }
    rewrite Hr in Hx. injection Hx as <- <-. apply Hall. by apply Paths_elem.
Qed.

(** What an accepted root has. *)
Record root_ok (imp : ocflV1) (fsys : FS) (dir : string) (inv : StoredInventory) (w : W) : Prop := {
  ro_decl : ValidateNamaste fsys (Join [dir; Namaste_Name (mkNamaste NamasteTypeObject (v1Spec imp))]) w = None;
  ro_read : fs_ReadAll fsys (Join [dir; inventoryBase]) w = Ok (si_bytes inv);
  ro_digest : digest_bytes (inv_DigestAlgorithm (si_Inventory inv)) (si_bytes inv) = inl (si_digest inv);
  ro_inv : inv_ascii (si_Inventory inv) → inventory_ok (v1Spec imp) (si_Inventory inv);
  ro_sidecar : ValidateSidecar inv fsys dir w = None
}.

Lemma validateRootState_dirs spec state state' vd :
  validateRootState spec state = (state', vd) →
  os_VersionDirs state' = (VNums_Valid (os_VersionDirs state)).1
  ∧ (no_fatal vd → (VNums_Valid (os_VersionDirs state)).2 = None).
Proof.
  unfold validateRootState. pose proof (VNums_Valid_single (os_VersionDirs state)) as Hs.
  destruct (VNums_Valid (os_VersionDirs state)) as [dirs [err|]]; intros [= <- <-]; cbn [snd fst] in *;
    (split; [done|]); [|done].
  unfold no_fatal. rewrite v_Errors_AddFatal. intros [_ Hn]%app_eq_nil. cbn in Hn.
  assert (single (version_dirs_error spec err)) as He.
  { unfold version_dirs_error. apply coded_single. by apply Hs. }
  by rewrite He in Hn.
Qed.

Lemma PrefixAdd_files v prefix (v2 : option Validation) : vd_files (PrefixAdd v prefix v2) = vd_files v.
Proof.
  destruct v2 as [v2|]; [|done]. cbn.
  assert (∀ (f : ObjectValidation FS → error → ObjectValidation FS) l v,
    (∀ v e, vd_files (f v e) = vd_files v) → vd_files (foldl f v l) = vd_files v) as Hf.
  { intros f l v' Hall. revert v'. induction l as [|e l IH]; intros v'; cbn; [done|]. by rewrite IH, Hall. }
  by rewrite !Hf.
Qed.

(** The root inventory fills the state, and the version directories are in order. *)
Record root_checked v (state : ObjectState) (inv : StoredInventory) v1 (state1 : ObjectState) : Prop := {
  rc_obj : vd_obj v1 = set_root_inventory (vd_obj v) inv;
  rc_skip : vd_skipDigests v1 = vd_skipDigests v;
  rc_reg : vd_algRegistry v1 = vd_algRegistry v;
  rc_dirs : os_VersionDirs state1 = (VNums_Valid (os_VersionDirs state)).1;
  rc_valid : (VNums_Valid (os_VersionDirs state)).2 = None;
  rc_files : vd_files v = ∅ → NoDup (Paths (manifest (si_Inventory inv))).*1 →
    ∀ p d, contains (manifest (si_Inventory inv)) p d → ∃ e, vd_files v1 !! p = Some e
      ∧ vf_manifestDigests e = Some {[inv_DigestAlgorithm (si_Inventory inv) := d]}
}.

Lemma check_root_ok imp v state inv w v1 state1 :
  getOCFL (v1Spec imp) = Ok imp →
  check_root imp v state inv w = Ok (v1, state1, None) →
  ValidateSidecar inv (vd_fs v) (vd_path v) w = None ∧ root_checked v state inv v1 state1.
Proof.
  intros Himp. unfold check_root. set (v2 := match ValidateSidecar _ _ _ _ with Some _ => _ | None => _ end).
  set (ext := validateExtensionsDir _ _ _ _). intros Hc. inv_res. destruct x as [v3 o].
  destruct (validateRootState _ state) as [state2 vd] eqn:Hs. apply validateRootState_dirs in Hs as [Hs1 Hs2].
  set (v5 := match o with Some err => AddFatal v3 [err] | None => v3 end) in Hc.
  pose proof (keeps_PrefixAdd v5 "root contents" (Some vd)) as Hk.
  pose proof (vno_PrefixAdd v5 "root contents" vd) as Hvd.
  pose proof (PrefixAdd_files v5 "root contents" (Some vd)) as Hff.
  set (v4 := PrefixAdd v5 "root contents" (Some vd)) in *. clearbody v4.
  injection Hc as <- <- Hv. apply v_Err_None in Hv.
  specialize (Hvd Hv). apply (kp_fatal _ _ Hk) in Hv. apply addInventory_root in Hx. unfold v5 in *.
  destruct o as [err|]; [by apply vno_AddFatal in Hv|]. clear v5.
  destruct Hx as (Hobj & Hskip & Hreg & Hval & Hcov).
  assert (keeps v (PrefixAdd v2 "extensions directory" ext)) as Hk2.
  { etrans; [apply (keeps_fatal_opt v (λ err, [sidecar_error (v1Spec imp) err]))|apply keeps_PrefixAdd]. }
  assert (vno v2) as Hv2.
  { unfold vno in Hv. rewrite Hval in Hv. by apply (kp_fatal _ _ (keeps_PrefixAdd v2 "extensions directory" ext)). }
  split.
  - unfold v2 in Hv2. destruct (ValidateSidecar _ _ _ _) as [err|]; [|done]. exfalso. revert Hv2.
    by apply vno_AddFatal, sidecar_error_flat.
  - split; [..|done|by apply Hs2|].
    + by rewrite (kp_obj _ _ Hk), Hobj, (kp_obj _ _ Hk2).
    + by rewrite (kp_skip _ _ Hk), Hskip, (kp_skip _ _ Hk2).
    + by rewrite (kp_reg _ _ Hk), Hreg, (kp_reg _ _ Hk2).
    + rewrite Hff. intros Hf Hnd p d Hin. destruct (Hcov) with (p := p) (d := d) as [fix_ Hp]; [|done..|].
      * rewrite PrefixAdd_files. unfold v2. by destruct (ValidateSidecar _ _ _ _).
      * rewrite Hp. by eexists.
Qed.

Lemma ValidateObjectRoot_ok imp v state w v1 state1 :
  getOCFL (v1Spec imp) = Ok imp →
  ValidateObjectRoot imp v state w = Ok (v1, state1, None) →
  ∃ inv, root_ok imp (vd_fs v) (vd_path v) inv w ∧ root_checked v state inv v1 state1.
Proof.
  intros Himp. unfold ValidateObjectRoot.
  destruct (ValidateNamaste _ _ w) as [err|] eqn:Hn; [by destruct (errors_Is _ _)|].
  destruct (fs_ReadAll _ _ w) as [raw|err|] eqn:Hr; [|by destruct (errors_Is _ _)|done].
  pose proof (ValidateInventoryBytes_ok imp raw Himp) as Hb.
  destruct (ValidateInventoryBytes_v1 imp raw) as [[inv|] vb]; [|by destruct (v_Err vb)].
  destruct Hb as (-> & <- & Hd & Hi).
  pose proof (keeps_PrefixAdd v "root inventory.json" (Some vb)) as Hk.
  pose proof (PrefixAdd_files v "root inventory.json" (Some vb)) as Hf.
  generalize dependent (PrefixAdd v "root inventory.json" (Some vb)). intros v3 Hk Hf Hc.
  apply check_root_ok in Hc as [Hs [Ho Hsk Hre Hd1 Hd2 Hc]]; [|done].
  unfold vd_fs, vd_path in Hs. rewrite (kp_obj _ _ Hk) in Hs, Ho. rewrite (kp_skip _ _ Hk) in Hsk.
  rewrite (kp_reg _ _ Hk) in Hre. rewrite Hf in Hc. exists inv. by split; split.
Qed.
End root_checks.

(** ** The validation of the content *)

(** Errors of the backend are not [*multierror.Error] values: [multierror.Append]
    would drop an empty one. *)
Record plain_errors `{GoEnv} {W FS : Type} `{!FileSystems W FS} (fsys : FS) (w : W) : Prop := {
  pe_open : ∀ name e, OpenFile fsys name w = inr e → single e;
  pe_read : ∀ name f e, OpenFile fsys name w = inl f → rd_err (f_reader f) = Some e → single e;
  pe_dir : ∀ name entries e, fs_ReadDir fsys name w = (entries, Some e) → single e
}.

Lemma omap_nil {A B} (f : A → option B) l : omap f l = [] ↔ Forall (λ x, f x = None) l.
Proof.
  induction l as [|x l IH]; cbn; [by split; [constructor|]|]. rewrite Forall_cons.
  destruct (f x); [split; [done|by intros [? _]]|]. rewrite IH. naive_solver.
Qed.

Section content_checks.
Context `{GoEnv, URLs, MultiError, Hashes, Decoders} `{!MultiErrorLaws} {W FS : Type} `{!FileSystems W FS}.
Implicit Types (v : ObjectValidation FS) (w : W).

Lemma missingContent_nil v : missingContent v = [] ↔
  ∀ name e, vd_files v !! name = Some e → seenInManifest e = true → vf_fileExists e = true.
Proof.
  unfold missingContent. rewrite omap_nil, Forall_range. split; intros Hall name e He; specialize (Hall name e He);
    cbn in *; destruct (seenInManifest e), (vf_fileExists e); naive_solver.
Qed.

Lemma unexpectedContent_nil v : unexpectedContent v = [] ↔
  ∀ name e, vd_files v !! name = Some e → vf_fileExists e = true → seenInManifest e = true.
Proof.
  unfold unexpectedContent. rewrite omap_nil, Forall_range. split; intros Hall name e He; specialize (Hall name e He);
    cbn in *; destruct (seenInManifest e), (vf_fileExists e); naive_solver.
Qed.

(** The file with the digests of its entry. *)
Definition content_ref v (name : string) (e : validationFileInfo) : DFileRef (FS:=FS) :=
  mkDFileRef (mkFileRef (vd_fs v) (vd_path v) name None) (vf_manifestDigests e) (vf_fixityDigests e).

Lemma existingContent_elem v r : r ∈ existingContentDigests v (vd_fs v) (vd_path v) ↔
  ∃ name e, vd_files v !! name = Some e ∧ vf_fileExists e = true ∧ seenInManifest e = true ∧ r = content_ref v name e.
Proof.
  unfold existingContentDigests. rewrite list_elem_of_omap. split.
  - intros ([name e] & Hin & Hr). apply range_elem in Hin. exists name, e.
    destruct (vf_fileExists e), (seenInManifest e); naive_solver.
  - intros (name & e & He & Hx & Hs & ->). exists (name, e). rewrite range_elem, Hx, Hs. done.
Qed.

Lemma DFileRef_Validate_single r reg w e :
  plain_errors (fr_FS (dfr_FileRef r)) w → DFileRef_Validate r reg w = Some e → single e.
Proof.
  intros Hp. unfold DFileRef_Validate, allDigests, FileRef_Open.
  destruct (Set_ConflictsWith (dfr_Digests r) (dfr_Fixity r)); [|by intros [= <-]].
  destruct (OpenFile _ _ w) as [f|err] eqn:Ho; [|intros [= <-]; by eapply pe_open].
  unfold Validate. destruct (rd_err (f_reader f)) as [err|] eqn:Hr.
  - intros [= <-]. pose proof (pe_read _ _ Hp _ _ _ Ho Hr) as Hf. by destruct err.
  - destruct (Set_ConflictsWith _ _); [done|]. by intros [= <-].
Qed.

Lemma content_error_single imp e : getOCFL (v1Spec imp) = Ok imp → single e → single (content_error (v1Spec imp) e).
Proof.
  intros Himp He. unfold content_error.
  destruct (errors_As _ e) as [[d []]|]; [..|done]; by destruct (known_spec imp Himp) as [-> | ->].
Qed.

(** A loop that adds an error for each element. *)
Lemma no_fatal_each {A} (f : A → error) l (vd : Validation) :
  (∀ x, x ∈ l → single (f x)) →
  no_fatal (foldl (λ vd x, v_AddFatal vd [f x]) vd l) ↔ no_fatal vd ∧ l = [].
Proof.
  intros Hf. destruct l as [|x l _] using rev_ind; cbn; [naive_solver|]. split.
  - rewrite foldl_app. cbn. unfold no_fatal. rewrite v_Errors_AddFatal. intros [_ Hx]%app_eq_nil. exfalso.
    cbn in Hx. rewrite (Hf x) in Hx by set_solver. done.
  - intros [_ Hnil]. by apply app_eq_nil in Hnil as [_ ?].
Qed.

Lemma ValidateFilesBatch_nil refs reg n w :
  ValidateFilesBatch refs reg n w = [] ↔ ∀ r, r ∈ refs → DFileRef_Validate r reg w = None.
Proof.
  unfold ValidateFilesBatch. rewrite omap_nil.
  rewrite (Forall_Permutation _ _ _ (Results_Permutation 2 refs (λ f, DFileRef_Validate f reg w) n)).
  rewrite Forall_fmap, Forall_forall. done.
Qed.

Lemma ValidateFilesBatch_elem refs reg n w e :
  e ∈ ValidateFilesBatch refs reg n w → ∃ r, r ∈ refs ∧ DFileRef_Validate r reg w = Some e.
Proof.
  unfold ValidateFilesBatch. rewrite list_elem_of_omap. intros (o & Ho & He).
  rewrite Results_Permutation in Ho. apply list_elem_of_fmap in Ho as (r & -> & Hr). by exists r.
Qed.

Lemma content_iff imp v w :
  getOCFL (v1Spec imp) = Ok imp → plain_errors (vd_fs v) w →
  (ValidateObjectContent imp v w).2 = None ↔
  (∀ name e, vd_files v !! name = Some e →
     vf_fileExists e = seenInManifest e
     ∧ (vf_fileExists e = true → vd_skipDigests v = false →
        DFileRef_Validate (content_ref v name e) (vd_algRegistry v) w = None)).
Proof.
  intros Himp Hp. unfold ValidateObjectContent. cbn [snd]. rewrite v_Err_None.
  set (vd := foldl _ (foldl _ new_Validation _) _).
  assert (no_fatal vd ↔ missingContent v = [] ∧ unexpectedContent v = []) as Hvd.
  { unfold vd. rewrite !no_fatal_each; [|intros ? _; by apply verr_single..].
    unfold no_fatal. cbn. tauto. }
  rewrite missingContent_nil, unexpectedContent_nil in Hvd. clearbody vd.
  assert ((∀ name e, vd_files v !! name = Some e → seenInManifest e = true → vf_fileExists e = true)
    ∧ (∀ name e, vd_files v !! name = Some e → vf_fileExists e = true → seenInManifest e = true)
    ↔ ∀ name e, vd_files v !! name = Some e → vf_fileExists e = seenInManifest e) as Hsame.
  { split.
    - intros [Ha Hb] name e He. specialize (Ha name e He). specialize (Hb name e He).
      destruct (seenInManifest e), (vf_fileExists e); first [done|discriminate (Ha eq_refl)|discriminate (Hb eq_refl)].
    - intros Hall. split; intros name e He; by rewrite (Hall name e He). }
  rewrite Hsame in Hvd. clear Hsame. destruct (vd_skipDigests v) eqn:Hskip.
  - fold (no_fatal vd). rewrite Hvd. naive_solver.
  - fold (no_fatal (foldl (λ vd err, v_AddFatal vd [content_error (v1Spec imp) err]) vd
      (ValidateFilesBatch (existingContentDigests v (vd_fs v) (vd_path v)) (vd_algRegistry v) (DigestConcurrency v) w))).
    rewrite no_fatal_each, Hvd, ValidateFilesBatch_nil.
    2: { intros e (r & Hr & He)%ValidateFilesBatch_elem. apply content_error_single; [done|].
         apply existingContent_elem in Hr as (name & en & _ & _ & _ & ->).
         exact (DFileRef_Validate_single (content_ref v name en) _ _ _ Hp He). }
    split.
    + intros [Ha Hb] name e He. split; [by eapply Ha|]. intros Hx _. apply Hb.
      apply existingContent_elem. exists name, e. split_and!; try done. by rewrite <- (Ha name e He).
    + intros Hall. split; [intros name e He; by apply Hall in He as [? _]|].
      intros r (name & e & He & Hx & _ & ->)%existingContent_elem. by apply Hall.
Qed.

(** C19. [ValidateObjectContent] succeeds exactly when the files that exist are the
    files that some inventory lists, and (unless digests are skipped) every one of
    them is read and has all the digests given for it, whatever the order in which
    the workers validate them. *)
Theorem ValidateObjectContent_iff imp v w :
  getOCFL (v1Spec imp) = Ok imp → plain_errors (vd_fs v) w →
  (ValidateObjectContent imp v w).2 = None ↔
  (∀ name e, vd_files v !! name = Some e →
     vf_fileExists e = seenInManifest e
     ∧ (vf_fileExists e = true → vd_skipDigests v = false →
        DFileRef_Validate (content_ref v name e) (vd_algRegistry v) w = None)).
Proof. apply content_iff. Qed.

Lemma all_single_each {A} (f : A → error) l (vd : Validation) :
  (∀ x, x ∈ l → single (f x)) → all_single vd → all_single (foldl (λ vd x, v_AddFatal vd [f x]) vd l).
Proof.
  revert vd. induction l as [|x l IH]; intros vd Hf Hvd; cbn; [done|]. apply IH; [intros; apply Hf; by right|].
  apply all_single_AddFatal; [done|]. apply Hf. left.
Qed.

(** The whole validation fails when its last part does. *)
Lemma content_keeps imp v w : keeps v (ValidateObjectContent imp v w).1.
Proof. apply keeps_Add. Qed.

Lemma content_fatal imp v w : getOCFL (v1Spec imp) = Ok imp → plain_errors (vd_fs v) w →
  vno (ValidateObjectContent imp v w).1 → (ValidateObjectContent imp v w).2 = None.
Proof.
  intros Himp Hp. unfold ValidateObjectContent. cbn [fst snd]. set (vd := if vd_skipDigests v then _ else _).
  assert (all_single vd) as Hs.
  { unfold vd. destruct (vd_skipDigests v); repeat (apply all_single_each; [|]); try (intros; by apply verr_single);
      try constructor.
    intros e (r & Hr & He)%ValidateFilesBatch_elem. apply content_error_single; [done|].
    apply existingContent_elem in Hr as (name & en & _ & _ & _ & ->).
    exact (DFileRef_Validate_single (content_ref v name en) _ _ _ Hp He). }
  intros Hv. apply v_Err_None. change (no_fatal (v_Add (vd_Validation v) (Some vd))) in Hv.
  by apply no_fatal_Add in Hv as [_ Hv].
Qed.
End content_checks.

(** ** An accepted object *)

Section sound.
Context `{GoEnv, URLs, MultiError, Hashes, Decoders} `{!MultiErrorLaws, !FoldLaws}
  {W FS : Type} `{!FileSystems W FS}.
Implicit Types (v : ObjectValidation FS) (w : W).

(** The options of the package. *)
Definition plain_option (opt : ObjectValidationOption (FS:=FS)) : Prop :=
  opt = ValidationSkipDigest ∨ (∃ l, opt = ValidationLogger l)
  ∨ (∃ n, opt = ValidationDigestConcurrency n) ∨ (∃ reg, opt = ValidationAlgorithms reg).

Lemma newObjectValidation_start fsys dir opts : Forall plain_option opts →
  let v := newObjectValidation fsys dir opts in vd_files v = ∅ ∧ vno v ∧ vd_fs v = fsys ∧ vd_path v = dir.
Proof.
  intros Ho. unfold newObjectValidation. set (v0 := mkObjectValidation _ _ _ _ _ _ _ _).
  assert (vd_files (foldl (λ v opt, opt v) v0 opts) = ∅
    ∧ vd_Validation (foldl (λ v opt, opt v) v0 opts) = new_Validation) as [Hf Hv].
  { assert (vd_files v0 = ∅ ∧ vd_Validation v0 = new_Validation) as Hv0 by done. clearbody v0. revert v0 Hv0.
    induction Ho as [|opt opts Hopt _ IH]; intros v0 Hv0; [done|]. cbn. apply IH.
    by destruct Hopt as [->|[[? ->]|[[? ->]|[? ->]]]]. }
  split_and!; [done| |done..]. unfold vno, vd_set_obj. cbn. by rewrite Hv.
Qed.

(** The digest of a file that was read and validated. *)
Lemma validated_digest r reg w alg a d :
  reg_ok reg → DFileRef_Validate r reg w = None → set_map (dfr_Digests r) !! alg = Some d → reg !! alg = Some a →
  ∃ data, fs_ReadAll (fr_FS (dfr_FileRef r)) (FullPath (dfr_FileRef r)) w = Ok data
    ∧ EqualFold (alg_sum a data) d = true.
Proof.
  intros Hreg Hv Hd Ha. unfold DFileRef_Validate, allDigests in Hv.
  destruct (Set_ConflictsWith _ _) eqn:Hc; [|done]. unfold FileRef_Open in Hv. unfold fs_ReadAll.
  destruct (OpenFile _ _ w) as [f|]; [|done]. apply fmap_None in Hv.
  apply (Validate_spec _ _ _ Hreg) in Hv as [He Hv]. exists (rd_data (f_reader f)). unfold io_ReadAll.
  rewrite He. split; [done|]. rewrite ConflictsWith_nil in Hc. cbn [set_map default from_option id] in Hv.
  destruct (set_map (dfr_Fixity r) !! alg) as [d'|] eqn:Hf.
  - eapply fold_trans; [eapply Hv; [done|by apply lookup_union_Some_l]|]. apply fold_sym. by eapply Hc.
  - eapply Hv; [done|]. by rewrite lookup_union_r.
Qed.

(** The content that an inventory declares is in the object. *)
Definition content_present (fsys : FS) (dir : string) (inv : Inventory) (reg : AlgorithmRegistry) (w : W) : Prop :=
  ∀ p d, contains (manifest inv) p d → d ≠ "" → ∀ a, reg !! inv_DigestAlgorithm inv = Some a →
    ∃ data, fs_ReadAll fsys (Join [dir; p]) w = Ok data ∧ EqualFold (alg_sum a data) d = true.

Lemma content_found imp v w inv :
  getOCFL (v1Spec imp) = Ok imp → plain_errors (vd_fs v) w → reg_ok (vd_algRegistry v) →
  vd_skipDigests v = false → (ValidateObjectContent imp v w).2 = None →
  (∀ p d, contains (manifest inv) p d → ∃ e, vd_files v !! p = Some e
     ∧ (d ≠ "" → set_get (vf_manifestDigests e) (inv_DigestAlgorithm inv) = d)) →
  content_present (vd_fs v) (vd_path v) inv (vd_algRegistry v) w.
Proof.
  intros Himp Hp Hreg Hskip Hc Hcov p d Hin Hd a Ha. rewrite content_iff in Hc by done.
  destruct (Hcov p d Hin) as (e & He & Hget). specialize (Hget Hd). destruct (Hc p e He) as [Hex Hval].
  unfold set_get in Hget. destruct (set_map (vf_manifestDigests e) !! inv_DigestAlgorithm inv) as [d'|] eqn:Hm;
    cbn in Hget; [subst d'|by subst].
  assert (seenInManifest e = true) as Hseen.
  { unfold seenInManifest. rewrite bool_decide_false; [done|]. intros Hempty. by rewrite Hempty, lookup_empty in Hm. }
  rewrite Hseen in Hex. specialize (Hval Hex Hskip).
  eapply (validated_digest (content_ref v p e)) in Hval as (data & Hr & Hf); [|done..]. by exists data.
Qed.

Lemma ValidateObjectRoot_err imp v state w v1 state1 err :
  getOCFL (v1Spec imp) = Ok imp → plain_errors (vd_fs v) w →
  ValidateObjectRoot imp v state w = Ok (v1, state1, Some err) → ¬ vno v1.
Proof.
  intros Himp Hp. unfold ValidateObjectRoot.
  assert (∀ c e, c (v1Spec imp) ≠ None → me_flat (verr e (c (v1Spec imp))) ≠ []) as Hcode
    by (intros; by apply verr_code).
  destruct (ValidateNamaste _ _ w) as [e|].
  { destruct (errors_Is e _); intros [= <- _ _]; apply vno_AddFatal, Hcode;
      by destruct (known_spec imp Himp) as [-> | ->]. }
  destruct (fs_ReadAll _ _ w) as [raw|e|] eqn:Hr; [| |done].
  - destruct (ValidateInventoryBytes_v1 imp raw) as [inv vb]. destruct (v_Err vb) as [e|] eqn:He.
    + intros [= <- _ _] Hn%vno_PrefixAdd. apply v_Err_None in Hn. congruence.
    + destruct inv as [inv|]; [|done]. unfold check_root. intros Hc. inv_res. destruct x as [v2 o].
      destruct (validateRootState _ state) as [state2 vd]. unfold mbind, res_bind in Hc.
      set (v4 := PrefixAdd _ "root contents" _) in Hc. clearbody v4. injection Hc as <- _ Hv.
      intros Hn%v_Err_None. congruence.
  - assert (single e) as Hflat.
    { unfold fs_ReadAll in Hr. destruct (OpenFile _ _ w) as [f|e'] eqn:Ho.
      - unfold io_ReadAll in Hr. destruct (rd_err (f_reader f)) eqn:He; [|done]. simplify_eq. by eapply pe_read.
      - simplify_eq. by eapply pe_open. }
    destruct (errors_Is e _); intros [= <- _ _]; [|by apply vno_AddFatal, single_flat].
    unfold vno, no_fatal. rewrite Errors_AddFatal. cbn. intros [_ [Hn _]%app_eq_nil]%app_eq_nil.
    by rewrite Hflat in Hn.
Qed.

(** C8. An object that [ValidateObject] accepts is what it claims to be: its
    declaration and its root inventory are read and are valid, the sidecar has the
    digest of the inventory, and the version directories are v1 to some vn; and if
    the digests are not skipped (no [ValidationSkipDigest] among the options) and
    those of the inventory are ASCII, every content file in the manifest of the
    root inventory is read back from the object with the digest the manifest gives
    for it, when that is not empty and the registry has the algorithm.  The options
    are those of the package, the registry names each algorithm as the algorithm
    names itself, and the errors of the backend are not lists of errors (an empty
    one would be lost). *)
Theorem ValidateObject_sound fuel fsys dir opts w v :
  let v0 := newObjectValidation fsys dir opts in
  plain_errors fsys w → Forall plain_option opts → reg_ok (vd_algRegistry v0) →
  ValidateObject fuel fsys dir opts w = Ok v → v_Err (vd_Validation v) = None →
  ∃ imp inv entries n p,
    root_ok imp fsys dir inv w ∧ o_inventory (vd_obj v) = Some inv
    ∧ fs_ReadDir fsys dir w = (entries, None) ∧ omap version_of entries ≡ₚ lineage n p
    ∧ VNum_Valid (mkVNum n p) = None
    ∧ (inv_ascii (si_Inventory inv) → vd_skipDigests v0 = false →
       content_present fsys dir (si_Inventory inv) (vd_algRegistry v0) w).
Proof.
  intros v0 Hp Hopts Hreg Hv Hno. apply v_Err_None in Hno. unfold ValidateObject in Hv.
  destruct (newObjectValidation_start fsys dir opts Hopts) as (Hf0 & Hn0 & Hfs & Hdir).
  fold v0 in Hf0, Hn0, Hfs, Hdir, Hv. clearbody v0.
  destruct (ValidPath dir); cbn [negb] in Hv; [|injection Hv as <-; exfalso; revert Hno; by apply vno_AddFatal].
  destruct (fs_ReadDir fsys dir w) as [entries [err|]] eqn:Hrd.
  { injection Hv as <-. exfalso. revert Hno. apply vno_AddFatal, single_flat. by eapply pe_dir. }
  set (spec := if bool_decide _ then _ else _) in Hv.
  destruct (getOCFL spec) as [imp|err|] eqn:Himp; [| |done].
  2: { injection Hv as <-. exfalso. revert Hno. apply vno_AddFatal. unfold getOCFL in Himp.
       by repeat case_match; simplify_eq. }
  pose proof (getOCFL_spec _ _ Himp) as Hspec. rewrite <- Hspec in Himp.
  apply bind_Ok in Hv as ([[v1 state] o] & Hx & Hv). destruct o as [err|].
  { injection Hv as <-. exfalso. revert Hno. eapply ValidateObjectRoot_err; [done| |exact Hx]. by rewrite Hfs. }
  apply ValidateObjectRoot_ok in Hx as (inv & Hroot & Hck); [|done]. rewrite Hfs, Hdir in Hroot.
  apply bind_Ok in Hv as (vs & _ & Hv). apply bind_Ok in Hv as (x & Hx & Hv).
  assert (v = (ValidateObjectContent imp x w).1) as -> by congruence. clear Hv. apply keeps_versions in Hx as Hk.
  pose proof (content_keeps imp x w) as Hk2. destruct Hck as [Ho Hs Hre Hdirs Hvalid Hfiles].
  pose proof (proj1 (VNums_Valid_None _) Hvalid) as (n & p & Hvn & Hperm & _ & _).
  assert (vd_fs x = fsys ∧ vd_path x = dir) as [Hfs1 Hdir1].
  { unfold vd_fs, vd_path. rewrite (kp_obj _ _ Hk), Ho. by split. }
  exists imp, inv, entries, n, p. split_and!; [done| |done| |done|].
  - by rewrite (kp_obj _ _ Hk2), (kp_obj _ _ Hk), Ho.
  - unfold ParseObjectDir in Hperm. by rewrite parse_entries_versions in Hperm.
  - intros Ha Hskip. rewrite <- Hs, <- (kp_skip _ _ Hk) in Hskip. rewrite <- Hre, <- (kp_reg _ _ Hk) in *.
    rewrite <- Hfs1, <- Hdir1. apply (content_found imp); [done|by rewrite Hfs1|done..| |].
    { apply content_fatal; [done|by rewrite Hfs1|done]. }
    pose proof (ro_inv _ _ _ _ _ Hroot Ha) as Hinv. destruct (iok_manifest _ _ Hinv) as (m & Hm & (_ & _ & Hpaths) & _).
    intros q d Hin. destruct (Hfiles Hf0) with (p := q) (d := d) as (e & He & Hmd); [|done|].
    { rewrite Paths_fst. apply paths_ok_NoDup. unfold manifest. by rewrite Hm. }
    apply (kp_files _ _ Hk) in He as (e' & He' & Hle). exists e'. split; [done|]. intros Hd.
    assert (set_get (vf_manifestDigests e) (inv_DigestAlgorithm (si_Inventory inv)) = d) as Hget.
    { rewrite Hmd. unfold set_get. cbn. by rewrite lookup_singleton_eq. }
    rewrite Hle; [done|]. by rewrite Hget.
Qed.
End sound.

(** ** The comparison of logical states *)

Section forward_match.
Context `{GoEnv}.
Implicit Types (m : DigestMap).

Lemma paths_ok_unique m p d d' : paths_ok (all_paths m) → contains m p d → contains m p d' → d = d'.
Proof.
  intros Hok Hd Hd'. apply Paths_elem in Hd, Hd'.
  assert (NoDup (Paths m).*1) as Hnd by (rewrite Paths_fst; by apply paths_ok_NoDup).
  apply (elem_of_list_to_map_1 (M:=gmap string)) in Hd; [|done].
  apply (elem_of_list_to_map_1 (M:=gmap string)) in Hd'; [|done]. congruence.
Qed.

Lemma DigestFor_contains m p d : paths_ok (all_paths m) → contains m p d → DigestFor m p = d.
Proof.
  intros Hok Hin. unfold DigestFor.
  assert (p ∈ all_paths m) as Hp by (apply all_paths_elem; by exists d).
  destruct Hok as [Hv Hn]. rewrite bool_decide_false.
  2: { intros ->. rewrite Forall_forall in Hv. by apply Hv in Hp. }
  destruct (find_some _ _) as [d'|] eqn:Hf.
  - apply find_some_Some in Hf as ([k ps] & Hk%range_elem & Hc). case_bool_decide as Hps; [|done].
    injection Hc as ->. apply (paths_ok_unique m p); [by split| |done]. apply contains_lookup. eauto.
  - exfalso. rewrite find_some_None in Hf. rewrite Forall_forall in Hf.
    apply contains_lookup in Hin as (ps & Hps & Hin). specialize (Hf (d, ps)).
    rewrite range_elem in Hf. specialize (Hf Hps). cbn in Hf. by rewrite bool_decide_true in Hf.
Qed.

Lemma DigestFor_some m p : DigestFor m p ≠ "" → ∃ d, contains m p d.
Proof.
  unfold DigestFor. case_bool_decide; [done|]. destruct (find_some _ _) as [d'|] eqn:Hf; [|done]. intros _.
  apply find_some_Some in Hf as ([k ps] & Hk%range_elem & Hc). case_bool_decide; [|done].
  exists k. apply contains_lookup. eauto.
Qed.

Lemma DigestFor_nonempty m p d : paths_ok (all_paths m) → m !! "" = None → contains m p d →
  DigestFor m p = d ∧ d ≠ "".
Proof.
  intros Hok He Hin. split; [by apply DigestFor_contains|]. intros ->.
  apply contains_lookup in Hin as (ps & Hps & _). congruence.
Qed.

Lemma forward_match aMan bMan aSt bSt :
  paths_ok (all_paths aSt) → paths_ok (all_paths bSt) → aSt !! "" = None → bSt !! "" = None →
  forwardMatch (mkLogicalState (Some aMan) (Some aSt)) (mkLogicalState (Some bMan) (Some bSt)) = true ↔
  size aSt = size bSt
  ∧ (∀ p, (∃ d, contains aSt p d) ↔ (∃ d, contains bSt p d))
  ∧ (∀ p da db, contains aSt p da → contains bSt p db → paths_of aMan da ⊆ paths_of bMan db).
Proof.
  intros Ha Hb Ha0 Hb0. unfold forwardMatch. cbn [ls_state ls_manifest].
  destruct (size aSt =? size bSt)%nat eqn:Hs; cbn [negb].
  2: { split; [done|]. intros [Heq _]. by apply Nat.eqb_neq in Hs. }
  apply Nat.eqb_eq in Hs. rewrite andb_true_iff, !forallb_forall. split.
  - intros [Hf1 Hf2]. split; [done|].
    assert (∀ p d, contains aSt p d → DigestFor bSt p ≠ "" ∧ paths_of aMan d ⊆ paths_of bMan (DigestFor bSt p)) as Hf.
    { intros p d Hin. apply Paths_elem in Hin. specialize (Hf1 (p, d) (proj1 (list_elem_of_In _ _) Hin)). cbn in Hf1.
      case_bool_decide; [done|]. split; [done|]. intros c Hc. rewrite forallb_forall in Hf1.
      apply list_elem_of_In in Hc. specialize (Hf1 c Hc). by apply bool_decide_eq_true in Hf1. }
    split.
    + intros p. split; intros [d Hin]; [by apply DigestFor_some, (Hf p d Hin)|].
      apply Paths_elem, list_elem_of_In in Hin. specialize (Hf2 _ Hin). cbn in Hf2.
      by apply DigestFor_some, (bool_decide_eq_false _), negb_true_iff.
    + intros p da db Hda Hdb. destruct (Hf p da Hda) as [_ Hsub].
      by rewrite (DigestFor_contains bSt p db) in Hsub.
  - intros (_ & Hsame & Hsub). split; intros [p d] Hin%list_elem_of_In%Paths_elem.
    + destruct (proj1 (Hsame p)) as [db Hdb]; [by exists d|].
      destruct (DigestFor_nonempty bSt p db) as [-> Hne]; [done..|]. rewrite bool_decide_false by done.
      apply forallb_forall. intros c Hc%list_elem_of_In. apply bool_decide_eq_true. by eapply Hsub.
    + destruct (proj2 (Hsame p)) as [da Hda]; [by exists d|].
      destruct (DigestFor_nonempty aSt p da) as [-> Hne]; [done..|]. by rewrite bool_decide_false.
Qed.

(** C23. [forwardMatch] decides whether a version state of one inventory is a forward
    match for the other's: the states name the same logical files, have as many
    digests, and every content path of a file in the first inventory is a content
    path of that file in the second. *)
Theorem forwardMatch_iff aMan bMan aSt bSt :
  paths_ok (all_paths aSt) → paths_ok (all_paths bSt) → aSt !! "" = None → bSt !! "" = None →
  forwardMatch (mkLogicalState (Some aMan) (Some aSt)) (mkLogicalState (Some bMan) (Some bSt)) = true ↔
  size aSt = size bSt
  ∧ (∀ p, (∃ d, contains aSt p d) ↔ (∃ d, contains bSt p d))
  ∧ (∀ p da db, contains aSt p da → contains bSt p db → paths_of aMan da ⊆ paths_of bMan db).
Proof. apply forward_match. Qed.
End forward_match.

(** ** A crash *)

Section crash.
Context `{GoEnv, MultiError, Hashes} {W FS : Type} `{!FileSystems W FS}.
Implicit Types (v : ObjectValidation FS).

Lemma Set_Add_nil alg d : Set_Add None (Some {[alg := d]}) = Panic.
Proof.
  unfold Set_Add. cbn [set_map default from_option id].
  pose proof (range_perm 24 string _ _ string {[alg := d]}) as Hp.
  rewrite map_to_list_singleton in Hp. apply Permutation_singleton_r in Hp as ->. cbn.
  unfold set_get. cbn. by rewrite lookup_empty.
Qed.

Lemma set_add_no_err s l e : set_add s l ≠ Err e.
Proof.
  revert s. induction l as [|[alg d] l IH]; intros s; cbn; [done|].
  case_bool_decide; [destruct s; [apply IH|done]|]. destruct (EqualFold _ _); [apply IH|done].
Qed.

Lemma add_manifest_nil inv paths f o p d e :
  NoDup paths.*1 → (p, d) ∈ paths → f !! p = Some e → vf_manifestDigests e = None →
  add_manifest inv paths f o = Panic.
Proof.
  revert f o. induction paths as [|[q dq] paths IH]; intros f o Hnd Hin Hf He; [by apply elem_of_nil in Hin|].
  rewrite fmap_cons in Hnd. apply NoDup_cons in Hnd as [Hq Hnd]. cbn [add_manifest].
  apply elem_of_cons in Hin as [[= -> ->]|Hin].
  - rewrite Hf, He, Set_Add_nil. done.
  - assert (q ≠ p) as Hne by (intros ->; apply Hq; by apply (list_elem_of_fmap_2 fst) in Hin).
    destruct (f !! q) as [existing|].
    + destruct (Set_Add (vf_manifestDigests existing) _) as [[digests err]|err|] eqn:Ha; cbn [mbind res_bind]; [| |done].
      * destruct (Set_Add (vf_fixityDigests existing) _) as [[fixity err']|err'|] eqn:Hb; cbn [mbind res_bind]; [| |done].
        -- apply IH; [done..| |done]. by rewrite lookup_insert_ne.
        -- exfalso. unfold Set_Add in Hb. by eapply set_add_no_err.
      * exfalso. unfold Set_Add in Ha. by eapply set_add_no_err.
    + apply IH; [done..| |done]. by rewrite lookup_insert_ne.
Qed.

(** [addInventory] crashes on a file that was found in a version directory and
    that the root inventory does not list, as soon as another inventory lists it:
    the digests of such a file are the nil map, which [Add] assigns to. *)
Theorem addInventory_nil_map v inv name d :
  NoDup (Paths (manifest (si_Inventory inv))).*1 → contains (manifest (si_Inventory inv)) name d →
  vd_files v !! name = None →
  addInventory (addExistingContent v name) inv false = Panic.
Proof.
  intros Hnd Hin Hf. unfold addInventory.
  rewrite (add_manifest_nil _ _ _ _ name d (mkFileState None None true)); [done|done|by apply Paths_elem| |done].
  cbn. by rewrite lookup_insert_eq, Hf.
Qed.
End crash.

(** ** Concrete instances *)

(** An object with one version, with the byte 171 as its content; the backend is in
    memory, and the JSON text of its inventory is the one of [ref_decoders]. *)
Definition ex_content : string := String (ascii_of_N 171) "".
Definition ex_object : gmap string string :=
  {[ "o/0=ocfl_object_1.1" := Namaste_Body (mkNamaste NamasteTypeObject Spec1_1);
     "o/inventory.json" := ex_raw;
     "o/inventory.json.sha512" := sidecar_content (hex_encode ex_raw);
     "o/v1/content/f" := ex_content ]}.

Lemma mem_plain_errors m : @plain_errors ref_env _ _ mem_fs () m.
Proof.
  assert (∀ dir e, inr e ∈ @fs_DirEntries _ _ mem_fs () dir m → single e) as Hd.
  { intros dir e. unfold fs_DirEntries. cbn. destruct (decide _).
    - intros ->%list_elem_of_singleton%(inj inr). done.
    - intros (x & Hx & _)%list_elem_of_fmap. done. }
  split; cbn.
  - intros name e. destruct (m !! name); [done|]. by intros [= <-].
  - intros name f e. destruct (m !! name); [|done]. by intros [= <-].
  - intros name entries e. unfold fs_ReadDir. specialize (Hd name).
    destruct (until_err _) as [es err] eqn:Hu. destruct err as [err|]; [|done]. intros [= _ <-]. apply Hd.
    clear Hd. revert es Hu. generalize (@fs_DirEntries _ _ mem_fs () name m). intros l.
    induction l as [|[a|e'] l IH]; intros es; cbn; [done| |].
    + destruct (until_err l) as [es' o]. intros [= _ ->]. right. by eapply IH.
    + intros [= _ <-]. left.
Qed.

#[local] Existing Instances ref_env ref_urls ref_multierror ref_multierror_laws ref_fold_laws ref_hashes ref_decoders mem_fs.

Definition ex_validated : res (ObjectValidation ()) := ValidateObject 3 () "o" [] ex_object.
Definition ex_accepted : bool :=
  match ex_validated with Ok v => bool_decide (v_Errors (vd_Validation v) = []) | _ => false end.

Lemma ex_reg_ok : reg_ok DefaultRegistry.
Proof. by apply register_ok. Qed.

Lemma ex_manifest_ascii : inv_ascii ex_inventory.
Proof.
  split_and!.
  - by apply single_digest_ascii.
  - intros vn ver. unfold versions, ex_inventory. cbn. intros [_ [= <-]]%lookup_singleton_Some.
    by apply single_digest_ascii.
  - intros alg m Hm. cbn in Hm. by rewrite lookup_empty in Hm.
Qed.

Lemma ValidateObject_sound_witness : ∃ v imp inv,
  ex_validated = Ok v ∧ root_ok imp () "o" inv ex_object ∧ o_inventory (vd_obj v) = Some inv.
Proof.
  destruct ex_validated as [v|e|] eqn:Hv; [|by vm_compute in Hv..].
  assert (ex_accepted = true) as Ha by (by vm_compute).
  unfold ex_accepted in Ha. rewrite Hv in Ha. apply bool_decide_eq_true in Ha.
  destruct (@ValidateObject_sound _ _ _ _ _ ref_multierror_laws ref_fold_laws _ _ _ 3 () "o" [] ex_object v)
    as (imp & inv & entries & n & p & Hr & Hi & _); [apply mem_plain_errors|constructor|apply ex_reg_ok|done| |].
  - unfold v_Err. by destruct (vd_Validation v) as [[[|]|] ?].
  - exists v, imp, inv. split; [reflexivity|]. split; [exact Hr|exact Hi].
Defined.

(** The same object with a second content file and an inventory in v1 that lists it;
    the inventory of the root does not. *)
Definition crash_raw : string := "another inventory".
Definition crash_inventory : Inventory :=
  mkInventory "http://example.org/1" (mkInventoryType Spec1_1) SHA512 (mkVNum 1 0) ""
    (Some {["ab" := ["v1/content/f"]; "ac" := ["v1/content/g"]]})
    (Some {[mkVNum 1 0 := Some (mkInventoryVersion (mkTime 1 0) (Some {["ab" := ["f"]; "ac" := ["g"]]}) "msg"
              (Some (mkUser "me" "mailto:me@example.org")))]}) ∅.
Definition crash_object : gmap string string :=
  <["o/v1/inventory.json" := crash_raw]> (<["o/v1/content/g" := String (ascii_of_N 172) ""]> ex_object).
Definition crash_decoders : Decoders := {|
  json_Unmarshal := @json_Unmarshal ref_decoders;
  json_Decode := λ raw, if bool_decide (raw = crash_raw) then inl crash_inventory else json_Decode raw;
  json_DecodeType := @json_DecodeType ref_decoders;
  time_UnmarshalText := @time_UnmarshalText ref_decoders
|}.

(** The validation of that object crashes, and it does so in [addInventory]. *)
Lemma addInventory_nil_map_witness :
  @ValidateObject _ _ _ _ crash_decoders _ _ _ 3 () "o" [] crash_object = Panic
  ∧ addInventory (addExistingContent (newObjectValidation () "o" []) "v1/content/g")
      (mkStoredInventory crash_inventory crash_raw "") false = Panic.
Proof.
  split; [by vm_compute|].
  apply (addInventory_nil_map (newObjectValidation () "o" [])
    (mkStoredInventory crash_inventory crash_raw "") "v1/content/g" "ac"); [|by vm_compute; left|done].
  apply (bool_decide_unpack _). by vm_compute.
Defined.

Lemma ValidateObjectContent_iff_witness :
  let v := vd_set_files {["v1/content/f" := mkFileState (Some {["sha512" := "AB"]}) (Some ∅) true]}
             (newObjectValidation () "o" []) in
  (ValidateObjectContent (mkOcflV1 Spec1_1) v ex_object).2 = None
  ∧ @DFileRef_Validate _ _ _ mem_fs
      (content_ref v "v1/content/f" (mkFileState (Some {["sha512" := "AB"]}) (Some ∅) true))
      DefaultRegistry ex_object = None.
Proof.
  intros v. assert ((ValidateObjectContent (mkOcflV1 Spec1_1) v ex_object).2 = None) as Hc by (by vm_compute).
  split; [exact Hc|].
  pose proof (proj1 (ValidateObjectContent_iff (mkOcflV1 Spec1_1) v ex_object eq_refl (mem_plain_errors _)) Hc "v1/content/f" _ eq_refl) as [_ Hv]. by apply Hv.
Defined.

(** A second copy of the content in the second inventory. *)
Lemma forwardMatch_iff_witness :
  let st : DigestMap := {["ab" := ["f"]]} in
  let aMan : DigestMap := {["ab" := ["v1/content/f"]]} in
  let bMan : DigestMap := {["ab" := ["v1/content/f"; "v2/content/f"]]} in
  forwardMatch (mkLogicalState (Some aMan) (Some st)) (mkLogicalState (Some bMan) (Some st)) = true
  ∧ paths_of aMan "ab" ⊆ paths_of bMan "ab".
Proof.
  cbn zeta. assert (paths_ok (all_paths {["ab" := ["f"]]})) as Hok by (by apply validPaths_None; vm_compute).
  match goal with |- ?f = true ∧ _ => assert (f = true) as Hf by (by vm_compute) end. split; [exact Hf|].
  destruct (proj1 (forwardMatch_iff _ _ _ _ Hok Hok eq_refl eq_refl) Hf) as (_ & _ & Hsub).
  apply (Hsub "f" "ab" "ab"); by vm_compute; left.
Defined.
