(* ===== verification/ObjectSpec.v ===== *)
(** * Theorems on objects

    Updating an object: the object and the storage after a successful [Update], and
    opening the object again. *)
From S2P Require Import Prelude GoStd VNum DigestMap Spec FS ObjectState Pipeline Digest Extension Codes Validation.
From S2P Require Import Inventory OcflInventory InventoryBytes Builder UpdatePlan PlanRuns PlanSpec PlanTheorems.
From S2P Require Import Healthy Root Stage LogicalFS Object.

Section object_theorems.
Context `{GoEnv, URLs, MultiError, Hashes, Decoders, PlanCodec} {W FS : Type} `{!FileSystems W FS}.
Context (now : nat → Time) (strip : Z → Z) (json_Marshal : Inventory → result string).
Implicit Types (obj : Object FS) (w : W).

(** The fields that an update never changes. *)
Definition same_object obj obj' : Prop :=
  o_fs obj' = o_fs obj ∧ o_path obj' = o_path obj ∧ o_root obj' = o_root obj ∧ o_requiredID obj' = o_requiredID obj.

(** What the comparison of states leaves of the inventory. *)
Lemma unchanged_inventory o st o' b : unchanged o st = (o', b) →
  old_field o' si_digest "" = old_field o si_digest "" ∧ old_field o' si_bytes "" = old_field o si_bytes ""
  ∧ (o' = None ↔ o = None)
  ∧ old_field o' (λ si, inv_ID (si_Inventory si)) "" = old_field o (λ si, inv_ID (si_Inventory si)) "".
Proof.
  unfold unchanged. destruct o as [si|]; [|by intros [= <- _]].
  repeat case_match; intros [= <- _]; done.
Qed.

(** A plan for an object: it starts from the object's inventory, its new inventory is
    the one the builder made of the stage, and the inventory's bytes are its JSON. *)
Record planned obj (stage : Stage FS) (msg : string) (user : User) (opts : list ObjectUpdateOption)
    (plan : UpdatePlan W FS) : Prop := {
  pl_steps : up_steps plan = plan_steps (up_newInv plan) (up_oldInv plan);
  pl_base : BaseInventoryDigest plan = old_field (o_inventory obj) si_digest "";
  pl_bytes : old_field (up_oldInv plan) si_bytes "" = old_field (o_inventory obj) si_bytes "";
  pl_new : stage_inventory now strip (Object_InventoryBuilder obj) stage msg user (newObjectUpdateOptions now opts)
    = Ok (si_Inventory (up_newInv plan));
  pl_marshal : Inventory_marshal json_Marshal (si_Inventory (up_newInv plan))
    = inl (si_bytes (up_newInv plan), si_digest (up_newInv plan))
}.

Lemma newUpdatePlan_marshal inv oldInv plan : newUpdatePlan (W:=W) (FS:=FS) json_Marshal inv oldInv = Ok plan →
  Inventory_marshal json_Marshal inv = inl (si_bytes (up_newInv plan), si_digest (up_newInv plan)).
Proof.
  unfold newUpdatePlan. destruct (Inventory_marshal json_Marshal inv) as [[b d]|e]; [|done].
  unfold prepareSteps. cbn [up_newInv up_oldInv up_steps]. intros Hp. inv_res. by subst plan.
Qed.

Lemma NewUpdatePlan_Ok obj stage msg user opts obj1 plan :
  NewUpdatePlan now strip json_Marshal obj stage msg user opts = (obj1, Ok plan) →
  same_object obj obj1 ∧ Object_ID obj1 = Object_ID obj ∧ up_oldInv plan = o_inventory obj1
  ∧ planned obj stage msg user opts plan.
Proof.
  unfold NewUpdatePlan. set (updateOpts := newObjectUpdateOptions now opts).
  destruct (stage_inventory _ _ _ _ _ _ _) as [newInv|e|] eqn:Hs; cbn [wrap_err]; [|done..].
  destruct (if uo_allowUnchanged updateOpts then _ else _) as [cur same] eqn:Hu.
  destruct same; [done|]. intros [= <- Hp]. inv_res. subst plan. apply new_plan in Hx as Hn.
  apply newUpdatePlan_marshal in Hx. destruct Hn as (Hsteps & Hold & Hinv & _).
  assert (old_field cur si_digest "" = old_field (o_inventory obj) si_digest ""
    ∧ old_field cur si_bytes "" = old_field (o_inventory obj) si_bytes ""
    ∧ (cur = None ↔ o_inventory obj = None)
    ∧ old_field cur (λ si, inv_ID (si_Inventory si)) "" = old_field (o_inventory obj) (λ si, inv_ID (si_Inventory si)) "")
    as (Hd & Hb & Hnone & Hid).
  { destruct (uo_allowUnchanged updateOpts); [by injection Hu as <-|by eapply unchanged_inventory]. }
  split_and!; [done| |done|].
  - unfold Object_ID, with_inv. cbn. destruct cur as [c|], (o_inventory obj) as [o|]; cbn in Hid; try done; naive_solver.
  - split; cbn [setGoLimit up_newInv up_oldInv up_steps]; [by rewrite Hold| | | |].
    + unfold BaseInventoryDigest. cbn. by rewrite Hold.
    + by rewrite Hold.
    + by rewrite Hinv.
    + by rewrite Hinv.
Qed.

(** The inventory an [Object] keeps is the one in its storage. *)
Record object_ok (files : W → gmap string string) obj w : Prop := {
  ob_root : o_inventoryIsRoot obj = true;
  ob_inv : ∃ si, o_inventory obj = Some si
    ∧ files w !! Join [o_path obj; inventoryBase] = Some (si_bytes si)
    ∧ files w !! Join [o_path obj; inventoryBase +:+ "." +:+ inv_DigestAlgorithm (si_Inventory si)]
      = Some (sidecar_content (si_digest si))
}.

Lemma plan_effects_root objDir newInv oldInv content :
  (in_object objDir inventoryBase, Some (si_bytes newInv)) ∈ plan_effects objDir newInv oldInv content
  ∧ (in_object objDir (sidecar_name (new_alg newInv)), Some (sidecar_content (si_digest newInv)))
    ∈ plan_effects objDir newInv oldInv content.
Proof.
  assert (∀ sp e, sp ∈ inventory_specs objDir newInv oldInv → e ∈ sp_eff sp →
    e ∈ plan_effects objDir newInv oldInv content) as Hin.
  { intros sp e Hsp He. unfold plan_effects. apply list_elem_of_join. exists (sp_eff sp). split; [done|].
    apply list_elem_of_fmap. exists sp. split; [done|]. unfold plan_specs. right. apply elem_of_app. right. right.
    apply elem_of_app. by right. }
  unfold inventory_specs in Hin.
  split.
  - eapply Hin; [right; right; left|]. cbn. left.
  - eapply Hin; [right; right; right; left|]. cbn. left.
Qed.

Section update.
Context (ops : WriteFS W) (files : W → gmap string string) (content : string → string).

Lemma Update_inv obj stage msg user opts w w' obj' plan :
  Update now strip json_Marshal obj stage msg user opts w = (w', (obj', Some plan, Ok ())) →
  ∃ obj1 u newInv, NewUpdatePlan now strip json_Marshal obj stage msg user opts = (obj1, Ok u)
    ∧ Apply u (o_fs obj1) (o_path obj1) (content_source (st_ContentSource stage)) w = (w', (plan, Ok newInv))
    ∧ obj' = set_root_inventory obj1 newInv ∧ UpdatePlan_ObjectID u = Object_ID obj1.
Proof.
  unfold Update. destruct (NewUpdatePlan _ _ _ _ _ _ _ _) as [obj1 [u|e|]]; [|by intros; inv_io..].
  intros Hu. inv_io. unfold ApplyUpdatePlan in Ha. destruct (ReadOnly obj1); [by inv_io|].
  destruct (bool_decide (UpdatePlan_ObjectID u = Object_ID obj1)) eqn:Hid; cbn [negb] in Ha; [|by inv_io].
  destruct (negb _) in Ha; [by inv_io|]. inv_io. destruct r as [newInv|e|]; inv_io.
  exists obj1, u, newInv. split_and!; [done..|]. by apply bool_decide_eq_true in Hid.
Qed.

Lemma Update_done obj stage msg user opts w w' obj' plan :
  WriteLaws (o_fs obj) ops files → CopyLaws (o_fs obj) files →
  Update now strip json_Marshal obj stage msg user opts w = (w', (obj', Some plan, Ok ())) →
  update_ok (o_path obj) (up_newInv plan) (up_oldInv plan) →
  faithful (o_fs obj) files (o_path obj) (up_newInv plan) (up_oldInv plan) content (files w)
    (content_source (st_ContentSource stage)) →
  same_object obj obj' ∧ Object_ID obj' = Object_ID obj ∧ o_inventory obj' = Some (up_newInv plan)
  ∧ BaseInventoryDigest plan = old_field (o_inventory obj) si_digest ""
  ∧ stage_inventory now strip (Object_InventoryBuilder obj) stage msg user (newObjectUpdateOptions now opts)
    = Ok (si_Inventory (up_newInv plan))
  ∧ files w' = apply_effects (plan_effects (o_path obj) (up_newInv plan) (up_oldInv plan) content) (files w)
  ∧ object_ok files obj' w'
  ∧ Inventory_marshal json_Marshal (si_Inventory (up_newInv plan))
    = inl (si_bytes (up_newInv plan), si_digest (up_newInv plan)).
Proof.
  intros Hw Hc (obj1 & u & newInv & Hn & Ha & -> & Hid)%Update_inv ok Hgood.
  apply NewUpdatePlan_Ok in Hn as ((Hfs & Hpath & Hroot & Hreq) & Hid1 & Hold & [Hsteps Hbase _ Hnew Hmar]).
  rewrite Hfs, Hpath in Ha.
  assert (up_newInv plan = up_newInv u ∧ up_oldInv plan = up_oldInv u) as [E1 E2].
  { apply Apply_inv in Ha as (steps & r & _ & -> & _). done. }
  rewrite E1, E2 in *.
  eapply (apply_inv_step (o_fs obj) files (o_path obj) (up_newInv u) (up_oldInv u) content (files w) ok)
    in Ha as [_ Ha]; [|exact Hgood|by eapply apply_inv_start].
  destruct (Ha eq_refl) as (_ & Hr & Hfiles). injection Hr as ->.
  split_and!; [done| |done| |done|done| |done].
  - rewrite <- Hid1, <- Hid. done.
  - unfold BaseInventoryDigest in *. by rewrite E2.
  - split; [done|]. exists (up_newInv u). cbn. rewrite Hpath, Hfiles.
    destruct (plan_effects_root (o_path obj) (up_newInv u) (up_oldInv u) content) as [Hin1 Hin2].
    pose proof (plan_effects_NoDup (o_path obj) (up_newInv u) (up_oldInv u) content ok) as Hnd.
    split; [done|]. split; by apply apply_effects_in.
Qed.

(** C9. A successful [Update] does what its plan says and leaves the object in step
    with its storage: the files are those before with exactly the effects of the
    plan (the new version's content among them), the plan starts from the inventory
    the object had, the object's inventory is the one built from the stage, and it
    is the one in the root of the object with its sidecar. *)
Theorem Update_spec obj stage msg user opts w w' obj' plan :
  WriteLaws (o_fs obj) ops files → CopyLaws (o_fs obj) files →
  Update now strip json_Marshal obj stage msg user opts w = (w', (obj', Some plan, Ok ())) →
  update_ok (o_path obj) (up_newInv plan) (up_oldInv plan) →
  faithful (o_fs obj) files (o_path obj) (up_newInv plan) (up_oldInv plan) content (files w)
    (content_source (st_ContentSource stage)) →
  same_object obj obj' ∧ Object_ID obj' = Object_ID obj ∧ o_inventory obj' = Some (up_newInv plan)
  ∧ BaseInventoryDigest plan = old_field (o_inventory obj) si_digest ""
  ∧ stage_inventory now strip (Object_InventoryBuilder obj) stage msg user (newObjectUpdateOptions now opts)
    = Ok (si_Inventory (up_newInv plan))
  ∧ files w' = apply_effects (plan_effects (o_path obj) (up_newInv plan) (up_oldInv plan) content) (files w)
  ∧ object_ok files obj' w'.
Proof.
  intros Hw Hc Hu ok Hgood. destruct (Update_done obj stage msg user opts w w' obj' plan) as (?&?&?&?&?&?&?&_); done.
Qed.

(** ** Opening the object again *)

(** [json.Decode] gives back the inventory that was encoded. *)
Definition json_inverse (inv : Inventory) : Prop := ∀ b, json_Marshal inv = inl b → json_Decode b = inl inv.

Lemma stage_inventory_valid b (stage : Stage FS) msg user opts inv :
  stage_inventory now strip b stage msg user opts = Ok inv → v_Err (Inventory_Validate inv) = None.
Proof.
  unfold stage_inventory. destruct (st_DigestAlgorithm stage); intros Hs; [|by inv_res].
  unfold Finalize in Hs. inv_res. destruct (v_Err _) eqn:He; [done|]. by injection Hs as <-.
Qed.

Lemma marshal_read inv b d :
  Inventory_marshal json_Marshal inv = inl (b, d) → json_inverse inv → v_Err (Inventory_Validate inv) = None →
  newStoredInventory b = inl (mkStoredInventory inv b d).
Proof.
  unfold Inventory_marshal, newStoredInventory, setRaw. intros Hm Hj Hv.
  destruct (json_Marshal inv) as [b'|] eqn:Hb; [|done]. destruct (digest_bytes _ b') as [d'|] eqn:Hd; [|done].
  injection Hm as -> ->. rewrite (Hj b Hb), Hd. cbn [si_Inventory]. by rewrite Hv.
Qed.

(** An object that was updated is opened again with the same state: [NewObject] in
    any process reads the inventory that the updated object holds, checks it
    against the sidecar the update wrote, and accepts it. *)
Theorem Update_NewObject obj stage msg user opts w w' obj' plan :
  WriteLaws (o_fs obj) ops files → CopyLaws (o_fs obj) files →
  Update now strip json_Marshal obj stage msg user opts w = (w', (obj', Some plan, Ok ())) →
  update_ok (o_path obj) (up_newInv plan) (up_oldInv plan) →
  faithful (o_fs obj) files (o_path obj) (up_newInv plan) (up_oldInv plan) content (files w)
    (content_source (st_ContentSource stage)) →
  Healthy (o_fs obj) files w' → json_inverse (si_Inventory (up_newInv plan)) →
  hash_sum (inv_DigestAlgorithm (si_Inventory (up_newInv plan))) (si_bytes (up_newInv plan)) ≠ "" →
  ∃ obj'', NewObject (o_fs obj) (o_path obj) [] w' = Ok obj''
    ∧ o_inventory obj'' = o_inventory obj' ∧ o_inventory obj'' = Some (up_newInv plan)
    ∧ o_inventoryIsRoot obj'' = true ∧ o_fs obj'' = o_fs obj ∧ o_path obj'' = o_path obj.
Proof.
  intros Hw Hc Hu ok Hgood Hh Hj Hsum.
  destruct (Update_done obj stage msg user opts w w' obj' plan)
    as ((Hfs & Hpath & _) & _ & Hinv & _ & Hnew & _ & [_ (si & Hsi & Hf1 & Hf2)] & Hmar); [done..|].
  rewrite Hinv in Hsi. injection Hsi as <-. rewrite Hpath in Hf1, Hf2.
  pose proof (stage_inventory_valid _ _ _ _ _ _ Hnew) as Hval.
  pose proof (marshal_read _ _ _ Hmar Hj Hval) as Hread.
  assert (ReadInventory (o_fs obj) (o_path obj) w' = inl (up_newInv plan)) as Hri.
  { apply (healthy_ReadInventory _ _ _ Hh _ _ Hf1). rewrite Hread. by destruct (up_newInv plan). }
  assert (ValidateSidecar (up_newInv plan) (o_fs obj) (o_path obj) w' = None) as Hside.
  { apply (healthy_ValidateSidecar _ _ _ Hh _ _ Hf2); [|done]. unfold Inventory_marshal in Hmar.
    destruct (json_Marshal _) as [b|]; [|done]. destruct (digest_bytes _ b) as [d|] eqn:Hd; [|done].
    by injection Hmar as -> <-. }
  exists (mkObject (o_fs obj) (o_path obj) (Some (up_newInv plan)) true None "").
  unfold NewObject. rewrite (uo_dir _ _ _ ok). cbn [negb newObjectAndConfig foldl o_inventory oc_inv].
  unfold sync. cbn [o_fs o_path oc_root oc_requiredID]. rewrite Hri. cbn. unfold open_existing. cbn.
  rewrite Hside. cbn. by rewrite Hinv.
Qed.
End update.
End object_theorems.

(** ** Concrete instances *)

#[local] Existing Instances ref_env ref_urls ref_multierror ref_multierror_laws ref_hashes ref_codec mem_fs.

(** The first version of an object, from a stage with one file. *)
Definition ex_stage : Stage () :=
  mkStage {["ab" := ["f"]]} (Some (builtin_alg SHA512)) (SrcOne ex_source) (SrcOne (λ _, None)).
Definition ex_user : User := mkUser "me" "mailto:me@example.org".
Definition ex_obj : Object () := mkObject () "o" None false None "http://example.org/1".

Definition ex_upd_inv : Inventory :=
  match stage_inventory ex_now id (Object_InventoryBuilder ex_obj) ex_stage "msg" ex_user
          (newObjectUpdateOptions ex_now []) with
  | Ok inv => inv
  | _ => ex_inventory
  end.
Definition upd_decoders : Decoders := {|
  json_Unmarshal := λ _, inr (ErrNew "syntax");
  json_Decode := λ raw, if bool_decide (raw = "inventory v1") then inl ex_upd_inv else inr (ErrNew "syntax");
  json_DecodeType := λ _, inr (ErrNew "syntax");
  time_UnmarshalText := λ _, inr (ErrNew "syntax")
|}.
#[local] Existing Instance upd_decoders.

Definition ex_upd : gmap string string * (Object () * option (UpdatePlan (gmap string string) ()) * res unit) :=
  Update ex_now id ex_marshal ex_obj ex_stage "msg" ex_user [] ex_storage.
Definition ex_upd_plan : UpdatePlan (gmap string string) () :=
  match ex_upd.2.1.2 with Some p => p | None => ex_plan ex_new None end.

Lemma ex_upd_eq : ex_upd = (ex_upd.1, (ex_upd.2.1.1, Some ex_upd_plan, Ok ())).
Proof.
  assert ((match ex_upd.2.1.2 with Some _ => true | None => false end) = true) as Hp by (by vm_compute).
  assert (ex_upd.2.2 = Ok ()) as Hr by (by vm_compute).
  unfold ex_upd_plan. destruct ex_upd as [w [[o [p|]] r]]; cbn in *; by subst.
Qed.

Lemma ex_upd_new : up_newInv ex_upd_plan = stored ex_upd_inv ∧ up_oldInv ex_upd_plan = None.
Proof. split; by vm_compute. Qed.

Lemma ex_upd_ok : update_ok "o" (stored ex_upd_inv) None.
Proof.
  split; [by vm_compute| |by vm_compute|by vm_compute|by left|by left|by split; vm_compute].
  apply (Inventory_Validate_ok ex_upd_inv); [|by vm_compute]. by apply inv_ascii_check; vm_compute.
Qed.

Lemma ex_upd_faithful :
  faithful () (λ m, m) "o" (stored ex_upd_inv) None (λ _, "hello") ex_storage
    (content_source (st_ContentSource ex_stage)).
Proof.
  intros gc dig [] p w [= <-] [= <-] Hbase.
  assert (w !! "src/f" = Some "hello") as Hf.
  { rewrite (Hbase "src/f"); [by vm_compute|].
    change ("src/f" ∉ (plan_effects "o" (stored ex_upd_inv) None (λ _, "hello")).*1).
    rewrite plan_effects_names. apply (bool_decide_unpack _). by vm_compute. }
  split.
  - intros f Ho He. destruct (law_open_ok _ _ mem_read_laws _ _ _ Ho) as (data & Hd & Hdata).
    rewrite (Hdata He). assert (Some data = Some "hello") as [= ->]; [|done]. by rewrite <- Hd.
  - intros _ data Hd. assert (Some data = Some "hello") as [= ->]; [|done]. by rewrite <- Hd.
Qed.

Lemma Update_spec_witness :
  ex_upd.1 = apply_effects (plan_effects "o" (stored ex_upd_inv) None (λ _, "hello")) ex_storage
  ∧ ex_upd.1 !! "o/v1/content/f" = Some "hello".
Proof.
  split; [|by vm_compute]. destruct ex_upd_new as [En Eo].
  destruct (Update_spec ex_now id ex_marshal mem_ops (λ m, m) (λ _, "hello") ex_obj ex_stage "msg" ex_user []
    ex_storage ex_upd.1 ex_upd.2.1.1 ex_upd_plan) as (_ & _ & _ & _ & _ & Hf & _);
    [apply mem_write_laws|apply mem_copy_laws|apply ex_upd_eq| | |].
  - rewrite En, Eo. apply ex_upd_ok.
  - rewrite En, Eo. apply ex_upd_faithful.
  - rewrite Hf, En, Eo. reflexivity.
Defined.

Lemma Update_NewObject_witness : ∃ obj,
  NewObject () "o" [] ex_upd.1 = Ok obj ∧ o_inventory obj = Some (stored ex_upd_inv).
Proof.
  destruct ex_upd_new as [En Eo].
  destruct (Update_NewObject ex_now id ex_marshal mem_ops (λ m, m) (λ _, "hello") ex_obj ex_stage "msg" ex_user []
    ex_storage ex_upd.1 ex_upd.2.1.1 ex_upd_plan) as (obj & Hn & _ & Hi & _);
    [apply mem_write_laws|apply mem_copy_laws|apply ex_upd_eq| | |apply mem_healthy| | |].
  - rewrite En, Eo. apply ex_upd_ok.
  - rewrite En, Eo. apply ex_upd_faithful.
  - rewrite En. intros b Hb. assert (b = "inventory v1") as -> by (injection Hb as <-; by vm_compute). done.
  - rewrite En. by vm_compute.
  - exists obj. split; [exact Hn|]. rewrite Hi, En. reflexivity.
Defined.
