(* ===== verification/Conforming.v ===== *)
(** * Objects that conform to the specification

    What the files of an object have to be for [ValidateObject] to accept it: a
    stored inventory for each version, the last of which is the root's, that
    agree with each other, and exactly the files they call for, with the digests
    they declare.  [ValidateObject_complete] (in UpdateSequence.v) says that such
    an object is accepted, and [Update_conforming] (in UpdateSequence.v) that an
    update makes one of another. *)
From S2P Require Import Prelude GoStd VNum DigestMap Spec FS ObjectState Digest Codes Validation.
From S2P Require Import Inventory OcflInventory InventoryBytes Builder UpdatePlan PlanSpec Listing ValidateObject.

Section conforming.
Context `{GoEnv, URLs, MultiError, Hashes, Decoders}.
(** The digest of some bytes by the algorithm of a name. *)
Context (sum : string → string → string).

Implicit Types (si root : StoredInventory) (inv : Inventory) (m : gmap string string).

(** The digests that hold for some bytes. *)
Definition right (data : string) (s : gmap string string) : Prop :=
  ∀ alg d, s !! alg = Some d → EqualFold (sum alg data) d = true.

Definition si_alg si : string := inv_DigestAlgorithm (si_Inventory si).
Definition si_spec si : Spec := it_Spec (inv_Type (si_Inventory si)).
Definition si_contdir si : string := contentDirectory_or_default (inv_ContentDirectory (si_Inventory si)).

(** The number of the version at an index. *)
Definition nth_version root (k : nat) : VNum := mkVNum (Z.of_nat k + 1) (padding (inv_Head (si_Inventory root))).

(** The bytes of an inventory are read back by both readers, with their digest. *)
Record readable si : Prop := {
  rd_new : newStoredInventory (si_bytes si) = inl si;
  rd_validated : ∃ v, ValidateInventoryBytes_v1 (mkOcflV1 (si_spec si)) (si_bytes si) = (Some si, v) ∧ v_Err v = None;
  rd_sum : hash_sum (si_alg si) (si_bytes si) ≠ ""
}.

(** The inventory of a version, and what it shares with the root's. *)
Record version_stored m (dir : string) root si (k : nat) : Prop := {
  vs_head : inv_Head (si_Inventory si) = nth_version root k;
  vs_ascii : inv_ascii (si_Inventory si);
  vs_readable : readable si;
  vs_id : inv_ID (si_Inventory si) = inv_ID (si_Inventory root);
  vs_contdir : inv_ContentDirectory (si_Inventory si) = inv_ContentDirectory (si_Inventory root);
  (* the versions up to this one have the same logical states *)
  vs_states : ∀ vn ver ver', versions (si_Inventory si) !! vn = Some (Some ver) →
    versions (si_Inventory root) !! vn = Some (Some ver') →
    forwardMatch (mkLogicalState (inv_Manifest (si_Inventory si)) (iv_State ver))
                 (mkLogicalState (inv_Manifest (si_Inventory root)) (iv_State ver')) = true;
  (* the manifest has the content of the versions up to this one *)
  vs_manifest : ∀ p, p ∈ all_paths (manifest (si_Inventory si)) →
    p ∈ all_paths (manifest (si_Inventory root));
  vs_content : ∀ p j r, p ∈ all_paths (manifest (si_Inventory root)) → (j ≤ k)%nat →
    p = VNum_String (nth_version root j) +:+ "/" +:+ r → p ∈ all_paths (manifest (si_Inventory si));
  (* and the digests of that content *)
  vs_right : ∀ p d data, contains (manifest (si_Inventory si)) p d → m !! Join [dir; p] = Some data →
    right data {[si_alg si := d]} ∧ right data (set_map (Inventory_GetFixity (si_Inventory si) d));
  vs_digests : manifest (si_Inventory si) !! "" = None
}.

(** The names of the files of an object. *)
Definition version_names root (k : nat) si : list string :=
  let v := VNum_String (nth_version root k) in [v +:+ "/" +:+ inventoryBase; v +:+ "/" +:+ sidecar_name (si_alg si)].
Definition root_names root : list string := [decl_name (si_spec root); inventoryBase; sidecar_name (si_alg root)].
Definition object_names (invs : list StoredInventory) root : list string :=
  root_names root ++ mjoin (imap (version_names root) invs) ++ all_paths (manifest (si_Inventory root)).

(** An inventory and its sidecar in a directory. *)
Definition stored_in m (dir : string) si : Prop :=
  m !! Join [dir; inventoryBase] = Some (si_bytes si)
  ∧ m !! Join [dir; sidecar_name (si_alg si)] = Some (sidecar_content (si_digest si)).

Record conforming m (dir : string) (invs : list StoredInventory) root : Prop := {
  cf_last : last invs = Some root;
  cf_versions : ∀ k si, invs !! k = Some si → version_stored m dir root si k
    ∧ stored_in m (Join [dir; VNum_String (nth_version root k)]) si;
  cf_specs : ∀ k si si', invs !! k = Some si → invs !! S k = Some si' →
    ∃ c, Spec_Cmp (si_spec si') (si_spec si) = Ok c ∧ 0 ≤ c;
  cf_decl : m !! Join [dir; decl_name (si_spec root)] = Some (Namaste_Body (object_declaration (si_spec root)));
  cf_root : stored_in m dir root;
  cf_padding : 0 ≤ padding (inv_Head (si_Inventory root)) ∧ Z.of_nat (length invs) ≤ max_int64;
  cf_names : lists m dir (object_names invs root);
  cf_paths : ∀ p, p ∈ all_paths (manifest (si_Inventory root)) → ∃ k r, (k < length invs)%nat
    ∧ p = VNum_String (nth_version root k) +:+ "/" +:+ si_contdir root +:+ "/" +:+ r
}.
End conforming.

(** ** The names of the versions *)

Lemma nth_name `{GoEnv} root (k : nat) : VNum_Valid (inv_Head (si_Inventory root)) = None →
  0 ≤ padding (inv_Head (si_Inventory root)) →
  Z.of_nat k + 1 ≤ num (inv_Head (si_Inventory root)) ≤ max_int64 →
  let v := nth_version root k in
  VNum_Valid v = None ∧ ParseVNum (VNum_String v) = Ok v
  ∧ no_slash (VNum_String v) ∧ plain_elem (VNum_String v) ∧ valid_name (VNum_String v).
Proof.
  intros Hh Hp Hk v. rewrite VNum_Valid_None in Hh.
  assert (VNum_Valid v = None) as Hv by (apply VNum_Valid_None; cbn; lia).
  destruct (VNum_String_elem v) as [Hs He]; [done|cbn; lia|]. split_and!; [done| |done..|].
  - apply VNum_String_parse; [done| |done]. cbn. unfold max_int64 in Hk. lia.
  - apply valid_name_spec. split; [|by apply plain_path_elem].
    assert (is_ascii (VNum_String v) = true) as Ha.
    { unfold VNum_String. destruct (zero_padded_spec (padding v) (num v)) as (Hd & _ & _); [done|cbn; lia|].
      unfold is_ascii. cbn [String.append string_forall]. rewrite andb_true_iff. split; [done|].
      eapply string_forall_impl; [|exact Hd]. intros x Hx. unfold is_digit in Hx. apply in_range_spec in Hx.
      unfold is_ascii_byte. apply N.ltb_lt. lia. }
    unfold valid_utf8. rewrite decode_runes_ascii by done. clear. induction (VNum_String v) as [|x s IH]; [done|]. exact IH.
Qed.
