(* ===== verification/ConformingSpec.v ===== *)
(** * Theorems on conforming objects

    [ValidateObject] accepts every conforming object, on a backend without
    failures.  Each step of the validation is shown to add no error; the invariant
    of the loop over the versions says which files have been seen and that their
    digests hold. *)
From S2P Require Import Prelude GoStd VNum DigestMap Spec FS Namaste ObjectState Pipeline Digest Extension Codes Validation.
From S2P Require Import Inventory OcflInventory InventoryBytes Builder UpdatePlan PlanSpec LogicalFS Healthy Listing Root Object.
From S2P Require Import ObjectValidation ValidateObject ValidateObjectSpec Conforming.

(** ** Digests that hold *)

Section digests_right.
Context `{GoEnv, MultiError, Hashes} `{!FoldLaws} {W FS : Type} `{!FileSystems W FS}.
Context (sum : string → string → string).

Lemma right_agree data s alg c d : right sum data s → s !! alg = Some c → EqualFold (sum alg data) d = true →
  EqualFold c d = true.
Proof. intros Hs Hc Hd. eapply fold_trans; [|exact Hd]. apply fold_sym. by eapply Hs. Qed.

Lemma Set_Add_right data s s2 : right sum data s → right sum data (set_map s2) →
  ∃ s', Set_Add (Some s) s2 = Ok (Some s', None) ∧ right sum data s' ∧ (s ≠ ∅ → s' ≠ ∅).
Proof.
  intros Hs Hs2. pose proof (Set_Add_spec (Some s) s2) as Hspec. cbn in Hspec.
  destruct (Set_Add (Some s) s2) as [[[s'|] [e|]]| |]; try done.
  - destruct Hspec as (alg & c & d & Hd & Hc & _ & Hf & _). exfalso. rewrite (right_agree data s alg c d) in Hf; [done..|].
    by eapply Hs2.
  - destruct Hspec as [_ Hk]. exists s'. split; [done|]. split.
    + intros alg d Hd. rewrite Hk in Hd. unfold added in Hd.
      destruct (s !! alg) as [c|] eqn:Hc, (set_map s2 !! alg) as [c2|] eqn:Hc2; try done.
      * case_bool_decide; injection Hd as <-; [by eapply Hs2|by eapply Hs].
      * injection Hd as <-. by eapply Hs.
      * injection Hd as <-. by eapply Hs2.
    + intros Hne He. destruct (map_choose s Hne) as (alg & c & Hc). specialize (Hk alg).
      rewrite He, lookup_empty, Hc in Hk. unfold added in Hk. by destruct (set_map s2 !! alg); [case_bool_decide|].
Qed.

(** ** What the validation knows of the files *)

Context (m : gmap string string) (dir : string).

(** A file of the object, and digests of it that hold. *)
Record entry_ok (p : string) (e : validationFileInfo) : Prop := {
  eo_digests : ∃ data md fx, m !! Join [dir; p] = Some data ∧ vf_manifestDigests e = Some md
    ∧ vf_fixityDigests e = Some fx ∧ md ≠ ∅ ∧ right sum data md ∧ right sum data fx
}.

Definition files_ok (f : gmap string validationFileInfo) : Prop := ∀ p e, f !! p = Some e → entry_ok p e.

(** The files that were found. *)
Definition found (f : gmap string validationFileInfo) (p : string) : bool :=
  match f !! p with Some e => vf_fileExists e | None => false end.

(** The paths of an inventory, with digests that hold. *)
Definition manifest_ok (inv : Inventory) (paths : list (string * string)) : Prop :=
  ∀ p d, (p, d) ∈ paths → paths_of (manifest inv) d ≠ [] ∧ ∃ data, m !! Join [dir; p] = Some data
    ∧ right sum data {[inv_DigestAlgorithm inv := d]} ∧ right sum data (set_map (Inventory_GetFixity inv d)).

Lemma GetFixity_Some inv d : paths_of (manifest inv) d ≠ [] → ∃ fx, Inventory_GetFixity inv d = Some fx.
Proof. unfold Inventory_GetFixity. destruct (paths_of _ d); [done|]. eauto. Qed.

Lemma add_manifest_right inv paths f : files_ok f → manifest_ok inv paths →
  ∃ f', add_manifest inv paths f None = Ok (f', None) ∧ files_ok f' ∧ (∀ p, found f' p = found f p)
    ∧ (∀ p, is_Some (f' !! p) ↔ is_Some (f !! p) ∨ p ∈ paths.*1).
Proof.
  revert f. induction paths as [|[name d] paths IH]; intros f Hf Hm; cbn [add_manifest].
  { exists f. split_and!; [done..|]. intros p. rewrite elem_of_nil. tauto. }
  destruct (Hm name d ltac:(left)) as (Hne & data & Hdata & Hd & Hfix).
  destruct (GetFixity_Some inv d Hne) as [fx Hfx]. rewrite Hfx in *. cbn [set_map default from_option id] in Hfix.
  assert (∀ e, entry_ok name e → vf_fileExists e = found f name → ∃ f',
    add_manifest inv paths (<[name := e]> f) None = Ok (f', None) ∧ files_ok f' ∧ (∀ p, found f' p = found f p)
    ∧ (∀ p, is_Some (f' !! p) ↔ is_Some (f !! p) ∨ p ∈ ((name, d) :: paths).*1)) as Hstep.
  { intros e He Hex. destruct (IH (<[name := e]> f)) as (f' & Hr & Hok & Hfd & Hdom).
    - intros p e0. rewrite lookup_insert_Some. intros [[<- <-]|[_ ?]]; [done|by apply Hf].
    - intros p d0 Hin. apply Hm. by right.
    - exists f'. split_and!; [done..| |].
      + intros p. rewrite Hfd. unfold found. destruct (decide (p = name)) as [->|Hp]; [|by rewrite lookup_insert_ne].
        rewrite lookup_insert_eq. exact Hex.
      + intros p. rewrite Hdom, fmap_cons, elem_of_cons. cbn [fst].
        destruct (decide (p = name)) as [->|Hp]; [rewrite lookup_insert_eq; naive_solver|].
        rewrite lookup_insert_ne by done. naive_solver. }
  destruct (f !! name) as [existing|] eqn:He.
  - destruct (Hf name existing He) as [(data' & md & fx' & Hdata' & E1 & E2 & Hmd & R1 & R2)].
    rewrite Hdata in Hdata'. injection Hdata' as <-. rewrite E1, E2.
    destruct (Set_Add_right data md (Some {[inv_DigestAlgorithm inv := d]}) R1 Hd) as (md' & -> & R1' & Hmd').
    destruct (Set_Add_right data fx' (Some fx) R2 Hfix) as (fx2 & -> & R2' & _). cbn [mbind res_bind append_err].
    apply Hstep; [split; eauto 12|]. unfold found. by rewrite He.
  - apply Hstep; [|unfold found; by rewrite He]. split. exists data, {[inv_DigestAlgorithm inv := d]}, fx.
    split_and!; done.
Qed.

Implicit Types (v : ObjectValidation FS).

Lemma addInventory_right v si isRoot : files_ok (vd_files v) →
  manifest_ok (si_Inventory si) (Paths (manifest (si_Inventory si))) →
  ∃ f', addInventory v si isRoot = Ok (let v' := vd_set_files f' v in
      if isRoot then vd_set_obj (set_root_inventory (vd_obj v') si) v' else v', None)
    ∧ files_ok f' ∧ (∀ p, found f' p = found (vd_files v) p)
    ∧ (∀ p, is_Some (f' !! p) ↔ is_Some (vd_files v !! p) ∨ p ∈ all_paths (manifest (si_Inventory si))).
Proof.
  intros Hf Hm. destruct (add_manifest_right _ _ _ Hf Hm) as (f' & Hr & Hok & Hfd & Hdom). exists f'.
  unfold addInventory. rewrite Hr. cbn [mbind res_bind option_bind]. split_and!; [by destruct isRoot|done..|].
  intros p. by rewrite Hdom, Paths_fst.
Qed.

Lemma addExisting_right v p : files_ok (vd_files v) → is_Some (vd_files v !! p) →
  files_ok (vd_files (addExistingContent v p))
  ∧ (∀ q, found (vd_files (addExistingContent v p)) q = bool_decide (q = p) || found (vd_files v) q)
  ∧ (∀ q, is_Some (vd_files (addExistingContent v p) !! q) ↔ is_Some (vd_files v !! q)).
Proof.
  intros Hf [e He]. cbn. rewrite He. cbn. split_and!.
  - intros q e0. rewrite lookup_insert_Some. intros [[<- <-]|[_ ?]]; [|by apply Hf]. destruct (Hf p e He) as [Hx]. by split.
  - intros q. unfold found. case_bool_decide as Hq; [subst; by rewrite lookup_insert_eq|]. by rewrite lookup_insert_ne.
  - intros q. destruct (decide (q = p)) as [->|Hq]; [rewrite lookup_insert_eq, He; split; eauto|]. by rewrite lookup_insert_ne.
Qed.
End digests_right.

(** ** Version directories *)

Lemma file_type_entry t : file_type t → Mode_IsRegular t || (t =? ModeIrregular) = true.
Proof. by intros [-> | ->]. Qed.

(** A file that a version directory may have. *)
Definition version_file (alg : string) (e : DirEntry) : Prop :=
  de_IsDir e = false ∧ file_type (de_Type e) ∧ (de_Name e = inventoryBase ∨ de_Name e = sidecar_name alg).

Lemma parse_version_entries alg es st : alg ≠ "" → NoDup (de_Name <$> es) →
  (∀ e, e ∈ es → de_IsDir e = true ∨ version_file alg e) →
  vds_sidecarAlg st = "" ∨ sidecar_name alg ∉ de_Name <$> es →
  let st' := foldl parse_version_entry st es in
  vds_extraFiles st' = vds_extraFiles st
  ∧ vds_dirs st' = vds_dirs st ++ (de_Name <$> List.filter de_IsDir es)
  ∧ (vds_hasInventory st = true ∨ (∃ e, e ∈ es ∧ de_IsDir e = false ∧ de_Name e = inventoryBase) →
     vds_hasInventory st' = true).
Proof.
  intros Halg. revert st. induction es as [|e es IH]; intros st Hnd Hes Hsc; cbn zeta.
  { cbn. rewrite app_nil_r. split_and!; [done..|]. intros [?|(e & He & _)]; [done|by apply elem_of_nil in He]. }
  rewrite fmap_cons, NoDup_cons in Hnd. destruct Hnd as [Hn Hnd]. cbn [foldl List.filter].
  assert (vds_sidecarAlg st = "" ∨ sidecar_name alg ∉ de_Name <$> es) as Hsc'.
  { destruct Hsc as [?|Hsc]; [by left|right]. rewrite fmap_cons, not_elem_of_cons in Hsc. by destruct Hsc. }
  destruct (IH (parse_version_entry st e) Hnd) as (E1 & E2 & E3); [intros; apply Hes; by right| |].
  - destruct (Hes e ltac:(left)) as [Hd|(Hd & Ht & [Hb|Hb])]; unfold parse_version_entry; fold (de_IsDir e); rewrite Hd.
    + done.
    + rewrite (file_type_entry _ Ht), Hb. cbn. by rewrite bool_decide_true.
    + right. by rewrite <- Hb.
  - destruct (Hes e ltac:(left)) as [Hd|(Hd & Ht & Hb)].
    + rewrite Hd. assert (parse_version_entry st e = mkVersionDirState (vds_hasInventory st) (vds_sidecarAlg st)
        (vds_extraFiles st) (vds_dirs st ++ [de_Name e])) as Hp.
      { unfold parse_version_entry. fold (de_IsDir e). by rewrite Hd. }
      rewrite Hp in *. cbn [vds_hasInventory vds_extraFiles vds_dirs] in *. rewrite E1, E2, <- (assoc_L (++)). split_and!; [done..|].
      intros [?|(e' & [->|Hin]%elem_of_cons & Hd' & Hb')]; apply E3; [by left|congruence|eauto].
    + rewrite Hd. destruct (decide (de_Name e = inventoryBase)) as [Hi|Hi].
      * assert (parse_version_entry st e = mkVersionDirState true (vds_sidecarAlg st) (vds_extraFiles st) (vds_dirs st)) as Hp.
        { unfold parse_version_entry. fold (de_IsDir e). rewrite Hd, (file_type_entry _ Ht). cbn. by rewrite bool_decide_true. }
        rewrite Hp in *. cbn [vds_hasInventory vds_extraFiles vds_dirs] in *. rewrite E1, E2. split_and!; [done..|].
        intros _. apply E3. by left.
      * destruct Hb as [?|Hb]; [done|]. destruct Hsc as [Hsc|Hsc]; [|by rewrite fmap_cons, Hb in Hsc; destruct Hsc; left].
        assert (parse_version_entry st e = mkVersionDirState (vds_hasInventory st) alg (vds_extraFiles st) (vds_dirs st)) as Hp.
        { unfold parse_version_entry. fold (de_IsDir e). rewrite Hd, (file_type_entry _ Ht).
          rewrite bool_decide_false by done. rewrite Hb, Hsc. unfold sidecar_name.
          change (inventoryBase +:+ "." +:+ alg) with ((inventoryBase +:+ ".") +:+ alg). by rewrite HasPrefix_app, TrimPrefix_app. }
        rewrite Hp in *. cbn [vds_hasInventory vds_extraFiles vds_dirs] in *. rewrite E1, E2. split_and!; [done..|].
        intros [?|(e' & [->|Hin]%elem_of_cons & Hd' & Hb')]; apply E3; [by left|done|eauto].
Qed.

(** ** Lists of entries *)

Lemma omap_NoDup {A B C} (g : A → C) (f : A → option B) (hh : B → C) l :
  (∀ x y, f x = Some y → hh y = g x) → NoDup (g <$> l) → NoDup (omap f l).
Proof.
  intros Hf. induction l as [|x l IH]; cbn; [constructor|]. rewrite NoDup_cons. intros [Hx Hnd].
  destruct (f x) as [y|] eqn:Hy; [|by apply IH]. apply NoDup_cons. split; [|by apply IH].
  intros (x' & Hx' & Hy')%list_elem_of_omap. apply Hx. apply list_elem_of_fmap. exists x'. split; [|done].
  by rewrite <- (Hf x y Hy), <- (Hf x' y Hy').
Qed.

(** Entries with one name are one entry. *)
Lemma omap_one {A B C} (g : A → C) (f : A → option B) c l :
  (∀ x y, x ∈ l → f x = Some y → g x = c) → NoDup (g <$> l) → (length (omap f l) ≤ 1)%nat.
Proof.
  induction l as [|x l IH]; cbn; [lia|]. rewrite NoDup_cons. intros Hf [Hx Hnd].
  assert (length (omap f l) ≤ 1)%nat as Hl by (apply IH; [intros; eapply Hf; [by right|done]|done]).
  destruct (f x) as [y|] eqn:Hy; [|done]. destruct (omap f l) as [|y' l'] eqn:Ho; [cbn; lia|]. exfalso.
  assert (y' ∈ omap f l) as (x' & Hx' & Hy')%list_elem_of_omap by (rewrite Ho; left).
  apply Hx. apply list_elem_of_fmap. exists x'. split; [|done].
  rewrite (Hf x y) by (done || left). by rewrite (Hf x' y') by (done || by right).
Qed.

Lemma invalid_names_nil a b es :
  (∀ e, e ∈ es → kind_of e ≠ Nonconforming) →
  (length (omap sidecar_of es) ≤ if (a : bool) then 0 else 1)%nat →
  (length (omap declaration_of es) ≤ if (b : bool) then 0 else 1)%nat →
  invalid_names a b es = [].
Proof.
  revert a b. induction es as [|e es IH]; intros a b Hk Ha Hb; [done|].
  assert (∀ e', e' ∈ es → kind_of e' ≠ Nonconforming) as Hk' by (intros; apply Hk; by right).
  specialize (Hk e ltac:(left)). cbn in Ha, Hb |- *. unfold sidecar_of at 1 in Ha. unfold declaration_of at 1 in Hb.
  destruct (kind_of e) eqn:He; try (by apply IH); [| |done].
  - destruct a; cbn in Ha; [lia|]. cbn. apply IH; [done|cbn; lia|done].
  - destruct b; cbn in Hb; [lia|]. cbn. apply IH; [done|done|cbn; lia].
Qed.

(** ** Steps that add no error *)

Section warned.
Context `{GoEnv, MultiError, Hashes} `{!MultiErrorLaws} {W FS : Type} `{!FileSystems W FS}.
Implicit Types (v : ObjectValidation FS).

Record warned v v' : Prop := {
  wn_obj : vd_obj v' = vd_obj v;
  wn_skip : vd_skipDigests v' = vd_skipDigests v;
  wn_reg : vd_algRegistry v' = vd_algRegistry v;
  wn_files : vd_files v' = vd_files v;
  wn_fatal : vno v → vno v'
}.

#[global] Instance warned_pre : PreOrder warned.
Proof. split; [by split|]. intros a b c [] []. split; [congruence..|auto]. Qed.

Lemma warned_AddWarn v errs : warned v (AddWarn v errs).
Proof. by split. Qed.

Lemma warned_unless (b : bool) v a errs : warned v a → warned v (if b then a else AddWarn a errs).
Proof. intros Ha. destruct b; [done|]. etrans; [exact Ha|apply warned_AddWarn]. Qed.

Lemma warned_AddWarns v (f : error → list error) errs : warned v (foldl (λ v e, AddWarn v (f e)) v errs).
Proof. revert v. induction errs as [|e errs IH]; intros v; cbn; [done|]. etrans; [apply warned_AddWarn|apply IH]. Qed.

Lemma warned_PrefixAdd v prefix (v2 : Validation) : v_Err v2 = None → warned v (PrefixAdd v prefix (Some v2)).
Proof. intros Hv%v_Err_None. cbn. rewrite Hv. cbn. apply warned_AddWarns. Qed.

Lemma warned_Add v (v2 : Validation) : v_Errors v2 = [] → warned v (Add v (Some v2)).
Proof.
  intros Hv. cbn. rewrite Hv. split; [done..|]. unfold vno, no_fatal. cbn. intros Hn.
  change (v_Errors (v_AddWarn (v_AddFatal (vd_Validation v) []) (v_WarnErrors v2)) = []).
  rewrite v_Errors_AddWarn, v_Errors_AddFatal, Hn. done.
Qed.
End warned.

(** ** The inventories of the object *)

Section readable_inventory.
Context `{GoEnv, URLs, MultiError, Hashes, Decoders} `{!MultiErrorLaws}.
Implicit Types (si : StoredInventory).

Lemma readable_parts si : readable si → inv_ascii (si_Inventory si) →
  digest_bytes (si_alg si) (si_bytes si) = inl (si_digest si)
  ∧ v_Err (Inventory_Validate (si_Inventory si)) = None
  ∧ inventory_ok (si_spec si) (si_Inventory si)
  ∧ getOCFL (si_spec si) = Ok (mkOcflV1 (si_spec si)) ∧ (si_spec si = Spec1_0 ∨ si_spec si = Spec1_1).
Proof.
  intros [Hn _ _] Ha. unfold newStoredInventory in Hn. destruct (json_Decode _) as [inv|]; [|done].
  destruct (setRaw inv _) as [si'|] eqn:Hr; [|done]. apply setRaw_inl in Hr as (<- & Hb & Hd).
  destruct (v_Err _) eqn:Hv; [done|]. injection Hn as ->. pose proof (Inventory_Validate_ok _ Ha Hv) as Hok.
  split_and!; [done..| |].
  - unfold Inventory_Validate in Hv. unfold si_spec. destruct (getOCFL _) as [imp|e|] eqn:Hi.
    + pose proof (getOCFL_spec _ _ Hi) as <-. by destruct imp.
    + apply v_Err_None in Hv. rewrite v_Errors_AddFatal in Hv. by apply app_eq_nil in Hv as [_ ?].
    + unfold getOCFL in Hi. by repeat case_bool_decide.
  - unfold Inventory_Validate in Hv. unfold si_spec. destruct (getOCFL _) as [imp|e|] eqn:Hi.
    + pose proof (getOCFL_spec _ _ Hi) as Hs. rewrite <- Hs in *. by apply known_spec.
    + apply v_Err_None in Hv. rewrite v_Errors_AddFatal in Hv. by apply app_eq_nil in Hv as [_ ?].
    + unfold getOCFL in Hi. by repeat case_bool_decide.
Qed.
End readable_inventory.

Section accepted.
Context `{GoEnv, URLs, MultiError, Hashes, Decoders} `{!MultiErrorLaws, !FoldLaws} {W FS : Type} `{!FileSystems W FS}.
Context (sum : string → string → string) (fsys : FS) (files : W → gmap string string) (w : W).
Context (h : Healthy fsys files w) (Hpl : plain_entries fsys w) (fuel : nat) (Hwalk : walks fsys files w fuel).
Context (dir : string) (invs : list StoredInventory) (root : StoredInventory).
Context (c : conforming sum (files w) dir invs root).

Notation m := (files w).
Notation vname k := (VNum_String (nth_version root k)).
Notation count := (length invs).

Lemma root_at : invs !! pred count = Some root ∧ (0 < count)%nat.
Proof.
  pose proof (cf_last _ _ _ _ _ c) as Hl. rewrite last_lookup in Hl. split; [done|].
  by apply lookup_lt_Some in Hl as ?; lia.
Qed.

Lemma root_stored : version_stored sum m dir root root (pred count).
Proof. by apply (cf_versions _ _ _ _ _ c), root_at. Qed.

Lemma parts k si : invs !! k = Some si →
  digest_bytes (si_alg si) (si_bytes si) = inl (si_digest si)
  ∧ v_Err (Inventory_Validate (si_Inventory si)) = None
  ∧ inventory_ok (si_spec si) (si_Inventory si)
  ∧ getOCFL (si_spec si) = Ok (mkOcflV1 (si_spec si)) ∧ (si_spec si = Spec1_0 ∨ si_spec si = Spec1_1).
Proof. intros [[_ Ha Hr _ _ _ _ _ _ _] _]%(cf_versions _ _ _ _ _ c). by apply readable_parts. Qed.

Lemma root_parts :
  digest_bytes (si_alg root) (si_bytes root) = inl (si_digest root)
  ∧ v_Err (Inventory_Validate (si_Inventory root)) = None
  ∧ inventory_ok (si_spec root) (si_Inventory root)
  ∧ getOCFL (si_spec root) = Ok (mkOcflV1 (si_spec root)) ∧ (si_spec root = Spec1_0 ∨ si_spec root = Spec1_1).
Proof. eapply parts, root_at. Qed.

Lemma root_num : num (inv_Head (si_Inventory root)) = Z.of_nat count.
Proof. rewrite (vs_head _ _ _ _ _ _ root_stored). pose proof root_at. cbn. lia. Qed.

Lemma nth_valid k : (k < count)%nat → VNum_Valid (nth_version root k) = None
  ∧ ParseVNum (vname k) = Ok (nth_version root k) ∧ no_slash (vname k) ∧ plain_elem (vname k) ∧ valid_name (vname k).
Proof.
  intros Hk. destruct root_parts as (_ & _ & Hok & _). destruct (cf_padding _ _ _ _ _ c) as [Hp Hmax].
  apply nth_name; [apply Hok|done|]. rewrite root_num. lia.
Qed.

Lemma nth_inj j k : (j < count)%nat → (k < count)%nat → vname j = vname k → j = k.
Proof.
  intros (_ & Hj & _)%nth_valid (_ & Hk & _)%nth_valid He. rewrite He, Hk in Hj. injection Hj as Hn. lia.
Qed.

(** ** The names of the files *)

Lemma object_names_elem t : t ∈ object_names invs root ↔
  t ∈ root_names root
  ∨ (∃ k si, invs !! k = Some si ∧ (t = vname k +:+ "/" +:+ inventoryBase ∨ t = vname k +:+ "/" +:+ sidecar_name (si_alg si)))
  ∨ t ∈ all_paths (manifest (si_Inventory root)).
Proof.
  unfold object_names. rewrite !elem_of_app, list_elem_of_join.
  assert ((∃ l, t ∈ l ∧ l ∈ imap (version_names root) invs) ↔ ∃ k si, invs !! k = Some si
    ∧ (t = vname k +:+ "/" +:+ inventoryBase ∨ t = vname k +:+ "/" +:+ sidecar_name (si_alg si))) as ->; [|tauto].
  setoid_rewrite list_elem_of_lookup. setoid_rewrite list_lookup_imap. unfold version_names. split.
  - intros (l & [i Ht] & k & Hk). destruct (invs !! k) as [si|] eqn:Hsi; [|done]. injection Hk as <-.
    exists k, si. split; [done|]. destruct i as [|[|i]]; cbn in Ht; naive_solver.
  - intros (k & si & Hk & Ht). eexists. split; [|exists k; by rewrite Hk]. destruct Ht as [->| ->]; [by exists 0%nat|by exists 1%nat].
Qed.

Lemma root_names_elem t : t ∈ root_names root → no_slash t ∧ ¬ (∃ k, (k < count)%nat ∧ t = vname k).
Proof.
  destruct root_parts as (_ & _ & Hok & _ & Hs). pose proof (iok_alg _ _ Hok) as Ha. unfold root_names.
  rewrite !elem_of_cons, elem_of_nil. unfold si_alg, sidecar_name.
  intros Ht. split.
  - destruct Ht as [->|[->|[->|[]]]]; [by destruct Hs as [-> | ->]|done|by destruct Ha as [-> | ->]].
  - intros (k & _ & ->). unfold VNum_String in Ht. destruct Ht as [Ht|[Ht|[Ht|[]]]]; [by destruct Hs as [Hs|Hs]; rewrite Hs in Ht|done..].
Qed.

(** A name in the directory of a version. *)
Lemma version_name k r : (k < count)%nat → vname k +:+ "/" +:+ r ∈ object_names invs root →
  (∃ si, invs !! k = Some si ∧ (r = inventoryBase ∨ r = sidecar_name (si_alg si)))
  ∨ ∃ r', r = si_contdir root +:+ "/" +:+ r' ∧ vname k +:+ "/" +:+ r ∈ all_paths (manifest (si_Inventory root)).
Proof.
  intros Hk. destruct (nth_valid k Hk) as (_ & _ & Hsk & _).
  assert (∀ j r', (j < count)%nat → vname k +:+ "/" +:+ r = vname j +:+ "/" +:+ r' → j = k ∧ r' = r) as Hsame.
  { intros j r' Hj He. destruct (nth_valid j Hj) as (_ & _ & Hsj & _). apply (f_equal (λ s, Cut s "/")) in He.
    rewrite !Cut_slash in He by done. assert (vname k = vname j ∧ r = r') as [E ->] by (split; congruence).
    split; [by apply nth_inj|done]. }
  rewrite object_names_elem. intros [Ht|[(j & si & Hj & Ht)|Ht]].
  - apply root_names_elem in Ht as [Ht _]. apply (f_equal (λ b, b)) in Ht.
    pose proof (Cut_no_slash _ Ht) as Hc. by rewrite Cut_slash in Hc.
  - left. assert (j < count)%nat as Hlt by (by eapply lookup_lt_Some).
    destruct Ht as [Ht|Ht]; apply (Hsame j) in Ht as [-> Hr]; [|done| |done]; exists si; (split; [done|]); [by left|by right].
  - right. destruct (cf_paths _ _ _ _ _ c _ Ht) as (j & r' & Hj & He). apply (Hsame j) in He as [-> <-]; [|done]. by exists r'.
Qed.

Lemma version_name_in k si : invs !! k = Some si →
  vname k +:+ "/" +:+ inventoryBase ∈ object_names invs root
  ∧ vname k +:+ "/" +:+ sidecar_name (si_alg si) ∈ object_names invs root.
Proof. intros Hk. split; apply object_names_elem; right; left; eauto. Qed.
(** ** The root of the object *)

Definition conforming_names : list string := object_names invs root.
Notation names := conforming_names.

Lemma names_listed : lists m dir names.
Proof. apply (cf_names _ _ _ _ _ c). Qed.

Lemma names_nonempty : names ≠ [].
Proof. done. Qed.

Lemma root_entry es e : entries_of names es → e ∈ es →
  (de_IsDir e = false ∧ de_Name e ∈ root_names root) ∨ (de_IsDir e = true ∧ ∃ k, (k < count)%nat ∧ de_Name e = vname k).
Proof.
  intros [_ He] Hin. destruct (proj1 (He (de_Name e) (de_IsDir e))) as (t & r & Ht & Hc); [eauto|].
  apply object_names_elem in Ht as [Ht|[(k & si & Hk & Ht)|Ht]].
  - pose proof Ht as [Hs _]%root_names_elem. rewrite Cut_no_slash in Hc by done. injection Hc as <- _ <-. by left.
  - right. assert (k < count)%nat as Hlt by (by eapply lookup_lt_Some). destruct (nth_valid k Hlt) as (_ & _ & Hs & _).
    assert (∃ x, Cut t "/" = (vname k, x, true)) as [x Hx].
    { destruct Ht as [->| ->]; (eexists; by apply Cut_slash). }
    assert (de_Name e = vname k ∧ de_IsDir e = true) as [-> ->] by (split; congruence). eauto.
  - right. destruct (cf_paths _ _ _ _ _ c _ Ht) as (k & r' & Hk & ->). destruct (nth_valid k Hk) as (_ & _ & Hs & _).
    rewrite Cut_slash in Hc by done. assert (de_Name e = vname k ∧ de_IsDir e = true) as [-> ->] by (split; congruence). eauto.
Qed.

Lemma root_entry_file es t : entries_of names es → t ∈ root_names root → ∃ e, e ∈ es ∧ de_Name e = t ∧ de_IsDir e = false.
Proof.
  intros [_ He] Ht. apply He. exists t, "". split; [apply object_names_elem; by left|].
  apply root_names_elem in Ht as [Hs _]. by apply Cut_no_slash.
Qed.

Lemma root_entry_version es k : entries_of names es → (k < count)%nat → ∃ e, e ∈ es ∧ de_Name e = vname k ∧ de_IsDir e = true.
Proof.
  intros [_ He] Hk. apply He. destruct (lookup_lt_is_Some_2 invs k Hk) as [si Hsi].
  exists (vname k +:+ "/" +:+ inventoryBase), inventoryBase. split; [by eapply version_name_in|].
  apply Cut_slash. by apply nth_valid.
Qed.

Lemma file_kind e : de_IsDir e = false → file_type (de_Type e) →
  (de_Name e = decl_name (si_spec root) → kind_of e = Declaration (object_declaration (si_spec root)))
  ∧ (de_Name e = inventoryBase → kind_of e = InventoryFile)
  ∧ (de_Name e = sidecar_name (si_alg root) → kind_of e = Sidecar (si_alg root)).
Proof.
  intros Hd Ht. destruct root_parts as (_ & _ & Hok & _ & Hs). pose proof (iok_alg _ _ Hok) as Ha.
  change (si_alg root = SHA512 ∨ si_alg root = SHA256) in Ha. unfold kind_of. rewrite Hd.
  assert (validFileType (de_Type e) = true) as -> by (by destruct Ht as [-> | ->]). split_and!; intros ->.
  - by destruct Hs as [-> | ->]; vm_compute.
  - by vm_compute.
  - by destruct Ha as [-> | ->]; vm_compute.
Qed.

Lemma dir_kind e k : de_IsDir e = true → (k < count)%nat → de_Name e = vname k → kind_of e = Version (nth_version root k).
Proof.
  intros Hd Hk Hn. unfold kind_of. rewrite Hd, Hn. rewrite decide_False by done. rewrite decide_False by done.
  destruct (nth_valid k Hk) as (_ & -> & _). done.
Qed.

(** The entries of the root by their kind. *)
Lemma root_kinds es : entries_of names es → (∀ e, e ∈ es → inl e ∈ fs_DirEntries fsys dir w) →
  (∀ e, e ∈ es → match kind_of e with
    | Declaration n => n = object_declaration (si_spec root) ∧ de_Name e = decl_name (si_spec root)
    | InventoryFile => True
    | Sidecar _ => de_Name e = sidecar_name (si_alg root)
    | Version v => ∃ k, (k < count)%nat ∧ v = nth_version root k ∧ de_Name e = vname k
    | _ => False
    end)
  ∧ (∃ e, e ∈ es ∧ kind_of e = Declaration (object_declaration (si_spec root)))
  ∧ (∃ e, e ∈ es ∧ kind_of e = InventoryFile) ∧ (∃ e, e ∈ es ∧ kind_of e = Sidecar (si_alg root))
  ∧ (∀ k, (k < count)%nat → ∃ e, e ∈ es ∧ kind_of e = Version (nth_version root k)).
Proof.
  intros He Hin. assert (∀ t, t ∈ root_names root → ∃ e, e ∈ es ∧ de_Name e = t ∧ de_IsDir e = false ∧ file_type (de_Type e)) as Hf.
  { intros t Ht. destruct (root_entry_file es t He Ht) as (e & Hes & Hn & Hd). exists e. split_and!; [done..|].
    by apply (Hpl dir e (Hin e Hes)). }
  unfold root_names in Hf. split_and!.
  - intros e Hes. destruct (Hpl dir e (Hin e Hes)) as [Ht _].
    destruct (root_entry es e He Hes) as [[Hd Hn]|(Hd & k & Hlt & Hn)].
    + destruct (file_kind e Hd (Ht Hd)) as (K1 & K2 & K3). unfold root_names in Hn. rewrite !elem_of_cons, elem_of_nil in Hn.
      destruct Hn as [Hn|[Hn|[Hn|[]]]]; [rewrite (K1 Hn)|rewrite (K2 Hn)|rewrite (K3 Hn)]; done.
    + rewrite (dir_kind e k Hd Hlt Hn). eauto.
  - destruct (Hf (decl_name (si_spec root))) as (e & Hes & Hn & Hd & Ht); [left|]. exists e. split; [done|]. by apply file_kind.
  - destruct (Hf inventoryBase) as (e & Hes & Hn & Hd & Ht); [right; left|]. exists e. split; [done|]. by apply file_kind.
  - destruct (Hf (sidecar_name (si_alg root))) as (e & Hes & Hn & Hd & Ht); [right; right; left|].
    exists e. split; [done|]. by apply file_kind.
  - intros k Hk. destruct (root_entry_version es k He Hk) as (e & Hes & Hn & Hd). exists e. split; [done|]. by apply dir_kind.
Qed.

(** The pass over the entries of the root. *)
Lemma root_parsed es : entries_of names es → (∀ e, e ∈ es → inl e ∈ fs_DirEntries fsys dir w) →
  let st := ParseObjectDir es in
  os_Spec st = si_spec root ∧ os_Invalid st = [] ∧ HasNamaste st = true ∧ HasInventory st = true ∧ HasSidecar st = true
  ∧ VNums_Valid (os_VersionDirs st) = (lineage (Z.of_nat count) (padding (inv_Head (si_Inventory root))), None).
Proof.
  intros He Hin. destruct (root_kinds es He Hin) as (Hk & (ed & Hed & Kd) & (ei & Hei & Ki) & (ec & Hec & Kc) & Hv).
  destruct He as [Hnd _]. unfold ParseObjectDir. assert (flags_ok empty_state) as Hfl by done.
  assert (∀ g e, g ∈ flags → e ∈ es → sets_flag g e = true → has_flag g (foldl parse_entry empty_state es) = true) as Hflag.
  { intros g e Hg Hes Hs. rewrite (proj2 (parse_entries_flags es _ g Hfl Hg)), orb_true_iff. right.
    apply existsb_exists. exists e. split; [by apply list_elem_of_In|done]. }
  cbn zeta. split_and!.
  - rewrite parse_entries_spec by done. cbn [os_Spec empty_state]. change (HasNamaste empty_state) with false. cbn iota.
    destruct (omap declaration_of es) as [|n l] eqn:Ho.
    + exfalso. assert (object_declaration (si_spec root) ∈ omap declaration_of es) as Hd.
      { apply list_elem_of_omap. exists ed. split; [done|]. unfold declaration_of. by rewrite Kd. }
      rewrite Ho in Hd. by apply elem_of_nil in Hd.
    + assert (n ∈ omap declaration_of es) as (e & Hes & Hn)%list_elem_of_omap by (rewrite Ho; left).
      specialize (Hk e Hes). unfold declaration_of in Hn. destruct (kind_of e); try done. injection Hn as ->.
      destruct Hk as [-> _]. done.
  - rewrite parse_entries_invalid by (done || cbn; lia). unfold add_names. rewrite invalid_names_nil; [done| | |].
    + intros e Hes He. specialize (Hk e Hes). by rewrite He in Hk.
    + apply (omap_one de_Name _ (sidecar_name (si_alg root))); [|done]. intros e a Hes Ha. specialize (Hk e Hes).
      unfold sidecar_of in Ha. by destruct (kind_of e).
    + apply (omap_one de_Name _ (decl_name (si_spec root))); [|done]. intros e a Hes Ha. specialize (Hk e Hes).
      unfold declaration_of in Ha. destruct (kind_of e); try done. by destruct Hk.
  - apply (Hflag flag_Namaste ed); [by apply in_flags; auto|done|]. unfold sets_flag. by rewrite Kd.
  - apply (Hflag flag_Inventory ei); [by apply in_flags; auto|done|]. unfold sets_flag. by rewrite Ki.
  - apply (Hflag flag_Sidecar ec); [by apply in_flags; auto|done|]. unfold sets_flag. by rewrite Kc.
  - apply VNums_Valid_lineage.
    + pose proof root_at as [_ Hpos]. destruct (nth_valid (pred count)) as [Hval _]; [lia|].
      unfold nth_version in Hval. by replace (Z.of_nat (pred count) + 1) with (Z.of_nat count) in Hval by lia.
    + rewrite parse_entries_versions. cbn [os_VersionDirs empty_state app]. apply NoDup_Permutation.
      * apply (omap_NoDup de_Name _ VNum_String); [|done]. intros e v Hev. unfold version_of in Hev.
        unfold kind_of in Hev. destruct (de_IsDir e); [|by repeat case_match].
        repeat case_decide; try done. destruct (ParseVNum (de_Name e)) eqn:Hp; try done. injection Hev as <-.
        by apply String_ParseVNum.
      * apply lineage_NoDup.
      * intros v. rewrite list_elem_of_omap, lineage_elem. split.
        -- intros (e & Hes & Hev). specialize (Hk e Hes). unfold version_of in Hev. destruct (kind_of e); try done.
           injection Hev as ->. destruct Hk as (k & Hlt & -> & _). cbn. lia.
        -- intros [Hn Hp]. destruct (Hv (Z.to_nat (num v - 1))) as (e & Hes & He); [lia|]. exists e. split; [done|].
           unfold version_of. rewrite He. f_equal. destruct v as [n p]. cbn in *. unfold nth_version. subst p. f_equal. lia.
Qed.

Lemma root_state es : entries_of names es → (∀ e, e ∈ es → inl e ∈ fs_DirEntries fsys dir w) →
  ∃ st vd, validateRootState (si_spec root) (ParseObjectDir es) = (st, vd) ∧ v_Err vd = None
    ∧ os_VersionDirs st = lineage (Z.of_nat count) (padding (inv_Head (si_Inventory root))).
Proof.
  intros He Hin. destruct (root_parsed es He Hin) as (_ & Hi & Hn & Hv & Hs & Hd). unfold validateRootState.
  rewrite Hi, Hn, Hv, Hs, Hd. cbn [foldl negb fatal_if os_VersionDirs].
  eexists _, _. split; [done|]. split; [|done]. apply v_Err_None. unfold warn_if. by case_match.
Qed.
(** The backend can have the directory, so it reports that it does not exist. *)
Context (Hext : nameable_dir fsys (Join [dir; extensionsDir])).

Lemma no_extensions : validateExtensionsDir (si_spec root) fsys dir w = None
  ∨ validateExtensionsDir (si_spec root) fsys dir w = Some new_Validation.
Proof.
  assert (valid_name "extensions") as Hx by (split; [by vm_compute|done]).
  assert (∀ t, t ∈ names → t ∈ root_names root ∨ ∃ k r, t = vname k +:+ "/" +:+ r) as Hnames.
  { intros t [Ht|[(k & si & Hk & Ht)|Ht]]%object_names_elem; [by left|right..].
    - destruct Ht as [-> | ->]; eauto.
    - destruct (cf_paths _ _ _ _ _ c _ Ht) as (k & r & _ & ->). eauto. }
  assert ("extensions" ∉ names) as Habs.
  { intros [Ht|(k & r & Hr)]%Hnames; [|done]. unfold root_names in Ht. rewrite !elem_of_cons, elem_of_nil in Ht.
    destruct root_parts as (_ & _ & _ & _ & Hs). destruct Ht as [Ht|[Ht|[Ht|[]]]]; [by destruct Hs as [Hs|Hs]; rewrite Hs in Ht|done..]. }
  assert (sub_names "extensions" names = []) as Hnil.
  { apply elem_of_nil_inv. intros t [Ht|(k & r & Hr)]%sub_names_elem%Hnames; [|done].
    apply root_names_elem in Ht as [Hs _]. apply Cut_no_slash in Hs. by rewrite Cut_slash in Hs. }
  pose proof (lists_sub _ _ _ names_listed "extensions" Hx) as Hl. unfold validateExtensionsDir, extensionsDir.
  destruct (healthy_ReadDir_empty _ _ _ h (Join [dir; "extensions"])) as (err & Hr & He).
  { apply valid_name_Join; [apply names_listed|done]. } { by apply (lists_absent _ _ _ names_listed). } { by apply (lists_empty _ _ _ Hl). }
  rewrite Hr. destruct err as [err|]; [left|by right]. rewrite He; [done|done|].
  apply (unblocked_Join _ _ _ inventoryBase); [apply names_listed|by apply valid_name_plain|done|apply inventoryBase_plain|].
  destruct (cf_root _ _ _ _ _ c) as [Hi _]. rewrite Hi. by eexists.
Qed.

Lemma declaration_valid : ValidateNamaste fsys (Join [dir; decl_name (si_spec root)]) w = None.
Proof.
  destruct root_parts as (_ & _ & _ & _ & Hs). pose proof (ls_dir _ _ _ names_listed) as Hd.
  assert (ParseNamaste (decl_name (si_spec root)) = Ok (object_declaration (si_spec root))) as Hp
    by (by destruct Hs as [-> | ->]; vm_compute).
  destruct (Namaste_Name_elem (object_declaration (si_spec root)) Hp) as [Hns Hpl'].
  destruct (h_open _ _ _ h _ _ (cf_decl _ _ _ _ _ c)) as (f & Ho & Hr & Hcl).
  unfold ValidateNamaste. rewrite Base_Join_dir by done. rewrite Hp, Ho, Hr, Hcl. unfold io_ReadAll. cbn [rd_err rd_data bytes_reader].
  by rewrite bool_decide_true.
Qed.

Lemma stored_reads d si k : stored_in m d si → invs !! k = Some si →
  ReadInventory fsys d w = inl si ∧ ValidateSidecar si fsys d w = None ∧ fs_ReadAll fsys (Join [d; inventoryBase]) w = Ok (si_bytes si).
Proof.
  intros [Hi Hs] Hk. destruct (parts k si Hk) as (Hd & _). destruct (cf_versions _ _ _ _ _ c k si Hk) as [[_ _ [Hn _ Hsum] _ _ _ _ _ _ _] _].
  split_and!.
  - by apply (healthy_ReadInventory _ _ _ h).
  - by apply (healthy_ValidateSidecar _ _ _ h).
  - by apply (healthy_ReadAll _ _ _ h).
Qed.

Lemma version_manifest k si : invs !! k = Some si →
  manifest_ok sum m dir (si_Inventory si) (Paths (manifest (si_Inventory si))).
Proof.
  intros Hk p d Hin%Paths_elem. destruct (cf_versions _ _ _ _ _ c k si Hk) as [[_ _ _ _ _ _ Hm _ Hr _] _].
  split.
  - intros Hn. unfold contains in Hin. rewrite Hn in Hin. by apply elem_of_nil in Hin.
  - assert (p ∈ names) as Hp.
    { apply object_names_elem. right. right. apply Hm, all_paths_elem. eauto. }
    apply (ls_in _ _ _ names_listed) in Hp as [data Hdata]. exists data. split; [done|]. by eapply Hr.
Qed.

(** ** What has been seen after some of the versions *)

Implicit Types (v : ObjectValidation FS).

Notation paths := (all_paths (manifest (si_Inventory root))).

(** Nothing but the root inventory and the files of [Q] has been seen, and no error. *)
Record seen_with v0 (Q : string → Prop) v : Prop := {
  sn_vno : vno v;
  sn_obj : o_inventory (vd_obj v) = Some root ∧ o_fs (vd_obj v) = fsys ∧ o_path (vd_obj v) = dir;
  sn_skip : vd_skipDigests v = vd_skipDigests v0;
  sn_reg : vd_algRegistry v = vd_algRegistry v0;
  sn_files : files_ok sum m dir (vd_files v);
  sn_dom : ∀ p, is_Some (vd_files v !! p) ↔ p ∈ paths;
  sn_found : ∀ p, found (vd_files v) p = true ↔ p ∈ paths ∧ Q p
}.

Definition in_versions (k : nat) (p : string) : Prop := ∃ j r, (j < k)%nat ∧ p = vname j +:+ "/" +:+ r.
Definition seen v0 (k : nat) v : Prop := seen_with v0 (in_versions k) v.

Lemma seen_warned v0 Q v v' : seen_with v0 Q v → warned v v' → seen_with v0 Q v'.
Proof. intros [A B C D E F G] [H1' H2' H3' H4' H5']. split; rewrite ?H1', ?H2', ?H3', ?H4'; auto. Qed.

Lemma seen_ext v0 (Q Q' : string → Prop) v : (∀ p, p ∈ paths → Q p ↔ Q' p) → seen_with v0 Q v → seen_with v0 Q' v.
Proof. intros HQ [A B C D E F G]. split; [done..|]. intros p. rewrite G. split; intros [Hp Hq]; (split; [done|by apply (HQ p Hp)]). Qed.

Lemma seen_existing v0 Q v p : p ∈ paths → seen_with v0 Q v → seen_with v0 (λ q, q = p ∨ Q q) (addExistingContent v p).
Proof.
  intros Hp [A B C D E F G]. destruct (addExisting_right sum m dir v p E) as (E1 & E2 & E3); [by apply F|].
  split; [done..| |].
  - intros q. by rewrite E3.
  - intros q. rewrite E2, orb_true_iff, bool_decide_eq_true, G. naive_solver.
Qed.

Lemma root_accepted v es : vd_files v = ∅ → vno v → vd_fs v = fsys → vd_path v = dir →
  entries_of names es → (∀ e, e ∈ es → inl e ∈ fs_DirEntries fsys dir w) →
  ∃ v1 st, ValidateObjectRoot (mkOcflV1 (si_spec root)) v (ParseObjectDir es) w = Ok (v1, st, None) ∧ seen v 0 v1
    ∧ os_VersionDirs st = lineage (Z.of_nat count) (padding (inv_Head (si_Inventory root))).
Proof.
  intros Hf0 Hv0 Hfs Hpath He Hin. destruct root_at as [Hroot _].
  destruct (stored_reads dir root (pred count) (cf_root _ _ _ _ _ c) Hroot) as (_ & Hsc & Hra).
  destruct (rd_validated _ (vs_readable _ _ _ _ _ _ root_stored)) as (vb & Hb & Hbe).
  unfold ValidateObjectRoot. cbn [v1Spec]. fold (object_declaration (si_spec root)). fold (decl_name (si_spec root)).
  rewrite Hfs, Hpath, declaration_valid, Hra, Hb, Hbe. unfold check_root. cbn [v1Spec].
  pose proof (warned_PrefixAdd v "root inventory.json" vb Hbe) as Hw1. generalize dependent (PrefixAdd v "root inventory.json" (Some vb)).
  intros v1 [W1 W2 W3 W4 W5]. assert (vd_fs v1 = fsys ∧ vd_path v1 = dir) as [-> ->] by (unfold vd_fs, vd_path in *; rewrite W1; done).
  rewrite Hsc. assert (warned v1 (PrefixAdd v1 "extensions directory" (validateExtensionsDir (si_spec root) fsys dir w))) as Hw2.
  { destruct no_extensions as [-> | ->]; [done|]. by apply warned_PrefixAdd. }
  assert (vd_fs v1 = fsys ∧ vd_path v1 = dir) as [E1 E2] by (unfold vd_fs, vd_path in *; rewrite W1; done). rewrite E1, E2.
  generalize dependent (PrefixAdd v1 "extensions directory" (validateExtensionsDir (si_spec root) fsys dir w)).
  intros v2 [X1 X2 X3 X4 X5].
  destruct (addInventory_right sum m dir v2 root true) as (f' & -> & Hok & Hfd & Hdom).
  { rewrite X4, W4, Hf0. intros p e Hp. by rewrite lookup_empty in Hp. } { by eapply version_manifest. }
  cbn [mbind res_bind]. destruct (root_state es He Hin) as (st & vd & -> & Hvd & Hdirs).
  match goal with |- context [PrefixAdd ?a "root contents" _] => pose proof (warned_PrefixAdd a "root contents" vd Hvd) as Hw3;
    set (v3 := a) in *; set (v4 := PrefixAdd v3 "root contents" (Some vd)) in * end.
  assert (seen v 0 v3) as Hs3.
  { split; cbn.
    - unfold v3, vno. cbn. apply X5, W5, Hv0.
    - rewrite X1, W1. split_and!; [done|exact Hfs|exact Hpath].
    - congruence.
    - congruence.
    - done.
    - intros p. rewrite Hdom, X4, W4, Hf0, lookup_empty. split; [intros [[? ?]|?]; done|by right].
    - intros p. rewrite Hfd, X4, W4, Hf0. unfold found. rewrite lookup_empty. split; [done|]. intros (_ & j & r & Hj & _). lia. }
  exists v4, st. split; [|split; [by eapply seen_warned|done]].
  assert (v_Err (vd_Validation v4) = None) as ->; [|done]. apply v_Err_None. by apply (wn_fatal _ _ Hw3), (sn_vno _ _ _ Hs3).
Qed.

(** ** The content of a version *)

Lemma Join3 (a b d : string) : plain_path a → plain_path b → plain_path d → Join [a; b; d] = a +:+ "/" +:+ b +:+ "/" +:+ d.
Proof.
  intros Ha Hb Hd. unfold Join. rewrite !filter_cons_True by (by apply plain_path_nonempty). rewrite filter_nil. cbn [join_with].
  apply Clean_plain. apply plain_path_app; [done|]. by apply plain_path_app.
Qed.

(** The files of a content directory, when they are all in the manifest. *)
Lemma seen_content v0 Q v vk cd (refs : list (FileRef FS)) n :
  plain_path vk → plain_path cd → (∀ r, r ∈ refs → plain_path (fr_Path r) ∧ vk +:+ "/" +:+ cd +:+ "/" +:+ fr_Path r ∈ paths) →
  seen_with v0 Q v → ∃ v', add_content_files vk cd (Ok <$> refs) n v = Ok (v', n + Z.of_nat (length refs), None)
    ∧ seen_with v0 (λ q, (∃ r, r ∈ refs ∧ q = vk +:+ "/" +:+ cd +:+ "/" +:+ fr_Path r) ∨ Q q) v'.
Proof.
  intros Hvk Hcd. revert Q v n. induction refs as [|r refs IH]; intros Q v n Hr Hs; cbn [fmap list_fmap add_content_files length].
  - exists v. split; [do 3 f_equal; lia|]. eapply seen_ext; [|exact Hs]. intros p _. split; [by right|].
    intros [(r & Hr' & _)|?]; [by apply elem_of_nil in Hr'|done].
  - destruct (Hr r ltac:(left)) as [Hpr Hin]. rewrite Join3 by done.
    destruct (IH _ _ (n + 1) (λ r' Hr', Hr r' ltac:(by right)) (seen_existing v0 Q v _ Hin Hs)) as (v' & -> & Hs').
    exists v'. split; [do 3 f_equal; lia|]. eapply seen_ext; [|exact Hs']. intros p _. setoid_rewrite elem_of_cons. naive_solver.
Qed.

Section version.
Context (k : nat) (si : StoredInventory) (Hk : invs !! k = Some si).

Notation vdir := (Join [dir; vname k]).
Notation cd := (si_contdir root).
Notation vnames := (sub_names (vname k) names).

Lemma k_lt : (k < count)%nat.
Proof. by eapply lookup_lt_Some. Qed.

Lemma vnames_listed : lists m vdir vnames.
Proof. apply lists_sub; [apply names_listed|]. apply nth_valid, k_lt. Qed.

Lemma vnames_elem r : r ∈ vnames →
  r = inventoryBase ∨ r = sidecar_name (si_alg si) ∨ ∃ r', r = cd +:+ "/" +:+ r' ∧ vname k +:+ "/" +:+ r ∈ paths.
Proof.
  intros Hr%sub_names_elem. apply version_name in Hr as [(si' & Hsi & Hr)|(r' & -> & Hr)]; [|eauto|apply k_lt].
  rewrite Hk in Hsi. injection Hsi as <-. destruct Hr; auto.
Qed.

Lemma content_slash : no_slash cd.
Proof.
  destruct root_parts as (_ & _ & Hok & _). destruct (iok_contdir _ _ Hok) as [Hs _]. unfold si_contdir, contentDirectory_or_default.
  by case_bool_decide.
Qed.

Lemma sidecar_slash : no_slash (sidecar_name (si_alg si)).
Proof.
  destruct (parts k si Hk) as (_ & _ & Hok & _). pose proof (iok_alg _ _ Hok) as Ha. unfold sidecar_name, si_alg.
  by destruct Ha as [-> | ->].
Qed.

Lemma version_entry es e : entries_of vnames es → e ∈ es →
  (de_IsDir e = true ∧ de_Name e = cd ∧ sub_names cd vnames ≠ [] ∧ valid_name cd)
  ∨ (de_IsDir e = false ∧ (de_Name e = inventoryBase ∨ de_Name e = sidecar_name (si_alg si))).
Proof.
  intros [_ He] Hin. destruct (proj1 (He (de_Name e) (de_IsDir e))) as (t & r & Ht & Hc); [eauto|].
  pose proof (vnames_elem t Ht) as Hcase. destruct Hcase as [->|[->|(r' & -> & Hp)]].
  - rewrite Cut_no_slash in Hc by done. injection Hc as <- _ <-. auto.
  - rewrite Cut_no_slash in Hc by apply sidecar_slash. assert (de_Name e = sidecar_name (si_alg si) ∧ de_IsDir e = false) by (split; congruence).
    right. tauto.
  - rewrite Cut_slash in Hc by apply content_slash. assert (de_Name e = cd ∧ de_IsDir e = true) as [-> ->] by (split; congruence).
    left. split_and!; [done..| |].
    + intros Hn. apply sub_names_elem in Ht. rewrite Hn in Ht. by apply elem_of_nil in Ht.
    + apply (ls_valid _ _ _ vnames_listed) in Ht. by apply valid_name_slash in Ht as [? _].
Qed.

(** The files of the version's content directory. *)
Definition version_content (p : string) : Prop :=
  ∃ t, t ∈ sub_names cd vnames ∧ p = vname k +:+ "/" +:+ cd +:+ "/" +:+ t.

Lemma content_paths_in t : t ∈ sub_names cd vnames → vname k +:+ "/" +:+ cd +:+ "/" +:+ t ∈ paths.
Proof.
  intros Ht%sub_names_elem. pose proof (ls_valid _ _ _ vnames_listed _ Ht) as Hv.
  apply vnames_elem in Ht as [Ht|[Ht|(r' & _ & Hp)]]; [..|done]; exfalso.
  - pose proof (Cut_slash cd t content_slash) as Hc. rewrite Ht in Hc. by rewrite Cut_no_slash in Hc by done.
  - pose proof (Cut_slash cd t content_slash) as Hc. rewrite Ht in Hc. by rewrite Cut_no_slash in Hc by apply sidecar_slash.
Qed.

Lemma version_dirs spec v0 Q v dirs :
  (∀ t, t ∈ names → (String.length t < fuel)%nat) → (∀ d, d ∈ dirs → d = cd ∧ sub_names cd vnames ≠ [] ∧ valid_name cd) →
  seen_with v0 Q v → ∃ v', check_version_dirs fuel spec vdir (vname k) cd dirs v w = Ok (v', None)
    ∧ seen_with v0 (λ p, Q p ∨ dirs ≠ [] ∧ version_content p) v'.
Proof.
  intros Hlen. revert Q v. induction dirs as [|d dirs IH]; intros Q v Hd Hs; cbn [check_version_dirs].
  { exists v. split; [done|]. eapply seen_ext; [|exact Hs]. intros p _. split; [by left|]. by intros [?|[? _]]. }
  destruct (Hd d ltac:(left)) as (-> & Hne & Hcd). rewrite bool_decide_true by done. cbn [negb].
  destruct (nth_valid k k_lt) as (_ & _ & _ & _ & Hvk).
  destruct (sn_obj _ _ _ Hs) as (_ & Hfs & _). unfold vd_fs. rewrite Hfs.
  destruct (Hwalk (Join [vdir; cd]) (sub_names cd vnames)) as (refs & -> & [_ _ Hrefs]); [by apply lists_sub, Hcd; apply vnames_listed|done| |].
  { intros t Ht%sub_names_elem%sub_names_elem%Hlen. rewrite !string_length_app in Ht. lia. }
  destruct (seen_content v0 Q v (vname k) cd refs 0) as (v1 & -> & Hs1); [by apply valid_name_plain..| |done|].
  { intros r Hr. assert (fr_Path r ∈ sub_names cd vnames) as Hin by (apply Hrefs; eauto). split; [|by apply content_paths_in].
    apply valid_name_plain. pose proof (lists_sub _ _ _ vnames_listed cd Hcd) as Hl. by apply (ls_valid _ _ _ Hl). }
  cbn [mbind res_bind]. assert ((0 + Z.of_nat (length refs) =? 0) = false) as ->.
  { apply Z.eqb_neq. destruct refs; [|cbn; lia]. exfalso. apply Hne. apply elem_of_nil_inv. intros t Ht.
    apply Hrefs in Ht as (r & Hr & _). by apply elem_of_nil in Hr. }
  destruct (IH _ v1 (λ d Hd', Hd d ltac:(by right)) Hs1) as (v2 & -> & Hs2). exists v2. split; [done|].
  eapply seen_ext; [|exact Hs2]. intros p _. unfold version_content. split.
  - intros [[(r & Hr & ->)|?]|[_ ?]]; [|by left|by right]. right. split; [done|]. exists (fr_Path r). split; [|done]. apply Hrefs. eauto.
  - intros [?|[_ (t & Ht & ->)]]; [left; by right|]. left. left. apply Hrefs in Ht as (r & Hr & <-). eauto.
Qed.

(** ** The inventory of a version *)

Lemma foldl_same {A B} (f : B → A → B) l b : (∀ x, x ∈ l → f b x = b) → foldl f b l = b.
Proof. induction l as [|x l IH]; cbn; [done|]. intros Hf. rewrite Hf by left. apply IH. intros y Hy. apply Hf. by right. Qed.

Lemma compare_versions_ok spec dirNum verInv rootInv vs v :
  (∀ vn, vn ∈ vs → ∃ ver ver', versions verInv !! vn = Some (Some ver) ∧ versions rootInv !! vn = Some (Some ver')
    ∧ forwardMatch (mkLogicalState (inv_Manifest verInv) (iv_State ver)) (mkLogicalState (inv_Manifest rootInv) (iv_State ver')) = true) →
  ∃ v', compare_versions spec dirNum verInv rootInv vs v = Ok v' ∧ warned v v'.
Proof.
  revert v. induction vs as [|vn vs IH]; intros v Hvs; cbn [compare_versions]; [by exists v|].
  destruct (Hvs vn ltac:(left)) as (ver & ver' & -> & -> & Hf). cbn [mjoin option_join]. rewrite Hf.
  match goal with |- context [compare_versions _ _ _ _ vs ?a] => destruct (IH a) as (v' & Hr & Hw) end.
  { intros vn' Hin. apply Hvs. by right. }
  exists v'. split; [exact Hr|]. etrans; [|exact Hw]. by repeat apply warned_unless.
Qed.

Lemma nth_in_versions j : (j ≤ k)%nat → ∃ ver, versions (si_Inventory si) !! nth_version root j = Some (Some ver).
Proof.
  intros Hj. destruct (parts k si Hk) as (_ & _ & Hok & _). destruct (cf_versions _ _ _ _ _ c k si Hk) as [[Hh _ _ _ _ _ _ _ _ _] _].
  destruct (iok_versions _ _ Hok) as [_ Hvs]. destruct (proj2 (Hvs (nth_version root j))) as [o Ho].
  { rewrite Hh. cbn. split; [lia|done]. }
  destruct (iok_states _ _ Hok _ _ Ho) as (ver & -> & _). eauto.
Qed.

Lemma compare_ok v : si_digest si ≠ si_digest root →
  ∃ v', compareVersionInventory (mkOcflV1 (si_spec si)) root (nth_version root k) si v = Ok v' ∧ warned v v'.
Proof.
  intros Hd. destruct (cf_versions _ _ _ _ _ c k si Hk) as [[Hh _ _ Hid Hcd Hst _ _ _ _] _]. destruct root_at as [Hroot Hpos].
  assert (k ≠ pred count) as Hne by (intros ->; congruence). pose proof k_lt as Hlt.
  pose proof (vs_head _ _ _ _ _ _ root_stored) as Hrh.
  unfold compareVersionInventory. rewrite Hid, Hcd. rewrite (bool_decide_false (inv_Head _ = inv_Head _)).
  2: { rewrite Hh, Hrh. unfold nth_version. intros [=]. lia. }
  rewrite !bool_decide_true by done. cbn [andb]. unfold Lineage. rewrite Hh. cbn [num nth_version padding].
  rewrite (proj2 (Z.eqb_neq _ _)), (proj2 (Z.ltb_ge _ _)) by lia. cbn [mbind res_bind]. apply compare_versions_ok.
  intros vn [Hn Hp]%lineage_elem. cbn [num padding nth_version] in Hn, Hp.
  assert (vn = nth_version root (Z.to_nat (num vn - 1))) as ->.
  { destruct vn as [n p]. cbn in *. unfold nth_version. subst p. f_equal. lia. }
  destruct (nth_in_versions (Z.to_nat (num vn - 1))) as [ver Hver]; [lia|].
  destruct root_parts as (_ & _ & Hok & _). destruct (iok_versions _ _ Hok) as [_ Hvs].
  destruct (proj2 (Hvs (nth_version root (Z.to_nat (num vn - 1))))) as [o Ho].
  { rewrite Hrh. cbn. split; [lia|done]. }
  destruct (iok_states _ _ Hok _ _ Ho) as (ver' & -> & _). exists ver, ver'. split_and!; [done..|]. by apply (Hst _ _ _ Hver Ho).
Qed.

Definition prev_of : option StoredInventory := match k with O => None | S j => invs !! j end.

Lemma older_ok : match prev_of with
  | None => Ok false
  | Some prev => c ← Spec_Cmp (si_spec si) (si_spec prev); Ok (c <? 0)
  end = Ok false.
Proof.
  unfold prev_of. destruct k as [|j]; [done|]. destruct (invs !! j) as [prev|] eqn:Hj; [|done].
  destruct (cf_specs _ _ _ _ _ c j prev si Hj Hk) as (x & -> & Hx). cbn. by rewrite (proj2 (Z.ltb_ge _ _)).
Qed.

(** The manifest of the version lists what has been found. *)
Lemma found_listed v0 v name e : seen v0 (S k) v → vd_files v !! name = Some e → vf_fileExists e = true →
  is_Some (DM_PathMap (manifest (si_Inventory si)) !! name).
Proof.
  intros Hs He Hx. assert (found (vd_files v) name = true) as Hf by (unfold found; by rewrite He).
  apply (sn_found _ _ _ Hs) in Hf as (Hp & j & r & Hj & ->).
  destruct (cf_versions _ _ _ _ _ c k si Hk) as [Hv _].
  pose proof (vs_content _ _ _ _ _ _ Hv _ j r Hp ltac:(lia) eq_refl) as [d Hd]%all_paths_elem.
  exists d. apply DM_PathMap_lookup; [|done]. destruct (parts k si Hk) as (_ & _ & Hok & _).
  destruct (iok_manifest _ _ Hok) as (man & Hman & (_ & _ & Hps) & _). unfold manifest. rewrite Hman. by apply paths_ok_NoDup.
Qed.

Lemma version_inventory_ok v0 v : seen v0 (S k) v →
  ∃ v', check_version_inventory (mkOcflV1 (si_spec si)) v (nth_version root k) si prev_of (Some root) vdir w = Ok v'
    ∧ seen v0 (S k) v'.
Proof.
  intros Hs. unfold check_version_inventory. cbn [v1Spec].
  destruct (cf_versions _ _ _ _ _ c k si Hk) as [Hver Hst]. destruct (stored_reads _ _ _ Hst Hk) as (_ & Hsc & _).
  destruct (parts k si Hk) as (_ & Hval & _ & Hspec & _).
  assert (v_Err (ValidateInventory (mkOcflV1 (si_spec si)) (si_Inventory si)) = None) as Hvi.
  { unfold Inventory_Validate in Hval. unfold si_spec in *. by rewrite Hspec in Hval. }
  pose proof (warned_PrefixAdd v (vname k +:+ "/inventory.json") _ Hvi) as Hw.
  set (v1 := PrefixAdd v _ _) in *. apply (seen_warned _ _ _ v1) in Hs; [|done]. clearbody v1. clear Hw.
  destruct (sn_obj _ _ _ Hs) as (_ & Hfs & _). unfold vd_fs. rewrite Hfs, Hsc.
  pose proof older_ok as Hold. unfold si_spec in Hold. rewrite Hold. cbn [mbind res_bind].
  rewrite (bool_decide_true (inv_Head _ = _)) by apply Hver.
  assert (∃ v2, (if bool_decide (si_digest si = si_digest root) then Ok v1
    else vldr ← compareVersionInventory (mkOcflV1 (si_spec si)) root (nth_version root k) si v1;
         '(vldr, err) ← addInventory vldr si false;
         Ok match err with
            | Some err => AddFatal vldr [verr (ErrWrap "digests are inconsistent with other inventories" err) (E066 (si_spec si))]
            | None => vldr
            end) = Ok v2 ∧ seen v0 (S k) v2) as (v2 & Hr & Hs2).
  { case_bool_decide as Hd; [by exists v1|]. destruct (compare_ok v1 Hd) as (v2 & -> & Hw). cbn [mbind res_bind].
    apply (seen_warned _ _ _ _ Hs) in Hw as [A B C D E F G].
    destruct (addInventory_right sum m dir v2 si false E) as (f' & -> & Hok & Hfd & Hdom); [by eapply version_manifest|].
    cbn [mbind res_bind]. exists (vd_set_files f' v2). split; [done|]. split; cbn; [done..| |].
    - intros p. rewrite Hdom, F. split; [|by left]. intros [?|Hp]; [done|]. by apply Hver.
    - intros p. by rewrite Hfd, G. }
  unfold si_Digest. unfold mbind, res_bind in Hr |- *. rewrite Hr. exists v2. split; [|done]. f_equal. apply foldl_same.
  intros [name e] Hin%range_elem. destruct (vf_fileExists e) eqn:Hx; [|done]. cbn [negb].
  rewrite bool_decide_true; [done|]. by eapply found_listed.
Qed.

(** ** One version *)

Lemma in_versions_S v0 dirs v es : entries_of vnames es → (∀ e, e ∈ es → de_IsDir e = true → de_Name e ∈ dirs) →
  seen_with v0 (λ p, in_versions k p ∨ dirs ≠ [] ∧ version_content p) v → seen v0 (S k) v.
Proof.
  intros He Hd. apply seen_ext. intros p Hp. split.
  - intros [(j & r & Hj & ->)|[_ (t & _ & ->)]].
    + exists j, r. split; [lia|done].
    + exists k, (cd +:+ "/" +:+ t). split; [lia|done].
  - intros (j & r & Hj & ->). destruct (decide (j = k)) as [->|Hne]; [|left; exists j, r; split; [lia|done]]. right.
    destruct (cf_paths _ _ _ _ _ c _ Hp) as (j & r' & Hj' & Heq).
    destruct (nth_valid k k_lt) as (_ & _ & Hs1 & _), (nth_valid j Hj') as (_ & _ & Hs2 & _).
    apply (f_equal (λ s, Cut s "/")) in Heq. rewrite !Cut_slash in Heq by done.
    assert (vname k = vname j ∧ r = cd +:+ "/" +:+ r') as [E ->] by (split; congruence).
    assert (cd +:+ "/" +:+ r' ∈ vnames) as Hin by (apply sub_names_elem, object_names_elem; by right; right).
    split; [|exists r'; split; [by apply sub_names_elem|done]].
    destruct (proj2 (proj2 He cd true)) as (e & Hes & Hn & Hb).
    { exists (cd +:+ "/" +:+ r'), r'. split; [done|]. apply Cut_slash, content_slash. }
    specialize (Hd e Hes Hb). intros ->. by apply elem_of_nil in Hd.
Qed.

Lemma version_accepted v0 v : (∀ t, t ∈ names → (String.length t < fuel)%nat) → seen v0 k v →
  ∃ v', ValidateObjectVersion fuel (mkOcflV1 (si_spec si)) v (nth_version root k) (Some si) prev_of w = Ok (v', None)
    ∧ seen v0 (S k) v'.
Proof.
  intros Hlen Hs. unfold ValidateObjectVersion. cbn [v1Spec]. destruct (sn_obj _ _ _ Hs) as (Hroot & Hfs & Hpath).
  unfold vd_fs, vd_path. rewrite Hfs, Hpath, Hroot.
  destruct (lists_ReadDir fsys files w h vdir vnames) as (es & -> & He & Hes); [apply vnames_listed| |].
  { intros Hn. assert (inventoryBase ∈ vnames) as Hi by (by apply sub_names_elem, (version_name_in k si)).
    rewrite Hn in Hi. by apply elem_of_nil in Hi. }
  cbn [unless_not_exist]. unfold parseVersionDirState.
  destruct (parse_version_entries (si_alg si) es (mkVersionDirState false "" [] [])) as (E1 & E2 & E3); [| |intros e Hin|by left|].
  { destruct (parts k si Hk) as (_ & _ & Hok & _). unfold si_alg. by destruct (iok_alg _ _ Hok) as [-> | ->]. }
  { apply He. }
  { destruct (version_entry es e He Hin) as [[Hd _]|[Hd Hn]]; [by left|right]. split_and!; [done| |done].
    by apply (Hpl vdir e (Hes e Hin)). }
  set (st := foldl parse_version_entry _ es) in *. cbn [vds_extraFiles vds_dirs vds_hasInventory app] in E1, E2, E3.
  rewrite E1, E2, E3. 2: { right. destruct (proj2 (proj2 He inventoryBase false)) as (e & ? & ? & ?); [|by exists e].
    exists inventoryBase, "". split; [by apply sub_names_elem, (version_name_in k si)|done]. }
  cbn [foldl]. assert (ContentDirectory (vd_obj v) = cd) as ->.
  { unfold ContentDirectory, with_inv. by rewrite Hroot. }
  destruct (version_dirs (si_spec si) v0 (in_versions k) v (de_Name <$> List.filter de_IsDir es) Hlen) as (v1 & -> & Hs1); [|done|].
  { intros d (e & -> & Hin)%list_elem_of_fmap. apply list_elem_of_In, filter_In in Hin as [Hin%list_elem_of_In Hd].
    destruct (version_entry es e He Hin) as [(_ & -> & ? & ?)|[Hd' _]]; [done|congruence]. }
  cbn [mbind res_bind]. apply (in_versions_S v0 _ v1 es He) in Hs1.
  2: { intros e Hin Hd. apply list_elem_of_fmap. exists e. split; [done|]. apply list_elem_of_In, filter_In. by rewrite <- list_elem_of_In. }
  destruct (version_inventory_ok v0 v1 Hs1) as (v2 & -> & Hs2). by exists v2.
Qed.
End version.

(** ** All versions *)

Lemma lineage_nth : lineage (Z.of_nat count) (padding (inv_Head (si_Inventory root))) = nth_version root <$> seq 0 count.
Proof.
  apply list_eq. intros i. apply option_eq. intros v. rewrite lineage_lookup, list_lookup_fmap, fmap_Some.
  setoid_rewrite lookup_seq. unfold nth_version. split.
  - intros [-> Hi]. exists i. split; [|done]. lia.
  - intros (j & [-> Hj] & ->). split; [done|lia].
Qed.

Lemma versions_accepted v0 k imp v : (∀ t, t ∈ names → (String.length t < fuel)%nat) →
  (k ≤ count)%nat → seen v0 k v → ∃ v',
    validate_versions fuel dir (nth_version root <$> seq k (count - k)) imp (prev_of k) v w = Ok v' ∧ seen v0 count v'.
Proof.
  intros Hlen. remember (count - k)%nat as n eqn:Hn. revert k imp v Hn.
  induction n as [|n IH]; intros k imp v Hn Hle Hs; cbn [seq fmap list_fmap validate_versions].
  { exists v. split; [done|]. by replace count with k by lia. }
  destruct (lookup_lt_is_Some_2 invs k ltac:(lia)) as [si Hk].
  destruct (cf_versions _ _ _ _ _ c k si Hk) as [_ Hst]. destruct (stored_reads _ _ _ Hst Hk) as (Hri & _).
  destruct (sn_obj _ _ _ Hs) as (_ & Hfs & _). unfold vd_fs. rewrite Hfs, Hri. cbn [unless_not_exist].
  destruct (parts k si Hk) as (_ & _ & _ & Hspec & _). unfold mustGetOCFL. unfold si_spec in Hspec. rewrite Hspec.
  cbn [mbind res_bind]. destruct (version_accepted k si Hk v0 v Hlen Hs) as (v1 & Hr & Hs1). unfold si_spec in Hr. rewrite Hr.
  destruct (IH (S k) (mkOcflV1 (it_Spec (inv_Type (si_Inventory si)))) v1) as (v2 & Hr2 & Hs2); [lia..|done|].
  cbn [prev_of] in Hr2. rewrite Hk in Hr2. by exists v2.
Qed.

(** ** The content *)

Lemma entry_validates p e reg : reg_ok reg → (∀ alg a data, reg !! alg = Some a → alg_sum a data = sum alg data) →
  entry_ok sum m dir p e →
  DFileRef_Validate (mkDFileRef (mkFileRef fsys dir p None) (vf_manifestDigests e) (vf_fixityDigests e)) reg w = None.
Proof.
  intros Hreg Hsum [(data & md & fx & Hdata & E1 & E2 & _ & R1 & R2)]. rewrite E1, E2.
  unfold DFileRef_Validate, allDigests. cbn [dfr_Digests dfr_Fixity dfr_FileRef].
  assert (Set_ConflictsWith (Some md) (Some fx) = []) as ->.
  { apply ConflictsWith_nil. intros alg x d Hx Hd. cbn in Hx, Hd. eapply right_agree; [exact R1|done|]. by eapply R2. }
  destruct (h_open _ _ _ h _ _ Hdata) as (f & Ho & Hr & _). unfold FileRef_Open, FullPath. cbn [fr_FS fr_BaseDir fr_Path].
  rewrite Ho. apply fmap_None. apply (Validate_spec _ _ _ Hreg). rewrite Hr. split; [done|]. intros alg a d Ha Hd.
  cbn in Hd |- *. rewrite (Hsum alg a data Ha). apply lookup_union_Some_raw in Hd as [Hd|[_ Hd]]; [by eapply R2|by eapply R1].
Qed.

Lemma content_accepted v0 v : reg_ok (vd_algRegistry v0) →
  (∀ alg a data, vd_algRegistry v0 !! alg = Some a → alg_sum a data = sum alg data) → seen v0 count v →
  vno (ValidateObjectContent (mkOcflV1 (si_spec root)) v w).1.
Proof.
  intros Hreg Hsum Hs. unfold ValidateObjectContent. cbn [fst].
  assert (∀ name e, vd_files v !! name = Some e → vf_fileExists e = true ∧ seenInManifest e = true) as Hall.
  { intros name e He. split.
    - assert (found (vd_files v) name = true) as Hf; [|by unfold found in Hf; rewrite He in Hf].
      assert (name ∈ paths) as Hp by (apply (sn_dom _ _ _ Hs); eauto).
      apply (sn_found _ _ _ Hs). split; [done|]. destruct (cf_paths _ _ _ _ _ c _ Hp) as (j & r & Hj & ->).
      exists j, (si_contdir root +:+ "/" +:+ r). done.
    - destruct (sn_files _ _ _ Hs name e He) as [(data & md & fx & _ & E1 & _ & Hne & _)]. unfold seenInManifest. rewrite E1.
      by rewrite bool_decide_false. }
  assert (missingContent v = []) as -> by (apply missingContent_nil; naive_solver).
  assert (unexpectedContent v = []) as -> by (apply unexpectedContent_nil; naive_solver). cbn [foldl].
  assert (ValidateFilesBatch (existingContentDigests v (vd_fs v) (vd_path v)) (vd_algRegistry v) (DigestConcurrency v) w = []) as ->.
  { apply ValidateFilesBatch_nil. intros r (name & e & He & _ & _ & ->)%existingContent_elem. unfold content_ref, vd_fs, vd_path.
    destruct (sn_obj _ _ _ Hs) as (_ & -> & ->). rewrite (sn_reg _ _ _ Hs). apply entry_validates; [done..|].
    by apply (sn_files _ _ _ Hs). }
  cbn [foldl]. destruct (vd_skipDigests v); (apply (wn_fatal v); [by apply warned_Add|apply (sn_vno _ _ _ Hs)]).
Qed.

(** ** The whole validation *)

Lemma validate_accepted opts (v0 := newObjectValidation fsys dir opts) :
  Forall plain_option opts → reg_ok (vd_algRegistry v0) →
  (∀ alg a data, vd_algRegistry v0 !! alg = Some a → alg_sum a data = sum alg data) →
  (∀ t, t ∈ names → (String.length t < fuel)%nat) →
  ∃ v, ValidateObject fuel fsys dir opts w = Ok v ∧ v_Err (vd_Validation v) = None ∧ o_inventory (vd_obj v) = Some root.
Proof.
  intros Hopts Hreg Hsum Hlen. unfold ValidateObject. fold v0.
  destruct (newObjectValidation_start fsys dir opts Hopts) as (Hf0 & Hn0 & Hfs & Hdir). fold v0 in Hf0, Hn0, Hfs, Hdir.
  rewrite (ls_dir _ _ _ names_listed). cbn [negb].
  destruct (lists_ReadDir fsys files w h dir names names_listed names_nonempty) as (es & -> & He & Hes).
  destruct (root_parsed es He Hes) as (Hspec & _). rewrite Hspec. destruct root_parts as (_ & _ & Hok & Hget & _).
  rewrite bool_decide_false by (destruct (iok_type _ _ Hok) as [_ ?]; done). rewrite Hget.
  destruct (root_accepted v0 es Hf0 Hn0 Hfs Hdir He Hes) as (v1 & st & -> & Hs & Hd). cbn [mbind res_bind].
  unfold VNums_Head. rewrite Hd. destruct root_at as [_ Hpos]. rewrite last_lineage by lia. unfold Lineage. cbn [num padding].
  rewrite (proj2 (Z.eqb_neq _ _)), (proj2 (Z.ltb_ge _ _)) by lia. cbn [mbind res_bind]. rewrite lineage_nth.
  destruct (versions_accepted v0 0 lowestOCFL v1 Hlen ltac:(lia) Hs) as (v2 & Hr & Hs2).
  rewrite Nat.sub_0_r in Hr. cbn [prev_of] in Hr. rewrite Hr.
  eexists. split; [done|]. split.
  - apply v_Err_None. by apply (content_accepted v0).
  - rewrite (kp_obj _ _ (content_keeps (mkOcflV1 (si_spec root)) v2 w)). apply (sn_obj _ _ _ Hs2).
Qed.
End accepted.
