(* ===== verification/UpdatedObjects.v ===== *)
(** * Updates make conforming objects

    The files that the effects of a plan make of a conforming object, or of
    nothing, conform to the specification ([grown_conforming]) if the new inventory
    extends the previous one ([grown]) and the content has the digests of the
    stage.  NextInventory.v shows that the builder makes such an inventory. *)
From S2P Require Import Prelude GoStd VNum DigestMap Spec FS ObjectState Pipeline Digest Extension Codes Validation.
From S2P Require Import Inventory OcflInventory InventoryBytes InventoryJson Builder UpdatePlan PlanRuns PlanSpec PlanTheorems.
From S2P Require Import LogicalFS Healthy Listing Root Stage Object ObjectValidation ValidateObject ValidateObjectSpec ObjectSpec.
From S2P Require Import Conforming ConformingSpec.

(** ** Logical states *)

Section states.
Context `{GoEnv}.
Implicit Types (m st : DigestMap).

(** A state whose paths are distinct and whose digests are not empty. *)
Definition state_ok st : Prop := paths_ok (all_paths st) ∧ st !! "" = None.

Lemma contains_paths m p d : contains m p d ↔ p ∈ paths_of m d.
Proof. done. Qed.

Lemma forward_refl m st : state_ok st →
  forwardMatch (mkLogicalState (Some m) (Some st)) (mkLogicalState (Some m) (Some st)) = true.
Proof.
  intros [Hp He]. apply forward_match; [done..|]. split_and!; [done..|]. intros p da db Ha Hb.
  by rewrite (paths_ok_unique st p da db).
Qed.

Lemma forward_trans ma mb mc sa sb sc : state_ok sa → state_ok sb → state_ok sc →
  forwardMatch (mkLogicalState (Some ma) (Some sa)) (mkLogicalState (Some mb) (Some sb)) = true →
  forwardMatch (mkLogicalState (Some mb) (Some sb)) (mkLogicalState (Some mc) (Some sc)) = true →
  forwardMatch (mkLogicalState (Some ma) (Some sa)) (mkLogicalState (Some mc) (Some sc)) = true.
Proof.
  intros [Pa Ea] [Pb Eb] [Pc Ec]. rewrite !forward_match by done. intros (S1 & N1 & F1) (S2 & N2 & F2).
  split_and!; [congruence|intros p; by rewrite N1|]. intros p da dc Ha Hc.
  destruct (proj1 (N1 p)) as [db Hb]; [eauto|]. etrans; [by eapply F1|by eapply F2].
Qed.

Lemma Normalize_size m n : ascii_keys m → Normalize m = Ok n → size n = size m.
Proof.
  intros Ha [(Hd & _) Hn]%Normalize_Ok; [|done].
  assert (map_to_list n ≡ₚ (λ e, (ToLower e.1, sort_strings e.2)) <$> map_to_list m) as Hp.
  { apply NoDup_Permutation; [apply NoDup_map_to_list| |].
    - apply (NoDup_fmap_1 fst). rewrite <- list_fmap_compose. by apply (norm_entries_NoDup m).
    - intros [d ps]. rewrite elem_of_map_to_list, (Hn d ps), list_elem_of_fmap. split.
      + intros (d0 & ps0 & Hd0 & -> & ->). exists (d0, ps0). by rewrite elem_of_map_to_list.
      + intros ([d0 ps0] & [= -> ->] & Hin%elem_of_map_to_list). eauto. }
  rewrite <- !length_map_to_list, Hp. apply length_fmap.
Qed.

Lemma Normalize_contains m n p d : ascii_keys m → Normalize m = Ok n →
  contains n p d ↔ ∃ d0, contains m p d0 ∧ d = ToLower d0.
Proof. intros Ha [(Hd & _) Hn]%Normalize_Ok; [|done]. by apply is_norm_contains. Qed.

Lemma Normalize_state_ok m n : ascii_keys m → Normalize m = Ok n → state_ok m → state_ok n.
Proof.
  intros Ha Hn [Hp He]. pose proof Hn as [Hok Hn']%Normalize_Ok; [|done]. split.
  - by apply (is_norm_ok m n).
  - destruct (n !! "") as [ps|] eqn:Hl; [|done]. apply Hn' in Hl as (d0 & ps0 & Hd0 & Hd & _).
    assert (is_ascii d0 = true) as H0 by (apply Ha; by eexists). rewrite ToLower_ascii in Hd by done.
    destruct d0; [congruence|done].
Qed.

(** The copy of a state in a larger manifest. *)
Lemma forward_copy mo mn st st' : ascii_keys st → Normalize st = Ok st' → state_ok st →
  (∀ p d, contains mo p d → contains mn p (ToLower d)) →
  forwardMatch (mkLogicalState (Some mo) (Some st)) (mkLogicalState (Some mn) (Some st')) = true.
Proof.
  intros Ha Hn Hs Hm. destruct (Normalize_state_ok _ _ Ha Hn Hs) as [Hp' He']. pose proof Hs as [Hp He].
  apply forward_match; [done..|]. split_and!.
  - by rewrite (Normalize_size st st').
  - intros p. setoid_rewrite (Normalize_contains st st'); [|done..]. naive_solver.
  - intros p da db Hda (d0 & Hd0 & ->)%(Normalize_contains st st'); [|done..].
    rewrite (paths_ok_unique st p d0 da) by done. intros q Hq. by apply Hm.
Qed.
End states.

(** ** The inventory of the next version *)

Section grown.
Context `{GoEnv}.
Implicit Types (new o : StoredInventory).

Notation inv := si_Inventory.

(** What a new inventory shares with the one before. *)
Record extends o new : Prop := {
  ex_id : inv_ID (inv new) = inv_ID (inv o);
  ex_contdir : inv_ContentDirectory (inv new) = inv_ContentDirectory (inv o);
  ex_padding : padding (inv_Head (inv new)) = padding (inv_Head (inv o));
  ex_alg : si_alg new = si_alg o;
  ex_states : ∀ vn ver, versions (inv o) !! vn = Some (Some ver) → num vn ≤ num (inv_Head (inv o)) →
    ∃ ver', versions (inv new) !! vn = Some (Some ver') ∧ Normalize (state_of ver) = Ok (state_of ver') ∧ is_Some (iv_State ver');
  ex_manifest : ∀ p d, contains (manifest (inv o)) p d → contains (manifest (inv new)) p (ToLower d)
}.

(** The inventory of the version after the first [n] ones. *)
Record grown (old : option StoredInventory) (n : nat) new : Prop := {
  gr_head : inv_Head (inv new) = nth_version new n;
  gr_old : ∀ o, old = Some o → extends o new;
  gr_new : ∀ p d, contains (manifest (inv new)) p d →
    (∃ o d0, old = Some o ∧ contains (manifest (inv o)) p d0 ∧ d = ToLower d0)
    ∨ ∃ r, p = VNum_String (nth_version new n) +:+ "/" +:+ si_contdir new +:+ "/" +:+ r
}.

Definition old_paths (old : option StoredInventory) : list string :=
  old_field old (λ o, all_paths (manifest (inv o))) [].

Lemma nth_same o new k : extends o new → nth_version new k = nth_version o k.
Proof. intros e. unfold nth_version. by rewrite (ex_padding _ _ e). Qed.

Lemma contdir_same o new : extends o new → si_contdir new = si_contdir o.
Proof. intros e. unfold si_contdir. by rewrite (ex_contdir _ _ e). Qed.
End grown.

(** ** The files after an update *)

Section effects.
Context `{GoEnv} (dir : string) (new : StoredInventory) (old : option StoredInventory) (content : string → string).
Context (ok : update_ok dir new old) (m : gmap string string).

Definition updated_files : gmap string string := apply_effects (plan_effects dir new old content) m.
Notation m' := updated_files.

Lemma effect_in p o : (in_object dir p, o) ∈ plan_effects dir new old content → m' !! Join [dir; p] = o.
Proof. intros Hin. apply apply_effects_in; [by apply plan_effects_NoDup|done]. Qed.

Lemma effect_out p : plain_path p → p ∉ plan_names new old → m' !! Join [dir; p] = m !! Join [dir; p].
Proof.
  intros Hp Hn. apply apply_effects_notin. rewrite plan_effects_names. intros (q & He & Hq)%list_elem_of_fmap.
  pose proof (plan_names_plain _ _ _ ok) as Hpl. rewrite Forall_forall in Hpl. unfold in_object in He.
  apply Join_inj in He as ->; [done|apply ok|done|by apply Hpl].
Qed.

Lemma spec_effect sp e : sp ∈ plan_specs dir new old content → e ∈ sp_eff sp → e ∈ plan_effects dir new old content.
Proof.
  intros Hs He. unfold plan_effects. apply list_elem_of_join. exists (sp_eff sp). split; [done|]. by apply list_elem_of_fmap_2.
Qed.

Lemma inventory_effect sp e : sp ∈ inventory_specs dir new old → e ∈ sp_eff sp → e ∈ plan_effects dir new old content.
Proof.
  intros Hs. apply spec_effect. unfold plan_specs. right. apply elem_of_app. right. right. apply elem_of_app. by right.
Qed.

Lemma updated_root : m' !! Join [dir; inventoryBase] = Some (si_bytes new)
  ∧ m' !! Join [dir; sidecar_name (si_alg new)] = Some (sidecar_content (si_digest new)).
Proof.
  destruct (plan_effects_root dir new old content) as [H1 H2]. split; by apply effect_in.
Qed.

Lemma updated_version : m' !! Join [dir; version_inventory new] = Some (si_bytes new)
  ∧ m' !! Join [dir; version_sidecar new] = Some (sidecar_content (si_digest new)).
Proof.
  unfold inventory_specs. split; apply effect_in.
  - eapply inventory_effect; [left|]. cbn. left.
  - eapply inventory_effect; [right; left|]. cbn. left.
Qed.

Lemma updated_content p d : new_files new !! p = Some d → m' !! Join [dir; p] = Some (content d).
Proof.
  intros Hp. apply effect_in. eapply (spec_effect (inner_spec [(in_object dir p, Some (content d))])); [|left].
  unfold plan_specs. right. apply elem_of_app. right. right. apply elem_of_app. left. unfold content_specs.
  apply list_elem_of_fmap. exists (p, d). split; [done|]. unfold SortedPaths. apply list_elem_of_fmap. exists p.
  rewrite Hp. split; [done|]. rewrite sort_strings_perm. apply range_keys_elem. by rewrite Hp.
Qed.

Lemma declaration_effects e : new_spec new ≠ old_spec old →
  e = (in_object dir (decl_name (new_spec new)), Some (Namaste_Body (object_declaration (new_spec new))))
  ∨ (Spec_Empty (old_spec old) = false ∧ e = (in_object dir (decl_name (old_spec old)), None)) →
  e ∈ plan_effects dir new old content.
Proof.
  intros Hne He. assert (∃ sp, sp ∈ declaration_specs dir new old ∧ e ∈ sp_eff sp) as (sp & Hs & Hin).
  { unfold declaration_specs. rewrite bool_decide_false by done. destruct He as [->|[-> ->]].
    - eexists. split; [left|]. cbn. left.
    - eexists. split; [right; left|]. cbn. left. }
  eapply spec_effect; [|exact Hin]. unfold plan_specs. right. apply elem_of_app. by left.
Qed.

Lemma updated_declaration : new_spec new ≠ old_spec old →
  m' !! Join [dir; decl_name (new_spec new)] = Some (Namaste_Body (object_declaration (new_spec new)))
  ∧ (Spec_Empty (old_spec old) = false → m' !! Join [dir; decl_name (old_spec old)] = None).
Proof. intros Hne. split; [|intros He]; apply effect_in, declaration_effects; auto. Qed.

(** A path with a version directory of another version, or of none. *)
Lemma other_version v r : no_slash v → v ≠ version_dir new → v +:+ "/" +:+ r ∉ plan_names new old.
Proof.
  intros Hv Hne Hin. destruct (version_dir_elem _ _ _ ok) as [Hs _].
  apply (plan_names_shape dir new old _ ok) in Hin as [Hin|[r' He]].
  - by apply no_slash_slash in Hin.
  - apply (f_equal (λ s, Cut s "/")) in He. rewrite !Cut_slash in He by done. congruence.
Qed.

Lemma same_declaration : new_spec new = old_spec old → decl_name (new_spec new) ∉ plan_names new old.
Proof.
  intros He Hin. pose proof (uo_new_spec _ _ _ ok) as Hsp. pose proof (new_alg_cases _ _ _ ok) as Ha.
  unfold plan_names in Hin. rewrite bool_decide_true, app_nil_l in Hin by done. rewrite !elem_of_app in Hin.
  assert (first_char (decl_name (new_spec new)) = Some "0"%char) as Hc by (by apply decl_name_first).
  destruct Hin as [Hin|[Hin|Hin]].
  - apply new_files_elem, new_files_first in Hin. congruence.
  - rewrite !elem_of_cons, elem_of_nil in Hin.
    destruct Hin as [Hin|[Hin|[Hin|[Hin|[]]]]]; rewrite Hin in Hc; done.
  - destruct (same_alg new old); [by apply elem_of_nil in Hin|]. apply list_elem_of_singleton in Hin. by rewrite Hin in Hc.
Qed.

(** The new names. *)
Lemma plan_names_new p : p ∈ plan_names new old → same_alg new old = true →
  (Spec_Empty (old_spec old) = false ∧ new_spec new ≠ old_spec old ∧ p = decl_name (old_spec old))
  ∨ p ∈ root_names new ∨ p = version_inventory new ∨ p = version_sidecar new ∨ is_Some (new_files new !! p).
Proof.
  intros Hin Hs. unfold plan_names in Hin. rewrite Hs, app_nil_r in Hin. rewrite !elem_of_app in Hin. unfold root_names.
  destruct Hin as [Hin|[Hin|Hin]].
  - case_bool_decide as Hne; [by apply elem_of_nil in Hin|]. apply elem_of_cons in Hin as [->|Hin]; [right; left; left|].
    destruct (Spec_Empty (old_spec old)) eqn:He; [by apply elem_of_nil in Hin|]. apply list_elem_of_singleton in Hin as ->. by left.
  - right. right. right. right. by apply new_files_elem.
  - rewrite !elem_of_cons, elem_of_nil in Hin. destruct Hin as [->|[->|[->|[->|[]]]]].
    + auto.
    + auto.
    + right. left. right. left.
    + right. left. right. right. left.
Qed.
End effects.

(** The content of a version is what the manifest has in its directory. *)
Lemma versionContent_in `{GoEnv} inv v p d r : paths_ok (all_paths (manifest inv)) → contains (manifest inv) p d →
  p = VNum_String v +:+ "/" +:+ r → versionContent inv v !! p = Some d.
Proof.
  intros Hok Hin Hp. assert (is_Some (versionContent inv v !! p)) as [d' Hd'].
  { apply Paths_elem in Hin. unfold versionContent. revert Hin. generalize (Paths (manifest inv)) as l.
    assert (∀ l (m : PathMap), is_Some (m !! p) → is_Some (foldl (λ pm '(pth, dig),
      if HasPrefix pth (VNum_String v +:+ "/") then <[pth := dig]> pm else pm) m l !! p)) as Hkeep.
    { induction l as [|[q dig] l IH]; intros m Hm; cbn [foldl]; [done|]. apply IH. destruct (HasPrefix q _); [|done].
      destruct (decide (q = p)) as [->|Hne]; [rewrite lookup_insert_eq; eauto|]. by rewrite lookup_insert_ne. }
    intros l. generalize (∅ : PathMap) as m. induction l as [|[q dig] l IH]; intros m Hin; [by apply elem_of_nil in Hin|].
    cbn [foldl]. apply elem_of_cons in Hin as [[= -> ->]|Hin]; [|by apply IH]. apply Hkeep.
    subst q. rewrite string_app_assoc, HasPrefix_app. rewrite lookup_insert_eq. eauto. }
  rewrite Hd'. apply versionContent_Some in Hd' as [Hin' _]. f_equal. by apply (paths_ok_unique (manifest inv) p).
Qed.

Section conforming_grown.
Context `{GoEnv, URLs, MultiError, Hashes, Decoders} `{!MultiErrorLaws, !FoldLaws}.
Context (sum : string → string → string) (dir : string) (invs : list StoredInventory).
Context (new : StoredInventory) (old : option StoredInventory) (content : string → string) (m : gmap string string).

Notation inv := si_Inventory.
Notation n := (length invs).
Notation vname k := (VNum_String (nth_version new k)).
Notation m' := (updated_files dir new old content m).
Notation paths := (all_paths (manifest (inv new))).

(** The object before the update: none, or a conforming one. *)
Definition before : Prop :=
  match old with
  | None => invs = [] ∧ ∀ p, is_Some (m !! p) → rel dir p = None
  | Some o => conforming sum m dir invs o
  end.

(** What an update has to be for its result to conform. *)
Record good_update : Prop := {
  gu_before : before;
  gu_grown : grown old n new;
  gu_ok : update_ok dir new old;
  gu_readable : readable new;
  gu_ascii : inv_ascii (inv new);
  gu_head : 0 ≤ padding (inv_Head (inv new)) ∧ Z.of_nat (S n) ≤ max_int64;
  gu_spec : ∀ o, old = Some o → ∃ c, Spec_Cmp (si_spec new) (si_spec o) = Ok c ∧ 0 ≤ c;
  (* no path of the manifest is a directory of another one *)
  gu_tree : ∀ a b, a ∈ paths → (a +:+ "/" +:+ b) ∉ paths;
  gu_contdir : si_contdir new ∉ [inventoryBase; sidecar_name SHA512; sidecar_name SHA256];
  gu_digests : manifest (inv new) !! "" = None;
  (* the content and the fixity block have the right digests *)
  gu_content : ∀ p d, new_files new !! p = Some d → EqualFold (sum (si_alg new) (content d)) d = true;
  gu_fixity : ∀ d data, EqualFold (sum (si_alg new) data) d = true →
    right sum data (set_map (Inventory_GetFixity (inv new) d))
}.

Context (g : good_update).

Lemma gu_inv : inventory_ok (si_spec new) (inv new).
Proof. apply (uo_new _ _ _ (gu_ok g)). Qed.

Lemma gu_dir : ValidPath dir = true.
Proof. apply (uo_dir _ _ _ (gu_ok g)). Qed.

Lemma gu_num : num (inv_Head (inv new)) = Z.of_nat n + 1.
Proof. by rewrite (gr_head _ _ _ (gu_grown g)). Qed.

Lemma new_nth k : (k ≤ n)%nat → ParseVNum (vname k) = Ok (nth_version new k) ∧ no_slash (vname k) ∧ valid_name (vname k).
Proof.
  intros Hk. destruct (gu_head g) as [Hp Hmax]. destruct (nth_name new k) as (_ & ? & ? & _ & ?); [|done|rewrite gu_num; lia|done].
  apply (iok_head _ _ gu_inv).
Qed.

Lemma version_dir_nth : version_dir new = vname n.
Proof. unfold version_dir, new_head. by rewrite (gr_head _ _ _ (gu_grown g)). Qed.

Lemma new_nth_inj j k : (j ≤ n)%nat → (k ≤ n)%nat → vname j = vname k → j = k.
Proof. intros (Hj & _)%new_nth (Hk & _)%new_nth He. rewrite He, Hk in Hj. injection Hj as Hn. lia. Qed.

Lemma new_split j k r r' : (j ≤ n)%nat → (k ≤ n)%nat → vname j +:+ "/" +:+ r = vname k +:+ "/" +:+ r' → j = k ∧ r = r'.
Proof.
  intros Hj Hk He. destruct (new_nth j Hj) as (_ & Hs & _), (new_nth k Hk) as (_ & Hs' & _).
  apply (f_equal (λ s, Cut s "/")) in He. rewrite !Cut_slash in He by done. split; [apply new_nth_inj|]; congruence.
Qed.

Lemma new_paths_ok : paths_ok paths.
Proof. destruct (iok_manifest _ _ gu_inv) as (man & Hman & (_ & _ & Hp) & _). unfold manifest. by rewrite Hman. Qed.

Lemma old_conforming o : old = Some o → conforming sum m dir invs o ∧ extends o new
  ∧ (∀ k, nth_version new k = nth_version o k) ∧ (0 < n)%nat ∧ num (inv_Head (inv o)) = Z.of_nat n.
Proof.
  intros Ho. pose proof (gu_before g) as Hb. unfold before in Hb. rewrite Ho in Hb.
  pose proof (gr_old _ _ _ (gu_grown g) o Ho) as He. split_and!; [done..|intros k; by apply nth_same| |].
  - apply (root_at sum (λ m, m) m dir invs o Hb).
  - apply (root_num sum (λ m, m) m dir invs o Hb).
Qed.

Lemma old_path p : p ∈ old_paths old → ∃ o j r, old = Some o ∧ p ∈ all_paths (manifest (inv o)) ∧ (j < n)%nat
  ∧ p = vname j +:+ "/" +:+ si_contdir new +:+ "/" +:+ r.
Proof.
  unfold old_paths, old_field. destruct old as [o|] eqn:Ho; [|by intros ?%elem_of_nil]. intros Hp.
  destruct (old_conforming o Ho) as (Hc & He & Hn & _). destruct (cf_paths _ _ _ _ _ Hc p Hp) as (j & r & Hj & ->).
  exists o, j, r. rewrite Hn, (contdir_same o new He). done.
Qed.

Lemma new_path p : is_Some (new_files new !! p) → p ∈ paths ∧ ∃ r, p = vname n +:+ "/" +:+ si_contdir new +:+ "/" +:+ r.
Proof.
  intros [d Hd]. apply versionContent_Some in Hd as (Hin & r & Hr). fold (version_dir new) in Hr. rewrite version_dir_nth in Hr.
  split; [apply all_paths_elem; eauto|]. destruct (gr_new _ _ _ (gu_grown g) p d Hin) as [(o & d0 & Ho & Hc & _)|?]; [|done].
  destruct (old_path p) as (o' & j & r' & _ & _ & Hj & Hp); [unfold old_paths; rewrite Ho; apply all_paths_elem; eauto|].
  exfalso. rewrite Hp in Hr. apply new_split in Hr as [-> _]; lia.
Qed.

Lemma paths_split p : p ∈ paths ↔ p ∈ old_paths old ∨ is_Some (new_files new !! p).
Proof.
  split.
  - intros [d Hd]%all_paths_elem. destruct (gr_new _ _ _ (gu_grown g) p d Hd) as [(o & d0 & Ho & Hc & _)|[r Hr]].
    + left. unfold old_paths. rewrite Ho. apply all_paths_elem. eauto.
    + right. exists d. eapply versionContent_in; [apply new_paths_ok|done|].
      change (VNum_String (new_head new)) with (version_dir new). rewrite version_dir_nth. done.
  - intros [Hp|Hp%new_path]; [|apply Hp]. destruct (old_path p Hp) as (o & j & r & Ho & Hin & _ & _).
    apply all_paths_elem in Hin as [d Hd]. apply all_paths_elem. exists (ToLower d).
    by apply (ex_manifest _ _ (gr_old _ _ _ (gu_grown g) o Ho)).
Qed.

(** The files in the directories of earlier versions stay. *)
Lemma earlier_file j r : (j < n)%nat → plain_path r → m' !! Join [dir; vname j +:+ "/" +:+ r] = m !! Join [dir; vname j +:+ "/" +:+ r].
Proof.
  intros Hj Hr. destruct (new_nth j ltac:(lia)) as (_ & Hs & Hv). apply effect_out; [apply (gu_ok g)| |].
  - apply plain_path_app; [by apply valid_name_plain|done].
  - apply (other_version dir); [apply (gu_ok g)|done|]. rewrite version_dir_nth. intros He%new_nth_inj; lia.
Qed.

Lemma old_file p : p ∈ old_paths old → m' !! Join [dir; p] = m !! Join [dir; p].
Proof.
  intros Hp. destruct (old_path p Hp) as (o & j & r & Ho & Hin & Hj & ->). apply earlier_file; [done|].
  destruct (old_conforming o Ho) as (Hc & _). assert (vname j +:+ "/" +:+ si_contdir new +:+ "/" +:+ r ∈ object_names invs o) as Hn.
  { unfold object_names. rewrite !elem_of_app. by right; right. }
  apply (ls_valid _ _ _ (cf_names _ _ _ _ _ Hc)) in Hn. apply valid_name_slash in Hn as [_ Hn]. by apply valid_name_plain.
Qed.

(** ** The names of the files *)

Lemma root_names_valid t : t ∈ root_names new → no_slash t ∧ valid_name t.
Proof.
  pose proof (uo_new_spec _ _ _ (gu_ok g)) as Hs. apply getOCFL_cases in Hs. pose proof (iok_alg _ _ gu_inv) as Ha.
  change (si_spec new = Spec1_0 ∨ si_spec new = Spec1_1) in Hs. change (si_alg new = SHA512 ∨ si_alg new = SHA256) in Ha.
  unfold root_names. rewrite !elem_of_cons, elem_of_nil. intros [->|[->|[->|[]]]].
  - by destruct Hs as [-> | ->]; (split; [|split]; vm_compute).
  - by split; [|split]; vm_compute.
  - by destruct Ha as [-> | ->]; (split; [|split]; vm_compute).
Qed.

Lemma base_plain si : si_alg si = SHA512 ∨ si_alg si = SHA256 →
  (no_slash inventoryBase ∧ valid_name inventoryBase) ∧ no_slash (sidecar_name (si_alg si)) ∧ valid_name (sidecar_name (si_alg si)).
Proof. by intros [-> | ->]; split_and!; vm_compute. Qed.

Lemma version_at k si : (invs ++ [new]) !! k = Some si ↔ (k < n)%nat ∧ invs !! k = Some si ∨ k = n ∧ si = new.
Proof.
  rewrite lookup_app_Some, list_lookup_singleton_Some. split.
  - intros [Hk|(Hle & Hk & ->)]; [left; split; [by eapply lookup_lt_Some|done]|right; split; [lia|done]].
  - intros [[_ Hk]|[-> ->]]; [by left|right; split_and!; [lia..|done]].
Qed.

Lemma old_version k si : invs !! k = Some si → ∃ o, old = Some o ∧ conforming sum m dir invs o ∧ extends o new
  ∧ (∀ k, nth_version new k = nth_version o k) ∧ (0 < n)%nat ∧ num (inv_Head (inv o)) = Z.of_nat n.
Proof.
  intros Hk. pose proof (gu_before g) as Hb. unfold before in Hb. destruct old as [o|] eqn:Ho.
  - exists o. split; [done|]. by apply old_conforming.
  - destruct Hb as [Hn _]. by rewrite Hn in Hk.
Qed.

Lemma version_parts k si : (invs ++ [new]) !! k = Some si → (k ≤ n)%nat ∧ (si_alg si = SHA512 ∨ si_alg si = SHA256).
Proof.
  intros [[Hlt Hk]|[-> ->]]%version_at; [|split; [lia|apply (iok_alg _ _ gu_inv)]]. split; [lia|].
  destruct (old_version k si Hk) as (o & _ & Hc & _). destruct (parts sum (λ m, m) m dir invs o Hc k si Hk) as (_ & _ & Hok & _).
  apply (iok_alg _ _ Hok).
Qed.

(** The inventory of each version is in its directory. *)
Lemma versions_stored k si : (invs ++ [new]) !! k = Some si → stored_in m' (Join [dir; vname k]) si.
Proof.
  intros Hk. destruct (version_parts k si Hk) as [Hle Ha]. destruct (base_plain si Ha) as ([_ V1] & _ & V2).
  destruct (new_nth k Hle) as (_ & _ & Vk). apply valid_name_plain in V1, V2, Vk. unfold stored_in.
  rewrite !Join_Join by (done || apply gu_dir). apply version_at in Hk as [[Hlt Hk]|[-> ->]].
  - rewrite !earlier_file by done. destruct (old_version k si Hk) as (o & _ & Hc & _ & Hn & _).
    destruct (cf_versions _ _ _ _ _ Hc k si Hk) as [_ [S1 S2]].
    rewrite !Join_Join in S1, S2 by (done || apply gu_dir || by rewrite <- Hn). rewrite Hn. done.
  - rewrite <- version_dir_nth. apply (updated_version dir new old content (gu_ok g) m).
Qed.

Lemma new_names_elem t : t ∈ object_names (invs ++ [new]) new ↔
  t ∈ root_names new
  ∨ (∃ k si, (invs ++ [new]) !! k = Some si
      ∧ (t = vname k +:+ "/" +:+ inventoryBase ∨ t = vname k +:+ "/" +:+ sidecar_name (si_alg si)))
  ∨ t ∈ paths.
Proof. apply object_names_elem. Qed.

Lemma paths_valid p : p ∈ paths → valid_name p.
Proof.
  intros Hp. destruct new_paths_ok as [Hv _]. rewrite Forall_forall in Hv. specialize (Hv p Hp).
  unfold validPath in Hv. by case_bool_decide.
Qed.

Lemma path_form p : p ∈ paths → ∃ k r, (k ≤ n)%nat ∧ p = vname k +:+ "/" +:+ si_contdir new +:+ "/" +:+ r.
Proof.
  intros [Hp|Hp]%paths_split.
  - destruct (old_path p Hp) as (_ & j & r & _ & _ & Hj & ->). exists j, r. split; [lia|done].
  - apply new_path in Hp as (_ & r & ->). eauto.
Qed.

Lemma names_valid t : t ∈ object_names (invs ++ [new]) new → valid_name t.
Proof.
  intros [Ht|[(k & si & Hk & Ht)|Ht]]%new_names_elem.
  - by apply root_names_valid.
  - destruct (version_parts k si Hk) as [Hle Ha]. destruct (base_plain si Ha) as ([_ V1] & _ & V2).
    destruct (new_nth k Hle) as (_ & _ & Vk). destruct Ht as [-> | ->]; by apply valid_name_slash.
  - by apply paths_valid.
Qed.

Lemma contdir_slash : no_slash (si_contdir new).
Proof.
  destruct (iok_contdir _ _ gu_inv) as [Hs _]. unfold si_contdir, contentDirectory_or_default. by case_bool_decide.
Qed.

(** The second element of a path in a version directory. *)
Lemma in_version_tree a b k si x : (invs ++ [new]) !! k = Some si →
  x = inventoryBase ∨ x = sidecar_name (si_alg si) → a = vname k +:+ "/" +:+ x → (a +:+ "/" +:+ b) ∉ object_names (invs ++ [new]) new.
Proof.
  intros Hk Hx ->. destruct (version_parts k si Hk) as [Hle Ha]. destruct (base_plain si Ha) as ([N1 _] & N2 & _).
  assert (no_slash x) as Nx by (by destruct Hx as [-> | ->]).
  rewrite <- !string_app_assoc. change (("/" +:+ x) +:+ "/" +:+ b) with ("/" +:+ (x +:+ "/" +:+ b)).
  intros [Ht|[(j & sj & Hj & Ht)|Ht]]%new_names_elem.
  - apply root_names_valid in Ht as [Ht _]. by apply no_slash_slash in Ht.
  - destruct (version_parts j sj Hj) as [Hlej Haj]. destruct (base_plain sj Haj) as ([M1 _] & M2 & _).
    destruct Ht as [Ht|Ht]; apply new_split in Ht as [_ Ht]; try lia;
      [rewrite <- Ht in M1; by apply no_slash_slash in M1|rewrite <- Ht in M2; by apply no_slash_slash in M2].
  - apply path_form in Ht as (j & r & Hj & He). apply new_split in He as [_ He]; [|lia..].
    apply (f_equal (λ s, Cut s "/")) in He. rewrite !Cut_slash in He by (done || apply contdir_slash).
    assert (si_contdir new = x) as Hcd by congruence. apply (gu_contdir g). rewrite Hcd, !elem_of_cons.
    destruct Hx as [->|Hx]; [by left|]. destruct Ha as [Ha|Ha]; rewrite Ha in Hx; auto.
Qed.

Lemma root_not_version t j : t ∈ root_names new → t ≠ vname j.
Proof.
  pose proof (uo_new_spec _ _ _ (gu_ok g)) as Hs. pose proof (decl_name_first _ Hs) as Hf.
  unfold root_names. rewrite !elem_of_cons, elem_of_nil. intros [->|[->|[->|[]]]]; [|done..].
  intros He. change (new_spec new) with (si_spec new) in Hf. by rewrite He in Hf.
Qed.

Lemma names_tree a b : a ∈ object_names (invs ++ [new]) new → (a +:+ "/" +:+ b) ∉ object_names (invs ++ [new]) new.
Proof.
  intros [Ha|[(k & si & Hk & Ha)|Ha]]%new_names_elem.
  - pose proof Ha as [Hs _]%root_names_valid.
    assert (∀ j r, (j ≤ n)%nat → a +:+ "/" +:+ b ≠ vname j +:+ "/" +:+ r) as Hno.
    { intros j r Hj He. destruct (new_nth j Hj) as (_ & Hsj & _). apply (f_equal (λ s, Cut s "/")) in He.
      rewrite !Cut_slash in He by done. apply (root_not_version a j Ha). congruence. }
    intros [Ht|[(j & sj & Hj & Ht)|Ht]]%new_names_elem.
    + apply root_names_valid in Ht as [Ht _]. by apply no_slash_slash in Ht.
    + destruct (version_parts j sj Hj) as [Hle _]. destruct Ht as [Ht|Ht]; by apply Hno in Ht.
    + apply path_form in Ht as (j & r & Hj & He). by apply Hno in He.
  - destruct Ha as [Ha|Ha]; (eapply in_version_tree; [exact Hk| |exact Ha]); auto.
  - intros [Ht|[(j & sj & Hj & Ht)|Ht]]%new_names_elem.
    + apply root_names_valid in Ht as [Ht _]. by apply no_slash_slash in Ht.
    + destruct (version_parts j sj Hj) as [Hle Haj]. destruct (base_plain sj Haj) as ([M1 _] & M2 & _).
      apply path_form in Ha as (k & r & Hk & ->). rewrite <- !string_app_assoc in Ht.
      destruct Ht as [Ht|Ht]; apply new_split in Ht as [_ Ht]; try lia;
        [rewrite <- Ht in M1; by apply no_slash_slash in M1|rewrite <- Ht in M2; by apply no_slash_slash in M2].
    + by apply (gu_tree g a b).
Qed.

Lemma alg_same : same_alg new old = true.
Proof.
  unfold same_alg, old_alg, old_field. destruct old as [o|] eqn:Ho; [|done].
  destruct (old_conforming o Ho) as (_ & He & _). rewrite orb_true_iff, !bool_decide_eq_true. right.
  symmetry. apply (ex_alg _ _ He).
Qed.

Lemma declared : m' !! Join [dir; decl_name (si_spec new)] = Some (Namaste_Body (object_declaration (si_spec new))).
Proof.
  change (si_spec new) with (new_spec new). destruct (decide (new_spec new = old_spec old)) as [He|Hne].
  - assert (decl_name (new_spec new) ∈ root_names new) as [_ Hv]%root_names_valid by left. apply valid_name_plain in Hv.
    rewrite (effect_out _ _ _ _ (gu_ok g)) by (done || by apply (same_declaration dir new old (gu_ok g))).
    unfold old_spec, old_field in He. destruct old as [o|] eqn:Ho.
    + destruct (old_conforming o Ho) as (Hc & _). rewrite He. apply (cf_decl _ _ _ _ _ Hc).
    + pose proof (uo_new_spec _ _ _ (gu_ok g)) as Hs. by rewrite He in Hs.
  - by apply (updated_declaration dir new old content (gu_ok g) m).
Qed.

(** The object has exactly the files of its inventories. *)
Lemma names_exist t : t ∈ object_names (invs ++ [new]) new → is_Some (m' !! Join [dir; t]).
Proof.
  intros [Ht|[(k & si & Hk & Ht)|Ht]]%new_names_elem.
  - destruct (updated_root dir new old content (gu_ok g) m) as [R1 R2]. unfold root_names in Ht.
    rewrite !elem_of_cons, elem_of_nil in Ht. destruct Ht as [->|[->|[->|[]]]]; [|by rewrite R1|by rewrite R2].
    by rewrite declared.
  - destruct (version_parts k si Hk) as [Hle Ha]. destruct (base_plain si Ha) as ([_ V1] & _ & V2).
    destruct (new_nth k Hle) as (_ & _ & Vk). apply valid_name_plain in V1, V2, Vk. destruct (versions_stored k si Hk) as [S1 S2].
    rewrite !Join_Join in S1, S2 by (done || apply gu_dir). destruct Ht as [-> | ->]; [by rewrite S1|by rewrite S2].
  - apply paths_split in Ht as [Ht|[d Hd]].
    + rewrite old_file by done. destruct (old_path t Ht) as (o & _ & _ & Ho & Hin & _). destruct (old_conforming o Ho) as (Hc & _).
      apply (ls_in _ _ _ (cf_names _ _ _ _ _ Hc)). unfold object_names. rewrite !elem_of_app. by right; right.
    + by rewrite (updated_content _ _ _ _ (gu_ok g) _ t d).
Qed.

Lemma names_only p t : is_Some (m' !! p) → rel dir p = Some t → t ∈ object_names (invs ++ [new]) new.
Proof.
  intros Hm Hr. apply new_names_elem. destruct (decide (p ∈ (plan_effects dir new old content).*1)) as [Hin|Hout].
  - rewrite plan_effects_names in Hin. apply list_elem_of_fmap in Hin as (q & -> & Hq).
    pose proof (plan_names_plain _ _ _ (gu_ok g)) as Hpl. rewrite Forall_forall in Hpl. specialize (Hpl q Hq).
    unfold in_object in *. rewrite rel_Join in Hr by (done || apply gu_dir). injection Hr as <-.
    apply plan_names_new in Hq as [(He & Hne & ->)|[Hq|[->|[->|Hq]]]]; [| | | | |apply alg_same].
    + exfalso. destruct (updated_declaration dir new old content (gu_ok g) m Hne) as [_ Hgone].
      rewrite (Hgone He) in Hm. by destruct Hm.
    + by left.
    + right. left. exists n, new. split; [apply version_at; by right|]. unfold version_inventory. rewrite version_dir_nth. by left.
    + right. left. exists n, new. split; [apply version_at; by right|]. unfold version_sidecar. rewrite version_dir_nth. by right.
    + right. right. apply paths_split. by right.
  - unfold updated_files in Hm. rewrite apply_effects_notin in Hm by done. pose proof (gu_before g) as Hb. unfold before in Hb.
    destruct old as [o|] eqn:Ho; [|destruct Hb as [_ Hb]; by rewrite (Hb p Hm) in Hr].
    destruct (old_conforming o Ho) as (Hc & He & Hn & _). pose proof (ls_only _ _ _ (cf_names _ _ _ _ _ Hc) p t Hm Hr) as Ht.
    pose proof (ls_valid _ _ _ (cf_names _ _ _ _ _ Hc) _ Ht) as Hv%valid_name_plain.
    apply rel_inv in Hr as ->; [|apply gu_dir|done]. apply object_names_elem in Ht as [Ht|[(k & si & Hk & Ht)|Ht]].
    + left. unfold root_names in *. rewrite !elem_of_cons, elem_of_nil in *. rewrite (ex_alg _ _ He).
      destruct Ht as [->|Ht]; [|by right]. left. f_equal. apply (f_equal (λ x, x)).
      destruct (decide (new_spec new = old_spec (Some o))) as [Hs|Hne]; [by symmetry|]. exfalso. apply Hout.
      apply list_elem_of_fmap. eexists. split; [|eapply declaration_effects; [exact Hne|right; split; [|done]]]; [done|].
      pose proof (uo_old_spec _ _ _ (gu_ok g)) as Hos. destruct (iok_type _ _ (proj1 (proj2 (proj2
        (parts sum (λ m, m) m dir invs o Hc _ o (proj1 (root_at sum (λ m, m) m dir invs o Hc))))))) as [_ Hne'].
      unfold Spec_Empty. by apply bool_decide_eq_false.
    + right. left. exists k, si. rewrite Hn. split; [|done]. apply version_at. left. split; [by eapply lookup_lt_Some|done].
    + right. right. apply paths_split. left. unfold old_paths. by rewrite Ho.
Qed.

Lemma names_listed_new : lists m' dir (object_names (invs ++ [new]) new).
Proof.
  split; [apply gu_dir|apply names_valid|apply names_exist|apply names_only|apply names_tree].
Qed.

(** ** The inventories agree *)

Lemma block_state spec i vn ver : inventory_ok spec i → inv_ascii i → manifest i !! "" = None →
  versions i !! vn = Some (Some ver) →
  iv_State ver = Some (state_of ver) ∧ state_ok (state_of ver) ∧ ascii_keys (state_of ver)
  ∧ inv_Manifest i = Some (manifest i).
Proof.
  intros Hok (_ & Ha & _) Hd Hv. destruct (iok_states _ _ Hok _ _ Hv) as (ver' & [= <-] & [_ _ (st & Hst & (_ & _ & Hp) & Hin)]).
  unfold state_of in *. specialize (Ha vn ver Hv). rewrite Hst in *. cbn in *. split_and!; [done| |done|].
  - split; [done|]. destruct (st !! "") as [ps|] eqn:He; [|done]. exfalso. apply (Hin ""); [by rewrite He|].
    unfold paths_of. by rewrite Hd.
  - destruct (iok_manifest _ _ Hok) as (man & Hman & _). unfold manifest. by rewrite Hman.
Qed.

Lemma fold_lower d : is_ascii d = true → EqualFold d (ToLower d) = true.
Proof.
  intros Ha. unfold EqualFold. rewrite ToLower_ascii, Ha, is_ascii_lower, Ha by done. cbn. apply bool_decide_eq_true.
  by rewrite ascii_lower_idem.
Qed.

(** The digests of the manifest hold for the files after the update. *)
Lemma new_right p d data : contains (manifest (inv new)) p d → m' !! Join [dir; p] = Some data →
  EqualFold (sum (si_alg new) data) d = true.
Proof.
  intros Hin Hdata. destruct (gr_new _ _ _ (gu_grown g) p d Hin) as [(o & d0 & Ho & Hc0 & ->)|[r Hr]].
  - destruct (old_conforming o Ho) as (Hc & He & _).
    assert (p ∈ all_paths (manifest (inv o))) as Hp by (apply all_paths_elem; eauto).
    rewrite old_file in Hdata by (unfold old_paths; by rewrite Ho).
    pose proof (root_stored sum (λ m, m) m dir invs o Hc) as Hv. destruct (vs_right _ _ _ _ _ _ Hv p d0 data Hc0 Hdata) as [Hr _].
    specialize (Hr (si_alg o) d0). rewrite lookup_singleton_eq, <- (ex_alg _ _ He) in Hr. specialize (Hr eq_refl).
    eapply fold_trans; [exact Hr|]. apply fold_lower. destruct (vs_ascii _ _ _ _ _ _ Hv) as [Ha _]. apply Ha.
    apply contains_lookup in Hc0 as (ps & Hps & _). eauto.
  - assert (new_files new !! p = Some d) as Hd.
    { eapply versionContent_in; [apply new_paths_ok|done|]. change (VNum_String (new_head new)) with (version_dir new).
      rewrite version_dir_nth. done. }
    rewrite (updated_content _ _ _ _ (gu_ok g) _ p d Hd) in Hdata. injection Hdata as <-. by apply (gu_content g p).
Qed.

Lemma stored_new : version_stored sum m' dir new new n.
Proof.
  split; try done; try apply g.
  - intros vn ver ver' Hv Hv'. assert (ver' = ver) as -> by congruence.
    destruct (block_state _ _ _ _ gu_inv (gu_ascii g) (gu_digests g) Hv) as (-> & Hs & _ & ->). by apply forward_refl.
  - intros p d data Hin Hdata. pose proof (new_right p d data Hin Hdata) as Hr. split; [|by apply (gu_fixity g)].
    by intros alg d' [<- <-]%lookup_singleton_Some.
Qed.

Lemma stored_earlier k si : (k < n)%nat → invs !! k = Some si → version_stored sum m' dir new si k.
Proof.
  intros Hlt Hk. destruct (old_version k si Hk) as (o & Ho & Hc & He & Hn & _ & Hnum).
  destruct (cf_versions _ _ _ _ _ Hc k si Hk) as [V _].
  destruct (parts sum (λ m, m) m dir invs o Hc k si Hk) as (_ & _ & Hok & _).
  pose proof (root_stored sum (λ m, m) m dir invs o Hc) as Vo.
  destruct (parts sum (λ m, m) m dir invs o Hc _ o (proj1 (root_at sum (λ m, m) m dir invs o Hc))) as (_ & _ & Hoko & _).
  split.
  - by rewrite (vs_head _ _ _ _ _ _ V), Hn.
  - apply V.
  - apply V.
  - by rewrite (vs_id _ _ _ _ _ _ V), (ex_id _ _ He).
  - by rewrite (vs_contdir _ _ _ _ _ _ V), (ex_contdir _ _ He).
  - intros vn ver ver' Hv Hv'.
    assert (num vn ≤ num (inv_Head (inv o)) ∧ ∃ vero, versions (inv o) !! vn = Some (Some vero)) as (Hle & vero & Hvo).
    { destruct (iok_versions _ _ Hok) as [_ Hvs]. destruct (proj1 (Hvs vn)) as [Hb Hp]; [by rewrite Hv|].
      rewrite (vs_head _ _ _ _ _ _ V) in Hb, Hp. cbn in Hb, Hp. split; [lia|].
      destruct (iok_versions _ _ Hoko) as [_ Hvso]. destruct (proj2 (Hvso vn)) as [x Hx]; [split; [lia|done]|].
      destruct (iok_states _ _ Hoko _ _ Hx) as (vero & -> & _). eauto. }
    destruct (ex_states _ _ He vn vero Hvo Hle) as (ver2 & Hv2 & Hnorm & _). assert (ver2 = ver') as -> by congruence.
    pose proof (vs_states _ _ _ _ _ _ V vn ver vero Hv Hvo) as Hf.
    destruct (block_state _ _ _ _ Hok (vs_ascii _ _ _ _ _ _ V) (vs_digests _ _ _ _ _ _ V) Hv) as (E1 & S1 & _ & M1).
    destruct (block_state _ _ _ _ Hoko (vs_ascii _ _ _ _ _ _ Vo) (vs_digests _ _ _ _ _ _ Vo) Hvo) as (E2 & S2 & A2 & M2).
    destruct (block_state _ _ _ _ gu_inv (gu_ascii g) (gu_digests g) Hv') as (E3 & S3 & _ & M3).
    rewrite E1, M1, E2, M2 in Hf. rewrite E1, M1, E3, M3. eapply forward_trans; [exact S1|exact S2|exact S3|exact Hf|].
    apply forward_copy; [done..|]. apply (ex_manifest _ _ He).
  - intros p Hp%(vs_manifest _ _ _ _ _ _ V). apply paths_split. left. unfold old_paths. by rewrite Ho.
  - intros p j r Hp Hj ->. apply paths_split in Hp as [Hp|Hp].
    + unfold old_paths in Hp. rewrite Ho in Hp. apply (vs_content _ _ _ _ _ _ V _ j r Hp Hj). by rewrite Hn.
    + apply new_path in Hp as (_ & r' & Hr). apply new_split in Hr as [-> _]; lia.
  - intros p d data Hin Hdata. assert (p ∈ old_paths old) as Hp.
    { unfold old_paths. rewrite Ho. apply (vs_manifest _ _ _ _ _ _ V), all_paths_elem. eauto. }
    rewrite old_file in Hdata by done. by apply (vs_right _ _ _ _ _ _ V p d data).
  - apply V.
Qed.

Lemma grown_conforming : conforming sum m' dir (invs ++ [new]) new.
Proof.
  split.
  - apply last_snoc.
  - intros k si Hk. split; [|by apply versions_stored]. apply version_at in Hk as [[Hlt Hk]|[-> ->]];
      [by apply stored_earlier|apply stored_new].
  - intros k si si' [[Hlt Hk]|[-> ->]]%version_at [[Hlt' Hk']|[Hn ->]]%version_at; [| |lia|lia].
    + destruct (old_version k si Hk) as (o & _ & Hc & _). by apply (cf_specs _ _ _ _ _ Hc k).
    + destruct (old_version k si Hk) as (o & Ho & Hc & _). destruct (root_at sum (λ m, m) m dir invs o Hc) as [Hr _].
      replace (pred n) with k in Hr by lia. assert (si = o) as -> by congruence. by apply (gu_spec g).
  - apply declared.
  - apply (updated_root dir new old content (gu_ok g) m).
  - destruct (gu_head g) as [Hp Hmax]. split; [done|]. rewrite length_app. cbn. lia.
  - apply names_listed_new.
  - intros p (k & r & Hk & ->)%path_form. exists k, r. rewrite length_app. cbn. split; [lia|done].
Qed.
End conforming_grown.
