(* ===== verification/NextInventory.v ===== *)
(** * The inventory that an update builds

    [Finalize] with one added version makes an inventory that extends the one of
    the object ([grown]): the earlier versions and the manifest are copied in normal
    form, new content is in the directory of the new version, and the fixity block
    has right values if those of the object and of the stage are right. *)
From S2P Require Import Prelude GoStd VNum DigestMap Spec FS ObjectState Pipeline Digest Extension Codes Validation.
From S2P Require Import Inventory OcflInventory InventoryBytes InventoryJson Builder UpdatePlan PlanRuns PlanSpec PlanTheorems.
From S2P Require Import LogicalFS Healthy Listing Root Stage Object ObjectValidation ValidateObject ValidateObjectSpec ObjectSpec.
From S2P Require Import Conforming ConformingSpec UpdatedObjects.

(** ** The inventory of one added version *)

Section one_version.
Context `{GoEnv, URLs, MultiError} `{!MultiErrorLaws}.
Context (now : nat → Time) (strip : Z → Z).
Implicit Types (b : InventoryBuilder) (inv p : Inventory) (a : AddedVersion).

(** What [Finalize] makes of the initial inventory for one added version. *)
Record one_added b a i0 inv (st : DigestMap) : Prop := {
  oa_norm : Normalize (av_state a) = Ok st;
  oa_head : inv_Head inv = version_after (ib_head b) 0;
  oa_id : inv_ID inv = ib_id b;
  oa_contdir : inv_ContentDirectory inv = ib_contDir b;
  oa_alg : inv_DigestAlgorithm inv = alg_ID (av_alg a);
  oa_old_alg : inv_DigestAlgorithm i0 ≠ "" → inv_DigestAlgorithm inv = inv_DigestAlgorithm i0;
  oa_versions : versions inv = <[inv_Head inv := Some (added_version now strip 0 a st)]> (versions i0);
  oa_manifest : manifest inv = add_content (content_paths (ib_contentPath b) (inv_Head inv)
    (contentDirectory_or_default (ib_contDir b))) st (manifest i0);
  oa_fixity : ∃ i1, inv = fillFixity b i1 ∧ inv_Fixity i1 = inv_Fixity i0
}.

Lemma initialInventory_fields b i0 : initialInventory b = Ok i0 →
  inv_Head i0 = ib_head b ∧ inv_ID i0 = ib_id b ∧ inv_ContentDirectory i0 = ib_contDir b.
Proof. unfold initialInventory. destruct (ib_prev b); intros Hi; inv_res; by subst. Qed.

Lemma fillFixity_contdir b inv : inv_ContentDirectory (fillFixity b inv) = inv_ContentDirectory inv.
Proof. unfold fillFixity. by destruct (ib_fixitySource b). Qed.

Lemma Finalize_one b a inv : ib_addedVersions b = [a] → in_int64 (num (ib_head b) + 1) →
  Finalize now strip b = Ok inv → ∃ i0 st, initialInventory b = Ok i0 ∧ one_added b a i0 inv st.
Proof.
  intros Ha Hn Hf. unfold Finalize, buildVersions in Hf. rewrite Ha in Hf. cbn [build_versions] in Hf. inv_res.
  destruct (v_Err _); [done|]. inv_res. subst inv.
  rename x into i0. destruct (initialInventory_fields b i0 Hx) as (E1 & E2 & E3). rewrite <- E1 in Hn.
  apply build_version_Ok in Hx1 as (st & Hst & B1 & B2 & B3 & B4 & B5 & B6 & B7 & B8 & B9); [|done]. subst x1.
  exists i0, st. split; [done|]. destruct (fillFixity_fields b x0) as (F1 & F2 & F3 & F4 & F5 & F6).
  pose proof (fillFixity_contdir b x0) as F7. split; rewrite ?F1, ?F3, ?F4, ?F5, ?F6, ?F7; try congruence.
  - done.
  - by exists x0.
Qed.
End one_version.

Lemma foldl_inv {A B} (P : B → Prop) (f : B → A → B) l b :
  P b → (∀ b x, x ∈ l → P b → P (f b x)) → P (foldl f b l).
Proof.
  revert b. induction l as [|x l IH]; intros b Hb Hf; cbn [foldl]; [done|].
  apply IH; [by apply Hf; [left|]|]. intros b' y Hy. apply Hf. by right.
Qed.

Lemma option_cases {A} (x : option A) : (∃ a, x = Some a) ∨ x = None.
Proof. destruct x; eauto. Qed.

(** ** The fixity block *)

Section fixity.
Context `{GoEnv, URLs, MultiError} `{!MultiErrorLaws, !FoldLaws}.
Context (sum : string → string → string).
Implicit Types (inv : Inventory) (man : DigestMap) (fixity : gmap string DigestMap).

(** All bytes with one digest have another one. *)
Definition implied (alg d a fd : string) : Prop :=
  ∀ data, EqualFold (sum alg data) d = true → EqualFold (sum a data) fd = true.

Lemma implied_lower alg d a fd : is_ascii d = true → is_ascii fd = true →
  implied alg d a fd → implied alg (ToLower d) a (ToLower fd).
Proof.
  intros Hd Hf Hi data Hs. eapply fold_trans; [|by apply fold_lower]. apply Hi.
  eapply fold_trans; [exact Hs|]. by apply fold_sym, fold_lower.
Qed.

(** The digests of a fixity block are those of the content in a manifest. *)
Definition fixity_of alg man fixity : Prop := ∀ a f p fd, fixity !! a = Some f → contains f p fd →
  ∃ d, contains man p d ∧ implied alg d a fd.
Definition fixity_right inv : Prop := fixity_of (inv_DigestAlgorithm inv) (manifest inv) (inv_Fixity inv).

Lemma add_fix_paths_elem cps ps p : p ∈ add_fix_paths cps ps → p ∈ cps ∨ p ∈ ps.
Proof.
  unfold add_fix_paths. apply (foldl_inv (λ l, p ∈ l → p ∈ cps ∨ p ∈ ps)); [by right|].
  intros l x Hx Hl. case_bool_decide; [done|]. rewrite elem_of_app, list_elem_of_singleton. intros [?| ->]; auto.
Qed.

Lemma add_fix_set_right alg man fixity d cps e : fixity_of alg man fixity → (∀ p, p ∈ cps → contains man p d) →
  implied alg d e.1 e.2 → fixity_of alg man (add_fix_set cps fixity e).
Proof.
  destruct e as [a fd]. cbn [fst snd]. intros Hf Hc Hi a' f p fd' Hl Hp. unfold add_fix_set in Hl.
  destruct (decide (a' = a)) as [->|Hne]; [|rewrite lookup_insert_ne in Hl by done; by eapply Hf].
  rewrite lookup_insert_eq in Hl. assert (∀ p fd, contains (default ∅ (fixity !! a)) p fd →
    ∃ d, contains man p d ∧ implied alg d a fd) as Hold.
  { intros q x Hq. destruct (fixity !! a) as [f0|] eqn:Ha; [by eapply Hf|]. apply contains_lookup in Hq as (? & ? & _).
    cbn in *. by rewrite lookup_empty in *. }
  destruct cps as [|c cps]; injection Hl as <-; [by apply Hold|].
  destruct (decide (fd' = fd)) as [->|Hne].
  - unfold contains, paths_of in Hp. rewrite lookup_insert_eq in Hp. cbn [default from_option id] in Hp.
    apply (add_fix_paths_elem (c :: cps)) in Hp as [Hp|Hp]; [exists d; split; [by apply Hc|done]|by apply Hold].
  - unfold contains, paths_of in Hp. rewrite lookup_insert_ne in Hp by done. by apply Hold.
Qed.

Lemma fillFixity_right b inv : fixity_right inv →
  (∀ source d a fd, ib_fixitySource b = Some source → set_map (source d) !! a = Some fd →
    implied (inv_DigestAlgorithm inv) d a fd) →
  fixity_right (fillFixity b inv).
Proof.
  intros Hf Hs. unfold fillFixity. destruct (ib_fixitySource b) as [source|] eqn:Hb; [|done].
  unfold fixity_right. cbn [inv_DigestAlgorithm inv_Fixity]. change (manifest (mkInventory _ _ _ _ _ _ _ _)) with (manifest inv).
  apply foldl_inv; [done|]. intros fixity [d cps] Hin%range_elem Hfix. apply foldl_inv; [done|].
  intros fixity' [a fd] He%range_elem Hfix'. apply add_fix_set_right with d; [done| |by eapply Hs].
  intros p Hp. apply contains_lookup. eauto.
Qed.

Lemma copy_fixity_Ok l m m' : copy_fixity l m = Ok m' →
  ∀ a f', m' !! a = Some f' → m !! a = Some f' ∨ ∃ f, (a, f) ∈ l ∧ Normalize f = Ok f'.
Proof.
  revert m. induction l as [|[a f] l IH]; intros m Hc a' f' Hl; cbn [copy_fixity] in Hc.
  - injection Hc as <-. by left.
  - inv_res. destruct (IH _ Hc a' f' Hl) as [Hm|(g & Hg & Hn)]; [|right; exists g; split; [by right|done]].
    destruct (decide (a' = a)) as [->|Hne]; [|by rewrite lookup_insert_ne in Hm; auto].
    rewrite lookup_insert_eq in Hm. injection Hm as <-. right. exists f. split; [left|done].
Qed.

Lemma initialInventory_fixity b p i0 : ib_prev b = Some p → initialInventory b = Ok i0 →
  inv_ascii p → fixity_right p → fixity_right i0.
Proof.
  intros Hp Hi (Am & _ & Af) Hf. unfold initialInventory in Hi. rewrite Hp in Hi. inv_res. subst i0.
  intros a f' q fd' Hl Hc. cbn in Hl. apply (copy_fixity_Ok _ _ _ Hx2) in Hl as [Hl|(f & Hin%range_elem & Hn)]; [by rewrite lookup_empty in Hl|].
  apply (Normalize_contains f f') in Hc as (fd & Hc & ->); [|by eapply Af|done].
  destruct (Hf a f q fd Hin Hc) as (d & Hd & Himp). exists (ToLower d). split.
  - apply (Normalize_contains (manifest p)); eauto.
  - cbn. apply implied_lower; [apply Am|eapply Af; [exact Hin|]|done].
    + apply contains_lookup in Hd as (? & ? & _). eauto.
    + apply contains_lookup in Hc as (? & ? & _). eauto.
Qed.

(** The fixity values that an inventory gives for a digest. *)
Lemma GetFixity_right inv d data : fixity_right inv → paths_ok (all_paths (manifest inv)) →
  EqualFold (sum (inv_DigestAlgorithm inv) data) d = true → right sum data (set_map (Inventory_GetFixity inv d)).
Proof.
  intros Hf Hok Hd. unfold Inventory_GetFixity. destruct (paths_of (manifest inv) d) as [|c cps] eqn:Hps.
  { intros a fd Ha. cbn in Ha. by rewrite lookup_empty in Ha. }
  cbn [set_map default from_option id]. apply (foldl_inv (right sum data)).
  - intros a fd Ha. by rewrite lookup_empty in Ha.
  - intros set [a f] Hin%range_elem Hset. destruct (fixity_digest _ _) as [fd|] eqn:Hfd; [|done].
    intros a' fd' [[<- <-]|[_ Hl]]%lookup_insert_Some; [|by apply Hset].
    unfold fixity_digest in Hfd. apply find_some_Some in Hfd as ([q x] & Hq%Paths_elem & Hx). case_bool_decide; [|done].
    injection Hx as ->. destruct (Hf a f q fd Hin Hq) as (d' & Hd' & Hi). rewrite <- Hps in *.
    assert (d' = d) as -> by (by apply (paths_ok_unique (manifest inv) q)). by apply Hi.
Qed.
End fixity.

(** The digests of a normal form are those of the map in lower case. *)
Lemma Normalize_digest `{GoEnv} m n d : Normalize m = Ok n → is_Some (n !! d) → ∃ d0, is_Some (m !! d0) ∧ d = ToLower d0.
Proof.
  unfold Normalize. destruct (DM_Valid m); [done|]. intros [= <-].
  apply (foldl_inv (λ n : DigestMap, is_Some (n !! d) → _)); [by rewrite lookup_empty; intros [? ?]|].
  intros n' [d' ps] Hin%range_elem IH. destruct (decide (d = normalizeDigest d')) as [->|Hne].
  - intros _. exists d'. by rewrite Hin.
  - by rewrite lookup_insert_ne.
Qed.

(** ** The inventory of an update *)

Section staged.
Context `{GoEnv, URLs, MultiError, Hashes, Decoders} `{!MultiErrorLaws, !FoldLaws} {W FS : Type} `{!FileSystems W FS}.
Context (now : nat → Time) (strip : Z → Z).
Implicit Types (b : InventoryBuilder) (stage : Stage FS) (new o : StoredInventory) (obj : Object FS).

Notation inv := si_Inventory.

(** The builder of [stage_inventory]. *)
Definition staged b stage (alg : Algorithm) (msg : string) (user : User) (uo : objectUpdateOptions) : InventoryBuilder :=
  ib_AddVersion (ib_Spec (ib_ContentPathFunc (ib_FixitySource b (fixity_source (st_FixitySource stage)))
    (uo_contentPathFunc uo)) (uo_spec uo)) (mkAddedVersion (st_State stage) alg (uo_created uo) msg (Some user)).

Lemma staged_fields b stage alg msg user uo (s := staged b stage alg msg user uo) :
  ib_prev s = ib_prev b ∧ ib_id s = ib_id b ∧ ib_contDir s = ib_contDir b ∧ ib_head s = ib_head b
  ∧ ib_contentPath s = uo_contentPathFunc uo ∧ ib_fixitySource s = fixity_source (st_FixitySource stage)
  ∧ ib_addedVersions s = ib_addedVersions b ++ [mkAddedVersion (st_State stage) alg (uo_created uo) msg (Some user)].
Proof. unfold s, staged, ib_Spec. by destruct (Spec_Empty _). Qed.

Lemma stage_inventory_one b stage msg user uo i : ib_addedVersions b = [] → in_int64 (num (ib_head b) + 1) →
  stage_inventory now strip b stage msg user uo = Ok i →
  ∃ alg i0 st, st_DigestAlgorithm stage = Some alg
    ∧ initialInventory (staged b stage alg msg user uo) = Ok i0
    ∧ one_added now strip (staged b stage alg msg user uo)
        (mkAddedVersion (st_State stage) alg (uo_created uo) msg (Some user)) i0 i st.
Proof.
  intros Hb Hn Hs. unfold stage_inventory in Hs. destruct (st_DigestAlgorithm stage) as [alg|]; [|by inv_res].
  destruct (staged_fields b stage alg msg user uo) as (_ & _ & _ & Eh & _ & _ & Ea). rewrite Hb in Ea.
  apply (Finalize_one now strip _ _ _ Ea) in Hs as (i0 & st & Hi & Ho); [|by rewrite Eh]. by exists alg, i0, st.
Qed.

(** ** An inventory built for an object extends the previous one *)

Section built.
Context (sum : string → string → string) (dir : string) (invs : list StoredInventory) (m : gmap string string).
Context obj stage (msg : string) (user : User) (uo : objectUpdateOptions) new.
Context (Hbefore : before sum dir invs (o_inventory obj) m).
Context (Hstage : stage_inventory now strip (Object_InventoryBuilder obj) stage msg user uo = Ok (inv new)).
Context (Hcount : Z.of_nat (S (length invs)) ≤ max_int64) (Hok : inventory_ok (si_spec new) (inv new)).
(* the mutation of content paths gives plain paths *)
Context (Hpath : ∀ f, uo_contentPathFunc uo = Some f → ∀ ps, Forall plain_path ps → Forall plain_path (f ps)).

Lemma object_builder (b := Object_InventoryBuilder obj) : ib_addedVersions b = []
  ∧ ib_prev b = inv <$> o_inventory obj ∧ ib_id b = Object_ID obj ∧ num (ib_head b) = Z.of_nat (length invs)
  ∧ 0 ≤ padding (ib_head b).
Proof.
  pose proof Hbefore as Hb. unfold before in Hb. unfold b, Object_InventoryBuilder.
  destruct (o_inventory obj) as [o|]; cbn.
  - split_and!; [done..| |apply (cf_padding _ _ _ _ _ Hb)]. apply (root_num sum (λ m, m) m dir invs o Hb).
  - destruct Hb as [-> _]. done.
Qed.

Lemma stage_added : ∃ alg i0 st (b := staged (Object_InventoryBuilder obj) stage alg msg user uo),
  st_DigestAlgorithm stage = Some alg ∧ initialInventory b = Ok i0
  ∧ one_added now strip b (mkAddedVersion (st_State stage) alg (uo_created uo) msg (Some user)) i0 (inv new) st.
Proof.
  destruct object_builder as (Ha & _ & _ & Hn & _).
  apply (stage_inventory_one _ _ _ _ _ _ Ha) in Hstage as (alg & i0 & st & ? & ? & ?); [by exists alg, i0, st|].
  rewrite Hn. unfold in_int64, max_int64 in *. lia.
Qed.

Lemma built_head : inv_Head (inv new) = nth_version new (length invs) ∧ 0 ≤ padding (inv_Head (inv new)).
Proof.
  destruct stage_added as (alg & i0 & st & _ & _ & Ho). pose proof (oa_head _ _ _ _ _ _ _ Ho) as Hh.
  destruct (staged_fields (Object_InventoryBuilder obj) stage alg msg user uo) as (_ & _ & _ & Eh & _). rewrite Eh in Hh.
  destruct object_builder as (_ & _ & _ & Hn & Hp). revert Hh Hn Hp. generalize (ib_head (Object_InventoryBuilder obj)).
  intros v Hh Hn Hp. unfold nth_version. rewrite Hh. unfold version_after. cbn. split; [|done]. f_equal. lia.
Qed.

(** The previous inventory, and its copy. *)
Lemma built_prev o b alg i0 : o_inventory obj = Some o → b = staged (Object_InventoryBuilder obj) stage alg msg user uo →
  initialInventory b = Ok i0 →
  inv_ascii (inv o) ∧ inventory_ok (si_spec o) (inv o) ∧ ib_prev b = Some (inv o)
  ∧ ib_head b = inv_Head (inv o) ∧ ib_id b = inv_ID (inv o) ∧ ib_contDir b = inv_ContentDirectory (inv o)
  ∧ inv_DigestAlgorithm i0 = si_alg o ∧ Normalize (manifest (inv o)) = Ok (manifest i0).
Proof.
  intros Ho -> Hi. destruct (staged_fields (Object_InventoryBuilder obj) stage alg msg user uo) as (E1 & E2 & E3 & E4 & _).
  assert (ib_prev (Object_InventoryBuilder obj) = Some (inv o) ∧ ib_head (Object_InventoryBuilder obj) = inv_Head (inv o)
    ∧ ib_id (Object_InventoryBuilder obj) = inv_ID (inv o)
    ∧ ib_contDir (Object_InventoryBuilder obj) = inv_ContentDirectory (inv o)) as (F1 & F2 & F3 & F4).
  { unfold Object_InventoryBuilder, Object_ID, with_inv. by rewrite Ho. }
  rewrite E1, E2, E3, E4, F1, F2, F3, F4. pose proof Hbefore as Hb. unfold before in Hb. rewrite Ho in Hb.
  rewrite F1 in E1. destruct (initialInventory_prev _ _ _ E1 Hi) as (_ & _ & _ & G4 & G5 & _).
  destruct (root_parts sum (λ m, m) m dir invs o Hb) as (_ & _ & Ook & _).
  pose proof (root_stored sum (λ m, m) m dir invs o Hb) as Hv. split_and!; try done. apply Hv.
Qed.

Lemma built_extends o : o_inventory obj = Some o → extends o new.
Proof.
  intros Ho. destruct stage_added as (alg & i0 & st & _ & Hi & Ha).
  destruct (built_prev o _ alg i0 Ho eq_refl Hi) as ((Am & As & _) & Ook & Ep & Eh & Eid & Ecd & Ea & En).
  assert (si_alg o ≠ "") as Hne by (by destruct (iok_alg _ _ Ook) as [E|E]; unfold si_alg; rewrite E).
  pose proof (oa_head _ _ _ _ _ _ _ Ha) as Hh. rewrite Eh in Hh. split.
  - by rewrite (oa_id _ _ _ _ _ _ _ Ha).
  - by rewrite (oa_contdir _ _ _ _ _ _ _ Ha).
  - by rewrite Hh.
  - unfold si_alg at 1. rewrite (oa_old_alg _ _ _ _ _ _ _ Ha); by rewrite Ea.
  - intros vn ver Hv Hle. destruct (initialInventory_prev _ _ _ Ep Hi) as (_ & _ & _ & _ & _ & Hvs).
    destruct (Hvs vn _ Hv) as (ver0 & st0 & [= <-] & Hn & Hc). exists (copied_version ver st0).
    rewrite (oa_versions _ _ _ _ _ _ _ Ha), lookup_insert_ne; [by split_and!|].
    intros <-. rewrite Hh in Hle. cbn in Hle. lia.
  - intros p d Hc. assert (contains (manifest i0) p (ToLower d)) as Hc'.
    { apply (Normalize_contains (manifest (inv o))); eauto. }
    rewrite (oa_manifest _ _ _ _ _ _ _ Ha). unfold contains, paths_of. rewrite add_content_keeps; [done|].
    intros Hn. unfold contains in Hc'. rewrite Hn in Hc'. by apply elem_of_nil in Hc'.
Qed.

(** Where the content of the new manifest comes from. *)
Lemma built_content p d : contains (manifest (inv new)) p d →
  (∃ o d0, o_inventory obj = Some o ∧ contains (manifest (inv o)) p d0 ∧ d = ToLower d0)
  ∨ (∃ r, p = VNum_String (nth_version new (length invs)) +:+ "/" +:+ si_contdir new +:+ "/" +:+ r)
    ∧ ∃ d0, is_Some (st_State stage !! d0) ∧ d = ToLower d0.
Proof.
  destruct stage_added as (alg & i0 & st & _ & Hi & Ha). pose proof (oa_head _ _ _ _ _ _ _ Ha) as Hh.
  destruct built_head as [Hhead Hpad]. rewrite (oa_manifest _ _ _ _ _ _ _ Ha).
  intros (ps & [Hm|(lps & Hl & ->)]%add_content_Some & Hp)%contains_lookup.
  - left. destruct (option_cases (o_inventory obj)) as [[o Ho]|Ho].
    + exists o. destruct (built_prev o _ alg i0 Ho eq_refl Hi) as ((Am & _) & _ & _ & _ & _ & _ & _ & En).
      assert (contains (manifest i0) p d) as Hc by (apply contains_lookup; eauto).
      apply (Normalize_contains (manifest (inv o))) in Hc as (d0 & Hc & ->); eauto.
    + destruct (staged_fields (Object_InventoryBuilder obj) stage alg msg user uo) as (E1 & _).
      destruct object_builder as (_ & E2 & _). rewrite Ho in E2. rewrite E2 in E1. unfold initialInventory in Hi. rewrite E1 in Hi.
      injection Hi as <-. unfold manifest in Hm. cbn in Hm. by rewrite lookup_empty in Hm.
  - right. split; [|eapply Normalize_digest; [apply (oa_norm _ _ _ _ _ _ _ Ha)|by eexists]].
    unfold content_paths in Hp. apply list_elem_of_fmap in Hp as (q & -> & Hq).
    destruct (staged_fields (Object_InventoryBuilder obj) stage alg msg user uo) as (_ & _ & _ & _ & Ecp & _).
    rewrite Ecp in Hq. exists q. rewrite <- Hhead. unfold si_contdir. rewrite <- (oa_contdir _ _ _ _ _ _ _ Ha).
    assert (Forall plain_path lps) as Hlps.
    { destruct (iok_states _ _ Hok (inv_Head (inv new)) (Some (added_version now strip 0
        (mkAddedVersion (st_State stage) alg (uo_created uo) msg (Some user)) st))) as (ver & [= <-] & [_ _ (st' & [= <-] & (_ & _ & Hv & _) & _)]).
      { rewrite (oa_versions _ _ _ _ _ _ _ Ha). apply lookup_insert_eq. }
      rewrite Forall_forall in Hv |- *. intros x Hx. assert (x ∈ all_paths st) as Hin.
      { apply all_paths_elem. exists d. apply contains_lookup. eauto. }
      specialize (Hv x Hin). unfold validPath in Hv. case_bool_decide; [done|]. by apply ValidPath_plain. }
    apply Join3.
    + apply plain_path_elem; apply VNum_String_elem; try done; rewrite Hhead; cbn; lia.
    + destruct (iok_contdir _ _ Hok) as (C1 & C2 & C3). unfold contentDirectory_or_default. case_bool_decide; [by apply plain_path_elem; vm_compute|].
      apply plain_path_elem; [done|]. by apply plain_elem_spec.
    + assert (Forall plain_path (match uo_contentPathFunc uo with Some f => f lps | None => lps end)) as Hf.
      { destruct (uo_contentPathFunc uo) as [f|]; [by apply (Hpath f)|done]. }
      rewrite Forall_forall in Hf. by apply Hf.
Qed.

Lemma built_grown : grown (o_inventory obj) (length invs) new.
Proof.
  split.
  - apply built_head.
  - apply built_extends.
  - intros p d [?|[? _]]%built_content; auto.
Qed.

Lemma built_fixity sum' : (∀ o, o_inventory obj = Some o → fixity_right sum' (inv o)) →
  (∀ source d a fd, fixity_source (st_FixitySource stage) = Some source → set_map (source d) !! a = Some fd →
    implied sum' (si_alg new) d a fd) → fixity_right sum' (inv new).
Proof.
  intros Hold Hsrc. destruct stage_added as (alg & i0 & st & _ & Hi & Ha).
  destruct (oa_fixity _ _ _ _ _ _ _ Ha) as (i1 & Hi1 & Hf). pose proof (oa_manifest _ _ _ _ _ _ _ Ha) as Hm.
  pose proof (oa_old_alg _ _ _ _ _ _ _ Ha) as Halg. unfold si_alg in Hsrc. rewrite Hi1 in Hm, Halg, Hsrc |- *.
  destruct (fillFixity_fields (staged (Object_InventoryBuilder obj) stage alg msg user uo) i1) as (_ & _ & F3 & _ & _ & F6).
  rewrite F3 in Halg, Hsrc. rewrite F6 in Hm.
  destruct (staged_fields (Object_InventoryBuilder obj) stage alg msg user uo) as (E1 & _ & _ & _ & _ & Es & _).
  apply fillFixity_right; [|intros source d a fd Hs; rewrite Es in Hs; by apply Hsrc].
  unfold fixity_right. rewrite Hf. destruct object_builder as (_ & E2 & _). rewrite E2 in E1.
  destruct (option_cases (o_inventory obj)) as [[o Ho]|Ho]; rewrite Ho in E1.
  - destruct (built_prev o _ alg i0 Ho eq_refl Hi) as (Hasc & Ook & _ & _ & _ & _ & Ea & _).
    assert (si_alg o ≠ "") as Hne by (by destruct (iok_alg _ _ Ook) as [E|E]; unfold si_alg; rewrite E).
    rewrite Halg by (by rewrite Ea). intros a f p fd Hl Hc.
    destruct (initialInventory_fixity sum' _ (inv o) i0 E1 Hi Hasc (Hold o Ho) a f p fd Hl Hc) as (d & Hd & Hi').
    exists d. split; [|done]. rewrite Hm. unfold contains, paths_of. rewrite add_content_keeps; [done|].
    intros Hn. unfold contains in Hd. rewrite Hn in Hd. by apply elem_of_nil in Hd.
  - unfold initialInventory in Hi. rewrite E1 in Hi. injection Hi as <-. cbn. intros a f p fd Hl. by rewrite lookup_empty in Hl.
Qed.
End built.
End staged.

(** ** A content path function that leaves the version *)

(** A content path function may give paths outside of the content directory:
    [Finalize] accepts a manifest in which new content is the root's
    [inventory.json], which no step of the plan copies. *)
Lemma Finalize_outside :
  let b := ib_ContentPathFunc ex_builder (Some (λ _, ["../../inventory.json"])) in
  match @Finalize ref_env ref_urls ref_multierror ex_now id b with
  | Ok inv => manifest inv !! "cd" = Some ["inventory.json"]
      ∧ @versionContent ref_env inv (inv_Head inv) !! "inventory.json" = None
  | _ => False
  end.
Proof. vm_compute. done. Qed.
