(* ===== verification/UpdateSequence.v ===== *)
(** * Sequences of updates

    An update of a conforming object gives a conforming object, and every object
    that a sequence of updates makes from nothing is accepted by [ValidateObject]. *)
From S2P Require Import Prelude GoStd VNum DigestMap Spec FS ObjectState Pipeline Digest Extension Codes Validation.
From S2P Require Import Inventory OcflInventory InventoryBytes InventoryJson Builder UpdatePlan PlanRuns PlanSpec PlanTheorems.
From S2P Require Import LogicalFS Healthy Listing Root Stage Object ObjectValidation ValidateObject ValidateObjectSpec ObjectSpec.
From S2P Require Import Conforming ConformingSpec UpdatedObjects NextInventory.

(** ** The plan and the object's inventory *)

(** The effects of a plan depend on the specification and the digest algorithm of
    the previous inventory only. *)
Section old_fields.
Context `{GoEnv} (dir : string) (new : StoredInventory) (o o' : option StoredInventory) (content : string → string).
Context (Hs : old_spec o' = old_spec o) (Ha : old_alg o' = old_alg o).

Lemma plan_effects_fields : plan_effects dir new o' content = plan_effects dir new o content.
Proof using Hs Ha.
  unfold plan_effects, plan_specs, declaration_specs, inventory_specs, same_alg. by rewrite Hs, Ha.
Qed.

Lemma update_ok_fields : update_ok dir new o → update_ok dir new o'.
Proof using Hs Ha. intros [A B C D E F G]. split; rewrite ?Hs, ?Ha; done. Qed.
End old_fields.

Section plan.
Context `{GoEnv, URLs, MultiError, Hashes, Decoders, PlanCodec} {mel : MultiErrorLaws} {fol : FoldLaws} {W FS : Type} `{!FileSystems W FS}.
Context (now : nat → Time) (strip : Z → Z) (json_Marshal : Inventory → result string).
Implicit Types (obj : Object FS) (w : W) (stage : Stage FS).

Lemma unchanged_fields o st o' b : unchanged o st = (o', b) → old_spec o' = old_spec o ∧ old_alg o' = old_alg o.
Proof. unfold unchanged. destruct o as [si|]; [|by intros [= <- _]]. repeat case_match; intros [= <- _]; done. Qed.

Lemma newPlanSteps_spec new o steps : newPlanSteps (W:=W) (FS:=FS) new o = Ok steps →
  ∃ c, Spec_Cmp (it_Spec (inv_Type (si_Inventory new))) (old_spec o) = Ok c ∧ 0 ≤ c.
Proof.
  unfold newPlanSteps. destruct (match o with Some _ => _ | None => _ end); [done|]. intros Hp. inv_res.
  exists x. split; [done|]. destruct (x <? 0) eqn:Hx0; [done|]. by apply Z.ltb_ge in Hx0.
Qed.

(** What an update says of its plan. *)
Record plan_for obj stage msg user opts (plan : UpdatePlan W FS) : Prop := {
  pf_spec : old_spec (up_oldInv plan) = old_spec (o_inventory obj);
  pf_alg : old_alg (up_oldInv plan) = old_alg (o_inventory obj);
  pf_newer : ∃ c, Spec_Cmp (si_spec (up_newInv plan)) (old_spec (o_inventory obj)) = Ok c ∧ 0 ≤ c;
  pf_new : stage_inventory now strip (Object_InventoryBuilder obj) stage msg user (newObjectUpdateOptions now opts)
    = Ok (si_Inventory (up_newInv plan));
  pf_marshal : Inventory_marshal json_Marshal (si_Inventory (up_newInv plan))
    = inl (si_bytes (up_newInv plan), si_digest (up_newInv plan));
  pf_raw : old_field (up_oldInv plan) si_bytes "" = old_field (o_inventory obj) si_bytes ""
    ∧ old_field (up_oldInv plan) si_digest "" = old_field (o_inventory obj) si_digest "";
  pf_none : up_oldInv plan = None ↔ o_inventory obj = None
}.

Lemma NewUpdatePlan_plan obj stage msg user opts obj1 u :
  NewUpdatePlan now strip json_Marshal obj stage msg user opts = (obj1, Ok u) →
  plan_for obj stage msg user opts u ∧ o_fs obj1 = o_fs obj ∧ o_path obj1 = o_path obj
  ∧ up_steps u = plan_steps (up_newInv u) (up_oldInv u).
Proof.
  intros Hn. pose proof Hn as ((Hfs & Hp & _) & _ & _ & [_ Hdig Hraw Hnew Hmar])%NewUpdatePlan_Ok. split; [|split_and!; [done..|]].
  all: unfold NewUpdatePlan in Hn; destruct (stage_inventory _ _ _ _ _ _ _) as [i|e|] eqn:Hst; cbn [wrap_err] in Hn; [|done..].
  all: destruct (if uo_allowUnchanged _ then _ else _) as [cur same] eqn:Hu.
  all: destruct same; [done|]; injection Hn as _ Hn; inv_res; subst u; pose proof Hx as (Hps & Hold & Hi & Hsteps)%new_plan.
  - assert (old_spec cur = old_spec (o_inventory obj) ∧ old_alg cur = old_alg (o_inventory obj)
      ∧ (cur = None ↔ o_inventory obj = None)) as (Es & Ea & En).
    { destruct (uo_allowUnchanged _); [by injection Hu as <-|]. pose proof Hu as (_ & _ & ? & _)%unchanged_inventory.
      apply unchanged_fields in Hu as [? ?]. done. }
    split; cbn [up_newInv up_oldInv setGoLimit] in *; rewrite ?Hold; [done|done| |by rewrite Hst, Hnew|done|by rewrite <- Hold|done].
    apply newPlanSteps_spec in Hsteps. by rewrite Es in Hsteps.
  - cbn [up_newInv up_oldInv up_steps setGoLimit]. by rewrite Hold.
Qed.

(** An update that came to have a plan made it, and may have applied it. *)
Lemma Update_ran obj stage msg user opts w w' obj' plan r :
  Update now strip json_Marshal obj stage msg user opts w = (w', (obj', Some plan, r)) →
  ∃ obj1 u, NewUpdatePlan now strip json_Marshal obj stage msg user opts = (obj1, Ok u)
    ∧ up_newInv plan = up_newInv u ∧ up_oldInv plan = up_oldInv u
    ∧ (w' = w ∨ ∃ ri, Apply u (o_fs obj1) (o_path obj1) (content_source (st_ContentSource stage)) w = (w', (plan, ri))).
Proof.
  unfold Update. destruct (NewUpdatePlan _ _ _ _ _ _ _ _) as [obj1 [u|e|]]; [|by intros; inv_io..].
  intros Hu. inv_io. unfold ApplyUpdatePlan in Ha. exists obj1, u. split; [done|].
  destruct (ReadOnly obj1); [inv_io; auto|]. destruct (negb _) in Ha; [inv_io; auto|]. destruct (negb _) in Ha; [inv_io; auto|].
  inv_io. assert (u0 = plan ∧ w0 = w') as [-> ->] by (destruct r0; by inv_io).
  pose proof Ha0 as (steps & r' & _ & -> & _)%Apply_inv. eauto 10.
Qed.

Lemma plan_for_same obj stage msg user opts u plan : up_newInv plan = up_newInv u → up_oldInv plan = up_oldInv u →
  plan_for obj stage msg user opts u → plan_for obj stage msg user opts plan.
Proof. intros E1 E2 []. split; by rewrite ?E1, ?E2. Qed.

Lemma Update_plan obj stage msg user opts w w' obj' plan r :
  Update now strip json_Marshal obj stage msg user opts w = (w', (obj', Some plan, r)) →
  plan_for obj stage msg user opts plan.
Proof.
  intros (obj1 & u & (Hp & _)%NewUpdatePlan_plan & E1 & E2 & _)%Update_ran. by eapply plan_for_same.
Qed.
End plan.

(** ** An update of a conforming object *)

Section conforming_update.
Context `{GoEnv, URLs, MultiError, Hashes, Decoders, PlanCodec} {mel : MultiErrorLaws} {fol : FoldLaws} {W FS : Type} `{!FileSystems W FS}.
Context (now : nat → Time) (strip : Z → Z) (json_Marshal : Inventory → result string) (time_text : Time → string).
Context (sum : string → string → string) (ops : WriteFS W) (files : W → gmap string string).
Implicit Types (obj : Object FS) (w : W) (stage : Stage FS) (new o : StoredInventory).

Notation inv := si_Inventory.

(** What the inventory of a version has to be to be stored: no digest is empty,
    no content path is a directory of another one, the content directory is not
    the name of an inventory file, and the JSON package reads back what it wrote. *)
Record storable new : Prop := {
  sb_ascii : inv_ascii (inv new);
  sb_digests : manifest (inv new) !! "" = None;
  sb_contdir : si_contdir new ∉ [inventoryBase; sidecar_name SHA512; sidecar_name SHA256];
  sb_tree : ∀ a b, a ∈ all_paths (manifest (inv new)) → (a +:+ "/" +:+ b) ∉ all_paths (manifest (inv new));
  sb_times : times_ok time_text (inv new);
  sb_decode : json_Decode (si_bytes new) = inl (inv new);
  sb_unmarshal : json_Unmarshal (si_bytes new) = inl (inventory_json time_text (inv new));
  sb_sum : hash_sum (si_alg new) (si_bytes new) ≠ ""
}.

(** A stage whose digests are those of its content, and whose fixity values are
    digests of content with the given digest. *)
Record stage_right stage (content : string → string) : Prop := {
  sr_content : ∀ alg d, st_DigestAlgorithm stage = Some alg → is_Some (st_State stage !! d) →
    EqualFold (sum (alg_ID alg) (content (ToLower d))) (ToLower d) = true;
  sr_fixity : ∀ alg source d a fd, st_DigestAlgorithm stage = Some alg →
    fixity_source (st_FixitySource stage) = Some source → set_map (source d) !! a = Some fd →
    implied sum (alg_ID alg) d a fd
}.

Lemma valid_getOCFL i : v_Err (Inventory_Validate i) = None →
  getOCFL (it_Spec (inv_Type i)) = Ok (mkOcflV1 (it_Spec (inv_Type i))).
Proof.
  intros Hv. unfold Inventory_Validate in Hv. destruct (getOCFL _) as [imp|e|] eqn:Hi.
  - pose proof (getOCFL_spec _ _ Hi) as <-. by destruct imp.
  - apply v_Err_None in Hv. rewrite v_Errors_AddFatal in Hv. by apply app_eq_nil in Hv as [_ ?].
  - unfold getOCFL in Hi. by repeat case_bool_decide.
Qed.

Lemma storable_readable new : storable new →
  Inventory_marshal json_Marshal (inv new) = inl (si_bytes new, si_digest new) →
  v_Err (Inventory_Validate (inv new)) = None →
  0 ≤ padding (inv_Head (inv new)) → num (inv_Head (inv new)) ≤ max_int64 → readable new.
Proof.
  intros S Hm Hv Hp Hn. apply marshal_setRaw in Hm as Hr. destruct Hr as [Hr Hb].
  pose proof (valid_getOCFL _ Hv) as Hg. pose proof (Inventory_Validate_ok _ (sb_ascii _ S) Hv) as Hok. split.
  - rewrite (marshal_read json_Marshal _ _ _ Hm); [by destruct new| |done].
    intros b Hb'. assert (b = si_bytes new) as -> by congruence. apply S.
  - destruct (ValidateInventoryBytes_json time_text (mkOcflV1 (si_spec new)) (inv new) (si_bytes new) (si_digest new))
      as (v & -> & He); [|done|apply S|done|by exists v; destruct new].
    apply valid_json_ok; try done. apply S.
  - apply S.
Qed.

(** The hypotheses of [Update_spec] hold for an update of a conforming object. *)
Lemma storable_update_ok dir invs m old new : before sum dir invs old m → grown old (length invs) new →
  ValidPath dir = true → storable new → v_Err (Inventory_Validate (inv new)) = None →
  0 ≤ padding (inv_Head (inv new)) → Z.of_nat (S (length invs)) ≤ max_int64 → update_ok dir new old.
Proof.
  intros Hb Hg Hd S Hv Hp Hmax. pose proof (Inventory_Validate_ok _ (sb_ascii _ S) Hv) as Hok.
  assert (∀ o, old = Some o → inventory_ok (si_spec o) (inv o) ∧ (si_spec o = Spec1_0 ∨ si_spec o = Spec1_1)) as Hold.
  { intros o ->. cbn in Hb. destruct (root_parts sum (λ m, m) m dir invs o Hb) as (_ & _ & ? & _ & ?). done. }
  split; [done|done|by unfold new_spec; rewrite valid_getOCFL|done| | |].
  - unfold old_alg, old_field. destruct old as [o|]; [|by left]. right. apply (iok_alg _ _ (proj1 (Hold o eq_refl))).
  - unfold old_spec, old_field. destruct old as [o|]; [|by left]. right.
    destruct (Hold o eq_refl) as [_ [E|E]]; unfold si_spec in E; by rewrite E.
  - assert (∀ x, no_slash x → x ∈ [inventoryBase; sidecar_name SHA512; sidecar_name SHA256] →
      new_files new !! (version_dir new +:+ "/" +:+ x) = None) as Hno.
    { intros x Hx Hin. destruct (new_files new !! _) as [d|] eqn:Hf; [|done]. exfalso. apply versionContent_Some in Hf as [Hc _].
      assert (∀ k, (k ≤ length invs)%nat → no_slash (VNum_String (nth_version new k))) as Hns.
      { intros k Hk. by apply VNum_String_elem; cbn; [|lia]. }
      assert (∃ k r, (k ≤ length invs)%nat ∧ version_dir new +:+ "/" +:+ x = VNum_String (nth_version new k) +:+ "/" +:+ si_contdir new +:+ "/" +:+ r)
        as (k & r & Hk & He).
      { destruct (gr_new _ _ _ Hg _ _ Hc) as [(o & d0 & -> & Hc0 & _)|[r Hr]]; [|by exists (length invs), r].
        cbn in Hb. pose proof (gr_old _ _ _ Hg o eq_refl) as Hx'.
        destruct (cf_paths _ _ _ _ _ Hb (version_dir new +:+ "/" +:+ x)) as (k & r & Hk & ->); [apply all_paths_elem; eauto|].
        exists k, r. split; [lia|]. by rewrite (nth_same o new k Hx'), (contdir_same o new Hx'). }
      assert (version_dir new = VNum_String (nth_version new (length invs))) as Hvd.
      { unfold version_dir, new_head. by rewrite (gr_head _ _ _ Hg). }
      apply (f_equal (λ s, Cut s "/")) in He. rewrite !Cut_slash in He by (rewrite ?Hvd; by apply Hns).
      assert (x = si_contdir new +:+ "/" +:+ r) as -> by congruence. by apply no_slash_slash in Hx. }
    unfold version_inventory, version_sidecar. split; apply Hno; try by vm_compute.
    + left.
    + by destruct (iok_alg _ _ Hok) as [E|E]; unfold new_alg; rewrite E.
    + destruct (iok_alg _ _ Hok) as [E|E]; unfold new_alg; rewrite E; set_solver.
Qed.

(** The content of earlier versions is not in the directory of the new one. *)
Lemma old_not_new o new dir invs m p r : conforming sum m dir invs o → extends o new →
  inventory_ok (si_spec new) (inv new) → inv_Head (inv new) = nth_version new (length invs) →
  0 ≤ padding (inv_Head (inv new)) → Z.of_nat (S (length invs)) ≤ max_int64 →
  p ∈ all_paths (manifest (inv o)) → p ≠ VNum_String (nth_version new (length invs)) +:+ "/" +:+ r.
Proof.
  intros Hc He Hok Hhead Hpad Hmax Hp Heq.
  destruct (cf_paths _ _ _ _ _ Hc p Hp) as (k & r' & Hk & Hp'). rewrite <- (nth_same o new k He) in Hp'.
  assert (∀ j, (j ≤ length invs)%nat → ParseVNum (VNum_String (nth_version new j)) = Ok (nth_version new j)
    ∧ no_slash (VNum_String (nth_version new j))) as Hn.
  { intros j Hj. destruct (nth_name new j) as (_ & ? & ? & _); [apply (iok_head _ _ Hok)|done|rewrite Hhead; cbn; lia|done]. }
  destruct (Hn k) as [P1 N1]; [lia|]. destruct (Hn (length invs)) as [P2 N2]; [lia|].
  rewrite Heq in Hp'. apply (f_equal (λ s, Cut s "/")) in Hp'. rewrite !Cut_slash in Hp' by done.
  assert (VNum_String (nth_version new k) = VNum_String (nth_version new (length invs))) as E by congruence.
  rewrite E, P2 in P1. injection P1 as P1. lia.
Qed.

(** What is asked of an update: its stage and its content source are right, the
    content paths are plain, and the new inventory can be stored. *)
Record sound_update obj stage (opts : list ObjectUpdateOption) w (plan : UpdatePlan W FS) (content : string → string) : Prop := {
  su_dir : ValidPath (o_path obj) = true;
  su_stage : stage_right stage content;
  su_source : faithful (o_fs obj) files (o_path obj) (up_newInv plan) (up_oldInv plan) content (files w)
    (content_source (st_ContentSource stage));
  su_paths : ∀ f, uo_contentPathFunc (newObjectUpdateOptions now opts) = Some f →
    ∀ ps, Forall plain_path ps → Forall plain_path (f ps);
  su_new : storable (up_newInv plan)
}.

(** The state of an object: it conforms, with right fixity values, or there is
    nothing where it will be. *)
Definition sound_object obj w (invs : list StoredInventory) : Prop :=
  before sum (o_path obj) invs (o_inventory obj) (files w)
  ∧ ∀ o, o_inventory obj = Some o → fixity_right sum (inv o).

Lemma sound_good_update obj stage msg user opts w plan content invs :
  plan_for now strip json_Marshal obj stage msg user opts plan →
  sound_object obj w invs → Z.of_nat (S (length invs)) ≤ max_int64 → sound_update obj stage opts w plan content →
  good_update sum (o_path obj) invs (up_newInv plan) (o_inventory obj) content (files w)
  ∧ fixity_right sum (inv (up_newInv plan)).
Proof.
  intros [Hspec Halg Hnewer Hnew Hmar _ _] [Hb Hfix] Hmax [Hdir Hst _ Hpaths S]. set (new := up_newInv plan) in *.
  pose proof (stage_inventory_valid now strip _ _ _ _ _ _ Hnew) as Hval.
  pose proof (Inventory_Validate_ok _ (sb_ascii _ S) Hval) as Hok.
  destruct (built_head now strip sum _ _ _ _ _ _ _ _ new Hb Hnew Hmax) as [Hhead Hpad].
  assert (grown (o_inventory obj) (length invs) new) as Hg by (by eapply built_grown).
  assert (num (inv_Head (inv new)) ≤ max_int64) as Hnum by (rewrite Hhead; cbn; lia).
  pose proof (storable_update_ok _ _ _ _ _ Hb Hg Hdir S Hval Hpad Hmax) as Huo.
  destruct (stage_added now strip sum _ _ _ _ _ _ _ _ new Hb Hnew Hmax) as (alg & i0 & st & Halgs & _ & Ha).
  assert (si_alg new = alg_ID alg) as Ealg by apply (oa_alg _ _ _ _ _ _ _ Ha).
  assert (fixity_right sum (inv new)) as Hfr.
  { eapply built_fixity; [done..|]. intros source d a fd Hsrc Hd. rewrite Ealg. by eapply (sr_fixity _ _ Hst). }
  assert (paths_ok (all_paths (manifest (inv new)))) as Hpok.
  { destruct (iok_manifest _ _ Hok) as (man & Hman & (_ & _ & Hp) & _). unfold manifest. by rewrite Hman. }
  split; [|done]. split; [done|done|done|by apply storable_readable|apply S|done| |apply S|apply S|apply S| |].
  - intros o Ho. destruct Hnewer as (c & Hc & Hle). exists c. rewrite Ho in Hc. done.
  - intros p d Hpd. pose proof Hpd as [Hc [r Hr]]%versionContent_Some. rewrite Ealg.
    destruct (built_content now strip sum _ _ _ _ _ _ _ _ new Hb Hnew Hmax Hok Hpaths p d Hc)
      as [(o & d0 & Ho & Hc0 & _)|(_ & d0 & Hd0 & ->)]; [|by apply (sr_content _ _ Hst)].
    exfalso. unfold new_head in Hr. rewrite Hhead in Hr. rewrite Ho in Hb.
    eapply (old_not_new o new); [exact Hb|by apply (gr_old _ _ _ Hg)|done..| |exact Hr]. apply all_paths_elem. eauto.
  - intros d data. by apply GetFixity_right.
Qed.

(** ** Changes elsewhere, and opening the object *)

(** An object depends on the files below its directory only. *)
Lemma conforming_elsewhere m m' dir invs root : (∀ p t, rel dir p = Some t → m' !! p = m !! p) →
  conforming sum m dir invs root → conforming sum m' dir invs root.
Proof.
  intros Hm c. pose proof (ls_dir _ _ _ (cf_names _ _ _ _ _ c)) as Hd.
  assert (∀ t, plain_path t → m' !! Join [dir; t] = m !! Join [dir; t]) as Hj.
  { intros t Ht. eapply Hm. by apply rel_Join. }
  assert (∀ t, valid_name t → m' !! Join [dir; t] = m !! Join [dir; t]) as Hv by (intros t Ht; by apply Hj, valid_name_plain).
  assert (∀ t, t ∈ object_names invs root → m' !! Join [dir; t] = m !! Join [dir; t]) as Hn.
  { intros t Ht. by apply Hv, (ls_valid _ _ _ (cf_names _ _ _ _ _ c)). }
  assert (∀ k si x, invs !! k = Some si → valid_name x →
    m' !! Join [Join [dir; VNum_String (nth_version root k)]; x] = m !! Join [Join [dir; VNum_String (nth_version root k)]; x]) as Hvv.
  { intros k si x Hk Hx%valid_name_plain.
    destruct (nth_valid sum (λ m, m) m dir invs root c k) as (_ & _ & _ & _ & Hvk%valid_name_plain); [by eapply lookup_lt_Some|].
    rewrite Join_Join by done. by apply Hj, plain_path_app. }
  destruct (root_parts sum (λ m, m) m dir invs root c) as (_ & _ & Rok & _).
  split; try apply c.
  - intros k si Hk. destruct (cf_versions _ _ _ _ _ c k si Hk) as [[] [S1 S2]].
    destruct (parts sum (λ m, m) m dir invs root c k si Hk) as (_ & _ & Sok & _).
    destruct (base_plain si (iok_alg _ _ Sok)) as ([_ V1] & _ & V2). split.
    + split; try done. intros p d data Hin. rewrite Hn; [by apply vs_right|]. unfold object_names. rewrite !elem_of_app.
      right. right. apply vs_manifest, all_paths_elem. eauto.
    + split; by rewrite (Hvv k si).
  - rewrite Hn by (unfold object_names; rewrite !elem_of_app; left; left). apply c.
  - destruct (base_plain root (iok_alg _ _ Rok)) as ([_ V1] & _ & V2). split; rewrite Hv by done; apply (cf_root _ _ _ _ _ c).
  - destruct (cf_names _ _ _ _ _ c) as [L1 L2 L3 L4 L5]. split; try done.
    + intros t Ht. rewrite Hn by done. by apply L3.
    + intros p t Hp Hr. rewrite (Hm p t Hr) in Hp. by eapply L4.
Qed.

(** A conforming object is opened with its root inventory, unless the caller gives
    another one. *)
Lemma conforming_NewObject fsys w dir invs root opts (config := (newObjectAndConfig fsys dir opts).2) :
  conforming sum (files w) dir invs root → Healthy fsys files w → oc_inv config = None →
  let obj := mkObject fsys dir (Some root) true (oc_root config) (oc_requiredID config) in
  (oc_requiredID config = "" ∨ oc_requiredID config = inv_ID (si_Inventory root) → NewObject fsys dir opts w = Ok obj)
  ∧ ∀ obj', NewObject fsys dir opts w = Ok obj' → obj' = obj.
Proof.
  intros c h Hc. destruct (stored_reads sum fsys files w h dir invs root c dir root _ (cf_root _ _ _ _ _ c)
    (proj1 (root_at sum files w dir invs root c))) as (Hr & Hs & _).
  unfold NewObject. rewrite (ls_dir _ _ _ (cf_names _ _ _ _ _ c)). cbn [negb].
  unfold newObjectAndConfig. cbn [snd] in config. subst config. cbn in Hc |- *. set (config := foldl _ _ _) in *. clearbody config.
  rewrite Hc. cbn. unfold sync. cbn. rewrite Hr. cbn.
  assert (∀ b : bool, match (if b then None else unless_not_exist None) with Some e => Err e | None =>
      open_existing (mkObject fsys dir (Some root) true (oc_root config) (oc_requiredID config)) config dir root w end
    = open_existing (mkObject fsys dir (Some root) true (oc_root config) (oc_requiredID config)) config dir root w) as -> by (by intros []).
  unfold open_existing, set_root_inventory. cbn. rewrite Hs. split.
  - intros Hid. replace (_ && _) with false; [by destruct (oc_skipRootSidecarValidation config)|].
    symmetry. apply andb_false_iff. rewrite !negb_false_iff, !bool_decide_eq_true. destruct Hid as [->| ->]; auto.
  - intros obj'. destruct (_ && _); [done|]. destruct (oc_skipRootSidecarValidation config); by intros [= <-].
Qed.

Lemma before_last dir invs old m : before sum dir invs old m → last invs = old.
Proof. unfold before. destruct old; [by intros ?%cf_last|by intros [-> _]]. Qed.

Lemma before_elsewhere dir invs old m m' : (∀ p t, rel dir p = Some t → m' !! p = m !! p) →
  before sum dir invs old m → before sum dir invs old m'.
Proof.
  intros Hm. unfold before. destruct old; [by apply conforming_elsewhere|]. intros [-> Hn]. split; [done|].
  intros p Hp. destruct (rel dir p) as [t|] eqn:Hr; [|done]. rewrite (Hm p t Hr) in Hp. by rewrite Hn in Hr.
Qed.

(** ** Objects that updates make *)

Context (fsys : FS) (laws : WriteLaws fsys ops files) (copies : CopyLaws fsys files).

Lemma Update_sound obj stage msg user opts w w' obj' plan content invs : o_fs obj = fsys →
  Update now strip json_Marshal obj stage msg user opts w = (w', (obj', Some plan, Ok ())) →
  sound_object obj w invs → Z.of_nat (S (length invs)) ≤ max_int64 → sound_update obj stage opts w plan content →
  sound_object obj' w' (invs ++ [up_newInv plan]) ∧ o_inventory obj' = Some (up_newInv plan)
  ∧ o_fs obj' = fsys ∧ o_path obj' = o_path obj ∧ Object_ID obj' = Object_ID obj.
Proof using laws copies mel fol.
  intros Hfs Hu Hs Hmax Hsu. pose proof Hu as Hpf%Update_plan.
  destruct (sound_good_update _ _ _ _ _ _ _ _ _ Hpf Hs Hmax Hsu) as [g Hfr]. destruct Hpf as [Hspec Halg _ _ _ _ _].
  pose proof (update_ok_fields _ _ _ _ Hspec Halg (gu_ok _ _ _ _ _ _ _ g)) as Hok.
  destruct (Update_done now strip json_Marshal ops files content obj stage msg user opts w w' obj' plan)
    as ((E1 & E2 & _) & Hid & Hinv & _ & _ & Hfiles & _); [by rewrite Hfs|by rewrite Hfs|done|done|by apply Hsu|].
  rewrite Hfs in E1. split_and!; [|done..]. rewrite (plan_effects_fields _ _ _ _ _ Hspec Halg) in Hfiles.
  split; rewrite Hinv, ?E2.
  - cbn. rewrite Hfiles. by apply grown_conforming.
  - by intros o [= <-].
Qed.

(** Objects that updates make where there was nothing.  Between updates, the rest
    of the storage may change, and the object may be opened again. *)
Inductive made : Object FS → W → list StoredInventory → Prop :=
  | made_new obj w : o_fs obj = fsys → o_inventory obj = None →
      (∀ p, is_Some (files w !! p) → rel (o_path obj) p = None) → made obj w []
  | made_update obj w invs stage msg user opts w' obj' plan content : made obj w invs →
      Update now strip json_Marshal obj stage msg user opts w = (w', (obj', Some plan, Ok ())) →
      sound_update obj stage opts w plan content → Z.of_nat (S (length invs)) ≤ max_int64 →
      made obj' w' (invs ++ [up_newInv plan])
  | made_elsewhere obj w invs w' : made obj w invs →
      (∀ p t, rel (o_path obj) p = Some t → files w' !! p = files w !! p) → made obj w' invs
  | made_reopened obj w invs opts obj' : made obj w invs → o_inventory obj ≠ None → Healthy fsys files w →
      oc_inv (newObjectAndConfig fsys (o_path obj) opts).2 = None →
      NewObject fsys (o_path obj) opts w = Ok obj' → made obj' w invs.

Lemma made_sound obj w invs : made obj w invs → sound_object obj w invs ∧ o_fs obj = fsys.
Proof using laws copies mel fol.
  induction 1 as [obj w Hfs Hi Hn|obj w invs stage msg user opts w' obj' plan content _ [IH Hfs] Hu Hsu Hmax
    |obj w invs w' _ [[Hb Hf] Hfs] Hm|obj w invs opts obj' _ [[Hb Hf] Hfs] Hi h Hc Ho].
  - split; [|done]. unfold sound_object, before. by rewrite Hi.
  - by destruct (Update_sound _ _ _ _ _ _ _ _ _ _ _ Hfs Hu IH Hmax Hsu) as (? & _ & ? & _).
  - split; [|done]. split; [by eapply before_elsewhere|done].
  - destruct (o_inventory obj) as [o|] eqn:Hinv; [|done].
    apply (conforming_NewObject fsys w _ invs o opts Hb h Hc) in Ho as ->. by split.
Qed.

(** C5. An update keeps an object conforming to the specification: if the object
    was made of nothing, or its files were exactly those of its inventories with the
    digests they declare, then after a successful [Update] the files are exactly
    those of the earlier inventories and the new one, each version directory has its
    inventory, the states of the earlier versions are the same in all of them, and
    the content of every manifest has its digest; the fixity values stay right. *)
Theorem Update_conforming obj stage msg user opts w w' obj' plan content invs : o_fs obj = fsys →
  Update now strip json_Marshal obj stage msg user opts w = (w', (obj', Some plan, Ok ())) →
  sound_object obj w invs → Z.of_nat (S (length invs)) ≤ max_int64 → sound_update obj stage opts w plan content →
  conforming sum (files w') (o_path obj) (invs ++ [up_newInv plan]) (up_newInv plan)
  ∧ sound_object obj' w' (invs ++ [up_newInv plan]).
Proof using laws copies mel fol.
  intros Hfs Hu Hs Hmax Hsu.
  destruct (Update_sound _ _ _ _ _ _ _ _ _ _ _ Hfs Hu Hs Hmax Hsu) as ([Hb Hf] & Hi & _ & <- & _). split; [|done].
  by rewrite Hi in Hb.
Qed.

Section valid.
Context obj w (invs : list StoredInventory) (fuel : nat) (opts : list (ObjectValidationOption (FS:=FS))).

(** What a validation of an object with these inventories needs. *)
Record can_validate : Prop := {
  cv_healthy : Healthy fsys files w;
  cv_entries : plain_entries fsys w;
  cv_walks : walks fsys files w fuel;
  cv_extensions : nameable_dir fsys (Join [o_path obj; extensionsDir]);
  cv_options : Forall plain_option opts;
  cv_registry : reg_ok (vd_algRegistry (newObjectValidation fsys (o_path obj) opts));
  cv_sums : ∀ alg a data, vd_algRegistry (newObjectValidation fsys (o_path obj) opts) !! alg = Some a → alg_sum a data = sum alg data;
  cv_fuel : ∀ root t, o_inventory obj = Some root → t ∈ object_names invs root → (String.length t < fuel)%nat
}.

(** The object is accepted, and the result has its inventory. *)
Definition is_valid : Prop :=
  ∃ v, ValidateObject fuel fsys (o_path obj) opts w = Ok v ∧ v_Err (vd_Validation v) = None
    ∧ o_inventory (vd_obj v) = o_inventory obj.

(** Every object that a sequence of updates makes is valid, whatever happens in
    the rest of the storage between the updates. *)
Lemma made_valid : made obj w invs → o_inventory obj ≠ None → can_validate → last invs = o_inventory obj ∧ is_valid.
Proof using laws copies mel fol.
  intros [[Hb _] _]%made_sound Hne [h Hpl Hwalk Hext Hopts Hreg Hsum Hlen]. split; [by eapply before_last|].
  unfold is_valid. destruct (o_inventory obj) as [root|] eqn:Hi; [|done].
  apply (validate_accepted sum fsys files w h Hpl fuel Hwalk (o_path obj) invs root Hb Hext opts Hopts Hreg Hsum).
  intros t. by apply Hlen.
Qed.
End valid.

End conforming_update.

(** ** Conforming objects are accepted *)

Section complete.
Context `{GoEnv, URLs, MultiError, Hashes, Decoders} {mel : MultiErrorLaws} {fol : FoldLaws} {W FS : Type} `{!FileSystems W FS}.
Context (sum : string → string → string) (fsys : FS) (files : W → gmap string string) (w : W).

(** C2. [ValidateObject] accepts every object that conforms to the specification:
    for a backend without failures, an object with a declaration, an inventory and
    sidecar in its root and in each version directory, and exactly the content of
    the manifest with the right digests, inventories that agree on the earlier
    versions, is validated without a crash and without a fatal error, whatever the
    options and the order in which maps and directories are read, and the
    inventory of its root is the one that is returned.  The backend can have a
    directory "extensions" in the object, so that it reports that there is none. *)
Theorem ValidateObject_complete fuel dir invs root opts (v0 := newObjectValidation fsys dir opts) :
  conforming sum (files w) dir invs root →
  Healthy fsys files w → plain_entries fsys w → walks fsys files w fuel →
  nameable_dir fsys (Join [dir; extensionsDir]) →
  Forall plain_option opts → reg_ok (vd_algRegistry v0) →
  (∀ alg a data, vd_algRegistry v0 !! alg = Some a → alg_sum a data = sum alg data) →
  (∀ t, t ∈ object_names invs root → (String.length t < fuel)%nat) →
  ∃ v, ValidateObject fuel fsys dir opts w = Ok v ∧ v_Err (vd_Validation v) = None ∧ o_inventory (vd_obj v) = Some root.
Proof.
  intros c h Hpl Hwalk Hext Hopts Hreg Hsum Hlen.
  exact (validate_accepted sum fsys files w h Hpl fuel Hwalk dir invs root c Hext opts Hopts Hreg Hsum Hlen).
Qed.
End complete.

(** ** A concrete object with two versions *)

#[local] Existing Instances ref_env ref_urls ref_multierror ref_multierror_laws ref_fold_laws ref_hashes ref_codec mem_fs.

(** The reference digest of some bytes is their hexadecimal form, so the content of
    the digest [ab] is the byte 171. *)
Definition sq_sum (alg data : string) : string := hex_encode data.
Definition sq_content (d : string) : string := String (ascii_of_N (if bool_decide (d = "cd") then 205 else 171)) "".
Definition sq_storage : gmap string string := {["src/f" := sq_content "ab"; "src/g" := sq_content "cd"]}.
Definition sq_source : ContentSource () := λ d, Some ((), if bool_decide (d = "cd") then "src/g" else "src/f").
Definition sq_fixity : FixitySource := λ d, Some {["md5" := d]}.
Definition sq_stage (state : DigestMap) : Stage () :=
  mkStage state (Some (builtin_alg SHA512)) (SrcOne sq_source) (SrcOne sq_fixity).
Definition sq_stage1 : Stage () := sq_stage {["ab" := ["f"]]}.
Definition sq_stage2 : Stage () := sq_stage {["ab" := ["a/f"]; "cd" := ["g"]]}.
Definition sq_obj0 : Object () := mkObject () "o" None false None "http://example.org/1".
Definition sq_obj3 : Object () := mkObject () "p/q" None false None "http://example.org/2".

(** The text of an inventory, and the digests of the text. *)
Definition sq_text (inv : Inventory) : string := inv_ID inv +:+ " " +:+ VNum_String (inv_Head inv).
Definition sq_marshal (inv : Inventory) : result string := inl (sq_text inv).
Definition sq_stored (inv : Inventory) : StoredInventory :=
  match Inventory_marshal sq_marshal inv with
  | inl (b, d) => mkStoredInventory inv b d
  | inr _ => mkStoredInventory inv "" ""
  end.

Definition sq_inv (obj : Object ()) (stage : Stage ()) : Inventory :=
  match stage_inventory ex_now id (Object_InventoryBuilder obj) stage "msg" ex_user (newObjectUpdateOptions ex_now []) with
  | Ok inv => inv
  | _ => ex_inventory
  end.
Definition sq_inv1 : Inventory := Eval vm_compute in sq_inv sq_obj0 sq_stage1.
Definition sq_obj1 : Object () := mkObject () "o" (Some (sq_stored sq_inv1)) true None "http://example.org/1".
Definition sq_inv2 : Inventory := Eval vm_compute in sq_inv sq_obj1 sq_stage2.
Definition sq_inv3 : Inventory := Eval vm_compute in sq_inv sq_obj3 sq_stage1.

Definition sq_raw (raw : string) : result Inventory :=
  match find_some (λ inv, if bool_decide (raw = sq_text inv) then Some inv else None) [sq_inv1; sq_inv2; sq_inv3] with
  | Some inv => inl inv
  | None => inr (ErrNew "syntax")
  end.
Definition sq_decoders : Decoders := {|
  json_Unmarshal := λ raw, match sq_raw raw with inl inv => inl (inventory_json ex_text inv) | inr e => inr e end;
  json_Decode := sq_raw;
  json_DecodeType := λ _, inr (ErrNew "syntax");
  time_UnmarshalText := λ _, inl (ex_now 0)
|}.
#[local] Existing Instance sq_decoders.

Definition sq_update (obj : Object ()) (stage : Stage ()) (w : gmap string string) :=
  Update ex_now id sq_marshal obj stage "msg" ex_user [] w.
Definition sq_upd1 := sq_update sq_obj0 sq_stage1 sq_storage.
Definition sq_upd2 := sq_update sq_upd1.2.1.1 sq_stage2 sq_upd1.1.
Definition sq_plan (u : gmap string string * (Object () * option (UpdatePlan (gmap string string) ()) * res unit))
    : UpdatePlan (gmap string string) () := default (ex_plan ex_new None) u.2.1.2.
Definition sq_done (u : gmap string string * (Object () * option (UpdatePlan (gmap string string) ()) * res unit)) : bool :=
  bool_decide (is_Some u.2.1.2) && is_ok u.2.2.

Lemma sq_eq u : sq_done u = true → u = (u.1, (u.2.1.1, Some (sq_plan u), Ok ())).
Proof. destruct u as [w [[o [p|]] [[]|e|]]]; done. Qed.

Lemma sq_update_eq obj stage w (u := sq_update obj stage w) : sq_done u = true →
  Update ex_now id sq_marshal obj stage "msg" ex_user [] w = (u.1, (u.2.1.1, Some (sq_plan u), Ok ())).
Proof. exact (sq_eq u). Qed.
Lemma sq_upd1_eq : Update ex_now id sq_marshal sq_obj0 sq_stage1 "msg" ex_user [] sq_storage
  = (sq_upd1.1, (sq_upd1.2.1.1, Some (sq_plan sq_upd1), Ok ())).
Proof. apply sq_update_eq. by vm_compute. Qed.
Lemma sq_upd2_eq : Update ex_now id sq_marshal sq_upd1.2.1.1 sq_stage2 "msg" ex_user [] sq_upd1.1
  = (sq_upd2.1, (sq_upd2.2.1.1, Some (sq_plan sq_upd2), Ok ())).
Proof. apply sq_update_eq. by vm_compute. Qed.

(** Decision procedures for what an inventory has to be. *)
Definition tree_b (l : list string) : bool := forallb (λ a, forallb (λ c, negb (HasPrefix c (a +:+ "/"))) l) l.
Lemma tree_check l : tree_b l = true → ∀ a b, a ∈ l → (a +:+ "/" +:+ b) ∉ l.
Proof.
  unfold tree_b. rewrite forallb_forall. intros Hl a b Ha%list_elem_of_In Hb%list_elem_of_In.
  specialize (Hl a Ha). rewrite forallb_forall in Hl. specialize (Hl _ Hb). by rewrite string_app_assoc, HasPrefix_app in Hl.
Qed.

Definition times_b (inv : Inventory) : bool := forallb (λ e : VNum * option InventoryVersion,
  match e.2 with Some ver => bool_decide (iv_Created ver = ex_now 0) | None => true end) (map_to_list (versions inv)).
Lemma times_check inv : times_b inv = true → times_ok ex_text inv.
Proof.
  unfold times_b. rewrite forallb_forall. intros Ht vn ver Hv%elem_of_map_to_list%list_elem_of_In.
  specialize (Ht _ Hv). apply bool_decide_eq_true in Ht. rewrite Ht. done.
Qed.

Definition storable_b (si : StoredInventory) : bool :=
  inv_ascii_b (si_Inventory si) && bool_decide (manifest (si_Inventory si) !! "" = None)
  && bool_decide (si_contdir si ∉ [inventoryBase; sidecar_name SHA512; sidecar_name SHA256])
  && tree_b (all_paths (manifest (si_Inventory si))) && times_b (si_Inventory si)
  && negb (bool_decide (hash_sum (si_alg si) (si_bytes si) = "")).
Lemma storable_check si : storable_b si = true → sq_raw (si_bytes si) = inl (si_Inventory si) → storable ex_text si.
Proof.
  unfold storable_b. rewrite !andb_true_iff, negb_true_iff, bool_decide_eq_false, !bool_decide_eq_true.
  intros [[[[[A B] C] D] E] F] Hr. split; [by apply inv_ascii_check|done|done|by apply tree_check|by apply times_check|done| |done].
  cbn. by rewrite Hr.
Qed.

Lemma sq_stage_right state : (∀ d, is_Some (state !! d) → d = "ab" ∨ d = "cd") → stage_right sq_sum (sq_stage state) sq_content.
Proof.
  intros Hs. split.
  - intros alg d _ [-> | ->]%Hs; by vm_compute.
  - intros alg source d a fd _ [= <-] Ha data Hd. cbn in Ha. apply lookup_singleton_Some in Ha as [_ <-]. exact Hd.
Qed.

(** The content is read from outside of the object, where no effect is. *)
Lemma sq_faithful dir new old w : w !! "src/f" = Some (sq_content "ab") → w !! "src/g" = Some (sq_content "cd") →
  "src/f" ∉ (plan_effects dir new old sq_content).*1 → "src/g" ∉ (plan_effects dir new old sq_content).*1 →
  faithful () (λ m, m) dir new old sq_content w (Some sq_source).
Proof.
  intros Hf Hg Nf Ng gc dig [] p w' [= <-] Hp Hbase. assert (w' !! p = Some (sq_content dig)) as Hd.
  { unfold sq_source in Hp. injection Hp as <-. destruct (bool_decide (dig = "cd")) eqn:He.
    - apply bool_decide_eq_true in He as ->. rewrite (Hbase "src/g"); done.
    - rewrite (Hbase "src/f") by done. cbn beta. rewrite Hf. unfold sq_content. by rewrite He. }
  split.
  - intros f Ho He. destruct (law_open_ok _ _ mem_read_laws _ _ _ Ho) as (data & Hdata & Hr). rewrite (Hr He). congruence.
  - intros _ data Hdata. congruence.
Qed.

(** All that a concrete update has to satisfy, by evaluation. *)
Definition sound_b (obj : Object ()) (w : gmap string string) (plan : UpdatePlan (gmap string string) ()) : bool :=
  let effects := (plan_effects (o_path obj) (up_newInv plan) (up_oldInv plan) sq_content).*1 in
  ValidPath (o_path obj) && storable_b (up_newInv plan)
  && bool_decide (w !! "src/f" = Some (sq_content "ab") ∧ w !! "src/g" = Some (sq_content "cd"))
  && bool_decide ("src/f" ∉ effects ∧ "src/g" ∉ effects).

Lemma sq_sound obj state w plan : sound_b obj w plan = true →
  sq_raw (si_bytes (up_newInv plan)) = inl (si_Inventory (up_newInv plan)) →
  (∀ d, is_Some (state !! d) → d = "ab" ∨ d = "cd") →
  sound_update ex_now ex_text sq_sum (λ m, m) obj (sq_stage state) [] w plan sq_content.
Proof.
  unfold sound_b. rewrite !andb_true_iff, !bool_decide_eq_true. intros [[[Hp Hs] [Hf Hg]] [Nf Ng]] Hr Hd.
  destruct obj as [[] path oi b r id]. split; [done|by apply sq_stage_right|by apply sq_faithful|done|by apply storable_check].
Qed.

Lemma sq_sound1 : sound_update ex_now ex_text sq_sum (λ m, m) sq_obj0 sq_stage1 [] sq_storage (sq_plan sq_upd1) sq_content.
Proof. apply sq_sound; [by vm_compute|by vm_compute|]. intros d [x [<- _]%lookup_singleton_Some]. by left. Qed.

Lemma sq_made1 : made ex_now id sq_marshal ex_text sq_sum (λ m, m) () sq_upd1.2.1.1 sq_upd1.1 [up_newInv (sq_plan sq_upd1)].
Proof.
  apply (made_update _ _ _ _ _ _ _ sq_obj0 sq_storage [] sq_stage1 "msg" ex_user [] _ _ _ sq_content).
  - apply made_new; [done|done|]. intros p [x Hx]. destruct (rel _ p) eqn:Hr; [|done]. exfalso. cbn in Hr.
    revert Hx Hr. unfold sq_storage. intros [[<- _]|[_ [<- _]%lookup_singleton_Some]]%lookup_insert_Some; by vm_compute.
  - exact sq_upd1_eq.
  - exact sq_sound1.
  - by vm_compute.
Qed.

Lemma sq_sound2 : sound_update ex_now ex_text sq_sum (λ m, m) sq_upd1.2.1.1 sq_stage2 [] sq_upd1.1 (sq_plan sq_upd2) sq_content.
Proof.
  apply sq_sound; [by vm_compute|by vm_compute|].
  intros d [x [[<- _]|[_ [<- _]%lookup_singleton_Some]]%lookup_insert_Some]; auto.
Qed.

Lemma sq_made2 : made ex_now id sq_marshal ex_text sq_sum (λ m, m) () sq_upd2.2.1.1 sq_upd2.1
  [up_newInv (sq_plan sq_upd1); up_newInv (sq_plan sq_upd2)].
Proof.
  apply (made_update _ _ _ _ _ _ _ sq_upd1.2.1.1 sq_upd1.1 [up_newInv (sq_plan sq_upd1)] sq_stage2 "msg" ex_user [] _ _ _ sq_content).
  - apply sq_made1.
  - exact sq_upd2_eq.
  - exact sq_sound2.
  - by vm_compute.
Qed.

Lemma mem_plain_entries m : @plain_entries _ _ mem_fs () m.
Proof.
  intros dir e. unfold fs_DirEntries. cbn. destruct (decide _).
  - by intros ?%list_elem_of_singleton.
  - intros ([x b] & [= ->] & _)%list_elem_of_fmap. cbn. split; [|eauto]. unfold de_IsDir. cbn. destruct b; [done|by left].
Qed.

Lemma sq_registry alg a data : DefaultRegistry !! alg = Some a → alg_sum a data = sq_sum alg data.
Proof.
  unfold DefaultRegistry, NewAlgorithmRegistry, register. cbn [fmap list_fmap foldl alg_ID builtin_alg]. intros Hl.
  repeat (apply lookup_insert_Some in Hl as [[_ <-]|[_ Hl]]; [done|]). by rewrite lookup_empty in Hl.
Qed.

Lemma sq_conforming : conforming sq_sum sq_upd2.1 "o" [up_newInv (sq_plan sq_upd1); up_newInv (sq_plan sq_upd2)]
  (up_newInv (sq_plan sq_upd2)).
Proof.
  destruct (made_sound ex_now id sq_marshal ex_text sq_sum mem_ops (λ m, m) () mem_write_laws mem_copy_laws _ _ _ sq_made2)
    as [[Hb _] _].
  assert (o_inventory sq_upd2.2.1.1 = Some (up_newInv (sq_plan sq_upd2))) as Hi by (by vm_compute).
  assert (o_path sq_upd2.2.1.1 = "o") as Hp by (by vm_compute). by rewrite Hi, Hp in Hb.
Qed.

Lemma sq_short t : t ∈ object_names [up_newInv (sq_plan sq_upd1); up_newInv (sq_plan sq_upd2)] (up_newInv (sq_plan sq_upd2)) →
  (String.length t < 100)%nat.
Proof.
  revert t. apply Forall_forall. apply (bool_decide_unpack _). by vm_compute.
Qed.

Lemma Update_conforming_witness : conforming sq_sum sq_upd2.1 "o"
  [up_newInv (sq_plan sq_upd1); up_newInv (sq_plan sq_upd2)] (up_newInv (sq_plan sq_upd2)).
Proof.
  assert (o_path sq_upd1.2.1.1 = "o") as Hp by (by vm_compute).
  destruct (Update_conforming ex_now id sq_marshal ex_text sq_sum mem_ops (λ m, m) () mem_write_laws mem_copy_laws
    sq_upd1.2.1.1 sq_stage2 "msg" ex_user [] sq_upd1.1 sq_upd2.1 sq_upd2.2.1.1 (sq_plan sq_upd2) sq_content
    [up_newInv (sq_plan sq_upd1)]) as [Hc _].
  - by destruct (o_fs _).
  - exact sq_upd2_eq.
  - apply (made_sound ex_now id sq_marshal ex_text sq_sum mem_ops (λ m, m) () mem_write_laws mem_copy_laws _ _ _ sq_made1).
  - by vm_compute.
  - exact sq_sound2.
  - rewrite Hp in Hc. exact Hc.
Defined.

Lemma ValidateObject_complete_witness : ∃ v, ValidateObject 100 () "o" [ValidationDigestConcurrency 1] sq_upd2.1 = Ok v
  ∧ v_Err (vd_Validation v) = None ∧ o_inventory (vd_obj v) = Some (up_newInv (sq_plan sq_upd2)).
Proof.
  apply (ValidateObject_complete sq_sum () (λ m, m) sq_upd2.1 100 "o" _ _ [ValidationDigestConcurrency 1] sq_conforming).
  - apply mem_healthy.
  - apply mem_plain_entries.
  - apply fileWalk_walks; [apply mem_healthy|apply mem_plain_entries|done].
  - apply mem_nameable_dir.
  - constructor; [|constructor]. right. right. left. by exists 1.
  - by apply register_ok.
  - apply sq_registry.
  - apply sq_short.
Defined.
