(* ===== verification/Storage.v ===== *)
(** * The objects of a storage

    Several objects are updated in one storage, in any order, and updates may fail
    and be reverted.  An update changes nothing outside of the directory of its
    object, and one that is reverted changes nothing at all, so every object stays
    one that updates make ([made]), which [ValidateObject] accepts. *)
From S2P Require Import Prelude GoStd VNum DigestMap Spec FS ObjectState Pipeline Digest Extension Codes Validation.
From S2P Require Import Inventory OcflInventory InventoryBytes InventoryJson Builder UpdatePlan PlanRuns PlanSpec PlanTheorems.
From S2P Require Import LogicalFS Healthy Listing Root Stage Object ObjectValidation ValidateObject ValidateObjectSpec ObjectSpec.
From S2P Require Import Conforming ConformingSpec UpdatedObjects NextInventory UpdateSequence.

(** ** An update stays in its directory *)

Section storage.
Context `{GoEnv, URLs, MultiError, Hashes, Decoders, PlanCodec} {mel : MultiErrorLaws} {fol : FoldLaws} {W FS : Type} `{!FileSystems W FS}.
Context (now : nat → Time) (strip : Z → Z) (json_Marshal : Inventory → result string) (time_text : Time → string).
Context (sum : string → string → string) (ops : WriteFS W) (files : W → gmap string string).
Context (fsys : FS) (laws : WriteLaws fsys ops files) (copies : CopyLaws fsys files).
Implicit Types (obj : Object FS) (w : W) (stage : Stage FS) (new o : StoredInventory).

Notation inv := si_Inventory.
Notation plan_for := (plan_for now strip json_Marshal).
Notation sound_update := (sound_update now time_text sum files).
Notation made := (made now strip json_Marshal time_text sum files fsys).

Lemma Update_frame obj stage msg user opts w w' obj' plan r content invs : o_fs obj = fsys →
  Update now strip json_Marshal obj stage msg user opts w = (w', (obj', Some plan, r)) →
  sound_object sum files obj w invs → Z.of_nat (S (length invs)) ≤ max_int64 → sound_update obj stage opts w plan content →
  ∀ p, rel (o_path obj) p = None → files w' !! p = files w !! p.
Proof using laws copies mel fol.
  intros Hfs Hu Hs Hmax Hsu p Hp. pose proof Hu as Hpf%Update_plan.
  destruct (sound_good_update _ _ _ _ _ _ _ _ _ _ _ _ _ _ _ Hpf Hs Hmax Hsu) as [g _]. pose proof (gu_ok _ _ _ _ _ _ _ g) as Hok.
  pose proof (update_ok_fields _ _ _ _ (pf_spec _ _ _ _ _ _ _ _ _ Hpf) (pf_alg _ _ _ _ _ _ _ _ _ Hpf) Hok) as Hok'.
  apply Update_ran in Hu as (obj1 & u & Hn & E1 & E2 & [->|[ri Ha]]); [done|].
  apply NewUpdatePlan_plan in Hn as (_ & F1 & F2 & Hst). rewrite F1, F2, Hfs in Ha. rewrite <- E1, <- E2 in Hst.
  pose proof (apply_inv_start fsys ops files laws copies _ _ _ content (files w) Hok' u w (eq_sym E1) (eq_sym E2) Hst eq_refl) as Hi.
  eapply apply_inv_step in Ha as [(_ & _ & fl & [_ _ Hframe _]) _]; [|exact Hok'|rewrite <- Hfs; apply Hsu|exact Hi].
  apply Hframe. change (p ∉ (plan_effects (o_path obj) (up_newInv plan) (up_oldInv plan) content).*1).
  rewrite plan_effects_names. intros (q & -> & Hq)%list_elem_of_fmap.
  pose proof (plan_names_plain _ _ _ Hok') as Hall. rewrite Forall_forall in Hall. unfold in_object in Hp.
  rewrite rel_Join in Hp; [done|apply Hsu|by apply Hall].
Qed.

(** ** What a conforming object is for a plan *)

Section base.
Context (dir : string) (invs : list StoredInventory) new o (content : string → string) (m : gmap string string).
Context (g : good_update sum dir invs new (Some o) content m).

Notation vname k := (VNum_String (nth_version new k)).
Notation n := (length invs).

(** No file is in the directory of the next version, or is the next declaration. *)
Lemma names_not_new t : t ∈ object_names invs o → t ≠ vname n ∧ ∀ r, t ≠ vname n +:+ "/" +:+ r.
Proof using g mel.
  destruct (old_conforming _ _ _ _ _ _ _ g o eq_refl) as (Hc & He & Hn & Hpos & _).
  destruct (new_nth _ _ _ _ _ _ _ g n (le_n _)) as (_ & Hs & _).
  assert (∀ k r, (k < n)%nat → t = vname k +:+ "/" +:+ r → t ≠ vname n ∧ ∀ r, t ≠ vname n +:+ "/" +:+ r) as Hv.
  { intros k r Hk ->. split.
    - intros Heq. rewrite <- Heq in Hs. by apply no_slash_slash in Hs.
    - intros r' Heq. apply (new_split _ _ _ _ _ _ _ g) in Heq as [-> _]; lia. }
  intros [Ht|[(k & si & Hk & Ht)|Ht]]%(object_names_elem invs o).
  - pose proof Ht as [Hns _]%(root_names_elem sum (λ m, m) m dir invs o Hc). split.
    + destruct (root_parts sum (λ m, m) m dir invs o Hc) as (_ & _ & _ & _ & Hsp). intros ->.
      unfold root_names, VNum_String in Ht. rewrite !elem_of_cons, elem_of_nil in Ht.
      destruct Ht as [Ht|[Ht|[Ht|[]]]]; [|done..]. by destruct Hsp as [E|E]; rewrite E in Ht.
    + intros r ->. by apply no_slash_slash in Hns.
  - pose proof Hk as Hlt%lookup_lt_Some. rewrite <- Hn in Ht. destruct Ht as [Ht|Ht]; by eapply Hv.
  - destruct (cf_paths _ _ _ _ _ Hc t Ht) as (k & r & Hk & Hr). rewrite <- Hn in Hr. by eapply Hv.
Qed.

Lemma declaration_not_there : new_spec new ≠ si_spec o → decl_name (new_spec new) ∉ object_names invs o.
Proof using g mel.
  destruct (old_conforming _ _ _ _ _ _ _ g o eq_refl) as (Hc & _). pose proof (gu_ok _ _ _ _ _ _ _ g) as Hok.
  pose proof (uo_new_spec _ _ _ Hok) as Hsp. pose proof (decl_name_first _ Hsp) as Hf.
  assert (no_slash (decl_name (new_spec new))) as Hs by (by apply getOCFL_cases in Hsp as [-> | ->]).
  intros Hne [Ht|[(k & si & Hk & Ht)|Ht]]%(object_names_elem invs o).
  - unfold root_names in Ht. rewrite !elem_of_cons, elem_of_nil in Ht.
    destruct Ht as [Ht|[Ht|[Ht|[]]]]; [|rewrite Ht in Hf; done..]. apply decl_name_inj in Ht; [done..|].
    destruct (root_parts sum (λ m, m) m dir invs o Hc) as (_ & _ & _ & _ & [E|E]); unfold si_spec in *; by rewrite E.
  - destruct Ht as [Ht|Ht]; rewrite Ht in Hs; by apply no_slash_slash in Hs.
  - destruct (cf_paths _ _ _ _ _ Hc _ Ht) as (k & r & Hk & Hr). rewrite Hr in Hs. by apply no_slash_slash in Hs.
Qed.

(** A path in a directory. *)
Lemma under_Join a p : ValidPath dir = true → dir ≠ "." → plain_path a → under (Join [dir; a]) p = true →
  rel dir p = Some a ∨ ∃ r, rel dir p = Some (a +:+ "/" +:+ r).
Proof using.
  intros Hd Hne Ha. unfold under, FS.below, HasPrefix, rel. rewrite orb_true_iff, bool_decide_eq_true, bool_decide_false by done.
  rewrite (Join_dir dir a Hd Ha), (bool_decide_false (dir = ".")) by done. intros [->|Hp].
  - left. apply CutPrefix_Some. by rewrite string_app_assoc.
  - destruct (CutPrefix p _) as [r|] eqn:Hc; [|done]. apply CutPrefix_Some in Hc as ->. right. exists r.
    apply CutPrefix_Some. by rewrite <- !string_app_assoc.
Qed.

Lemma absent a : ValidPath dir = true → plain_path a → a ∉ object_names invs o → conforming sum m dir invs o →
  m !! Join [dir; a] = None.
Proof using.
  intros Hd Ha Hn Hc. destruct (m !! Join [dir; a]) as [x|] eqn:Hx; [|done]. exfalso. apply Hn.
  apply (ls_only _ _ _ (cf_names _ _ _ _ _ Hc) (Join [dir; a])); [by rewrite Hx|by apply rel_Join].
Qed.
End base.

(** The storage is as a plan needs it, when no file has the path of the object. *)
Lemma sound_base dir invs new old oldp content m : good_update sum dir invs new old content m →
  dir ≠ "." → m !! dir = None → (old ≠ None → AtomicWrites ops files) →
  old_spec oldp = old_spec old → old_alg oldp = old_alg old → (oldp = None ↔ old = None) →
  old_field oldp si_bytes "" = old_field old si_bytes "" → old_field oldp si_digest "" = old_field old si_digest "" →
  base_ok ops files dir new oldp m.
Proof using mel.
  intros g Hdir Hfile Hat Es Ea En Eb Ed. pose proof (gu_num _ _ _ _ _ _ _ g) as Hnum.
  assert (first_version new = true ↔ invs = []) as Hfirst.
  { unfold first_version, new_head. rewrite Z.eqb_eq, Hnum. destruct invs; cbn; [done|]. split; [lia|done]. }
  destruct old as [o|].
  - destruct (old_conforming _ _ _ _ _ _ _ g o eq_refl) as (Hc & He & Hn & Hpos & _).
    assert (first_version new ≠ true) as Hnf by (intros ->%Hfirst; cbn in Hpos; lia).
    pose proof (gu_dir _ _ _ _ _ _ _ g) as Hvd. pose proof (cf_root _ _ _ _ _ Hc) as [Hr1 Hr2].
    pose proof (names_not_new dir invs new o content m g) as Hnames.
    destruct (new_nth _ _ _ _ _ _ _ g (length invs) (le_n _)) as (_ & _ & Hvn%valid_name_plain).
    specialize (Hat ltac:(done)). split; [done|done| | | | | | |done]; intros _.
    + intros p Hp. unfold in_object in Hp. rewrite (version_dir_nth _ _ _ _ _ _ _ g) in Hp.
      destruct (m !! p) as [x|] eqn:Hx; [|done]. exfalso.
      apply under_Join in Hp as [Hp|[r Hp]]; [| |done..];
        (apply (ls_only _ _ _ (cf_names _ _ _ _ _ Hc)) in Hp; [|by rewrite Hx]); apply Hnames in Hp as [H1' H2']; naive_solver.
    + rewrite Ea. symmetry. apply (ex_alg _ _ He).
    + rewrite Eb. exact Hr1.
    + rewrite Ed. change (new_alg new) with (si_alg new). rewrite (ex_alg _ _ He). exact Hr2.
    + rewrite Es. intros Hne. pose proof (gu_ok _ _ _ _ _ _ _ g) as Hok. apply (absent dir invs o m); [done| | |done].
      * apply decl_name_plain, (uo_new_spec _ _ _ Hok).
      * by apply (declaration_not_there dir invs new o content m g).
    + rewrite Es. intros Hne. apply (cf_decl _ _ _ _ _ Hc).
  - pose proof (gu_before _ _ _ _ _ _ _ g) as [-> Hnone]. assert (first_version new = true) as Hf by (by apply Hfirst).
    split; [done| | | | | | | |]; rewrite Hf; try done. intros _. split; [by apply En|]. intros p.
    unfold under, FS.below, HasPrefix. rewrite orb_true_iff, bool_decide_eq_true. intros [->|Hp]; [done|].
    destruct (m !! p) as [x|] eqn:Hx; [|done]. specialize (Hnone p). unfold rel in Hnone. rewrite bool_decide_false in Hnone by done.
    rewrite Hnone in Hp by by rewrite Hx. done.
Qed.

(** ** Several objects in one storage *)

Notation sound_object := (sound_object sum files).

(** The objects of a storage with the inventories of their versions, by some key. *)
Notation objects := (gmap string (Object FS * list StoredInventory)).
Implicit Types (objs : objects).

(** What a program does with one of the objects: it is updated, or opened again, or
    an update of it fails and is reverted, after any number of calls of [Apply] and
    [Revert]. *)
Inductive obj_step objs w : objects → W → Prop :=
  | step_update k obj invs stage msg user opts w' obj' plan content : objs !! k = Some (obj, invs) →
      Update now strip json_Marshal obj stage msg user opts w = (w', (obj', Some plan, Ok ())) →
      sound_update obj stage opts w plan content → Z.of_nat (S (length invs)) ≤ max_int64 →
      obj_step objs w (<[k := (obj', invs ++ [up_newInv plan])]> objs) w'
  | step_opened k obj invs opts obj' : objs !! k = Some (obj, invs) →
      o_inventory obj ≠ None → Healthy fsys files w → oc_inv (newObjectAndConfig fsys (o_path obj) opts).2 = None →
      NewObject fsys (o_path obj) opts w = Ok obj' → obj_step objs w (<[k := (obj', invs)]> objs) w
  | step_reverted k obj invs stage msg user opts obj1 u content good u1 w1 src w2 u2 : objs !! k = Some (obj, invs) →
      NewUpdatePlan now strip json_Marshal obj stage msg user opts = (obj1, Ok u) →
      sound_update obj stage opts w u content → Z.of_nat (S (length invs)) ≤ max_int64 →
      (o_inventory obj ≠ None → AtomicWrites ops files) → codec_ok (up_newInv u) (up_oldInv u) → o_path obj ≠ "." → files w !! o_path obj = None →
      session fsys (o_path obj) true good u w u1 w1 → Revert u1 fsys (o_path obj) src w1 = (w2, (u2, Ok ())) →
      obj_step objs w objs w2.

(** An object that is not there yet: no file is in its directory. *)
Definition fresh_object objs w obj : Prop :=
  o_fs obj = fsys ∧ o_inventory obj = None ∧ (∀ p, is_Some (files w !! p) → rel (o_path obj) p = None)
  ∧ ∀ k e, objs !! k = Some e → apart (o_path e.1) (o_path obj).

(** What happens in a storage: objects appear, in directories apart from those of
    the others, and take steps; an update may fail for good, which gives its object
    up; and anything may happen outside of the directories of the objects. *)
Inductive runs : objects → W → Prop :=
  | runs_start w : runs ∅ w
  | runs_new objs w k obj : runs objs w → objs !! k = None → fresh_object objs w obj → runs (<[k := (obj, [])]> objs) w
  | runs_step objs w objs' w' : runs objs w → obj_step objs w objs' w' → runs objs' w'
  | runs_failed objs w k obj invs stage msg user opts w' obj' plan r content : runs objs w →
      objs !! k = Some (obj, invs) →
      Update now strip json_Marshal obj stage msg user opts w = (w', (obj', Some plan, r)) → is_ok r = false →
      sound_update obj stage opts w plan content → Z.of_nat (S (length invs)) ≤ max_int64 →
      runs (delete k objs) w'
  | runs_other objs w w' : runs objs w →
      (∀ k e p, objs !! k = Some e → is_Some (rel (o_path e.1) p) → files w' !! p = files w !! p) → runs objs w'.

(** A reverted update changes no file; for an object that has versions this needs a
    backend whose failed writes and removals have no effect. *)
Lemma reverted obj stage msg user opts obj1 u content good u1 w w1 src w2 u2 invs : o_fs obj = fsys →
  NewUpdatePlan now strip json_Marshal obj stage msg user opts = (obj1, Ok u) →
  sound_object obj w invs → Z.of_nat (S (length invs)) ≤ max_int64 → sound_update obj stage opts w u content →
  (o_inventory obj ≠ None → AtomicWrites ops files) → codec_ok (up_newInv u) (up_oldInv u) → o_path obj ≠ "." → files w !! o_path obj = None →
  session fsys (o_path obj) true good u w u1 w1 → Revert u1 fsys (o_path obj) src w1 = (w2, (u2, Ok ())) →
  files w2 = files w.
Proof using laws copies mel fol.
  intros Hfs Hn Hs Hmax Hsu Hat Hco Hdir Hfile Hses Hr. apply NewUpdatePlan_plan in Hn as (Hpf & _ & _ & Hst).
  destruct (sound_good_update _ _ _ _ _ _ _ _ _ _ _ _ _ _ _ Hpf Hs Hmax Hsu) as [g _].
  destruct Hpf as [Es Ea _ _ _ [Eb Ed] En].
  pose proof (update_ok_fields _ _ _ _ Es Ea (gu_ok _ _ _ _ _ _ _ g)) as Hok.
  pose proof (sound_base _ _ _ _ _ _ _ g Hdir Hfile Hat Es Ea En Eb Ed) as Hbase.
  eapply revert_inv_session in Hses; [| | | | | |by eapply revert_inv_start]; try done.
  eapply revert_inv_revert in Hr as [_ Hr]; [by apply Hr|..]; done.
Qed.

(** Every object is one that updates make, in a directory of its own. *)
Definition all_made objs w : Prop :=
  (∀ k obj invs, objs !! k = Some (obj, invs) → made obj w invs ∧ o_fs obj = fsys)
  ∧ ∀ k k' e e', objs !! k = Some e → objs !! k' = Some e' → k ≠ k' → apart (o_path e.1) (o_path e'.1).

Lemma others_made objs w k obj invs stage msg user opts w' obj' plan r content : all_made objs w →
  objs !! k = Some (obj, invs) → Update now strip json_Marshal obj stage msg user opts w = (w', (obj', Some plan, r)) →
  sound_update obj stage opts w plan content → Z.of_nat (S (length invs)) ≤ max_int64 →
  ∀ k' obj2 invs2, k ≠ k' → objs !! k' = Some (obj2, invs2) → made obj2 w' invs2 ∧ o_fs obj2 = fsys.
Proof using laws copies mel fol.
  intros [Hm Hap] Hk Hu Hsu Hmax k' obj2 invs2 Hne Hk'. destruct (Hm _ _ _ Hk) as [Hmk Hf], (Hm _ _ _ Hk') as [Hm2 Hf2].
  destruct (made_sound _ _ _ _ _ _ _ _ laws copies _ _ _ Hmk) as [Hso _]. split; [|done].
  eapply made_elsewhere; [exact Hm2|]. intros p t Ht. eapply Update_frame; [exact Hf|exact Hu|exact Hso|exact Hmax|exact Hsu|].
  assert (apart (o_path obj2) (o_path obj)) as Ha by exact (Hap k' k _ _ Hk' Hk (not_eq_sym Hne)). apply Ha. by rewrite Ht.
Qed.

Lemma replaced_made objs w w' k obj invs obj' invs' : all_made objs w → objs !! k = Some (obj, invs) →
  made obj' w' invs' → o_fs obj' = fsys → o_path obj' = o_path obj →
  (∀ k' obj2 invs2, k ≠ k' → objs !! k' = Some (obj2, invs2) → made obj2 w' invs2 ∧ o_fs obj2 = fsys) →
  all_made (<[k := (obj', invs')]> objs) w'.
Proof using.
  intros [_ Hap] Hk Hm Hf Hp Ho. split.
  - intros k' obj2 invs2 [[<- [= <- <-]]|[Hne Hk']]%lookup_insert_Some; [done|by eapply Ho].
  - assert (∀ k1 e1, <[k := (obj', invs')]> objs !! k1 = Some e1 → ∃ e, objs !! k1 = Some e ∧ o_path e1.1 = o_path e.1) as Hsame.
    { intros k1 e1 [[<- <-]|[Hne He]]%lookup_insert_Some; eauto. }
    intros k1 k2 e1 e2 (e1' & H1' & ->)%Hsame (e2' & H2' & ->)%Hsame Hne. by eapply Hap.
Qed.

Lemma obj_step_made objs w objs' w' : all_made objs w → obj_step objs w objs' w' → all_made objs' w'.
Proof using laws copies mel fol.
  intros Ha. destruct 1 as [k obj invs stage msg user opts w' obj' plan content Hk Hu Hsu Hmax|k obj invs opts obj' Hk Hi h Hc Ho
    |k obj invs stage msg user opts obj1 u content good u1 w1 src w2 u2 Hk Hn Hsu Hmax Hat Hco Hdir Hfile Hses Hr];
    destruct (proj1 Ha _ _ _ Hk) as [Hm Hf]; destruct (made_sound _ _ _ _ _ _ _ _ laws copies _ _ _ Hm) as [Hso _].
  - destruct (Update_sound _ _ _ _ _ _ _ _ laws copies _ _ _ _ _ _ _ _ _ _ _ Hf Hu Hso Hmax Hsu) as (_ & _ & Hf' & Hp' & _).
    eapply replaced_made; [exact Ha|exact Hk|by eapply made_update|done|done|by eapply others_made].
  - eapply replaced_made; [exact Ha|exact Hk|by eapply made_reopened| | |].
    1,2: destruct Hso as [Hb _]; destruct (o_inventory obj) as [o|]; [|done];
      by apply (conforming_NewObject sum files fsys w _ invs o opts Hb h Hc) in Ho as ->.
    intros k' obj2 invs2 _. apply Ha.
  - assert (files w2 = files w) as Hsame by (by eapply reverted). split; [|apply Ha].
    intros k' obj2 invs2 Hk'. destruct (proj1 Ha _ _ _ Hk') as [Hm2 Hf2]. split; [|done].
    eapply made_elsewhere; [exact Hm2|]. intros p t _. by rewrite Hsame.
Qed.

(** The directory and the identifier of an object. *)
Definition obj_key (e : Object FS * list StoredInventory) : string * string := (o_path e.1, Object_ID e.1).

(** A step changes no file outside of the directories of the objects, which keep
    their directories and identifiers. *)
Lemma obj_step_frame objs w objs' w' : all_made objs w → obj_step objs w objs' w' →
  (∀ k, obj_key <$> objs' !! k = obj_key <$> objs !! k)
  ∧ ∀ p, (∀ k e, objs !! k = Some e → rel (o_path e.1) p = None) → files w' !! p = files w !! p.
Proof using laws copies mel fol.
  intros Ha. assert (∀ k obj invs obj' invs', objs !! k = Some (obj, invs) → o_path obj' = o_path obj → Object_ID obj' = Object_ID obj →
    ∀ k', obj_key <$> <[k := (obj', invs')]> objs !! k' = obj_key <$> objs !! k') as Hsame.
  { intros k obj invs obj' invs' Hk Hp Hid k'. destruct (decide (k = k')) as [<-|Hne].
    - rewrite lookup_insert_eq, Hk. unfold obj_key. cbn. by rewrite Hp, Hid.
    - by rewrite lookup_insert_ne. }
  destruct 1 as [k obj invs stage msg user opts w' obj' plan content Hk Hu Hsu Hmax|k obj invs opts obj' Hk Hi h Hc Ho
    |k obj invs stage msg user opts obj1 u content good u1 w1 src w2 u2 Hk Hn Hsu Hmax Hat Hco Hdir Hfile Hses Hr];
    destruct (proj1 Ha _ _ _ Hk) as [Hm Hf]; destruct (made_sound _ _ _ _ _ _ _ _ laws copies _ _ _ Hm) as [Hso _].
  - destruct (Update_sound _ _ _ _ _ _ _ _ laws copies _ _ _ _ _ _ _ _ _ _ _ Hf Hu Hso Hmax Hsu) as (_ & _ & _ & Hp' & Hid).
    split; [by eapply Hsame|]. intros p Hp. by eapply Update_frame; [..|apply (Hp _ _ Hk)].
  - split; [|done]. destruct Hso as [Hb _]; destruct (o_inventory obj) as [o|] eqn:Hinv; [|done].
    apply (conforming_NewObject sum files fsys w _ invs o opts Hb h Hc) in Ho as ->. eapply Hsame; [done..|].
    unfold Object_ID, with_inv. cbn. by rewrite Hinv.
  - split; [done|]. intros p _. assert (files w2 = files w) as -> by (by eapply reverted). done.
Qed.

Lemma fresh_made objs w k obj : all_made objs w → objs !! k = None → fresh_object objs w obj → all_made (<[k := (obj, [])]> objs) w.
Proof using.
  intros [Hm Hap] Hk (Hf & Hi & Hn & Ho). split.
  - intros k' obj2 invs2 [[<- [= <- <-]]|[Hne Hk']]%lookup_insert_Some; [|by apply (Hm k')]. split; [by apply made_new|done].
  - intros k1 k2 e1 e2 [[<- <-]|[Hn1 H1']]%lookup_insert_Some [[<- <-]|[Hn2 H2']]%lookup_insert_Some Hne; [done| | |by eapply Hap].
    + by apply apart_sym, (Ho k2).
    + by apply (Ho k1).
Qed.

Lemma runs_made objs w : runs objs w → all_made objs w.
Proof using laws copies mel fol.
  induction 1 as [w|objs w k obj _ IH Hk Hfr|objs w objs' w' _ IH Hs
    |objs w k obj invs stage msg user opts w' obj' plan r content _ IH Hk Hu Hr Hsu Hmax|objs w w' _ IH Hsame].
  - split; intros k; intros; by rewrite lookup_empty in *.
  - by apply fresh_made.
  - by eapply obj_step_made.
  - split.
    + intros k' obj2 invs2 [Hne Hk']%lookup_delete_Some. revert k' obj2 invs2 Hne Hk'. by eapply others_made.
    + intros k1 k2 e1 e2 [_ H1']%lookup_delete_Some [_ H2']%lookup_delete_Some. by apply (proj2 IH).
  - split; [|apply IH]. intros k obj invs Hk. destruct (proj1 IH _ _ _ Hk) as [Hm Hf]. split; [|done].
    eapply made_elsewhere; [exact Hm|]. intros p t Ht. eapply (Hsame k (obj, invs)); [done|]. cbn. by rewrite Ht.
Qed.

(** C1. All objects of a storage are valid, however their updates are interleaved:
    after any sequence of updates of several objects, some of which failed and were
    reverted, or failed for good, and of changes outside of the objects, each object
    whose own updates went through or were reverted is accepted by
    [ValidateObject], with the inventory of its last successful update.

    The conditions, in [runs] and [can_validate]: each update is sound
    ([sound_update]: its stage and its source of content are right, its content
    paths are plain, and the new inventory can be stored); an update that is
    reverted is one of an object in a directory of its own that is not the top of
    the backend, its inventories can be decoded again, and if the object has
    versions already, then the failed writes and removals of the backend have no
    effect ([AtomicWrites], which the local backend does not promise); and at the
    validation the backend works ([Healthy]), lists and walks its files, and can
    have a directory "extensions" in the object, the options are those of the
    package, and the algorithms of the registry compute the digests that the
    updates were made with. *)
Theorem Storage_valid objs w k obj invs fuel opts :
  runs objs w → objs !! k = Some (obj, invs) → o_inventory obj ≠ None →
  can_validate sum files fsys obj w invs fuel opts →
  last invs = o_inventory obj
  ∧ ∃ v, ValidateObject fuel fsys (o_path obj) opts w = Ok v ∧ v_Err (vd_Validation v) = None
      ∧ o_inventory (vd_obj v) = o_inventory obj.
Proof using laws copies mel fol.
  intros [Hm _]%runs_made Hk Hi Hcv. destruct (Hm _ _ _ Hk) as [Hmk _].
  exact (made_valid _ _ _ _ _ _ _ _ laws copies obj w invs fuel opts Hmk Hi Hcv).
Qed.
End storage.

(** ** Two objects in one storage *)

#[local] Existing Instances ref_env ref_urls ref_multierror ref_multierror_laws ref_fold_laws ref_hashes ref_codec mem_fs sq_decoders.

(** After two versions of the first object, the first version of the second one
    fails in the copy of its content, when its declaration is written, and is
    reverted; then it is made. *)
Definition st_made (obj : Object ()) (stage : Stage ()) : Object () * res (UpdatePlan (gmap string string) ()) :=
  NewUpdatePlan ex_now id sq_marshal obj stage "msg" ex_user [].
Definition st_of (x : Object () * res (UpdatePlan (gmap string string) ())) : UpdatePlan (gmap string string) () :=
  match x.2 with Ok u => u | _ => ex_plan ex_new None end.
Lemma st_made_eq obj stage (x := st_made obj stage) : is_ok x.2 = true →
  NewUpdatePlan ex_now id sq_marshal obj stage "msg" ex_user [] = (x.1, Ok (st_of x)).
Proof. fold (st_made obj stage). fold x. by destruct x as [o [u|e|]]. Qed.

Definition st_plan := st_made sq_obj3 sq_stage1.
Definition st_failed := Apply (st_of st_plan) () "p/q" (Some (λ _, None)) sq_upd2.1.
Definition st_reverted := Revert st_failed.2.1 () "p/q" None st_failed.1.
Definition st_upd3 := sq_update sq_obj3 sq_stage1 st_reverted.1.

Lemma st_planned : NewUpdatePlan ex_now id sq_marshal sq_obj3 sq_stage1 "msg" ex_user [] = (st_plan.1, Ok (st_of st_plan)).
Proof. apply st_made_eq. by vm_compute. Qed.

Lemma st_run_eq {A} (x : gmap string string * (A * res unit)) : is_ok x.2.2 = true → x = (x.1, (x.2.1, Ok ())).
Proof. by destruct x as [w [u [[]|e|]]]. Qed.

Lemma st_reverts : Revert st_failed.2.1 () "p/q" None st_failed.1 = (st_reverted.1, (st_reverted.2.1, Ok ())).
Proof. apply (st_run_eq (Revert _ _ _ _ _)). by vm_compute. Qed.

Lemma st_fails : is_ok st_failed.2.2 = false ∧ st_failed.1 !! "p/q/0=ocfl_object_1.1" ≠ None.
Proof. split; by vm_compute. Qed.

Lemma st_session : session () "p/q" true (λ _, True) (st_of st_plan) sq_upd2.1 st_failed.2.1 st_failed.1.
Proof.
  apply (session_apply _ _ _ _ (Some (λ _, None)) _ _ st_failed.2.1 st_failed.1 st_failed.2.2); [exact I| |apply session_start].
  exact (surjective_pairing_2 st_failed).
Qed.

Lemma st_codec : codec_ok (up_newInv (st_of st_plan)) (up_oldInv (st_of st_plan)).
Proof.
  split; [done| |].
  - intros si Hsi. assert (newStoredInventory (si_bytes (up_newInv (st_of st_plan))) = inl (up_newInv (st_of st_plan))) as He by (by vm_compute).
    rewrite He in Hsi. exact (eq_sym (inj inl _ _ Hsi)).
  - intros o Ho. assert (up_oldInv (st_of st_plan) = None) as He by (by vm_compute). rewrite He in Ho. discriminate Ho.
Qed.

(** The two objects. *)
Definition st_start : gmap string (Object () * list StoredInventory) := {["one" := (sq_obj0, []); "two" := (sq_obj3, [])]}.
Notation st_runs := (runs ex_now id sq_marshal ex_text sq_sum mem_ops (λ m, m) ()).

Lemma st_two {A} (a b : A) k e : ({["one" := a; "two" := b]} : gmap string A) !! k = Some e → k = "one" ∧ e = a ∨ k = "two" ∧ e = b.
Proof. intros [[<- <-]|[_ [<- <-]%lookup_singleton_Some]]%lookup_insert_Some; auto. Qed.

(** No file of the first storage is in a directory. *)
Lemma st_nothing obj objs : bool_decide (map_Forall (λ p _, rel (o_path obj) p = None) sq_storage) = true →
  o_inventory obj = None → (∀ k e, objs !! k = Some e → apart (o_path e.1) (o_path obj)) →
  fresh_object (λ m : gmap string string, m) () objs sq_storage obj.
Proof.
  intros Hall%bool_decide_eq_true Hi Ha. split_and!; [by destruct (o_fs obj)|done| |done].
  intros p [x Hx]. exact (Hall p x Hx).
Qed.

Lemma st_started : st_runs st_start sq_storage.
Proof.
  apply runs_new; [apply runs_new; [apply runs_start|done|]|by vm_compute|].
  - apply st_nothing; [by vm_compute|done|]. intros k e He. by rewrite lookup_empty in He.
  - apply st_nothing; [by vm_compute|done|]. intros k e [<- <-]%lookup_singleton_Some. apply apart_sym. by apply apart_prefix.
Qed.

Definition st_objects : gmap string (Object () * list StoredInventory) :=
  <["two" := (st_upd3.2.1.1, [up_newInv (sq_plan st_upd3)])]> (<["one" := (sq_upd2.2.1.1,
    [up_newInv (sq_plan sq_upd1); up_newInv (sq_plan sq_upd2)])]> (<["one" := (sq_upd1.2.1.1, [up_newInv (sq_plan sq_upd1)])]> st_start)).

Lemma st_sound3 : sound_update ex_now ex_text sq_sum (λ m, m) sq_obj3 sq_stage1 [] st_reverted.1 (sq_plan st_upd3) sq_content.
Proof. apply sq_sound; [by vm_compute|by vm_compute|]. intros d [x [<- _]%lookup_singleton_Some]. by left. Qed.

Lemma st_sound_reverted : sound_update ex_now ex_text sq_sum (λ m, m) sq_obj3 sq_stage1 [] sq_upd2.1 (st_of st_plan) sq_content.
Proof. apply sq_sound; [by vm_compute|by vm_compute|]. intros d [x [<- _]%lookup_singleton_Some]. by left. Qed.

Lemma st_upd3_eq : Update ex_now id sq_marshal sq_obj3 sq_stage1 "msg" ex_user [] st_reverted.1
  = (st_upd3.1, (st_upd3.2.1.1, Some (sq_plan st_upd3), Ok ())).
Proof. apply sq_update_eq. by vm_compute. Qed.

Lemma st_run : st_runs st_objects st_upd3.1.
Proof.
  unfold st_objects. eapply (runs_step _ _ _ _ _ _ _ _ _ st_reverted.1);
    [|apply (step_update _ _ _ _ _ _ _ _ _ _ "two" sq_obj3 [] sq_stage1 "msg" ex_user [] _ _ _ sq_content);
      [by rewrite !lookup_insert_ne by done|exact st_upd3_eq|exact st_sound3|by vm_compute]].
  eapply (runs_step _ _ _ _ _ _ _ _ _ sq_upd2.1);
    [|apply (step_reverted _ _ _ _ _ _ _ _ _ _ "two" sq_obj3 [] sq_stage1 "msg" ex_user [] st_plan.1 (st_of st_plan) sq_content
        (λ _, True) st_failed.2.1 st_failed.1 None st_reverted.1 st_reverted.2.1);
      [by rewrite !lookup_insert_ne by done|exact st_planned|exact st_sound_reverted|by vm_compute|done|exact st_codec
       |by vm_compute|by vm_compute|exact st_session|exact st_reverts]].
  eapply (runs_step _ _ _ _ _ _ _ _ _ sq_upd1.1);
    [|apply (step_update _ _ _ _ _ _ _ _ _ _ "one" sq_upd1.2.1.1 [up_newInv (sq_plan sq_upd1)] sq_stage2 "msg" ex_user [] _ _ _ sq_content);
      [apply lookup_insert_eq|exact sq_upd2_eq|exact sq_sound2|by vm_compute]].
  eapply (runs_step _ _ _ _ _ _ _ _ st_start sq_storage);
    [exact st_started|apply (step_update _ _ _ _ _ _ _ _ _ _ "one" sq_obj0 [] sq_stage1 "msg" ex_user [] _ _ _ sq_content);
      [apply lookup_insert_eq|exact sq_upd1_eq|exact sq_sound1|by vm_compute]].
Qed.

Lemma Storage_valid_witness : ∃ v v',
  ValidateObject 100 () "o" [] st_upd3.1 = Ok v ∧ v_Err (vd_Validation v) = None
  ∧ o_inventory (vd_obj v) = Some (up_newInv (sq_plan sq_upd2))
  ∧ ValidateObject 100 () "p/q" [] st_upd3.1 = Ok v' ∧ v_Err (vd_Validation v') = None
  ∧ o_inventory (vd_obj v') = Some (up_newInv (sq_plan st_upd3)).
Proof.
  assert (∀ k obj invs root dir, st_objects !! k = Some (obj, invs) → o_inventory obj = Some root → o_path obj = dir →
    bool_decide (Forall (λ t, (String.length t < 100)%nat) (object_names invs root)) = true →
    ∃ v, ValidateObject 100 () dir [] st_upd3.1 = Ok v ∧ v_Err (vd_Validation v) = None ∧ o_inventory (vd_obj v) = Some root) as Hv.
  { intros k obj invs root dir Hk Hi Hp Hlen. apply bool_decide_eq_true in Hlen. rewrite Forall_forall in Hlen.
    destruct (Storage_valid ex_now id sq_marshal ex_text sq_sum mem_ops (λ m, m) () mem_write_laws mem_copy_laws
      st_objects st_upd3.1 k obj invs 100 [] st_run Hk) as (_ & v & Hv & He & Ho); [by rewrite Hi|split|].
    - apply mem_healthy.
    - apply mem_plain_entries.
    - apply fileWalk_walks; [apply mem_healthy|apply mem_plain_entries|done].
    - apply mem_nameable_dir.
    - constructor.
    - by apply register_ok.
    - apply sq_registry.
    - intros root' t. rewrite Hi. intros Hr. apply (inj Some) in Hr as <-. apply Hlen.
    - rewrite Hp in Hv. rewrite Hi in Ho. exists v. split; [exact Hv|]. split; [exact He|exact Ho]. }
  destruct (Hv "one" sq_upd2.2.1.1 [up_newInv (sq_plan sq_upd1); up_newInv (sq_plan sq_upd2)] (up_newInv (sq_plan sq_upd2)) "o")
    as (v & Hv1 & He1 & Ho1); [unfold st_objects; rewrite lookup_insert_ne by done; apply lookup_insert_eq|by vm_compute..|].
  destruct (Hv "two" st_upd3.2.1.1 [up_newInv (sq_plan st_upd3)] (up_newInv (sq_plan st_upd3)) "p/q")
    as (v' & Hv2 & He2 & Ho2); [apply lookup_insert_eq|by vm_compute..|].
  exists v, v'. split; [exact Hv1|]. split; [exact He1|]. split; [exact Ho1|]. split; [exact Hv2|]. split; [exact He2|exact Ho2].
Defined.
