(* ===== verification/RootObjects.v ===== *)
(** * The objects of a storage root

    A program opens objects in a storage root by their identifiers and updates
    them.  Whatever it does, the files below the root are the root's own and those
    of its objects, so that the root's iterators find exactly the objects that were
    made, and the root's validation accepts each of them.  The layout is used
    through its interface [Separates]; [HashIDTuple_separates] and
    [HashTuple_separates] (in Layouts.v) implement it. *)
From S2P Require Import Prelude GoStd VNum DigestMap Spec FS Namaste ObjectState Pipeline Digest Extension Codes Validation.
From S2P Require Import Inventory OcflInventory InventoryBytes InventoryJson Builder UpdatePlan PlanRuns PlanSpec PlanTheorems.
From S2P Require Import Local LogicalFS Healthy Listing Root ExtensionSpec RootSpec Layouts Stage Object ObjectValidation ValidateObject ValidateObjectSpec ObjectSpec.
From S2P Require Import Conforming ConformingSpec UpdatedObjects NextInventory UpdateSequence Storage.

(** ** The directory of a file *)

Lemma last_index_slash i a b : 0 ≤ i → no_slash b → last_index_from i (a +:+ "/" +:+ b) "/" = i + len a.
Proof.
  assert (∀ j, no_slash b → last_index_from j b "/" = -1) as Hb.
  { induction b as [|c b IH]; intros j Hb; [done|]. unfold no_slash in Hb. cbn in Hb. 
    change (last_index_from j (String c b) "/") with
      (let later := last_index_from (j + 1) b "/" in if later <? 0 then (if HasPrefix (String c b) "/" then j else -1) else later).
    cbv zeta. destruct (ascii_dec c slash) as [->|Hc]; [done|]. rewrite IH by exact Hb.
    destruct (HasPrefix (String c b) "/") eqn:E; [|done]. apply HasPrefix_true in E as [r E]. by injection E. }
  revert i. induction a as [|c a IH]; intros i Hi Hns.
  - change (last_index_from i ("" +:+ "/" +:+ b) "/") with
      (let later := last_index_from (i + 1) b "/" in if later <? 0 then i else later).
    rewrite Hb by done. cbn. change (len "") with 0. lia.
  - assert (len (String c a) = len a + 1) as -> by (unfold len; cbn; lia).
    change (last_index_from i (String c a +:+ "/" +:+ b) "/") with
      (let later := last_index_from (i + 1) (a +:+ "/" +:+ b) "/" in
       if later <? 0 then (if HasPrefix (String c (a +:+ "/" +:+ b)) "/" then i else -1) else later).
    cbv zeta. rewrite IH by (done || lia). pose proof (len_nonneg a). destruct (_ <? 0) eqn:E; [lia|]. lia.
Qed.

Lemma Clean_slash a : plain_path a → Clean (a +:+ "/") = a.
Proof.
  intros Ha. pose proof (plain_path_nonempty a Ha) as Hne. pose proof (plain_path_unrooted a Ha) as Hr.
  assert (∀ s, s ≠ "" → HasPrefix s "/" = false → Clean s =
    let body := join_with "/" (clean_elems false [] (split_on slash s)) in if bool_decide (body = "") then "." else body) as Hc.
  { intros s Hs Hu. destruct s; [done|]. unfold Clean. by rewrite Hu. }
  rewrite Hc.
  - change (a +:+ "/") with (a +:+ "/" +:+ ""). rewrite split_on_slash. change (split_on slash "") with [""].
    rewrite clean_elems_app by done. cbn.
    rewrite (bool_decide_true ("" = "")) by done. cbn. rewrite app_nil_r, rev_involutive, join_split. by rewrite bool_decide_false.
  - by destruct a.
  - destruct (HasPrefix (a +:+ "/") "/") eqn:He; [|done]. apply HasPrefix_true in He as [r He].
    destruct a as [|c a]; [done|]. injection He as -> _. discriminate (eq_trans (eq_sym (HasPrefix_app "/" a)) Hr).
Qed.

Lemma string_take_prefix a b : string_take (String.length a) (a +:+ b) = a.
Proof. induction a as [|c a IH]; [by destruct b|]. cbn. by rewrite IH. Qed.

Lemma Dir_app a b : plain_path a → no_slash b → Dir (a +:+ "/" +:+ b) = a.
Proof.
  intros Ha Hb. unfold Dir, LastIndex. rewrite last_index_slash by (done || lia).
  replace (Z.to_nat (0 + len a + 1)) with (String.length (a +:+ "/")).
  - rewrite string_app_assoc, string_take_prefix. by apply Clean_slash.
  - rewrite string_length_app. unfold len. cbn. lia.
Qed.

(** A file below a subdirectory is below the directory. *)
Lemma rel_below dir b p t : ValidPath dir = true → plain_path b →
  rel (Join [dir; b]) p = Some t → rel dir p = Some (b +:+ "/" +:+ t).
Proof.
  intros Hd Hb. rewrite Join_dir by done. unfold rel. destruct (bool_decide_reflect (dir = ".")) as [Hdot|Hdot].
  - rewrite bool_decide_false by by apply plain_not_dot. rewrite !CutPrefix_Some.
    intros ->. by rewrite <- string_app_assoc.
  - assert (dir +:+ "/" +:+ b ≠ ".") as Hne.
    { intros E. pose proof (ValidPath_plain dir Hd Hdot) as Hp%plain_path_nonempty. destruct dir as [|c dir]; [done|].
      apply (f_equal String.length) in E. rewrite !string_length_app in E. cbn in E. lia. }
    rewrite bool_decide_false by done. rewrite !CutPrefix_Some. intros ->. by rewrite <- !string_app_assoc.
Qed.

Lemma rel_slash dir p t x : rel dir p = Some t → rel dir (p +:+ "/" +:+ x) = Some (t +:+ "/" +:+ x).
Proof. unfold rel. rewrite !CutPrefix_Some. intros ->. by rewrite <- !string_app_assoc. Qed.

Lemma rel_self dir b x : ValidPath dir = true → plain_path b → rel (Join [dir; b]) (Join [dir; b] +:+ "/" +:+ x) = Some x.
Proof.
  intros Hd Hb. unfold rel. rewrite bool_decide_false; [apply CutPrefix_Some; by rewrite <- string_app_assoc|].
  by apply Join_not_dot.
Qed.

Lemma slash_prefix a dir x : a +:+ "/" = (dir +:+ "/") +:+ x → a = dir ∨ ∃ x', a = dir +:+ "/" +:+ x'.
Proof.
  revert a. induction dir as [|c dir IH]; intros [|c' a] E; cbn in E.
  - by left.
  - injection E as -> <-. right. by exists a.
  - injection E as _ E. by destruct dir.
  - injection E as -> E. destruct (IH a E) as [->|[x' ->]]; [by left|right; by exists x'].
Qed.

(** What is above a path below a directory, and not in the directory, is above
    all paths below it. *)
Lemma above_dir a dir p q : below a p = true → is_Some (rel dir p) → rel dir a = None → is_Some (rel dir q) → below a q = true.
Proof.
  unfold below, rel. case_bool_decide as Hdot; [intros _ _ E; by destruct a|].
  rewrite !HasPrefix_true. intros [r Hr] [t Ht] Ha [u Hu]. apply CutPrefix_Some in Ht, Hu. rewrite Hr in Ht.
  apply string_app_prefix in Ht as [[x Hx]%HasPrefix_true|[x Hx]%HasPrefix_true].
  - apply slash_prefix in Hx as [->|[x' ->]]; [by exists u|]. by rewrite string_app_assoc, CutPrefix_app in Ha.
  - exists (x +:+ u). by rewrite Hu, Hx, <- string_app_assoc.
Qed.

(** ** Opening an object that is not there *)

Section absent.
Context `{GoEnv, URLs, MultiError, Hashes, Decoders} {W FS : Type} `{!FileSystems W FS}.
Context (fsys : FS) (files : W → gmap string string) (w : W) (h : Healthy fsys files w).

Lemma ReadInventory_absent dir : ValidPath dir = true → (∀ p, is_Some (files w !! p) → rel dir p = None) →
  ∃ e, ReadInventory fsys dir w = inr e
    ∧ (nameable fsys (Join [dir; inventoryBase]) → unblocked (files w) (Join [dir; inventoryBase]) → errors_Is e fs_ErrNotExist = true).
Proof.
  intros Hd Hn. assert (plain_path inventoryBase) as Hp by apply inventoryBase_plain.
  destruct (h_absent _ _ _ h (Join [dir; inventoryBase])) as (e & Ho & He).
  - apply valid_name_Join; [done|]. by split.
  - by apply Join_not_dot.
  - destruct (files w !! Join [dir; inventoryBase]) eqn:E; [|done]. specialize (Hn (Join [dir; inventoryBase])).
    rewrite rel_Join in Hn by done. by rewrite E in Hn; discriminate Hn.
  - apply mem_children_empty. intros p Hp'. rewrite child_of_rel. destruct (rel (Join [dir; inventoryBase]) p) eqn:E; [|done].
    apply rel_below in E; [|done..]. by rewrite Hn in E.
  - exists e. unfold ReadInventory. by rewrite Ho.
Qed.

Lemma NewObject_absent dir opts (config := (newObjectAndConfig fsys dir opts).2) :
  ValidPath dir = true → files w !! dir = None → (∀ p, is_Some (files w !! p) → rel dir p = None) →
  oc_inv config = None →
  let obj := mkObject fsys dir None false (oc_root config) (oc_requiredID config) in
  (nameable fsys (Join [dir; inventoryBase]) → unblocked (files w) (Join [dir; inventoryBase]) →
   oc_mustExist config = false → oc_requiredID config ≠ "" → NewObject fsys dir opts w = Ok obj)
  ∧ ∀ obj', NewObject fsys dir opts w = Ok obj' → obj' = obj.
Proof.
  intros Hd Hf Hn Hc. destruct (ReadInventory_absent dir Hd Hn) as (e & Hr & He).
  unfold NewObject. rewrite Hd. cbn [negb]. unfold newObjectAndConfig. cbn [snd] in config. subst config.
  cbn in Hc |- *. set (config := foldl _ _ _) in *. clearbody config. rewrite Hc. cbn. unfold sync. cbn. rewrite Hr. cbn.
  destruct (healthy_ReadDir_empty fsys files w h dir Hd Hf) as (err & Hls & Herr).
  { apply mem_children_empty. intros p Hp. rewrite child_of_rel. by rewrite Hn. }
  unfold open_new. cbn. rewrite Hls. split.
  - intros Hname Hu -> Hid. unfold unless_not_exist. cbn. rewrite He, bool_decide_false by done.
    destruct err as [e'|]; [|done]. rewrite Herr; [done| |].
    + exists inventoryBase. split; [apply inventoryBase_plain|done].
    + apply (unblocked_dir _ _ inventoryBase); [done|apply inventoryBase_plain|done].
  - intros obj'. destruct (oc_mustExist config); [done|]. unfold unless_not_exist. cbn.
    destruct (errors_Is e fs_ErrNotExist); [|done]. case_bool_decide; [done|].
    destruct err as [e'|]; [destruct (errors_Is e' fs_ErrNotExist); [|done]|]; by intros [= <-].
Qed.
End absent.

(** ** Declarations among the files *)

(** A name that is the declaration of an object. *)
Definition declares (name : string) : bool :=
  match ParseNamaste name with Ok decl => Namaste_IsObject decl | _ => false end.

Lemma last_nonempty_plain l acc acc' : l ≠ [] → Forall (λ e, e ≠ "") l → last_nonempty l acc = last_nonempty l acc'.
Proof. destruct l as [|e l]; [done|]. intros _ Hl. inversion_clear Hl. cbn. by rewrite bool_decide_false. Qed.

(** The base of a file does not depend on where its directory is. *)
Lemma Base_below a t : plain_path t → Base (a +:+ "/" +:+ t) = Base t.
Proof.
  intros Ht. pose proof (plain_path_nonempty t Ht) as Hne. unfold Base. rewrite split_on_slash.
  assert (∀ l l' acc, last_nonempty (l ++ l') acc = last_nonempty l' (last_nonempty l acc)) as Happ
    by (induction l as [|e l IH]; intros; [done|]; cbn; apply IH).
  rewrite Happ, (last_nonempty_plain (split_on slash t) _ "").
  - destruct t; [done|]. destruct a; done.
  - intros E. apply (f_equal (join_with "/")) in E. by rewrite join_split in E.
  - eapply Forall_impl; [done|]. intros e He. by apply plain_elem_spec in He as [? _].
Qed.

(** The declaration is the only file of a conforming object that declares it,
    besides content of that name. *)
Lemma names_declare `{GoEnv, URLs, MultiError, Hashes, Decoders} `{!MultiErrorLaws, !FoldLaws} sum m dir invs root t :
  conforming sum m dir invs root → (∀ p, p ∈ all_paths (manifest (si_Inventory root)) → declares (Base p) = false) →
  t ∈ object_names invs root → declares (Base t) = true ↔ t = decl_name (si_spec root).
Proof.
  intros c Hcontent Ht. destruct (root_parts sum (λ m, m) m dir invs root c) as (_ & _ & Rok & _ & Hs).
  assert (∀ alg, alg = SHA512 ∨ alg = SHA256 → declares (sidecar_name alg) = false) as Hsc by (by intros ? [-> | ->]).
  pose proof (iok_alg _ _ Rok) as Ha.
  assert (declares (Base t) = false → t ≠ decl_name (si_spec root) → declares (Base t) = true ↔ t = decl_name (si_spec root)) as Hno.
  { intros -> ?. by split. }
  apply object_names_elem in Ht as [Ht|[(k & si & Hk & Ht)|Ht]].
  - unfold root_names in Ht. rewrite !elem_of_cons, elem_of_nil in Ht. destruct Ht as [->|[->|[->|[]]]].
    + by destruct Hs as [-> | ->].
    + refine (Hno _ _); [done|]. by destruct Hs as [-> | ->].
    + refine (Hno _ _); unfold si_alg; destruct Ha as [-> | ->]; try done; by destruct Hs as [-> | ->].
  - destruct (parts sum (λ m, m) m dir invs root c k si Hk) as (_ & _ & Iok & _). pose proof (iok_alg _ _ Iok) as Hai.
    assert (k < length invs)%nat as Hlt by (by eapply lookup_lt_Some).
    refine (Hno _ _).
    + destruct Ht as [->| ->]; rewrite Base_app; try done; unfold si_alg; by destruct Hai as [-> | ->].
    + intros E. assert (no_slash t) as Hns by (rewrite E; by destruct Hs as [-> | ->]).
      destruct Ht as [->| ->]; apply Cut_no_slash in Hns; rewrite Cut_slash in Hns; try done;
        by apply (nth_valid sum (λ m, m) m dir invs root c).
  - refine (Hno _ _); [by apply Hcontent|]. intros ->. destruct (cf_paths _ _ _ _ _ c _ Ht) as (k & x & Hk & E).
    assert (no_slash (decl_name (si_spec root))) as Hns by (by destruct Hs as [-> | ->]).
    apply Cut_no_slash in Hns. rewrite E, Cut_slash in Hns; [done|].
    by apply (nth_valid sum (λ m, m) m dir invs root c).
Qed.

(** ** Objects opened in a root *)

Section root.
Context `{GoEnv, URLs, MultiError, Hashes, Decoders, PlanCodec} {mel : MultiErrorLaws} {fol : FoldLaws} {W FS : Type} `{!FileSystems W FS}.
Context (now : nat → Time) (strip : Z → Z) (json_Marshal : Inventory → result string) (time_text : Time → string).
Context (sum : string → string → string) (ops : WriteFS W) (files : W → gmap string string).
(** A root with a layout, the files of its own, and the identifiers that are used. *)
Context (r : Root FS) (layout : Extension) (own : list string) (ids : string → Prop) {sep : Separates layout own ids}.
Context (Hlayout : r_layout r = Some layout) (Hdir : ValidPath (r_dir r) = true).
Context (laws : WriteLaws (r_fs r) ops files) (copies : CopyLaws (r_fs r) files).
Notation fsys := (r_fs r).
Notation objects := (gmap string (Object FS * list StoredInventory)).
Notation obj_step := (obj_step now strip json_Marshal time_text sum ops files fsys).
Notation all_made := (all_made now strip json_Marshal time_text sum files fsys).
Implicit Types (obj : Object FS) (objs : objects) (w : W).

(** No inventory is among the options. *)
Definition no_inventory (opts : list (ObjectOption (FS:=FS))) : Prop :=
  oc_inv (newObjectAndConfig fsys "." opts).2 = None.

(** What a program does in the root, with the objects by their identifiers: it
    starts with a root that has nothing but its own files; opens objects that it
    has not opened before; and works with them. *)
Inductive uses : objects → W → Prop :=
  | uses_start w : lists (files w) (r_dir r) own → uses ∅ w
  | uses_open objs w id opts obj : uses objs w → ids id → objs !! id = None → Healthy fsys files w → no_inventory opts →
      Root_NewObject r id opts w = Ok obj → uses (<[id := (obj, [])]> objs) w
  | uses_step objs w objs' w' : uses objs w → obj_step objs w objs' w' → uses objs' w'.

(** Each object is in the directory of its identifier, and every file below the
    root is its own or below an object. *)
Record root_inv objs w : Prop := {
  ri_made : all_made objs w;
  ri_key : ∀ id e, objs !! id = Some e → ids id ∧ ∃ p, ResolveID r id = Ok p ∧ obj_key e = (Join [r_dir r; p], id);
  ri_own : ∀ t, t ∈ own → valid_name t ∧ is_Some (files w !! Join [r_dir r; t]);
  ri_tree : ∀ a b, a ∈ own → (a +:+ "/" +:+ b) ∉ own;
  ri_cover : ∀ p t, is_Some (files w !! p) → rel (r_dir r) p = Some t →
    t ∈ own ∨ ∃ id e, objs !! id = Some e ∧ is_Some (rel (o_path e.1) p)
}.

Lemma resolved id p : ids id → ResolveID r id = Ok p → Resolve layout id = Ok p ∧ valid_name p.
Proof using sep Hlayout.
  intros Hid. unfold ResolveID. rewrite Hlayout. destruct (Resolve layout id) as [q|e|] eqn:Hq; [|done..]. cbn.
  destruct (ValidPath q) eqn:Hv; [|done]. intros [= <-]. split; [done|]. split; [done|]. by eapply sep_name.
Qed.

(** A path below an object is not one of the root's own, nor below another object. *)
Lemma below_own id p t : ids id → ResolveID r id = Ok p → (p +:+ "/" +:+ t) ∉ own.
Proof using sep Hlayout.
  intros Hid Hp Hin. destruct (resolved id p Hid Hp) as [Hr _].
  apply (sep_own id p _ Hid Hr Hin). by rewrite first_elem_app.
Qed.

Lemma resolved_apart id id' p p' : ids id → ids id' → id ≠ id' → ResolveID r id = Ok p → ResolveID r id' = Ok p' →
  apart (Join [r_dir r; p]) (Join [r_dir r; p']).
Proof using sep Hlayout Hdir.
  intros Hid Hid' Hne Hp Hp'. destruct (resolved id p Hid Hp) as [Hr Hv], (resolved id' p' Hid' Hp') as [Hr' Hv'].
  apply apart_Join; [done..|]. exact (sep_apart id id' p p' Hid Hid' Hne Hr Hr').
Qed.

(** No file is in the directory of an identifier that has not been used. *)
Lemma unused objs w id p : root_inv objs w → ids id → objs !! id = None → ResolveID r id = Ok p →
  files w !! Join [r_dir r; p] = None ∧ ∀ q, is_Some (files w !! q) → rel (Join [r_dir r; p]) q = None.
Proof using sep Hlayout Hdir.
  intros Hi Hid Hn Hp. destruct (resolved id p Hid Hp) as [Hres Hvn]. pose proof (valid_name_plain p Hvn) as Hv.
  assert (∀ id' e t, objs !! id' = Some e → rel (o_path e.1) (Join [r_dir r; p]) ≠ Some t) as Hnot.
  { intros id' e t He Ht. destruct (ri_key _ _ Hi id' e He) as (Hid' & p' & Hp' & [= Ek _]). rewrite Ek in Ht.
    assert (id' ≠ id) as Hne by congruence. pose proof (resolved_apart id' id p' p Hid' Hid Hne Hp' Hp) as Ha.
    apply (rel_slash _ _ _ "x") in Ht. specialize (Ha _ ltac:(by eexists)). by rewrite rel_self in Ha. }
  split.
  { destruct (files w !! _) eqn:Hf; [|done]. exfalso.
    destruct (ri_cover _ _ Hi (Join [r_dir r; p]) p) as [Ho|(id' & e & He & t & Ht)]; [by rewrite Hf|by apply rel_Join| |].
    - by apply (sep_own id p p Hid Hres Ho).
    - by apply (Hnot id' e t He). }
  intros q Hq.
  destruct (rel (Join [r_dir r; p]) q) as [t|] eqn:Ht; [|done]. exfalso. pose proof Ht as Hd%rel_below; [|done..].
  destruct (ri_cover _ _ Hi q _ Hq Hd) as [Ho|(id' & e & He & Hr)]; [by apply (below_own id p t Hid Hp)|].
  destruct (ri_key _ _ Hi id' e He) as (Hid' & p' & Hp' & [= Ek _]). rewrite Ek in Hr.
  assert (id' ≠ id) as Hne by congruence. by rewrite (resolved_apart id' id p' p Hid' Hid Hne Hp' Hp q Hr) in Ht.
Qed.

(** No file is above the inventory of such an identifier. *)
Lemma unused_unblocked objs w id p : root_inv objs w → own ≠ [] → ids id → objs !! id = None → ResolveID r id = Ok p →
  unblocked (files w) (Join [Join [r_dir r; p]; inventoryBase]).
Proof using sep Hlayout Hdir.
  intros Hi Hown Hid Hn Hp a Ha Hf. destruct (resolved id p Hid Hp) as [Hres Hvn]. pose proof (valid_name_plain p Hvn) as Hv.
  set (name := Join [Join [r_dir r; p]; inventoryBase]) in *. pose proof inventoryBase_plain as Hpi.
  assert (rel (Join [r_dir r; p]) name = Some inventoryBase) as Hin by (apply rel_Join; [by apply valid_name_Join|done]).
  pose proof Hin as Hrel%rel_below; [|done..]. pose proof Ha as [y Hy]%HasPrefix_true. rewrite <- string_app_assoc in Hy.
  destruct (rel (r_dir r) a) as [t|] eqn:Ht.
  - exfalso. destruct (ri_cover _ _ Hi a t Hf Ht) as [Ho|(id' & e & He & u & Hu)].
    + apply (rel_slash _ _ _ y) in Ht. rewrite <- Hy, Hrel in Ht. injection Ht as E.
      apply (sep_own id p t Hid Hres Ho). change (p +:+ "/" +:+ inventoryBase = t +:+ "/" +:+ y) in E.
      apply (f_equal first_elem) in E. by rewrite !first_elem_app in E.
    + destruct (ri_key _ _ Hi id' e He) as (Hid' & p' & Hp' & [= Ek _]). rewrite Ek in Hu.
      assert (id' ≠ id) as Hne by congruence. apply (rel_slash _ _ _ y) in Hu. rewrite <- Hy in Hu.
      by rewrite (resolved_apart id' id p' p Hid' Hid Hne Hp' Hp name) in Hin.
  - destruct own as [|t0 own'] eqn:Eo; [done|]. destruct (ri_own _ _ Hi t0) as [Hvt Hft]; [rewrite Eo; left|].
    exists (Join [r_dir r; t0]). split; [done|]. apply (above_dir a (r_dir r) name); [done|by rewrite Hrel|done|].
    rewrite rel_Join; [by eexists|done|by apply valid_name_plain].
Qed.

(** Whether a path is below one of the objects. *)
Lemma below_objects objs q : (∃ id e, objs !! id = Some e ∧ is_Some (rel (o_path e.1) q))
  ∨ ∀ id e, objs !! id = Some e → rel (o_path e.1) q = None.
Proof using.
  destruct (decide (map_Forall (λ _ (e : Object FS * list StoredInventory), rel (o_path e.1) q = None) objs)) as [Ha|Hn].
  - right. intros id e He. by apply (Ha id e).
  - left. apply (map_not_Forall _ _) in Hn as (id & e & He & Hr). exists id, e. split; [done|].
    destruct (rel (o_path e.1) q); [done|]. by destruct Hr.
Qed.

(** The first opening of an object. *)
Lemma opened_new objs w id opts obj : root_inv objs w → ids id → objs !! id = None → Healthy fsys files w →
  no_inventory opts → Root_NewObject r id opts w = Ok obj →
  ∃ p, ResolveID r id = Ok p ∧ fresh_object files fsys objs w obj ∧ obj_key (obj, []) = (Join [r_dir r; p], id).
Proof using sep Hlayout Hdir.
  intros Hi Hid Hn h Hopts. unfold Root_NewObject. destruct (ResolveID r id) as [p|e|] eqn:Hp; [|done..]. cbn.
  intros Ho. exists p. split; [done|]. pose proof (unused objs w id p Hi Hid Hn Hp) as [Hf Hno].
  destruct (resolved id p Hid Hp) as [_ Hv].
  unfold Root_NewObjectDir in Ho. apply (NewObject_absent fsys files w h) in Ho as ->; [|by apply valid_name_Join|done..|].
  - assert (∀ dir, oc_requiredID (newObjectAndConfig fsys dir ((opts ++ [ObjectWithID id]) ++ [objectWithRoot r])).2 = id) as E.
    { intros dir. unfold newObjectAndConfig. cbn. rewrite !foldl_app. cbn. unfold objectWithRoot. cbn. by destruct (oc_root _). }
    split; [|unfold obj_key, Object_ID, with_inv; cbn; f_equal; apply (E ".")].
    split_and!; [done..|]. intros k e He. destruct (ri_key _ _ Hi k e He) as (Hk & p' & Hp' & [= Ek _]). cbn. rewrite Ek.
    assert (k ≠ id) as Hne by congruence. by apply (resolved_apart k id p' p).
  - revert Hopts. unfold no_inventory, newObjectAndConfig. cbn. rewrite !foldl_app. cbn. unfold objectWithRoot. cbn. by destruct (oc_root _).
Qed.

Lemma uses_inv objs w : uses objs w → root_inv objs w.
Proof using laws copies mel fol sep Hlayout Hdir.
  induction 1 as [w Hl|objs w id opts obj _ IH Hid Hn h Hopts Ho|objs w objs' w' _ IH Hs].
  - split.
    + by split; intros k; intros; rewrite lookup_empty in *.
    + intros id e He. by rewrite lookup_empty in He.
    + intros t Ht. split; [by apply (ls_valid _ _ _ Hl)|by apply (ls_in _ _ _ Hl)].
    + apply (ls_tree _ _ _ Hl).
    + intros p t Hp Ht. left. by eapply (ls_only _ _ _ Hl).
  - destruct (opened_new objs w id opts obj IH Hid Hn h Hopts Ho) as (p & Hp & Hfr & Hkey). split.
    + apply fresh_made; [apply IH|done|done].
    + intros id' e [[<- <-]|[Hne He]]%lookup_insert_Some; [eauto|by apply (ri_key _ _ IH)].
    + apply (ri_own _ _ IH).
    + apply (ri_tree _ _ IH).
    + intros q t Hq Ht. destruct (ri_cover _ _ IH q t Hq Ht) as [?|(id' & e & He & Hr)]; [by left|right].
      exists id', e. split; [|done]. rewrite lookup_insert_ne; [done|congruence].
  - pose proof (obj_step_made _ _ _ _ _ _ _ _ laws copies _ _ _ _ (ri_made _ _ IH) Hs) as Hm.
    destruct (obj_step_frame _ _ _ _ _ _ _ _ laws copies _ _ _ _ (ri_made _ _ IH) Hs) as [Hk Hf].
    assert (∀ id e', objs' !! id = Some e' → ∃ e, objs !! id = Some e ∧ obj_key e = obj_key e') as Hback.
    { intros id e' He'. specialize (Hk id). rewrite He' in Hk. destruct (objs !! id) as [e|]; [|done]. injection Hk as E1 E2.
      exists e. split; [done|]. unfold obj_key. by rewrite E1, E2. }
    assert (∀ id e, objs !! id = Some e → ∃ e', objs' !! id = Some e' ∧ obj_key e' = obj_key e) as Hforth.
    { intros id e He. specialize (Hk id). rewrite He in Hk. destruct (objs' !! id) as [e'|]; [|done]. injection Hk as E1 E2.
      exists e'. split; [done|]. unfold obj_key. by rewrite E1, E2. }
    split; [done| | |apply (ri_tree _ _ IH)|].
    + intros id e' (e & He & <-)%Hback. by apply (ri_key _ _ IH).
    + intros t Ht. destruct (ri_own _ _ IH t Ht) as [Hv Hin]. split; [done|]. rewrite Hf; [done|]. intros id e He.
      destruct (rel (o_path e.1) (Join [r_dir r; t])) as [t'|] eqn:Hr; [|done]. exfalso.
      destruct (ri_key _ _ IH id e He) as (Hid & p & Hp & [= Ek _]). rewrite Ek in Hr.
      destruct (resolved id p Hid Hp) as [_ Hvp]. apply rel_below in Hr; [|done|by apply valid_name_plain].
      rewrite rel_Join in Hr by (done || by apply valid_name_plain). injection Hr as ->. by apply (below_own id p t' Hid Hp).
    + intros q t Hq Ht.
      destruct (below_objects objs q) as [(id & e & He & Hr)|Hnone].
      * right. destruct (Hforth id e He) as (e' & He' & [= Ek _]). exists id, e'. by rewrite Ek.
      * rewrite Hf in Hq by done. destruct (ri_cover _ _ IH q t Hq Ht) as [?|(id & e & He & [x Hr])]; [by left|].
        by rewrite (Hnone id e He) in Hr.
Qed.

(** ** The files of the root *)

(** The names of an object's files, in the root. *)
Definition entry_names (e : string * (Object FS * list StoredInventory)) : list string :=
  match ResolveID r e.1, o_inventory e.2.1 with
  | Ok p, Some root => (λ t, p +:+ "/" +:+ t) <$> object_names e.2.2 root
  | _, _ => []
  end.
Definition root_files objs : list string := own ++ (map_to_list objs ≫= entry_names).

Lemma root_files_elem objs t : t ∈ root_files objs ↔ t ∈ own ∨ ∃ id obj invs root p n,
  objs !! id = Some (obj, invs) ∧ o_inventory obj = Some root ∧ ResolveID r id = Ok p
  ∧ n ∈ object_names invs root ∧ t = p +:+ "/" +:+ n.
Proof using.
  unfold root_files. rewrite elem_of_app, list_elem_of_bind. f_equiv. split.
  - intros ([id [obj invs]] & Ht & Hin%elem_of_map_to_list). unfold entry_names in Ht. cbn [fst snd] in Ht.
    destruct (ResolveID r id) as [p|e|] eqn:Hp; [|by apply elem_of_nil in Ht..].
    destruct (o_inventory obj) as [root|] eqn:Hr; [|by apply elem_of_nil in Ht].
    apply list_elem_of_fmap in Ht as (n & -> & Hn). by exists id, obj, invs, root, p, n.
  - intros (id & obj & invs & root & p & n & He & Hr & Hp & Hn & ->). exists (id, (obj, invs)).
    split; [|by apply elem_of_map_to_list]. unfold entry_names. cbn [fst snd]. rewrite Hp, Hr. apply list_elem_of_fmap. by exists n.
Qed.

(** What the invariant says of an object. *)
Lemma entry_conforming objs w id obj invs : root_inv objs w → objs !! id = Some (obj, invs) →
  ids id ∧ o_fs obj = fsys ∧ Object_ID obj = id
  ∧ ∃ p, ResolveID r id = Ok p ∧ valid_name p ∧ o_path obj = Join [r_dir r; p]
  ∧ match o_inventory obj with
    | Some root => conforming sum (files w) (o_path obj) invs root
    | None => ∀ q, is_Some (files w !! q) → rel (o_path obj) q = None
    end.
Proof using laws copies mel fol sep Hlayout.
  intros Hi He. destruct (ri_key _ _ Hi id _ He) as (Hid & p & Hp & [= Ek Ei]). cbn in Ek, Ei.
  destruct (proj1 (ri_made _ _ Hi) id obj invs He) as [Hm Hf].
  destruct (made_sound _ _ _ _ _ _ _ _ laws copies _ _ _ Hm) as [[Hb _] _]. unfold before in Hb.
  split_and!; [done..|]. exists p. split; [done|]. split; [by apply (resolved id p Hid)|]. split; [done|].
  destruct (o_inventory obj); [done|apply Hb].
Qed.

Lemma root_lists objs w : root_inv objs w → lists (files w) (r_dir r) (root_files objs).
Proof using laws copies mel fol sep Hlayout Hdir.
  intros Hi. assert (∀ id obj invs root p, objs !! id = Some (obj, invs) → o_inventory obj = Some root → ResolveID r id = Ok p →
    ids id ∧ valid_name p ∧ o_path obj = Join [r_dir r; p] ∧ lists (files w) (Join [r_dir r; p]) (object_names invs root)) as Hobj.
  { intros id obj invs root p He Hr Hp. destruct (entry_conforming objs w id obj invs Hi He) as (Hid & _ & _ & p' & Hp' & Hv & Ek & Hc).
    rewrite Hp in Hp'. injection Hp' as <-. rewrite Hr, Ek in Hc. split_and!; [done..|apply Hc]. }
  split; [done| | | |].
  - intros t [Ht|(id & obj & invs & root & p & n & He & Hr & Hp & Hn & ->)]%root_files_elem; [by apply (ri_own _ _ Hi)|].
    destruct (Hobj id obj invs root p He Hr Hp) as (_ & Hv & _ & Hl). apply valid_name_slash.
    split; [done|by apply (ls_valid _ _ _ Hl)].
  - intros t [Ht|(id & obj & invs & root & p & n & He & Hr & Hp & Hn & ->)]%root_files_elem; [by apply (ri_own _ _ Hi)|].
    destruct (Hobj id obj invs root p He Hr Hp) as (_ & Hv & _ & Hl).
    rewrite <- Join_Join; [by apply (ls_in _ _ _ Hl)|done|by apply valid_name_plain|].
    by apply valid_name_plain, (ls_valid _ _ _ Hl).
  - intros q t Hq Ht. apply root_files_elem.
    destruct (ri_cover _ _ Hi q t Hq Ht) as [?|(id & [obj invs] & He & [x Hx])]; [by left|right]. cbn in Hx.
    destruct (entry_conforming objs w id obj invs Hi He) as (Hid & _ & _ & p & Hp & Hv & Ek & Hc).
    destruct (o_inventory obj) as [root|] eqn:Hr; [|by rewrite Hc in Hx].
    exists id, obj, invs, root, p, x. split_and!; [done..| |].
    + by eapply (ls_only _ _ _ (cf_names _ _ _ _ _ Hc)).
    + rewrite Ek in Hx. apply rel_below in Hx; [|done|by apply valid_name_plain]. congruence.
  - intros a b Ha Hb. apply root_files_elem in Ha, Hb.
    destruct Ha as [Ha|(id & obj & invs & root & p & n & He & Hr & Hp & Hn & ->)];
      destruct Hb as [Hb|(id' & obj' & invs' & root' & p' & n' & He' & Hr' & Hp' & Hn' & E)].
    + by apply (ri_tree _ _ Hi a b).
    + destruct (Hobj id' obj' invs' root' p' He' Hr' Hp') as (Hid' & _). destruct (resolved id' p' Hid' Hp') as [Hr2 _].
      apply (sep_own id' p' a Hid' Hr2 Ha). rewrite <- (first_elem_app p' n'), <- E. apply first_elem_app.
    + rewrite <- string_app_assoc in Hb. cbn in Hb. destruct (Hobj id obj invs root p He Hr Hp) as (Hid & _).
      by apply (below_own id p (n +:+ "/" +:+ b) Hid Hp).
    + destruct (Hobj id obj invs root p He Hr Hp) as (Hid & Hv & _ & Hl), (Hobj id' obj' invs' root' p' He' Hr' Hp') as (Hid' & Hv' & _ & Hl').
      rewrite <- string_app_assoc in E. change (p +:+ "/" +:+ (n +:+ "/" +:+ b) = p' +:+ "/" +:+ n') in E. destruct (decide (id = id')) as [<-|Hne].
      * rewrite He in He'. injection He' as <- <-. rewrite Hr in Hr'. injection Hr' as <-. rewrite Hp in Hp'. injection Hp' as <-.
        apply (inj (String.append _)) in E. injection E as E. rewrite <- E in Hn'. exact (ls_tree _ _ _ Hl n b Hn Hn').
      * pose proof (resolved_apart id id' p p' Hid Hid' Hne Hp Hp') as Hap.
        assert (∀ d x, valid_name d → valid_name x → rel (Join [r_dir r; d]) (Join [r_dir r; d +:+ "/" +:+ x]) = Some x) as Hrel.
        { intros d x Hd Hx. rewrite <- Join_Join by (done || by apply valid_name_plain).
          apply rel_Join; [by apply valid_name_Join|by apply valid_name_plain]. }
        pose proof (ls_valid _ _ _ Hl' n' Hn') as Hvn'. 
        assert (valid_name (p +:+ "/" +:+ (n +:+ "/" +:+ b))) as Hvb by (rewrite E; by apply valid_name_slash).
        apply valid_name_slash in Hvb as [_ Hvb]. specialize (Hrel p' n' Hv' Hvn') as E2.
        rewrite <- E in E2. rewrite Hap in E2; [done|]. by rewrite Hrel.
Qed.

(** ** Listing the objects *)

(** The objects that are found, with the inventory of their last update. *)
Definition found (e : string * (Object FS * list StoredInventory)) : option (Object FS) :=
  (λ root, mkObject fsys (o_path e.2.1) (Some root) true (Some r) "") <$> o_inventory e.2.1.
(** The path of an object's declaration in the root. *)
Definition declaration (e : string * (Object FS * list StoredInventory)) : option string :=
  match ResolveID r e.1, o_inventory e.2.1 with
  | Ok p, Some root => Some (p +:+ "/" +:+ decl_name (si_spec root))
  | _, _ => None
  end.

(** No content has the name of a declaration. *)
Definition no_declarations objs : Prop :=
  (∀ t, t ∈ own → declares (Base t) = false)
  ∧ ∀ id obj invs root p, objs !! id = Some (obj, invs) → o_inventory obj = Some root →
      p ∈ all_paths (manifest (si_Inventory root)) → declares (Base p) = false.

Lemma declarations_filter (refs : list (FileRef FS)) :
  object_declarations (Ok <$> refs) = Ok <$> List.filter (λ f, declares (Base (fr_Path f))) refs.
Proof using.
  induction refs as [|f refs IH]; [done|]. cbn. unfold declares. rewrite IH.
  by destruct (ParseNamaste _) as [d|e|]; [destruct (Namaste_IsObject d)|..].
Qed.

Lemma declaration_elem objs w t : root_inv objs w → no_declarations objs →
  t ∈ root_files objs ∧ declares (Base t) = true ↔ t ∈ omap declaration (map_to_list objs).
Proof using laws copies mel fol sep Hlayout.
  intros Hi [Hown Hcont]. rewrite list_elem_of_omap. split.
  - intros [[Ht|(id & obj & invs & root & p & n & He & Hr & Hp & Hn & ->)]%root_files_elem Hd]; [by rewrite Hown in Hd|].
    exists (id, (obj, invs)). split; [by apply elem_of_map_to_list|]. unfold declaration. cbn [fst snd]. rewrite Hp, Hr.
    destruct (entry_conforming objs w id obj invs Hi He) as (_ & _ & _ & _ & _ & _ & _ & Hc). rewrite Hr in Hc.
    rewrite Base_below in Hd by by apply valid_name_plain, (ls_valid _ _ _ (cf_names _ _ _ _ _ Hc)).
    apply (names_declare sum _ _ _ _ _ Hc) in Hd as ->; [done| |done]. intros q. by apply (Hcont id obj invs).
  - intros ([id [obj invs]] & He%elem_of_map_to_list & Hd). unfold declaration in Hd. cbn [fst snd] in Hd.
    destruct (entry_conforming objs w id obj invs Hi He) as (_ & _ & _ & p & Hp & _ & _ & Hc). rewrite Hp in Hd.
    destruct (o_inventory obj) as [root|] eqn:Hr; [|done]. apply (inj Some) in Hd as <-.
    assert (decl_name (si_spec root) ∈ object_names invs root) as Hin by (unfold object_names, root_names; left).
    split; [apply root_files_elem; right; by exists id, obj, invs, root, p, (decl_name (si_spec root))|].
    rewrite Base_below by by apply valid_name_plain, (ls_valid _ _ _ (cf_names _ _ _ _ _ Hc)).
    apply (names_declare sum _ _ _ _ _ Hc); [|done..]. intros q. by apply (Hcont id obj invs).
Qed.

Lemma declarations_once objs w : root_inv objs w → NoDup (omap declaration (map_to_list objs)).
Proof using laws copies mel fol sep Hlayout.
  intros Hi. assert (∀ e t, e ∈ map_to_list objs → declaration e = Some t → ids e.1
    ∧ ∃ p, ResolveID r e.1 = Ok p ∧ valid_name p ∧ ∃ d, t = p +:+ "/" +:+ d) as Hdec.
  { intros [id [obj invs]] t He%elem_of_map_to_list Hd. unfold declaration in Hd. cbn [fst snd] in *.
    destruct (entry_conforming objs w id obj invs Hi He) as (Hid & _ & _ & p & Hp & Hv & _). rewrite Hp in Hd.
    destruct (o_inventory obj) as [root|]; [|done]. apply (inj Some) in Hd as <-. split; [done|]. exists p. by eauto. }
  pose proof (NoDup_fst_map_to_list objs) as Hnd. revert Hnd Hdec. generalize (map_to_list objs) as l.
  induction l as [|e l IH]; [constructor|]. rewrite fmap_cons, NoDup_cons. intros [Hn Hnd] Hdec. cbn.
  assert (NoDup (omap declaration l)) as IHl by (apply IH; [done|]; intros; apply Hdec; [by right|done]).
  destruct (declaration e) as [t|] eqn:Hd; [|done]. apply NoDup_cons. split; [|done].
  intros (e' & He' & Hd')%list_elem_of_omap.
  destruct (Hdec e t ltac:(left) Hd) as (Hid & p & Hp & Hv & d & ->).
  destruct (Hdec e' _ ltac:(by right) Hd') as (Hid' & p' & Hp' & Hv' & d' & E).
  assert (e.1 ≠ e'.1) as Hne by (intros Ee; apply Hn; rewrite Ee; by apply list_elem_of_fmap_2).
  destruct (resolved e.1 p Hid Hp) as [Hr _], (resolved e'.1 p' Hid' Hp') as [Hr' _].
  assert (∀ q x, valid_name q → rel q (q +:+ "/" +:+ x) = Some x) as Hrel.
  { intros q x [_ Hq]. unfold rel. rewrite bool_decide_false by done. apply CutPrefix_Some. by rewrite <- string_app_assoc. }
  pose proof (sep_apart e.1 e'.1 p p' Hid Hid' Hne Hr Hr' (p +:+ "/" +:+ d)) as Hap.
  rewrite Hrel in Hap by done. rewrite E, Hrel in Hap by done. by specialize (Hap ltac:(done)).
Qed.

(** Opening the object of a declaration. *)
Lemma declared_opens objs w e q : root_inv objs w → Healthy fsys files w → e ∈ map_to_list objs → declaration e = Some q →
  ∃ obj, found e = Some obj ∧ NewObject fsys (Dir (Join [r_dir r; q])) [ObjectMustExist; objectWithRoot r] w = Ok obj.
Proof using laws copies mel fol sep Hlayout Hdir.
  intros Hi h. destruct e as [id [obj invs]]. intros He%elem_of_map_to_list Hd.
  destruct (entry_conforming objs w id obj invs Hi He) as (_ & _ & _ & p & Hp & Hv & Ek & Hc).
  unfold declaration, found in *. cbn [fst snd] in *. rewrite Hp in Hd. destruct (o_inventory obj) as [root|]; [|done].
  apply (inj Some) in Hd as <-. eexists. split; [done|].
  assert (no_slash (decl_name (si_spec root)) ∧ plain_path (decl_name (si_spec root))) as [Hns Hpl].
  { destruct (root_parts sum files w _ _ _ Hc) as (_ & _ & _ & _ & Hs).
    destruct (Namaste_Name_elem (object_declaration (si_spec root))) as [Hns Hpe]; [by destruct Hs as [-> | ->]|].
    split; [done|by apply plain_path_elem]. }
  rewrite <- Join_Join by (done || by apply valid_name_plain).
  rewrite (Join_dir (Join [r_dir r; p])) by (done || by apply valid_name_Join).
  assert (Join [r_dir r; p] ≠ ".") as Hne.
  { rewrite Join_dir by (done || by apply valid_name_plain). case_bool_decide; [apply Hv|].
    intros E. apply (f_equal String.length) in E. rewrite !string_length_app in E. pose proof (ValidPath_plain _ Hdir) as Hpr.
    specialize (Hpr ltac:(done)). apply plain_path_nonempty in Hpr. destruct (r_dir r); [done|]. cbn in E. lia. }
  rewrite bool_decide_false by done.
  rewrite Dir_app by (done || by apply ValidPath_plain; [by apply valid_name_Join|]). rewrite <- Ek.
  apply (conforming_NewObject sum files fsys w (o_path obj) invs root [ObjectMustExist; objectWithRoot r] Hc h); [done|by left].
Qed.

Section listed.
Context objs w (fuel : nat) (Hi : root_inv objs w).

(** What a walk of the root needs, and finds. *)
Record can_list : Prop := {
  cl_healthy : Healthy fsys files w;
  cl_walks : walks fsys files w fuel;
  cl_own : own ≠ [];
  cl_fuel : ∀ t, t ∈ root_files objs → (String.length t < fuel)%nat;
  cl_names : no_declarations objs
}.
Context (cl : can_list).

Lemma listed_declarations : ∃ refs, ObjectDeclarations fuel r w = Ok <$> refs
  ∧ (∀ f, f ∈ refs → fr_FS f = fsys ∧ fr_BaseDir f = r_dir r)
  ∧ fr_Path <$> refs ≡ₚ omap declaration (map_to_list objs).
Proof using laws copies mel fol sep Hlayout Hdir Hi cl.
  destruct cl as [h Hwalk Hne Hlen Hno].
  destruct (Hwalk (r_dir r) (root_files objs) (root_lists objs w Hi)) as (refs & Hr & [Hfrom Hnd Hq]); [by intros [? _]%app_nil|done|].
  exists (List.filter (λ f, declares (Base (fr_Path f))) refs). unfold ObjectDeclarations. rewrite Hr, declarations_filter.
  split; [done|]. assert (∀ f, f ∈ List.filter (λ f, declares (Base (fr_Path f))) refs ↔ f ∈ refs ∧ declares (Base (fr_Path f)) = true) as Hf.
  { intros f. by rewrite !list_elem_of_In, List.filter_In. }
  split; [intros f [? _]%Hf; by apply Hfrom|]. apply NoDup_Permutation.
  - clear -Hnd. induction refs as [|f refs IH]; [constructor|]. rewrite fmap_cons, NoDup_cons in Hnd. destruct Hnd as [Hn Hnd].
    cbn. destruct (declares _); [|by apply IH]. rewrite fmap_cons, NoDup_cons. split; [|by apply IH].
    intros (f' & Ef & Hin)%list_elem_of_fmap. apply Hn. rewrite Ef. apply list_elem_of_fmap_2.
    rewrite list_elem_of_In, List.filter_In in Hin. apply list_elem_of_In. tauto.
  - by apply (declarations_once objs w).
  - intros q. rewrite <- (declaration_elem objs w) by done. rewrite <- Hq, list_elem_of_fmap. setoid_rewrite Hf. naive_solver.
Qed.

Lemma listed_objects numgos : ObjectsBatch fuel r numgos [] w ≡ₚ Ok <$> omap found (map_to_list objs).
Proof using laws copies mel fol sep Hlayout Hdir Hi cl.
  destruct listed_declarations as (refs & Hr & Hfrom & Hperm). unfold ObjectsBatch. rewrite Hr.
  assert (UntilErr (Ok <$> refs) = (refs, Ok ())) as -> by (clear; induction refs as [|f refs IH]; [done|]; cbn; by rewrite IH).
  rewrite app_nil_r, Results_Permutation. cbn [app].
  set (open := λ q, NewObject fsys (Dir (Join [r_dir r; q])) [ObjectMustExist; objectWithRoot r] w).
  assert ((λ ref, NewObject (fr_FS ref) (FullPathDir ref) [ObjectMustExist; objectWithRoot r] w) <$> refs = open <$> (fr_Path <$> refs)) as ->.
  { rewrite <- list_fmap_compose. apply list_fmap_ext. intros _ f Hf%list_elem_of_lookup_2. destruct (Hfrom f Hf) as [E1 E2].
    unfold FullPathDir, FullPath, open. cbn. by rewrite E1, E2. }
  rewrite Hperm. assert (∀ l, l ⊆ map_to_list objs → open <$> omap declaration l = Ok <$> omap found l) as Hl; [|by rewrite Hl].
  induction l as [|e l IH]; [done|]. intros Hsub. cbn. assert (e ∈ map_to_list objs) as He by (apply Hsub; left).
  assert (open <$> omap declaration l = Ok <$> omap found l) as IHl by (apply IH; intros x Hx; apply Hsub; by right).
  destruct (declaration e) as [q|] eqn:Hd.
  - destruct (declared_opens objs w e q Hi (cl_healthy cl) He Hd) as (obj & Hf & Ho). rewrite Hf. cbn. f_equal; [exact Ho|exact IHl].
  - destruct e as [id [obj invs]]. apply elem_of_map_to_list in He.
    destruct (entry_conforming objs w id obj invs Hi He) as (_ & _ & _ & p & Hp & _).
    unfold declaration, found in *. cbn [fst snd] in *. rewrite Hp in Hd. destruct (o_inventory obj); [done|]. exact IHl.
Qed.
End listed.

(** C3. A storage root finds exactly the objects that were made in it: whatever
    objects a program opened by their identifiers and updated, in whatever order,
    with failed updates that were reverted, the iterators of the root yield without
    error one object for each identifier that has a version, with the inventory of
    its last update, in some order.

    The conditions, in [uses] and [can_list]: the layout keeps the objects of
    different identifiers apart ([Separates]); each update is sound
    ([sound_update]); an update of an object that has versions is reverted on a
    backend whose failed writes and removals have no effect ([AtomicWrites]); and
    at the listing the backend works and walks its files, and no content file has
    the name of an object's declaration ([no_declarations]). *)
Theorem Root_Objects objs w fuel numgos : uses objs w → can_list objs w fuel →
  ObjectsBatch fuel r numgos [] w ≡ₚ Ok <$> omap found (map_to_list objs)
  ∧ Objects fuel r [] w ≡ₚ Ok <$> omap found (map_to_list objs).
Proof using laws copies mel fol sep Hlayout Hdir.
  intros Hu%uses_inv cl. split; [by apply listed_objects|]. by apply (listed_objects objs w fuel Hu cl 0).
Qed.

(** C4. Each object of a root can be opened again by its identifier, as it was left
    by its last update, and the root's validation accepts it; an identifier that
    has not been used gives a new object, if the root has a file of its own (it has
    its declaration) and the backend can have an inventory in the directory of the
    identifier, so that it reports that there is none. *)
Theorem Root_NewObject_spec objs w id fuel vopts : uses objs w → ids id → Healthy fsys files w →
  match objs !! id with
  | Some (obj, invs) => ∀ root, o_inventory obj = Some root →
      Root_NewObject r id [] w = Ok (mkObject fsys (o_path obj) (Some root) true (Some r) id)
      ∧ last invs = Some root
      ∧ (can_validate sum files fsys obj w invs fuel vopts →
         ∃ v, Root_ValidateObject fuel r id vopts w = Ok v ∧ v_Err (vd_Validation v) = None
           ∧ o_inventory (vd_obj v) = Some root)
  | None => ∀ p, ResolveID r id = Ok p → id ≠ "" →
      own ≠ [] → nameable fsys (Join [Join [r_dir r; p]; inventoryBase]) →
      Root_NewObject r id [] w = Ok (mkObject fsys (Join [r_dir r; p]) None false (Some r) id)
  end.
Proof using laws copies mel fol sep Hlayout Hdir.
  intros Hi%uses_inv Hid h. destruct (objs !! id) as [[obj invs]|] eqn:He.
  - intros root Hr. destruct (entry_conforming objs w id obj invs Hi He) as (_ & Hf & Eid & p & Hp & Hv & Ek & Hc).
    rewrite Hr in Hc. split_and!.
    + unfold Root_NewObject, Root_NewObjectDir. rewrite Hp. cbn [mbind res_bind]. rewrite <- Ek.
      destruct (conforming_NewObject sum files fsys w (o_path obj) invs root (([] ++ [ObjectWithID id]) ++ [objectWithRoot r]) Hc h)
        as [Hok _]; [done|]. apply Hok. right. cbn. rewrite <- Eid at 1. unfold Object_ID, with_inv. by rewrite Hr.
    + apply (cf_last _ _ _ _ _ Hc).
    + intros Hcv. unfold Root_ValidateObject, Root_ValidateObjectDir. rewrite Hp, <- Ek.
      destruct (proj1 (ri_made _ _ Hi) id obj invs He) as [Hm _].
      destruct (made_valid _ _ _ _ _ _ _ _ laws copies obj w invs fuel vopts Hm) as (_ & v & Hvo & Hve & Hvi); [by rewrite Hr|done|].
      exists v. by rewrite <- Hr.
  - intros p Hp Hne Hown Hname. destruct (resolved id p Hid Hp) as [_ Hv]. unfold Root_NewObject, Root_NewObjectDir. rewrite Hp. cbn [mbind res_bind].
    destruct (NewObject_absent fsys files w h (Join [r_dir r; p]) (([] ++ [ObjectWithID id]) ++ [objectWithRoot r])) as [Hok _];
      [by apply valid_name_Join|by apply (unused objs w id)..|done|].
    apply Hok; [done|by apply (unused_unblocked objs w id)|done|done].
Qed.
End root.

(** ** A root that was just initialised *)

(** The files that [NewRoot] writes, with their names in the root. *)
Definition init_files (spec : Spec) (exts : list Extension) : list string :=
  Namaste_Name (mkNamaste NamasteTypeRoot spec) :: (if List.find is_Layout exts then [layoutConfigFile] else [])
  ++ (ext_path <$> exts).

Section initialised.
Context `{GoEnv, Hashes, ConfigJSON} (spec : Spec) (exts : list Extension).
Context (exts_ok : Forall builtin_config exts) (spec_ok : ∃ impl, getOCFL spec = Ok impl).

Lemma init_files_elem t : t ∈ init_files spec exts ↔ t = Namaste_Name (mkNamaste NamasteTypeRoot spec)
  ∨ (t = layoutConfigFile ∧ List.find is_Layout exts ≠ None) ∨ ∃ e, e ∈ exts ∧ builtin_config e ∧ t = ext_path e.
Proof.
  unfold init_files. rewrite elem_of_cons, elem_of_app, list_elem_of_fmap. f_equiv. f_equiv.
  - destruct (List.find is_Layout exts); rewrite ?list_elem_of_singleton, ?elem_of_nil; naive_solver.
  - rewrite Forall_forall in exts_ok. naive_solver.
Qed.

(** The names by which the properties below are checked. *)
Lemma init_files_ind (P : string → Prop) :
  (∀ s, s = Spec1_0 ∨ s = Spec1_1 → P (Namaste_Name (mkNamaste NamasteTypeRoot s))) → P layoutConfigFile →
  (∀ n, n ∈ [ext0001; ext0002; ext0003; ext0004; ext0006; ext0007; ext0009] → P ("extensions/" +:+ n +:+ "/config.json")) →
  ∀ t, t ∈ init_files spec exts → P t.
Proof.
  intros Hd Hl He t [->|[[-> _]|(e & _ & Hb%builtin_name & ->)]]%init_files_elem; [|done|by apply He].
  apply Hd. destruct spec_ok as [impl Hi]. apply getOCFL_cases. by rewrite Hi.
Qed.

Lemma init_files_plain : (∀ t, t ∈ init_files spec exts → valid_name t) ∧ not_hex (init_files spec exts)
  ∧ ∀ t, t ∈ init_files spec exts → declares (Base t) = false.
Proof.
  assert (∀ (f : string → bool), forallb f ((λ s, Namaste_Name (mkNamaste NamasteTypeRoot s)) <$> [Spec1_0; Spec1_1]) = true →
    f layoutConfigFile = true → forallb (λ n, f ("extensions/" +:+ n +:+ "/config.json"))
      [ext0001; ext0002; ext0003; ext0004; ext0006; ext0007; ext0009] = true → ∀ t, t ∈ init_files spec exts → f t = true) as Hf.
  { intros f Hd Hl He. apply init_files_ind; [|done|].
    - rewrite forallb_forall in Hd. intros s Hs. apply Hd, list_elem_of_In. destruct Hs as [-> | ->]; set_solver.
    - rewrite forallb_forall in He. intros n Hn%list_elem_of_In. by apply He. }
  split_and!.
  - intros t Ht. apply (Hf (λ t, ValidPath t && negb (bool_decide (t = ".")))) in Ht; [|by vm_compute..].
    apply andb_true_iff in Ht as [Hv Hn%negb_true_iff%bool_decide_eq_false]. done.
  - intros t Ht. apply (Hf (λ t, negb (string_forall is_hex (first_elem t)))) in Ht; [|by vm_compute..]. by apply negb_true_iff.
  - intros t Ht. apply (Hf (λ t, negb (declares (Base t)))) in Ht; [|by vm_compute..]. by apply negb_true_iff.
Qed.

(** None of them is a directory of another. *)
Lemma init_files_tree a b : a ∈ init_files spec exts → (a +:+ "/" +:+ b) ∉ init_files spec exts.
Proof.
  assert (∀ t, t ∈ init_files spec exts → first_elem t = "extensions" ∧ length (split_on slash t) = 3%nat
    ∨ first_elem t ≠ "extensions" ∧ length (split_on slash t) = 1%nat) as Hshape.
  { apply init_files_ind.
    - intros s [-> | ->]; right; by vm_compute.
    - right. by vm_compute.
    - intros n Hn. left. repeat (apply elem_of_cons in Hn as [-> |Hn]; [by vm_compute|]). by apply elem_of_nil in Hn. }
  intros Ha%Hshape Hb%Hshape. rewrite first_elem_app, split_on_slash, length_app in Hb.
  assert (0 < length (split_on slash b))%nat; [|naive_solver lia].
  destruct (split_on slash b) eqn:E; [|cbn; lia]. by apply split_on_nonnil in E.
Qed.

Context {W : Type} (files : W → gmap string string) (dir : string) (Hdir : ValidPath dir = true) (desc : string).

(** [NewRoot] leaves exactly these files in an empty directory, so that a program
    can start to use the root. *)
Lemma initialised_lists w w' : mem_children (files w) dir = ∅ → initialised files dir spec desc exts w w' →
  lists (files w') dir (init_files spec exts).
Proof.
  intros Hempty Hi. destruct init_files_plain as (Hv & _). split; [done|done| | |by intros a b; apply init_files_tree].
  - intros t [->|[[-> Hl]|(e & He & _ & ->)]]%init_files_elem.
    + pose proof (in_decl _ _ _ _ _ _ _ Hi) as Hd. unfold decl_path in Hd. by rewrite Hd.
    + pose proof (in_layout _ _ _ _ _ _ _ Hi) as Hd. destruct (List.find is_Layout exts); [|done].
      destruct Hd as (x & _ & Hx). unfold layout_path in Hx. by rewrite Hx.
    + destruct (in_exts _ _ _ _ _ _ _ Hi e He) as (x & _ & Hx). unfold conf in Hx. by rewrite Hx.
  - intros p t Hp Ht. apply init_files_elem. pose proof (Hv (Namaste_Name (mkNamaste NamasteTypeRoot spec))
      ltac:(apply init_files_elem; by left)) as Hdp%valid_name_plain.
    destruct (written files dir spec desc exts w w' Hempty Hi p Hp) as [->|[->|[(e & -> & He)%list_elem_of_fmap|Hc]]].
    + left. unfold decl_path in Ht. rewrite rel_Join in Ht by done. by injection Ht.
    + right; left. unfold layout_path in Ht. rewrite rel_Join in Ht by (done || apply layout_plain). split; [by injection Ht|].
      intros Hnone. pose proof (in_layout _ _ _ _ _ _ _ Hi) as Hd. rewrite Hnone in Hd. rewrite Hd in Hp.
      unfold layout_path in Hp. rewrite (absent_in_dir files dir Hdir w Hempty) in Hp by apply layout_plain. by destruct Hp.
    + right; right. exists e. rewrite Forall_forall in exts_ok. split; [done|]. split; [by apply exts_ok|].
      unfold conf in Ht. rewrite rel_Join in Ht; [by injection Ht|done|]. apply builtin_path. by apply exts_ok.
    + rewrite child_of_rel, Ht in Hc. cbn in Hc. by destruct (Cut t "/") as [[? ?] ?].
Qed.
End initialised.

(** ** Two objects in a root *)

#[local] Existing Instances ref_env ref_urls ref_multierror ref_multierror_laws ref_fold_laws ref_hashes ref_codec mem_fs sq_decoders.
#[local] Existing Instances ref_config ref_config_laws ref_layout ref_layout_laws.

(** A root that [NewRoot] makes, with the layout 0003; an object is opened and
    updated, then a second one. *)
Definition rt_new := NewRoot () "store" [InitRoot Spec1_1 "test" [Ext0001; Ext0003]] sq_storage.
Definition rt_root : Root () := match rt_new.2 with Ok r => r | _ => mkRoot () "store" "" None None None end.
Definition rt_id1 : string := "http://example.org/1".
Definition rt_id2 : string := "http://example.org/2".
Definition rt_opened (id : string) (w : gmap string string) : Object () :=
  match Root_NewObject rt_root id [] w with Ok obj => obj | _ => mkObject () "" None false None "" end.
Definition rt_obj1 : Object () := rt_opened rt_id1 rt_new.1.
Definition rt_upd1 := sq_update rt_obj1 sq_stage1 rt_new.1.
Definition rt_obj2 : Object () := rt_opened rt_id2 rt_upd1.1.
Definition rt_upd2 := sq_update rt_obj2 sq_stage1 rt_upd1.1.
Definition rt_objects : gmap string (Object () * list StoredInventory) :=
  <[rt_id2 := (rt_upd2.2.1.1, [up_newInv (sq_plan rt_upd2)])]> (<[rt_id2 := (rt_obj2, [])]>
    (<[rt_id1 := (rt_upd1.2.1.1, [up_newInv (sq_plan rt_upd1)])]> (<[rt_id1 := (rt_obj1, [])]> ∅))).
Definition rt_ids (id : string) : Prop := id = rt_id1 ∨ id = rt_id2.
Definition rt_own : list string := init_files Spec1_1 [Ext0001; Ext0003].

Notation rt_uses := (uses ex_now id sq_marshal ex_text sq_sum mem_ops (λ m, m) rt_root rt_own rt_ids).

Lemma rt_lists : lists rt_new.1 "store" rt_own.
Proof.
  destruct rt_new as [w' res] eqn:Hnew. assert (∃ r, res = Ok r) as [r ->].
  { assert (is_ok res = true) as Hok by (change res with (w', res).2; rewrite <- Hnew; by vm_compute).
    destruct res; [by eexists|done..]. }
  assert (Forall builtin_config [Ext0001; Ext0003]) as Hb by (repeat constructor; by left).
  assert (NoDup (Name <$> [Ext0001; Ext0003])) as Hnd by (apply (bool_decide_unpack _); vm_compute; reflexivity).
  assert (mem_children sq_storage "store" = ∅) as Hempty by (vm_compute; reflexivity).
  pose proof (NewRoot_init_ok () mem_ops (λ m, m) mem_write_laws "store" eq_refl Spec1_1 "test" [Ext0001; Ext0003] sq_storage w' r
    Hb Hnd ltac:(vm_compute; reflexivity) Hempty (mem_healthy sq_storage) Hnew) as (_ & Hs & Hi).
  apply (initialised_lists Spec1_1 [Ext0001; Ext0003] Hb Hs (λ m, m) "store" eq_refl "test" sq_storage w' Hempty Hi).
Qed.

Lemma rt_layout : r_layout rt_root = Some Ext0003.
Proof. vm_compute. reflexivity. Qed.

Lemma rt_own_plain : (∀ t, t ∈ rt_own → valid_name t) ∧ not_hex rt_own ∧ ∀ t, t ∈ rt_own → declares (Base t) = false.
Proof. apply init_files_plain; [repeat constructor; by left|by eexists]. Qed.

Lemma rt_separates : Separates Ext0003 rt_own rt_ids.
Proof.
  apply HashIDTuple_separates; [|cbn; lia|by intros id id' _ _].
  apply rt_own_plain.
Qed.

Lemma rt_opened_eq id w : is_ok (Root_NewObject rt_root id [] w) = true → Root_NewObject rt_root id [] w = Ok (rt_opened id w).
Proof. unfold rt_opened. by destruct (Root_NewObject _ _ _ _). Qed.

Lemma rt_sound obj w u : u = sq_update obj sq_stage1 w → sound_b obj w (sq_plan u) = true →
  sq_raw (si_bytes (up_newInv (sq_plan u))) = inl (si_Inventory (up_newInv (sq_plan u))) →
  sound_update ex_now ex_text sq_sum (λ m, m) obj sq_stage1 [] w (sq_plan u) sq_content.
Proof. intros -> Hs Hr. apply sq_sound; [done|done|]. intros d [x [<- _]%lookup_singleton_Some]. by left. Qed.

Lemma rt_used : rt_uses rt_objects rt_upd2.1.
Proof.
  apply (uses_step _ _ _ _ _ _ _ _ _ _ (<[rt_id2 := (rt_obj2, [])]> (<[rt_id1 := (rt_upd1.2.1.1, [up_newInv (sq_plan rt_upd1)])]>
    (<[rt_id1 := (rt_obj1, [])]> ∅))) rt_upd1.1).
  2:{ apply (step_update _ _ _ _ _ _ _ _ _ _ rt_id2 rt_obj2 [] sq_stage1 "msg" ex_user [] _ _ _ sq_content);
        [apply lookup_insert_eq|apply sq_update_eq; by vm_compute|apply rt_sound; [done|by vm_compute..]|by vm_compute]. }
  apply (uses_open _ _ _ _ _ _ _ _ _ _ _ _ rt_id2 []); [|by right|by vm_compute|apply mem_healthy|done|].
  2:{ apply rt_opened_eq. by vm_compute. }
  apply (uses_step _ _ _ _ _ _ _ _ _ _ (<[rt_id1 := (rt_obj1, [])]> ∅) rt_new.1).
  2:{ apply (step_update _ _ _ _ _ _ _ _ _ _ rt_id1 rt_obj1 [] sq_stage1 "msg" ex_user [] _ _ _ sq_content);
        [apply lookup_insert_eq|apply sq_update_eq; by vm_compute|apply rt_sound; [done|by vm_compute..]|by vm_compute]. }
  apply (uses_open _ _ _ _ _ _ _ _ _ _ _ _ rt_id1 []); [|by left|by vm_compute|apply mem_healthy|done|].
  2:{ apply rt_opened_eq. by vm_compute. }
  apply uses_start. exact rt_lists.
Qed.

Lemma rt_walks : walks () (λ m : gmap string string, m) rt_upd2.1 200.
Proof. apply fileWalk_walks; [apply mem_healthy|apply mem_plain_entries|done]. Qed.

Lemma rt_can_list : can_list (λ m, m) rt_root rt_own rt_objects rt_upd2.1 200.
Proof.
  split; [apply mem_healthy|apply rt_walks|done| |].
  - assert (bool_decide (Forall (λ t, (String.length t < 200)%nat) (root_files rt_root rt_own rt_objects)) = true) as Hf
      by (vm_compute; reflexivity).
    apply bool_decide_eq_true in Hf. by rewrite Forall_forall in Hf.
  - split; [apply rt_own_plain|].
    assert (forallb (λ e : string * (Object () * list StoredInventory), match o_inventory e.2.1 with
      | Some root => forallb (λ p, negb (declares (Base p))) (all_paths (manifest (si_Inventory root))) | None => true end)
      (map_to_list rt_objects) = true) as Hf by (vm_compute; reflexivity).
    rewrite forallb_forall in Hf. intros id obj invs root p Hk%elem_of_map_to_list%list_elem_of_In Hi Hp.
    specialize (Hf _ Hk). cbn [fst snd] in Hf. rewrite Hi, forallb_forall in Hf.
    apply negb_true_iff. by apply Hf, list_elem_of_In.
Qed.

Lemma Root_Objects_witness : ∃ objs, Objects 200 rt_root [] rt_upd2.1 ≡ₚ Ok <$> objs
  ∧ (λ o, inv_ID ∘ si_Inventory <$> o_inventory o) <$> objs ≡ₚ [Some rt_id1; Some rt_id2].
Proof.
  exists (omap (found rt_root) (map_to_list rt_objects)). split; [|vm_compute; reflexivity].
  apply (Root_Objects ex_now id sq_marshal ex_text sq_sum mem_ops (λ m, m) rt_root Ext0003 rt_own rt_ids (sep:=rt_separates)
    rt_layout eq_refl mem_write_laws mem_copy_laws rt_objects rt_upd2.1 200 0 rt_used rt_can_list).
Defined.

Lemma Root_NewObject_spec_witness :
  Root_NewObject rt_root rt_id1 [] rt_upd2.1
    = Ok (mkObject () (o_path rt_obj1) (Some (up_newInv (sq_plan rt_upd1))) true (Some rt_root) rt_id1)
  ∧ ∃ v, Root_ValidateObject 200 rt_root rt_id1 [] rt_upd2.1 = Ok v ∧ v_Err (vd_Validation v) = None
      ∧ o_inventory (vd_obj v) = Some (up_newInv (sq_plan rt_upd1)).
Proof.
  pose proof (Root_NewObject_spec ex_now id sq_marshal ex_text sq_sum mem_ops (λ m, m) rt_root Ext0003 rt_own rt_ids (sep:=rt_separates)
    rt_layout eq_refl mem_write_laws mem_copy_laws rt_objects rt_upd2.1 rt_id1 200 [] rt_used (or_introl eq_refl) (mem_healthy _)) as H.
  assert (rt_objects !! rt_id1 = Some (rt_upd1.2.1.1, [up_newInv (sq_plan rt_upd1)])) as Hk
    by (unfold rt_objects; rewrite !lookup_insert_ne by done; apply lookup_insert_eq).
  assert (o_inventory rt_upd1.2.1.1 = Some (up_newInv (sq_plan rt_upd1))) as Hi by (vm_compute; reflexivity).
  assert (o_path rt_upd1.2.1.1 = o_path rt_obj1) as Hp by (vm_compute; reflexivity).
  rewrite Hk in H. destruct (H _ Hi) as (Ho & _ & Hv). rewrite Hp in Ho. split; [exact Ho|]. apply Hv. split.
  - apply mem_healthy.
  - apply mem_plain_entries.
  - apply rt_walks.
  - apply mem_nameable_dir.
  - constructor.
  - by apply register_ok.
  - apply sq_registry.
  - intros root t. rewrite Hi. intros Hr. apply (inj Some) in Hr as <-. revert t. apply Forall_forall.
    apply (bool_decide_unpack _). vm_compute. exact I.
Defined.

(** A content file that has the name of a declaration is taken for the declaration
    of an object: [Objects] yields an error besides the object. *)
Lemma content_declared :
  let u := sq_update rt_obj1 (sq_stage {["ab" := ["a/0=ocfl_object_1.1"]]}) rt_new.1 in
  is_ok u.2.2 = true
  ∧ (match ObjectDeclarations 200 rt_root u.1 with
     | [Ok f; Ok g] => bool_decide (fr_Path f = "687/474/703/http%3a%2f%2fexample%2eorg%2f1/0=ocfl_object_1.1")
         && bool_decide (fr_Path g = "687/474/703/http%3a%2f%2fexample%2eorg%2f1/v1/content/a/0=ocfl_object_1.1")
     | _ => false end) = true
  ∧ is_ok <$> Objects 200 rt_root [] u.1 = [true; false].
Proof. vm_compute. split_and!; reflexivity. Qed.
